(** * Memory Scramble board (Lab3/src/board.ts): a shallow embedding

    The development follows [board.ts] function by function.

    - JavaScript strings are sequences of code units; here a string is a
      Rocq [string], i.e. the code units are restricted to 0..255.
    - JavaScript numbers that the code uses as sizes and coordinates are
      integers [Z] (exact below 2^53).
    - The [Board] object is a record; its methods are computations in a
      state-and-exception monad over that record: an exception leaves the
      mutations done so far in place, as in JavaScript.
    - [PlayerState] objects are mutable and shared by reference between the
      [playerStates] map and the local variable [state] of a suspended
      [flip]; they live in an explicit store ([heap]) and are named by
      locations.
    - An [async] method runs synchronously up to its next [await]; a call is
      therefore cut into segments.  A segment either completes (returns or
      throws) or suspends, leaving a continuation behind. *)

From stdpp Require Import gmap strings list fin_maps pretty.
From Stdlib Require Import ZArith Ascii.

Open Scope Z_scope.

(** ** JavaScript string primitives used by the code *)

Module JS.

(** Code units below 256 that [String.prototype.trim] and [parseInt] treat as
    white space or line terminators: TAB, LF, VT, FF, CR, SP, NBSP. *)
Definition isWhiteSpace (c : ascii) : bool :=
  let n := N_of_ascii c in
  ((n =? 9) || (n =? 10) || (n =? 11) || (n =? 12) || (n =? 13)
   || (n =? 32) || (n =? 160))%N.

Fixpoint trimStart (s : string) : string :=
  match s with
  | EmptyString => EmptyString
  | String c s' => if isWhiteSpace c then trimStart s' else s
  end.

Definition trimEnd (s : string) : string :=
  String.rev (trimStart (String.rev s)).

Definition trim (s : string) : string := trimEnd (trimStart s).

Definition LF : ascii := ascii_of_N 10.

(** The one-character string "\n". *)
Definition nl : string := String LF EmptyString.

(** [s.split(sep)] for a one-character separator: never the empty array. *)
Fixpoint split (sep : ascii) (s : string) : list string :=
  match s with
  | EmptyString => [EmptyString]
  | String c s' =>
      if Ascii.eqb c sep then EmptyString :: split sep s'
      else match split sep s' with
           | h :: t => String c h :: t
           | [] => [String c EmptyString]
           end
  end.

(** [lines.join(sep)]. *)
Definition join (sep : string) (l : list string) : string :=
  String.concat sep l.

Definition digitVal (c : ascii) : option Z :=
  let n := N_of_ascii c in
  if ((48 <=? n) && (n <=? 57))%N then Some (Z.of_N n - 48) else None.

(** Value of the longest prefix of decimal digits; [None] when it is empty. *)
Fixpoint digits (s : string) (acc : option Z) : option Z :=
  match s with
  | EmptyString => acc
  | String c s' =>
      match digitVal c with
      | Some d => digits s' (Some (10 * default 0 acc + d))
      | None => acc
      end
  end.

(** [Number.parseInt(s, 10)]; [None] is NaN.  The code's result is a
    double and this one an integer: they are the same number as long as it
    is a safe integer (see [MAX_SAFE_INTEGER] below). *)
Definition parseInt (s : string) : option Z :=
  let s1 := trimStart s in
  let '(neg, s2) :=
    match s1 with
    | String "-" r => (true, r)
    | String "+" r => (false, r)
    | _ => (false, s1)
    end in
  match digits s2 None with
  | None => None
  | Some n => Some (if neg then - n else n)
  end.

(** Template-literal rendering of an integer: [`${n}`].  Every digit is
    printed, as the code does for the safe integers. *)
Definition ofNumber (n : Z) : string := pretty n.

(** [Number.MAX_SAFE_INTEGER], 2^53 - 1.  The numbers of the code are
    doubles.  Up to this size [parseInt], sums and products are exact and a
    template literal prints all the digits, so that the integers used here
    are the numbers of the code; beyond it the code rounds.  What is stated
    about numbers read from a file is stated for this range. *)
Definition MAX_SAFE_INTEGER : Z := 9007199254740991.

End JS.

(** ** Data model *)

(** [type CardCell = { card; faceUp; controller? }] *)
Record CardCell := mkCell {
  card : string;
  faceUp : bool;
  controller : option string
}.

(** A coordinate object [{ row, col }]. *)
Record Pos := mkPos { row : Z; col : Z }.

(** The value of [state.secondCard] when it is defined: either the shared
    sentinel object [Board.noneCard], recognised by reference identity
    ([state.secondCard === Board.noneCard]), or a fresh object
    [{ row, col: column }]. *)
Inductive SecondRef :=
  | NoneCardRef
  | SecondAt (p : Pos).

(** [private static readonly noneCard = { row: -19527, col: -19527 }] *)
Definition noneCard : Pos := mkPos (-19527) (-19527).

(** The fields read through a [secondCard] reference. *)
Definition secondPos (s : SecondRef) : Pos :=
  match s with
  | NoneCardRef => noneCard
  | SecondAt p => p
  end.

(** [type PlayerState = { firstCard?; secondCard?; hasMatch }] *)
Record PlayerState := mkState {
  firstCard : option Pos;
  secondCard : option SecondRef;
  hasMatch : bool
}.

(** The object literal [{ hasMatch: false }]. *)
Definition freshState : PlayerState := mkState None None false.

(** Locations of [PlayerState] objects in the store. *)
Abbreviation loc := nat (only parsing).

(** Where a suspended [flip] resumes. In each case the continuation holds
    the call's [playerId], [row], [column] and the reference [state]. *)
Inductive FlipPoint :=
  | AtWhile      (* after [await this.watch(playerId)] in the [while] loop *)
  | AtRetry      (* after an [await] of the [for(;;)] loop, outside [try] *)
  | AtClaimed.   (* after the [await] inside [try]: the claim is still held *)

Inductive Kont :=
  | KWatch                                              (* a caller of [watch] *)
  | KFlip (pt : FlipPoint) (playerId : string) (r c : Z) (state : loc).

(** An entry of [listeners]: the closure [() => resolve(this.look(playerId))]
    together with what awaits the promise it resolves. *)
Record Listener := mkListener {
  viewer : string;
  kont : Kont
}.

(** The fields of [class Board], the store of [PlayerState] objects, and the
    queue [jobs] of resolved promises whose continuation has not run yet
    (each with the snapshot it was resolved with). *)
Record Board := mkBoard {
  height : Z;
  width : Z;
  board : list (list CardCell);
  heap : list PlayerState;
  playerStates : gmap string loc;
  listeners : list Listener;
  claimLocks : gmap string string;
  jobs : list (Listener * string)
}.

Definition set_board (g : list (list CardCell)) (b : Board) : Board :=
  mkBoard (height b) (width b) g (heap b) (playerStates b) (listeners b)
          (claimLocks b) (jobs b).
Definition set_heap (h : list PlayerState) (b : Board) : Board :=
  mkBoard (height b) (width b) (board b) h (playerStates b) (listeners b)
          (claimLocks b) (jobs b).
Definition set_playerStates (m : gmap string loc) (b : Board) : Board :=
  mkBoard (height b) (width b) (board b) (heap b) m (listeners b)
          (claimLocks b) (jobs b).
Definition set_listeners (l : list Listener) (b : Board) : Board :=
  mkBoard (height b) (width b) (board b) (heap b) (playerStates b) l
          (claimLocks b) (jobs b).
Definition set_claimLocks (m : gmap string string) (b : Board) : Board :=
  mkBoard (height b) (width b) (board b) (heap b) (playerStates b)
          (listeners b) m (jobs b).
Definition set_jobs (j : list (Listener * string)) (b : Board) : Board :=
  mkBoard (height b) (width b) (board b) (heap b) (playerStates b)
          (listeners b) (claimLocks b) j.

(** ** Exceptions and the method monad *)

Inductive Exn :=
  | Error (msg : string)            (* [throw new Error(msg)] *)
  | AssertionError (msg : string).  (* a failed [assert(cond, msg)] *)

Inductive Res (A : Type) :=
  | Ret (a : A)
  | Throw (e : Exn).
Arguments Ret {A} a.
Arguments Throw {A} e.

Definition M (A : Type) : Type := Board -> Res A * Board.

Definition ret {A} (a : A) : M A := fun b => (Ret a, b).
Definition throw {A} (e : Exn) : M A := fun b => (Throw e, b).
Definition bind {A B} (m : M A) (k : A -> M B) : M B :=
  fun b => match m b with
           | (Ret a, b1) => k a b1
           | (Throw e, b1) => (Throw e, b1)
           end.
Definition get : M Board := fun b => (Ret b, b).
Definition modify (f : Board -> Board) : M unit := fun b => (Ret tt, f b).

Notation "x <- m ;; k" := (bind m (fun x => k))
  (at level 100, m at next level, right associativity).
Notation "m ;;; k" := (bind m (fun _ => k))
  (at level 100, right associativity).

(** [try { m } finally { fin }] when [m] runs to completion. *)
Definition finally {A} (m : M A) (fin : M unit) : M A :=
  fun b => match m b with
           | (Ret a, b1) => match fin b1 with
                            | (Ret _, b2) => (Ret a, b2)
                            | (Throw e, b2) => (Throw e, b2)
                            end
           | (Throw e, b1) => match fin b1 with
                              | (Ret _, b2) => (Throw e, b2)
                              | (Throw e', b2) => (Throw e', b2)
                              end
           end.

(** Sequential [for (const x of l) body(x)]. *)
Fixpoint forEach {A} (l : list A) (body : A -> M unit) : M unit :=
  match l with
  | [] => ret tt
  | x :: l' => body x ;;; forEach l' body
  end.

(** ** Cells of the grid *)

(** [this.board[r]?.[c]] for integers [r], [c]. *)
Definition cellAt (g : list (list CardCell)) (r c : Z) : option CardCell :=
  if (r <? 0) || (c <? 0) then None
  else g !! Z.to_nat r ≫= fun cells => cells !! Z.to_nat c.

(** A field assignment [cell.x = v] on the cell object at [(r, c)]. *)
Definition updCell (f : CardCell -> CardCell) (r c : Z)
    (g : list (list CardCell)) : list (list CardCell) :=
  if (r <? 0) || (c <? 0) then g
  else alter (alter f (Z.to_nat c)) (Z.to_nat r) g.

Definition setCard (v : string) (x : CardCell) : CardCell :=
  mkCell v (faceUp x) (controller x).
Definition setFaceUp (v : bool) (x : CardCell) : CardCell :=
  mkCell (card x) v (controller x).
Definition setController (v : option string) (x : CardCell) : CardCell :=
  mkCell (card x) (faceUp x) v.

(** The cell object removed from play: all three fields cleared. *)
Definition removeCell (x : CardCell) : CardCell :=
  setController None (setFaceUp false (setCard EmptyString x)).

Definition writeCell (f : CardCell -> CardCell) (r c : Z) : M unit :=
  modify (fun b => set_board (updCell f r c (board b)) b).

(** ** [checkRepFunctions] *)

Definition isEmpty (s : string) : bool := (String.length s =? 0)%nat.

(** The assertions on one cell, in order; the message of the first failure. *)
Definition checkCell (x : CardCell) : option string :=
  if isEmpty (card x) && faceUp x then
    Some "removed card must be face down"%string
  else if isEmpty (card x) && bool_decide (controller x <> None) then
    Some "removed card must have no controller"%string
  else if bool_decide (controller x <> None) && negb (faceUp x) then
    Some "cards with controller must be face up"%string
  else None.

Fixpoint firstSome {A B} (f : A -> option B) (l : list A) : option B :=
  match l with
  | [] => None
  | x :: l' => match f x with Some y => Some y | None => firstSome f l' end
  end.

Definition checkRow (w : Z) (cells : list CardCell) : option string :=
  if negb (Z.of_nat (length cells) =? w) then
    Some "all rows must have width length"%string
  else firstSome checkCell cells.

Definition repFailure (b : Board) : option string :=
  if negb (0 <? height b) then Some "height must be positive"%string
  else if negb (0 <? width b) then Some "width must be positive"%string
  else if negb (Z.of_nat (length (board b)) =? height b) then
    Some "board height must match height field"%string
  else firstSome (checkRow (width b)) (board b).

Definition checkRepFunctions : M unit :=
  fun b => match repFailure b with
           | Some msg => (Throw (AssertionError msg), b)
           | None => (Ret tt, b)
           end.

(** ** [look] *)

(** One line of the snapshot: the body of the inner loop of [look]. *)
Definition renderCell (playerId : string) (x : CardCell) : string :=
  let status := "down"%string in
  let text := EmptyString in
  let '(status, text) :=
    if isEmpty (card x) then ("none"%string, text)
    else if bool_decide (controller x = Some playerId) && faceUp x
         then ("my"%string, card x)
         else ("up"%string, card x) in
  JS.trim (status +:+ " " +:+ text).

Definition lookLines (b : Board) (playerId : string) : list string :=
  (JS.ofNumber (height b) +:+ "x" +:+ JS.ofNumber (width b))
    :: concat (map (map (renderCell playerId)) (board b)).

(** The string [look] computes before it checks the representation. *)
Definition snapshot (b : Board) (playerId : string) : string :=
  JS.join JS.nl (lookLines b playerId).

Definition look (playerId : string) : M string :=
  b <- get ;;
  let out := snapshot b playerId in
  checkRepFunctions ;;;
  ret out.

(** ** The store of [PlayerState] objects *)

(** Allocation of a new object. *)
Definition alloc (st : PlayerState) : M loc :=
  fun b => (Ret (List.length (heap b)), set_heap (heap b ++ [st]) b).

(** Reading through a reference. References come from [alloc] and objects
    are never freed, so the default is never used on a reference the code
    can hold. *)
Definition objAt (b : Board) (l : loc) : PlayerState :=
  default freshState (heap b !! l).

Definition deref (l : loc) : M PlayerState := fun b => (Ret (objAt b l), b).

(** A field assignment [state.x = v] on the object at [l]. *)
Definition writeState (f : PlayerState -> PlayerState) (l : loc) : M unit :=
  modify (fun b => set_heap (alter f l (heap b)) b).

Definition setFirst (v : option Pos) (s : PlayerState) : PlayerState :=
  mkState v (secondCard s) (hasMatch s).
Definition setSecond (v : option SecondRef) (s : PlayerState) : PlayerState :=
  mkState (firstCard s) v (hasMatch s).
Definition setHasMatch (v : bool) (s : PlayerState) : PlayerState :=
  mkState (firstCard s) (secondCard s) v.

(** [this.playerStates.set(playerId, state)] *)
Definition installState (playerId : string) (l : loc) : M unit :=
  modify (fun b => set_playerStates (<[playerId := l]> (playerStates b)) b).

(** [this.playerStates.set(playerId, { hasMatch: false })] *)
Definition resetState (playerId : string) : M unit :=
  l <- alloc freshState ;; installState playerId l.

(** The state object the map currently holds for a player. *)
Definition stateOf (b : Board) (playerId : string) : option PlayerState :=
  playerStates b !! playerId ≫= fun l => heap b !! l.

(** ** [notifyAll], [watch] *)

(** Each drained listener is called as [fn(this.look(""))]; the listener
    resolves its promise with [this.look(viewer)], which queues the
    continuation. *)
Definition notifyAll : M unit :=
  b <- get ;;
  let ls := listeners b in
  modify (set_listeners []) ;;;
  forEach ls (fun l =>
    _ <- look EmptyString ;;
    s <- look (viewer l) ;;
    modify (fun b => set_jobs (jobs b ++ [(l, s)]) b)).

(** [watch(playerId)] up to the point where it hands back the pending
    promise; [k] is what awaits that promise. *)
Definition watch (playerId : string) (k : Kont) : M unit :=
  modify (fun b => set_listeners (listeners b ++ [mkListener playerId k]) b) ;;;
  checkRepFunctions.

(** ** Claims *)

Definition cellKey (r c : Z) : string :=
  JS.ofNumber r +:+ "," +:+ JS.ofNumber c.

Definition tryClaimCell (r c : Z) (owner : string) : M bool :=
  b <- get ;;
  let k := cellKey r c in
  match claimLocks b !! k with
  | Some _ => ret false
  | None =>
      modify (fun b => set_claimLocks (<[k := owner]> (claimLocks b)) b) ;;;
      ret true
  end.

Definition releaseClaim (r c : Z) (owner : string) : M unit :=
  b <- get ;;
  let k := cellKey r c in
  if bool_decide (claimLocks b !! k = Some owner)
  then modify (fun b => set_claimLocks (delete k (claimLocks b)) b)
  else ret tt.

(** ** [cleanupPreviousMove] *)

(** [pState.firstCard?.row === row && pState.firstCard?.col === col ||
     pState.secondCard?.row === row && pState.secondCard?.col === col] *)
Definition refersTo (st : PlayerState) (r c : Z) : bool :=
  match firstCard st with
  | Some p => (row p =? r) && (col p =? c)
  | None => false
  end
  || match secondCard st with
     | Some s => (row (secondPos s) =? r) && (col (secondPos s) =? c)
     | None => false
     end.

(** The local closure [isCardInPlayerStates]: a scan of the entries of
    [playerStates] that skips [playerId]. *)
Definition isCardInPlayerStates (b : Board) (playerId : string) (r c : Z)
    : bool :=
  existsb (fun e => negb (String.eqb (fst e) playerId)
                    && refersTo (objAt b (snd e)) r c)
          (map_to_list (playerStates b)).

(** [if (x) { ... }] for [x = this.board[p.row]?.[p.col]]. *)
Definition whenCell (p : Pos) (act : CardCell -> M unit) : M unit :=
  b <- get ;;
  match cellAt (board b) (row p) (col p) with
  | Some x => act x
  | None => ret tt
  end.

(** Rule 3-B for one recorded card. *)
Definition turnDown (playerId : string) (p : Pos) : M unit :=
  whenCell p (fun x =>
    if faceUp x && bool_decide (controller x = None) then
      b <- get ;;
      if negb (isCardInPlayerStates b playerId (row p) (col p))
      then writeCell (setFaceUp false) (row p) (col p)
      else ret tt
    else ret tt).

Definition cleanupPreviousMove (playerId : string) : M unit :=
  b <- get ;;
  match playerStates b !! playerId with
  | None => ret tt
  | Some l =>
      let state := objAt b l in
      match firstCard state, secondCard state with
      | Some f, Some s =>
          if hasMatch state then
            whenCell f (fun _ => writeCell removeCell (row f) (col f)) ;;;
            whenCell (secondPos s) (fun _ =>
              writeCell removeCell (row (secondPos s)) (col (secondPos s))) ;;;
            resetState playerId
          else
            turnDown playerId f ;;;
            match s with
            | NoneCardRef => resetState playerId ;;; notifyAll
            | SecondAt p => turnDown playerId p ;;; resetState playerId
            end
      | _, _ => ret tt
      end
  end.

(** ** [flip] *)

(** What a segment of an [async] method hands back when it does not throw. *)
Inductive Outcome :=
  | Returned (s : string)   (* the promise is fulfilled with [s] *)
  | Suspended.              (* the method waits at an [await] *)

(** [typeof cell.controller === 'string' && cell.controller !== playerId] *)
Definition controlledByOther (x : CardCell) (playerId : string) : bool :=
  match controller x with
  | Some q => negb (String.eqb q playerId)
  | None => false
  end.

(** A read through the reference [cell] taken at the start of [flip]. The
    arrays are never resized, so the reference stays valid and the default is
    never used. *)
Definition readCell (r c : Z) : M CardCell :=
  fun b => (Ret (default (mkCell EmptyString false None) (cellAt (board b) r c)), b).

(** [await this.watch(playerId)] inside [flip], up to the suspension. *)
Definition suspendAt (pt : FlipPoint) (playerId : string) (r c : Z)
    (state : loc) : M Outcome :=
  watch playerId (KFlip pt playerId r c state) ;;;
  ret Suspended.

(** Rules 1-B and 1-C, up to the [return]. *)
Definition takeFirst (playerId : string) (r c : Z) (state : loc) : M Outcome :=
  writeCell (setFaceUp true) r c ;;;
  writeCell (setController (Some playerId)) r c ;;;
  writeState (setFirst (Some (mkPos r c))) state ;;;
  installState playerId state ;;;
  notifyAll ;;;
  out <- look playerId ;;
  checkRepFunctions ;;;
  ret (Returned out).

(** The body of the [try] block. *)
Definition claimedSection (playerId : string) (r c : Z) (state : loc)
    : M Outcome :=
  x <- readCell r c ;;
  if isEmpty (card x) then throw (Error "card was removed while waiting")
  else if controlledByOther x playerId
       then suspendAt AtClaimed playerId r c state
       else takeFirst playerId r c state.

(** [try { m } finally { fin }] around a segment: while the segment is
    suspended inside [try], [finally] has not run. *)
Definition tryFinally (m : M Outcome) (fin : M unit) : M Outcome :=
  fun b => match m b with
           | (Ret Suspended, b1) => (Ret Suspended, b1)
           | _ => finally m fin b
           end.

(** One round of the [for (;;)] loop. *)
Definition forBody (playerId : string) (r c : Z) (state : loc) : M Outcome :=
  x <- readCell r c ;;
  if isEmpty (card x) then throw (Error "card was removed while waiting")
  else if controlledByOther x playerId
       then suspendAt AtRetry playerId r c state
       else
         ok <- tryClaimCell r c playerId ;;
         if ok : bool
         then tryFinally (claimedSection playerId r c state)
                         (releaseClaim r c playerId)
         else suspendAt AtRetry playerId r c state.

(** The test of the [while] loop of rule 1-D. *)
Definition whileLoop (playerId : string) (r c : Z) (state : loc) : M Outcome :=
  x <- readCell r c ;;
  if faceUp x && controlledByOther x playerId
  then suspendAt AtWhile playerId r c state
  else forBody playerId r c state.

(** The continuation of a suspended [flip]. *)
Definition resumeFlip (pt : FlipPoint) (playerId : string) (r c : Z)
    (state : loc) : M Outcome :=
  match pt with
  | AtWhile =>
      x <- readCell r c ;;
      if isEmpty (card x) then throw (Error "card was removed while waiting")
      else whileLoop playerId r c state
  | AtRetry => forBody playerId r c state
  | AtClaimed => releaseClaim r c playerId ;;; forBody playerId r c state
  end.

(** Lines 371-381 and 445-451: give up the first card. *)
Definition releaseFirst (state : loc) : M unit :=
  st <- deref state ;;
  match firstCard st with
  | Some f =>
      whenCell f (fun _ =>
        writeCell (setController None) (row f) (col f) ;;;
        writeState (setSecond (Some NoneCardRef)) state ;;;
        notifyAll)
  | None => ret tt
  end.

(** The second-card part of [flip]; [f] is [state.firstCard]. *)
Definition secondFlip (playerId : string) (r c : Z) (state : loc) (f : Pos)
    : M Outcome :=
  x <- readCell r c ;;
  if faceUp x && bool_decide (controller x <> None) then
    releaseFirst state ;;;
    throw (Error "card is controlled by another player")
  else
    writeCell (setFaceUp true) r c ;;;
    b <- get ;;
    match cellAt (board b) (row f) (col f) with
    | None =>
        writeState (setFirst None) state ;;;
        throw (Error "first card no longer exists")
    | Some fc =>
        x <- readCell r c ;;
        (if String.eqb (card x) (card fc) then
           writeCell (setController (Some playerId)) r c ;;;
           writeState (setHasMatch true) state ;;;
           writeCell (setController (Some playerId)) (row f) (col f) ;;;
           writeState (setSecond (Some (SecondAt (mkPos r c)))) state
         else
           writeCell (setController None) r c ;;;
           writeCell (setController None) (row f) (col f) ;;;
           writeState (setSecond (Some (SecondAt (mkPos r c)))) state ;;;
           writeState (setHasMatch false) state) ;;;
        installState playerId state ;;;
        notifyAll ;;;
        out <- look playerId ;;
        checkRepFunctions ;;;
        ret (Returned out)
    end.

(** [state = this.playerStates.get(playerId) ?? { hasMatch: false };
     this.playerStates.set(playerId, state)] *)
Definition currentState (playerId : string) : M loc :=
  b <- get ;;
  l <- match playerStates b !! playerId with
       | Some l => ret l
       | None => alloc freshState
       end ;;
  installState playerId l ;;;
  ret l.

(** The first segment of [flip(playerId, row, column)]. *)
Definition flip (playerId : string) (r c : Z) : M Outcome :=
  b <- get ;;
  match playerStates b !! playerId with
  | Some _ => ret tt
  | None => resetState playerId
  end ;;;
  b <- get ;;
  if (r <? 0) || (r >=? height b) || (c <? 0) || (c >=? width b)
  then throw (Error "invalid card position")
  else
    cleanupPreviousMove playerId ;;;
    state <- currentState playerId ;;
    b <- get ;;
    let cell := cellAt (board b) r c in
    if bool_decide (cell = None) || isEmpty (card (default (mkCell EmptyString false None) cell))
    then
      releaseFirst state ;;;
      throw (Error "invalid card position")
    else
      st <- deref state ;;
      match firstCard st with
      | None => whileLoop playerId r c state
      | Some f => secondFlip playerId r c state f
      end.

(** ** [map] *)

(** The cells in the order of the nested [for ... of] loops. Rows and the
    grid are never resized, so the iterators visit exactly these. *)
Fixpoint cellsOfRow (i j : Z) (cells : list CardCell) : list Pos :=
  match cells with
  | [] => []
  | _ :: cells' => mkPos i j :: cellsOfRow i (j + 1) cells'
  end.

Fixpoint positionsFrom (i : Z) (g : list (list CardCell)) : list Pos :=
  match g with
  | [] => []
  | cells :: g' => cellsOfRow i 0 cells ++ positionsFrom (i + 1) g'
  end.

Definition positions (g : list (list CardCell)) : list Pos :=
  positionsFrom 0 g.

(** A [map] suspended at [await f(cell.card)]. *)
Record MapTask := mkMapTask {
  m_playerId : string;
  m_f : string -> string;
  m_replacements : gmap string string;
  m_key : string;       (* the first argument of [replacements.set], already evaluated *)
  m_cell : Pos;         (* the cell the inner loop is at *)
  m_rest : list Pos     (* the cells still to visit *)
}.

Inductive MapOut :=
  | MapDone (s : string)
  | MapAwait (t : MapTask).

(** [cell.card = replacements.get(cell.card) ?? cell.card] *)
Definition substitute (replacements : gmap string string) (p : Pos) : M unit :=
  x <- readCell (row p) (col p) ;;
  writeCell (setCard (default (card x) (replacements !! card x))) (row p) (col p).

Fixpoint mapLoop (playerId : string) (f : string -> string)
    (replacements : gmap string string) (ps : list Pos) : M MapOut :=
  match ps with
  | [] =>
      notifyAll ;;;
      out <- look playerId ;;
      checkRepFunctions ;;;
      ret (MapDone out)
  | p :: ps' =>
      x <- readCell (row p) (col p) ;;
      if isEmpty (card x) then mapLoop playerId f replacements ps'
      else
        match replacements !! card x with
        | None => ret (MapAwait (mkMapTask playerId f replacements (card x) p ps'))
        | Some _ =>
            substitute replacements p ;;;
            mapLoop playerId f replacements ps'
        end
  end.

(** The continuation of a suspended [map], once [f]'s promise is fulfilled
    with the value of [f] at the card it was called on. *)
Definition resumeMap (t : MapTask) : M MapOut :=
  let replacements := <[m_key t := m_f t (m_key t)]> (m_replacements t) in
  substitute replacements (m_cell t) ;;;
  mapLoop (m_playerId t) (m_f t) replacements (m_rest t).

(** The first segment of [map(playerId, f)]. *)
Definition map (playerId : string) (f : string -> string) : M MapOut :=
  b <- get ;;
  mapLoop playerId f ∅ (positions (board b)).

(** A [map] that is resumed as soon as it suspends, with no other segment
    in between; [fuel] bounds the number of suspensions. The second
    component lists the cards [f] was called on. *)
Fixpoint runMap (fuel : nat) (calls : list string) (r : Res MapOut * Board)
    : Res MapOut * Board * list string :=
  match r with
  | (Ret (MapAwait t), b) =>
      match fuel with
      | O => (r, calls)
      | S n => runMap n (calls ++ [m_key t]) (resumeMap t b)
      end
  | _ => (r, calls)
  end.

(** ** The constructor and [parseFromFile] *)

(** The assertions of [checkRep] on one cell. *)
Definition checkCell0 (x : CardCell) : option string :=
  if negb (0 <? String.length (card x))%nat then
    Some "card values must be non-empty"%string
  else if bool_decide (controller x <> None) && negb (faceUp x) then
    Some "cards with controller must be face up"%string
  else None.

Definition checkRow0 (w : Z) (cells : list CardCell) : option string :=
  if negb (Z.of_nat (List.length cells) =? w) then
    Some "all rows must have width length"%string
  else firstSome checkCell0 cells.

(** [checkRep]: the message of the first failed assertion. *)
Definition rep0Failure (b : Board) : option string :=
  if negb (0 <? height b) then Some "height must be positive"%string
  else if negb (0 <? width b) then Some "width must be positive"%string
  else if negb (Z.of_nat (List.length (board b)) =? height b) then
    Some "board height must match height field"%string
  else firstSome (checkRow0 (width b)) (board b).

(** [new Board(height, width, cards)] *)
Definition newBoard (h w : Z) (cards : list (list string)) : Res Board :=
  let b := mkBoard h w
             (List.map (List.map (fun c => mkCell c false None)) cards)
             [] ∅ [] ∅ [] in
  match rep0Failure b with
  | Some msg => Throw (AssertionError msg)
  | None => Ret b
  end.

Module Parse.

(** [arr[k]] for an integer [k]. *)
Definition index {A} (l : list A) (k : Z) : option A :=
  if k <? 0 then None else l !! Z.to_nat k.

(** [cardCounts]: a [Map<string, number>], which keeps insertion order. *)
Definition Counts := list (string * Z).

Fixpoint mapGet (k : string) (m : Counts) : option Z :=
  match m with
  | [] => None
  | (k', v) :: m' => if String.eqb k' k then Some v else mapGet k m'
  end.

Fixpoint mapSet (k : string) (v : Z) (m : Counts) : Counts :=
  match m with
  | [] => [(k, v)]
  | (k', v') :: m' =>
      if String.eqb k' k then (k, v) :: m' else (k', v') :: mapSet k v m'
  end.

(** The inner loop [for (let j = 0; j < width; j++)] over the values [js]
    that [j] still takes. *)
Fixpoint innerLoop (allCards : list string) (i w : Z) (js : list Z)
    (rowAcc : list string) (cardCounts : Counts)
    : Res (list string * Counts) :=
  match js with
  | [] => Ret (rowAcc, cardCounts)
  | j :: js' =>
      match index allCards (i * w + j) with
      | Some card =>
          if isEmpty card then
            Throw (Error ("missing card at position " +:+ JS.ofNumber (i * w + j)))
          else
            innerLoop allCards i w js' (rowAcc ++ [card])
              (mapSet card (default 0 (mapGet card cardCounts) + 1) cardCounts)
      | None =>
          Throw (Error ("missing card at position " +:+ JS.ofNumber (i * w + j)))
      end
  end.

(** The outer loop [for (let i = 0; i < height; i++)]. *)
Fixpoint outerLoop (allCards : list string) (w : Z) (ivals : list Z)
    (cards : list (list string)) (cardCounts : Counts)
    : Res (list (list string) * Counts) :=
  match ivals with
  | [] => Ret (cards, cardCounts)
  | i :: ivals' =>
      match innerLoop allCards i w (seqZ 0 w) [] cardCounts with
      | Ret (rowCards, cardCounts') =>
          outerLoop allCards w ivals' (cards ++ [rowCards]) cardCounts'
      | Throw e => Throw e
      end
  end.

(** [content.trim().split('\n')] *)
Definition linesOf (content : string) : list string :=
  JS.split JS.LF (JS.trim content).

(** The non-empty trimmed lines after the first one. *)
Definition allCardsOf (lines : list string) : list string :=
  List.filter (fun line => negb (isEmpty line)) (List.map JS.trim (tail lines)).

Definition expectedMsg (h w actual : Z) : string :=
  "expected " +:+ JS.ofNumber (h * w) +:+ " cards (" +:+ JS.ofNumber h
    +:+ "x" +:+ JS.ofNumber w +:+ "), but got " +:+ JS.ofNumber actual
    +:+ " cards".

Definition oddMsg (card : string) (count : Z) : string :=
  "card " +:+ String (ascii_of_N 34) card +:+ String (ascii_of_N 34) " appears "
    +:+ JS.ofNumber count +:+ " times, which is not a multiple of 2".

(** The body of [parseFromFile] once the dimensions are known. *)
Definition parseCards (lines : list string) (h w : Z) : Res Board :=
  if Z.of_nat (List.length lines) <? h + 1 then
    Throw (Error "insufficient board rows")
  else
    let allCards := allCardsOf lines in
    let totalCards := h * w in
    if negb (Z.rem totalCards 2 =? 0) then
      Throw (Error "total number of cards must be even")
    else if negb (Z.of_nat (List.length allCards) =? totalCards) then
      Throw (Error (expectedMsg h w (Z.of_nat (List.length allCards))))
    else
      match outerLoop allCards w (seqZ 0 h) [] [] with
      | Throw e => Throw e
      | Ret (cards, cardCounts) =>
          match List.find (fun e => negb (Z.rem (snd e) 2 =? 0)) cardCounts with
          | Some (card, count) => Throw (Error (oddMsg card count))
          | None => newBoard h w cards
          end
      end.

(** The first line as the code reads it: the two numbers [parseInt] gives,
    or the error that rejects the line. *)
Definition parseDimensions (firstLine : string) : Res (Z * Z) :=
  match JS.split "x" firstLine with
  | [d0; d1] =>
      if isEmpty (JS.trim d0) || isEmpty (JS.trim d1) then
        Throw (Error "invalid board dimensions format")
      else
        match JS.parseInt (JS.trim d0), JS.parseInt (JS.trim d1) with
        | Some h, Some w =>
            if (h <=? 0) || (w <=? 0)
            then Throw (Error "invalid board dimensions")
            else Ret (h, w)
        | _, _ => Throw (Error "invalid board dimensions")
        end
  | _ => Throw (Error "invalid board dimensions format")
  end.

(** [parseFromFile] on the content [readFile] delivers. *)
Definition parseFromFile (content : string) : Res Board :=
  let lines := linesOf content in
  let firstLine := JS.trim (default EmptyString (head lines)) in
  if isEmpty firstLine then Throw (Error "empty board file")
  else
    match parseDimensions firstLine with
    | Throw e => Throw e
    | Ret (h, w) => parseCards lines h w
    end.

End Parse.

(** The two numbers of the first line, when it has two, ask for a board
    whose number of cards is a safe integer: [parseInt] and
    [height * width] are then exact in the code as they are here. *)
Definition safeDimensions (content : string) : Prop :=
  forall h w,
    Parse.parseDimensions
      (JS.trim (default EmptyString (head (Parse.linesOf content)))) = Ret (h, w) ->
    h * w <= JS.MAX_SAFE_INTEGER.

(** ** The board and the calls in progress *)

(** The board together with the [map] calls waiting for [f]. *)
Record World := mkWorld {
  brd : Board;
  maps : list MapTask
}.

(** What can happen next: a caller starts an operation, the continuation of
    a resolved promise runs, or the promise of some [f] is fulfilled. *)
Inductive Action :=
  | CallLook (playerId : string)
  | CallFlip (playerId : string) (r c : Z)
  | CallMap (playerId : string) (f : string -> string)
  | CallWatch (playerId : string)
  | RunJob (i : nat)
  | ResumeMap (i : nat).

Definition afterMap (r : Res MapOut * Board) (ms : list MapTask) : World :=
  match r with
  | (Ret (MapAwait t), b) => mkWorld b (ms ++ [t])
  | (_, b) => mkWorld b ms
  end.

Definition runKont (k : Kont) : M unit :=
  match k with
  | KWatch => ret tt
  | KFlip pt playerId r c state =>
      resumeFlip pt playerId r c state ;;; ret tt
  end.

(** One segment. *)
Definition exec (a : Action) (w : World) : World :=
  match a with
  | CallLook playerId => mkWorld (snd (look playerId (brd w))) (maps w)
  | CallFlip playerId r c => mkWorld (snd (flip playerId r c (brd w))) (maps w)
  | CallMap playerId f => afterMap (map playerId f (brd w)) (maps w)
  | CallWatch playerId => mkWorld (snd (watch playerId KWatch (brd w))) (maps w)
  | RunJob i =>
      match jobs (brd w) !! i with
      | Some (l, _) =>
          let b := set_jobs (delete i (jobs (brd w))) (brd w) in
          mkWorld (snd (runKont (kont l) b)) (maps w)
      | None => w
      end
  | ResumeMap i =>
      match maps w !! i with
      | Some t => afterMap (resumeMap t (brd w)) (delete i (maps w))
      | None => w
      end
  end.

(** [f] maps cards to cards: a card is a non-empty string. *)
Definition legalMap (f : string -> string) : Prop :=
  forall c, c <> EmptyString -> f c <> EmptyString.

Definition legalAction (a : Action) : Prop :=
  match a with
  | CallMap _ f => legalMap f
  | _ => True
  end.

(** The worlds a program can be in: a board comes out of the constructor
    and then segments run in any order. *)
Inductive reachable : World -> Prop :=
  | reach_new h w cards b :
      newBoard h w cards = Ret b -> reachable (mkWorld b [])
  | reach_exec a w :
      reachable w -> legalAction a -> reachable (exec a w).

(** ** Predicates used in the statements *)

(** What [checkRepFunctions] asserts about one cell. *)
Definition cellInv (x : CardCell) : Prop :=
  (controller x <> None -> faceUp x = true) /\
  (card x = EmptyString -> faceUp x = false /\ controller x = None).

(** What [checkRepFunctions] asserts about the board. *)
Definition boardInv (b : Board) : Prop :=
  0 < height b /\ 0 < width b /\
  Z.of_nat (List.length (board b)) = height b /\
  Forall (fun cells => Z.of_nat (List.length cells) = width b) (board b) /\
  (forall r c x, cellAt (board b) r c = Some x -> cellInv x).

(** Two boards of the same dimensions and the same grid shape. *)
Definition sameShape (b b' : Board) : Prop :=
  height b' = height b /\ width b' = width b /\
  List.map (@List.length CardCell) (board b') =
    List.map (@List.length CardCell) (board b).

(** The listeners are drained and each one's promise is resolved with its
    viewer's snapshot of the board. *)
Definition publish (b : Board) : Board :=
  set_jobs (jobs b ++ List.map (fun l => (l, snapshot b (viewer l))) (listeners b))
           (set_listeners [] b).

(** A segment that has run to completion. *)
Definition completed {A} (r : Res A) (f : A -> bool) : Prop :=
  match r with
  | Ret a => f a = true
  | Throw _ => True
  end.

Definition isReturned (o : Outcome) : bool :=
  match o with Returned _ => true | Suspended => false end.

(** Some player other than [playerId] has [(r, c)] recorded as first or
    second card. *)
Definition heldByOther (b : Board) (playerId : string) (r c : Z) : Prop :=
  exists q st, q <> playerId /\ stateOf b q = Some st /\
    (firstCard st = Some (mkPos r c) \/
     exists s, secondCard st = Some s /\ secondPos s = mkPos r c).

(** The cell at [p] is one rule 3-B turns face down. *)
Definition toTurnDown (b : Board) (playerId : string) (p : Pos) : Prop :=
  exists x, cellAt (board b) (row p) (col p) = Some x /\
    faceUp x = true /\ controller x = None /\
    ~ heldByOther b playerId (row p) (col p).

(** A first card that is still pending stays visible: whoever has recorded
    a first card and no second card finds that card face up, unless it has
    been removed. *)
Definition holdInv (b : Board) : Prop :=
  forall playerId l p x,
    playerStates b !! playerId = Some l ->
    firstCard (objAt b l) = Some p ->
    secondCard (objAt b l) = None ->
    cellAt (board b) (row p) (col p) = Some x ->
    faceUp x = true \/ card x = EmptyString.

(** The memo table of a suspended [map] holds cards only. *)
Definition memoInv (m : gmap string string) : Prop :=
  m !! EmptyString = None /\
  forall k v, m !! k = Some v -> v <> EmptyString.

Definition taskInv (t : MapTask) : Prop :=
  legalMap (m_f t) /\ m_key t <> EmptyString /\ memoInv (m_replacements t).

(** The invariant of the running system. *)
Definition sysInv (w : World) : Prop :=
  boardInv (brd w) /\ holdInv (brd w) /\ claimLocks (brd w) = ∅ /\
  Forall taskInv (maps w).

(** The player has no card in hand: no state yet, or the idle state. *)
Definition isIdle (b : Board) (playerId : string) : Prop :=
  playerStates b !! playerId = None \/ stateOf b playerId = Some freshState.

(** [HoldingFirst(p)] *)
Definition holdingFirst (p : Pos) : PlayerState := mkState (Some p) None false.

(** [HoldingPair(p, s, matched)] *)
Definition holdingPair (p : Pos) (s : SecondRef) (matched : bool) : PlayerState :=
  mkState (Some p) (Some s) matched.

(** The claimed effect of [map] on one cell. *)
Definition relabel (f : string -> string) (x : CardCell) : CardCell :=
  if isEmpty (card x) then x else setCard (f (card x)) x.

(** ** A Hoare logic for methods
    [triple P m Q E]: from a board satisfying [P], [m] ends in a board
    satisfying [Q a] if it returns [a] and [E] if it throws. *)
Definition triple {A} (P : Board -> Prop) (m : M A)
    (Q : A -> Board -> Prop) (E : Board -> Prop) : Prop :=
  forall b, P b ->
    match m b with
    | (Ret a, b') => Q a b'
    | (Throw _, b') => E b'
    end.

(** ** Auxiliary notions for the proofs *)

(** A method that keeps [I] whatever it does. *)
Definition keeps {A} (I : Board -> Prop) (m : M A) : Prop :=
  triple I m (fun _ => I) I.

(** The fields the rules of the game read and write. *)
Definition coreEq (b b' : Board) : Prop :=
  height b' = height b /\ width b' = width b /\ board b' = board b /\
  heap b' = heap b /\ playerStates b' = playerStates b /\
  claimLocks b' = claimLocks b.

(** A predicate that reads the core fields only. *)
Definition coreProp (I : Board -> Prop) : Prop :=
  forall b b', coreEq b b' -> I b -> I b'.

(** A resumed [flip] first runs the pending [finally], if it was suspended
    inside [try], and then leaves the registry alone. *)
Definition releasedAt (pt : FlipPoint) (playerId : string) (r c : Z)
    (m : gmap string string) : gmap string string :=
  match pt with
  | AtClaimed =>
      if bool_decide (m !! cellKey r c = Some playerId)
      then delete (cellKey r c) m else m
  | _ => m
  end.

(** The part of the system invariant that flips and maps have to maintain. *)
Definition cellsInv (b : Board) : Prop :=
  (forall r c x, cellAt (board b) r c = Some x -> cellInv x) /\ holdInv b.

(** The object at [l] could be installed as a player's state. *)
Definition objOK (b : Board) (l : loc) : Prop :=
  forall p x, firstCard (objAt b l) = Some p -> secondCard (objAt b l) = None ->
    cellAt (board b) (row p) (col p) = Some x ->
    faceUp x = true \/ card x = EmptyString.

(** Nobody has [(r, c)] as a pending first card. *)
Definition unheld (b : Board) (r c : Z) : Prop :=
  forall q l p, playerStates b !! q = Some l ->
    firstCard (objAt b l) = Some p -> secondCard (objAt b l) = None ->
    ~ (row p = r /\ col p = c).

(** The player's own state does not hold a pending first card. *)
Definition settled (playerId : string) (b : Board) : Prop :=
  forall l, playerStates b !! playerId = Some l -> secondCard (objAt b l) <> None.

(** After the cleanup the player holds at most a first card. *)
Definition atMostFirst (playerId : string) (b : Board) : Prop :=
  forall l, playerStates b !! playerId = Some l ->
    firstCard (objAt b l) = None \/ secondCard (objAt b l) = None.

(** The board after [cell.x = v] on the cell at [(r, c)]. *)
Definition wr (f : CardCell -> CardCell) (r c : Z) (b : Board) : Board :=
  set_board (updCell f r c (board b)) b.

(** The board after [state.x = v] on the object at [l]. *)
Definition ws (f : PlayerState -> PlayerState) (l : loc) (b : Board) : Board :=
  set_heap (alter f l (heap b)) b.

(** The board after [this.playerStates.set(playerId, state)]. *)
Definition inst (playerId : string) (l : loc) (b : Board) : Board :=
  set_playerStates (<[playerId := l]> (playerStates b)) b.

(** The end of every successful [flip] and of [map]:
    [this.notifyAll(); const out = this.look(playerId);
     this.checkRepFunctions(); return out]. *)
Definition finish (playerId : string) : M string :=
  notifyAll ;;;
  out <- look playerId ;;
  checkRepFunctions ;;;
  ret out.

(** The board after rules 1-B and 1-C. *)
Definition firstTaken (playerId : string) (r c : Z) (st : loc) (b : Board) : Board :=
  inst playerId st
    (ws (setFirst (Some (mkPos r c))) st
      (wr (setController (Some playerId)) r c
        (wr (setFaceUp true) r c b))).

(** The board after rule 2-D. *)
Definition pairMatched (playerId : string) (r c : Z) (st : loc) (f : Pos) (b : Board) : Board :=
  inst playerId st
    (ws (setSecond (Some (SecondAt (mkPos r c)))) st
      (wr (setController (Some playerId)) (row f) (col f)
        (ws (setHasMatch true) st
          (wr (setController (Some playerId)) r c
            (wr (setFaceUp true) r c b))))).

(** The board after rule 2-E. *)
Definition pairMissed (playerId : string) (r c : Z) (st : loc) (f : Pos) (b : Board) : Board :=
  inst playerId st
    (ws (setHasMatch false) st
      (ws (setSecond (Some (SecondAt (mkPos r c)))) st
        (wr (setController None) (row f) (col f)
          (wr (setController None) r c
            (wr (setFaceUp true) r c b))))).

(** The board after the first card is given up (rules 1-A/2-A and 2-B). *)
Definition firstReleased (st : loc) (f : Pos) (b : Board) : Board :=
  ws (setSecond (Some NoneCardRef)) st (wr (setController None) (row f) (col f) b).

(** The cell at [(r, c)], if any, holds a card. *)
Definition nonEmptyAt (b : Board) (r c : Z) : Prop :=
  forall x, cellAt (board b) r c = Some x -> card x <> EmptyString.

(** The cell at [(r, c)], if any, is face up. *)
Definition faceUpAt (b : Board) (r c : Z) : Prop :=
  forall x, cellAt (board b) r c = Some x -> faceUp x = true.

(** The cell at [p], if any, is face up or has been removed. *)
Definition visibleAt (b : Board) (p : Pos) : Prop :=
  forall x, cellAt (board b) (row p) (col p) = Some x ->
    faceUp x = true \/ card x = EmptyString.

(** [b'] is [b] after a publish: the listeners are gone and each one's
    promise is resolved with its viewer's snapshot of the board as it is
    in [b']. *)
Definition published (b b' : Board) : Prop :=
  listeners b' = [] /\
  jobs b' = jobs b ++ List.map (fun l => (l, snapshot b' (viewer l))) (listeners b).

(** The two boards agree on every cell except the listed ones. *)
Definition sameCellsExcept (ps : list Pos) (b b' : Board) : Prop :=
  forall r c, ~ In (mkPos r c) ps ->
    cellAt (board b') r c = cellAt (board b) r c.


Global Instance Pos_eq_dec : EqDecision Pos.
Proof. solve_decision. Defined.

Global Instance SecondRef_eq_dec : EqDecision SecondRef.
Proof. solve_decision. Defined.

(** The test of rule 3-B on the cell at [p], as [turnDown] evaluates it. *)
Definition hidden (b : Board) (playerId : string) (p : Pos) : bool :=
  match cellAt (board b) (row p) (col p) with
  | Some x =>
      faceUp x && bool_decide (controller x = None)
      && negb (isCardInPlayerStates b playerId (row p) (col p))
  | None => false
  end.

(** ** Notions for the statement about [parseFromFile] *)

(** How many times the token [t] occurs in [l]. *)
Fixpoint countOf (t : string) (l : list string) : Z :=
  match l with
  | [] => 0
  | x :: l' => (if String.eqb x t then 1 else 0) + countOf t l'
  end.

(** The first [k] rows of [w] cards each. *)
Fixpoint chunk (w k : nat) (l : list string) : list (list string) :=
  match k with
  | O => []
  | S k' => take w l :: chunk w k' (drop w l)
  end.

(** One update of [cardCounts]. *)
Definition bump (m : Parse.Counts) (card : string) : Parse.Counts :=
  Parse.mapSet card (default 0 (Parse.mapGet card m) + 1) m.

(** The string has no comma in it. *)
Fixpoint noComma (s : string) : Prop :=
  match s with
  | EmptyString => True
  | String c s' => c <> ","%char /\ noComma s'
  end.

(** Every cell satisfies what [checkRepFunctions] asserts about it. *)
Definition cellsOK (b : Board) : Prop :=
  forall r c x, cellAt (board b) r c = Some x -> cellInv x.

(** ** A small game used to exercise the statements *)

Module Example.

(** The board file ["2x2\nA\nB\nB\nA"]. *)
Definition file2x2 : string :=
  "2x2" +:+ JS.nl +:+ "A" +:+ JS.nl +:+ "B" +:+ JS.nl +:+ "B" +:+ JS.nl +:+ "A".

(** A file that announces three rows and has one card. *)
Definition fileShort : string := "3x1" +:+ JS.nl +:+ "A".

Definition cards2x2 : list (list string) :=
  [["A"; "B"]; ["B"; "A"]]%string.

(** The board the constructor makes of [cards2x2]. *)
Definition board2x2 : Board :=
  mkBoard 2 2
    (List.map (List.map (fun c => mkCell c false None)) cards2x2)
    [] ∅ [] ∅ [].

Definition start : World := mkWorld board2x2 [].

(** [p1] has turned the card at (0,0). *)
Definition afterFirst : World := exec (CallFlip "p1" 0 0) start.

(** ... and then the matching card at (1,1). *)
Definition afterMatch : World := exec (CallFlip "p1" 1 1) afterFirst.

(** ... or the card at (0,1), which does not match. *)
Definition afterMiss : World := exec (CallFlip "p1" 0 1) afterFirst.

(** [p1] holds (0,0) and [p2] holds (1,0). *)
Definition twoPlayers : World := exec (CallFlip "p2" 1 0) afterFirst.

(** [p2] has matched and removed the two B cards and [p1] holds (1,1). *)
Definition afterRemoval : World :=
  exec (CallFlip "p1" 1 1)
    (exec (CallFlip "p2" 0 0)
      (exec (CallFlip "p2" 1 0)
        (exec (CallFlip "p2" 0 1) start))).

(** The relabelling used in the example of [map]. *)
Definition mark (c : string) : string := c +:+ "!".

End Example.

(** ** [simulationMain]: how the simulation learns the board's size

    [simulation.ts] looks at the board once and reads the dimensions off the
    first line of the answer, with 4 by 4 as the fallback. *)

Module Simulation.

(** [\d] in a regular expression without the [u] flag: [0-9]. *)
Definition isDigit (c : ascii) : bool :=
  match JS.digitVal c with Some _ => true | None => false end.

(** The longest prefix of digits, and what follows it. *)
Fixpoint spanDigits (s : string) : string * string :=
  match s with
  | EmptyString => (EmptyString, EmptyString)
  | String c s' =>
      if isDigit c then
        let '(d, rest) := spanDigits s' in (String c d, rest)
      else (EmptyString, s)
  end.

(** [firstLine.match(/^(\d+)x(\d+)$/)]: the two groups of a match.  A
    digit is not an "x", so the greedy first group is the only candidate. *)
Definition matchDims (firstLine : string) : option (string * string) :=
  let '(d1, rest) := spanDigits firstLine in
  if isEmpty d1 then None
  else match rest with
       | String "x" rest' =>
           let '(d2, rest'') := spanDigits rest' in
           if isEmpty d2 then None
           else if isEmpty rest'' then Some (d1, d2) else None
       | _ => None
       end.

(** The values of [height] and [width] after the [try] block, given what
    [look(board, 'init')] did. *)
Definition boardDimensions (lookResult : Res string) : Z * Z :=
  let fallback := (4, 4) in
  match lookResult with
  | Throw _ => fallback
  | Ret initialState =>
      let firstLine := default EmptyString (head (JS.split JS.LF initialState)) in
      match matchDims firstLine with
      | Some (m1, m2) =>
          match JS.parseInt m1, JS.parseInt m2 with
          | Some h, Some w => if (0 <? h) && (0 <? w) then (h, w) else fallback
          | _, _ => fallback
          end
      | None => fallback
      end
  end.

End Simulation.

(** The string consists of decimal digits. *)
Fixpoint allDigits (s : string) : Prop :=
  match s with
  | EmptyString => True
  | String c s' => Simulation.isDigit c = true /\ allDigits s'
  end.

(** The value of a string of digits read after [acc]. *)
Fixpoint digitsValue (s : string) (acc : Z) : Z :=
  match s with
  | EmptyString => acc
  | String c s' => digitsValue s' (10 * acc + default 0 (JS.digitVal c))
  end.

(** The character [a] does not occur in the string. *)
Fixpoint lacks (a : ascii) (s : string) : Prop :=
  match s with
  | EmptyString => True
  | String c s' => c <> a /\ lacks a s'
  end.

(** ** How the labels of two boards compare

    [labelsRel R b0 b]: every cell of [b0] is still a cell of [b], and the
    two labels are related by [R]. *)
Definition labelsRel (R : string -> string -> Prop) (b0 b : Board) : Prop :=
  forall r c x, cellAt (board b0) r c = Some x ->
    exists y, cellAt (board b) r c = Some y /\ R (card x) (card y).

(** The label is the same, or the card is gone. *)
Definition keptOrCleared (old new : string) : Prop :=
  new = old \/ new = EmptyString.

(** A card that was gone is still gone. *)
Definition staysEmpty (old new : string) : Prop :=
  old = EmptyString -> new = EmptyString.

(** The segments of [map]. *)
Definition isMapStep (a : Action) : bool :=
  match a with
  | CallMap _ _ | ResumeMap _ => true
  | _ => false
  end.

(** ** More positions of the example game *)

Module Scenes.

(** [p1] holds (0,0) and [p2]'s flip of the same card waits. *)
Definition waiting : World := exec (CallFlip "p2" 0 0) Example.afterFirst.

(** ... and [p1] has then turned (0,1), which does not match: (0,0) is
    free again and [p2]'s promise is resolved. *)
Definition released : World := exec (CallFlip "p1" 0 1) waiting.

(** ... or [p1] has turned (1,1), which matches, and then (0,1): the pair
    is gone when [p2]'s flip resumes. *)
Definition removed : World :=
  exec (CallFlip "p1" 0 1) (exec (CallFlip "p1" 1 1) waiting).

(** The [map] of the example board with [mark], waiting for [mark "A"]. *)
Definition firstTask : MapTask :=
  mkMapTask "p1" Example.mark ∅ "A" (mkPos 0 0) [mkPos 0 1; mkPos 1 0; mkPos 1 1].

(** ... and, once that answer has arrived, waiting for [mark "B"]. *)
Definition secondTask : MapTask :=
  mkMapTask "p1" Example.mark (<["A"%string := "A!"%string]> ∅) "B" (mkPos 0 1)
    [mkPos 1 0; mkPos 1 1].

End Scenes.

(** ** Runs of several segments *)

(** The segments [acts], run one after the other. *)
Definition execAll (acts : list Action) (w : World) : World :=
  fold_left (fun w a => exec a w) acts w.

Module Races.

(** A second function from cards to cards. *)
Definition ask (c : string) : string := c +:+ "?".

(** Two maps of the example board, by [p1] with [mark] and by [p2] with
    [ask]: both are called before any answer has arrived, and then the
    answers arrive in turn, the oldest suspended call first, until both
    calls have returned. *)
Definition twoMaps : list Action :=
  [CallMap "p1" Example.mark; CallMap "p2" ask;
   ResumeMap 0; ResumeMap 0; ResumeMap 0;
   ResumeMap 0; ResumeMap 0; ResumeMap 0].

Definition mixed : World := execAll twoMaps Example.start.

(** ... and the same run before the last answer, which [p2]'s call is
    waiting for. *)
Definition lastAnswer : World := execAll (removelast twoMaps) Example.start.

(** One map of the example board, after the first answer of [mark]. *)
Definition midMap : World :=
  execAll [CallMap "p1" Example.mark; ResumeMap 0] Example.start.

(** A board of two rows, P P R S over M M R S. *)
Definition cards2x4 : list (list string) :=
  [["P"; "P"; "R"; "S"]; ["M"; "M"; "R"; "S"]]%string.

Definition board2x4 : Board :=
  mkBoard 2 4
    (List.map (List.map (fun c => mkCell c false None)) cards2x4)
    [] ∅ [] ∅ [].

(** Fourteen flips by the players W1, W2, Q and W.  After each call the
    promises it has resolved are resumed, the oldest first, before the next
    call is made.  Two of Q's flips wait, at (0,0) and at (0,1), each with
    the state object Q had when it was called. *)
Definition staleFlips : list Action :=
  [CallFlip "W1" 0 0; CallFlip "W2" 0 1; CallFlip "Q" 0 0;
   CallFlip "Q" 0 2; RunJob 0;
   CallFlip "Q" 0 3; RunJob 0;
   CallFlip "Q" 0 1;
   CallFlip "Q" 1 0; RunJob 0; RunJob 0;
   CallFlip "Q" 1 1; RunJob 0; RunJob 0;
   CallFlip "W1" 1 0; RunJob 0; RunJob 0;
   CallFlip "Q" 1 1; RunJob 0;
   CallFlip "Q" 1 2; RunJob 0;
   CallFlip "W" 1 1; RunJob 0;
   CallFlip "W2" 0 0; RunJob 0;
   CallFlip "Q" 0 2]%string.

Definition staleHand : World := execAll staleFlips (mkWorld board2x4 []).

(** ... and the same run before Q's last flip. *)
Definition staleState : World :=
  execAll (removelast staleFlips) (mkWorld board2x4 []).

End Races.

(** ** The second test inside [try]

    One round of the [for (;;)] loop as it would be without lines 413-421,
    the tests repeated after the claim has been acquired. *)
Definition forBodyDirect (playerId : string) (r c : Z) (state : loc) : M Outcome :=
  x <- readCell r c ;;
  if isEmpty (card x) then throw (Error "card was removed while waiting")
  else if controlledByOther x playerId
       then suspendAt AtRetry playerId r c state
       else
         ok <- tryClaimCell r c playerId ;;
         if ok : bool
         then finally (takeFirst playerId r c state) (releaseClaim r c playerId)
         else suspendAt AtRetry playerId r c state.

(** The continuation is that of a [flip] waiting inside the [try] block,
    with its claim. *)
Definition waitsClaiming (k : Kont) : bool :=
  match k with
  | KFlip AtClaimed _ _ _ _ => true
  | _ => false
  end.

(** No promise, pending or resolved, belongs to a [flip] that waits with a
    claim. *)
Definition noClaimedWait (b : Board) : Prop :=
  Forall (fun l => waitsClaiming (kont l) = false) (listeners b) /\
  Forall (fun j => waitsClaiming (kont (fst j)) = false) (jobs b).

(** * Properties *)

(** ** Cells *)

Lemma cellAt_updCell f r c g r' c' :
  cellAt (updCell f r c g) r' c' =
    if decide (r = r' /\ c = c') then f <$> cellAt g r c else cellAt g r' c'.
Proof.
  unfold cellAt, updCell.
  destruct (r <? 0) eqn:Hr, (c <? 0) eqn:Hc; simpl;
    try (case_decide as H; [destruct H as [<- <-]; rewrite ?Hr, ?Hc; simpl; reflexivity | reflexivity]).
  destruct (r' <? 0) eqn:Hr', (c' <? 0) eqn:Hc'; simpl;
    try (case_decide as H; [destruct H as [<- <-]; congruence | reflexivity]).
  apply Z.ltb_ge in Hr, Hc, Hr', Hc'.
  case_decide as H.
  - destruct H as [<- <-].
    rewrite list_lookup_alter_eq.
    destruct (g !! Z.to_nat r) as [cells|]; simpl; [|reflexivity].
    rewrite list_lookup_alter_eq. reflexivity.
  - destruct (decide (r = r')) as [<-|Hne].
    + rewrite list_lookup_alter_eq.
      destruct (g !! Z.to_nat r) as [cells|]; simpl; [|reflexivity].
      rewrite list_lookup_alter_ne; [reflexivity|]. intros E. apply H. split; [reflexivity|].
      apply Z2Nat.inj; assumption.
    + rewrite list_lookup_alter_ne; [reflexivity|]. intros E. apply Hne.
      apply Z2Nat.inj; assumption.
Qed.

Lemma cellAt_updCell_eq f r c g :
  cellAt (updCell f r c g) r c = f <$> cellAt g r c.
Proof. rewrite cellAt_updCell. case_decide as H; [reflexivity|]. destruct H; split; reflexivity. Qed.

Lemma cellAt_updCell_ne f r c g r' c' :
  (r, c) <> (r', c') -> cellAt (updCell f r c g) r' c' = cellAt g r' c'.
Proof.
  intros H. rewrite cellAt_updCell. case_decide as H'; [|reflexivity].
  destruct H' as [-> ->]. congruence.
Qed.

Lemma updCell_shape f r c (g : list (list CardCell)) :
  List.map (@List.length CardCell) (updCell f r c g) = List.map (@List.length CardCell) g.
Proof.
  unfold updCell. destruct ((r <? 0) || (c <? 0)); [reflexivity|].
  generalize (Z.to_nat r) as i. induction g as [|cells g IH]; intros [|i]; simpl; try reflexivity.
  - f_equal. apply length_alter.
  - f_equal. apply IH.
Qed.

Lemma shape_length (g g' : list (list CardCell)) :
  List.map (@List.length CardCell) g' = List.map (@List.length CardCell) g ->
  List.length g' = List.length g.
Proof. intros H. apply (f_equal (@List.length nat)) in H. rewrite !length_map in H. exact H. Qed.

Lemma shape_rows (g g' : list (list CardCell)) (w : Z) :
  List.map (@List.length CardCell) g' = List.map (@List.length CardCell) g ->
  Forall (fun cells => Z.of_nat (List.length cells) = w) g ->
  Forall (fun cells => Z.of_nat (List.length cells) = w) g'.
Proof.
  revert g. induction g' as [|a g' IH]; intros [|a0 g] H Hf; simpl in H; try discriminate; [constructor|].
  injection H as H1 H2. inversion Hf; subst. constructor; [congruence|]. eapply IH; eauto.
Qed.

(** A cell exists exactly at the coordinates inside the grid. *)
Lemma cellAt_is_Some (b : Board) r c :
  Z.of_nat (List.length (board b)) = height b ->
  Forall (fun cells => Z.of_nat (List.length cells) = width b) (board b) ->
  0 <= r < height b -> 0 <= c < width b ->
  is_Some (cellAt (board b) r c).
Proof.
  intros Hh Hw Hr Hc. unfold cellAt.
  replace (r <? 0) with false by (symmetry; apply Z.ltb_ge; lia).
  replace (c <? 0) with false by (symmetry; apply Z.ltb_ge; lia). simpl.
  destruct (lookup_lt_is_Some_2 (board b) (Z.to_nat r)) as [cells Hcells]; [lia|].
  rewrite Hcells. simpl.
  apply lookup_lt_is_Some_2.
  rewrite Forall_forall in Hw. specialize (Hw cells). 
  assert (Z.of_nat (List.length cells) = width b) by (apply Hw; eapply list_elem_of_lookup_2; eauto).
  lia.
Qed.

(** ** The Hoare logic *)

Lemma triple_ret {A} (a : A) (Q : A -> Board -> Prop) E :
  triple (Q a) (ret a) Q E.
Proof. intros b H. exact H. Qed.

Lemma triple_throw {A} e (Q : A -> Board -> Prop) (E : Board -> Prop) :
  triple E (throw e) Q E.
Proof. intros b H. exact H. Qed.

Lemma triple_bind {A B} (m : M A) (k : A -> M B) P R Q E :
  triple P m R E -> (forall a, triple (R a) (k a) Q E) ->
  triple P (bind m k) Q E.
Proof.
  intros Hm Hk b HP. unfold bind. specialize (Hm b HP).
  destruct (m b) as [[a|e] b1]; [apply Hk, Hm | exact Hm].
Qed.

Lemma triple_conseq {A} (m : M A) (P P' : Board -> Prop) (Q Q' : A -> Board -> Prop)
    (E E' : Board -> Prop) :
  triple P' m Q' E' -> (forall b, P b -> P' b) ->
  (forall a b, Q' a b -> Q a b) -> (forall b, E' b -> E b) ->
  triple P m Q E.
Proof.
  intros H HP HQ HE b Hb. specialize (H b (HP b Hb)).
  destruct (m b) as [[a|e] b1]; auto.
Qed.

Lemma triple_get (P : Board -> Prop) E :
  triple P get (fun a b => a = b /\ P b) E.
Proof. intros b H. simpl. auto. Qed.

Lemma triple_modify f (Q : unit -> Board -> Prop) E :
  triple (fun b => Q tt (f b)) (modify f) Q E.
Proof. intros b H. exact H. Qed.


Lemma keeps_bind {A B} I (m : M A) (k : A -> M B) :
  keeps I m -> (forall a, keeps I (k a)) -> keeps I (bind m k).
Proof. intros Hm Hk. eapply triple_bind; [exact Hm | exact Hk]. Qed.

Lemma keeps_ret {A} I (a : A) : keeps I (ret a).
Proof. intros b H. exact H. Qed.

Lemma keeps_throw {A} I e : keeps I (@throw A e).
Proof. intros b H. exact H. Qed.

Lemma keeps_get I : keeps I get.
Proof. intros b H. exact H. Qed.

Lemma keeps_modify (I : Board -> Prop) f :
  (forall b, I b -> I (f b)) -> keeps I (modify f).
Proof. intros Hf b H. apply Hf, H. Qed.

Lemma keeps_forEach {A} I (l : list A) body :
  (forall x, keeps I (body x)) -> keeps I (forEach l body).
Proof.
  intros Hb. induction l as [|x l IH]; simpl; [apply keeps_ret|].
  apply keeps_bind; [apply Hb | intros _; exact IH].
Qed.

Lemma keeps_finally {A} I (m : M A) fin :
  keeps I m -> keeps I fin -> keeps I (finally m fin).
Proof.
  intros Hm Hf b Hb. unfold finally. specialize (Hm b Hb).
  destruct (m b) as [[a|e] b1]; specialize (Hf b1 Hm);
    destruct (fin b1) as [[[]|e'] b2]; exact Hf.
Qed.

Lemma keeps_tryFinally I m fin :
  keeps I m -> keeps I fin -> keeps I (tryFinally m fin).
Proof.
  intros Hm Hf b Hb. unfold tryFinally.
  pose proof (Hm b Hb) as H1. pose proof (keeps_finally I m fin Hm Hf b Hb) as H2.
  destruct (m b) as [[[s|]|e] b1]; try exact H2. exact H1.
Qed.

(** ** Frame facts: which fields a field update touches *)

Lemma repFailure_ext b b' :
  height b' = height b -> width b' = width b -> board b' = board b ->
  repFailure b' = repFailure b.
Proof. intros H1 H2 H3. unfold repFailure. rewrite H1, H2, H3. reflexivity. Qed.

Lemma snapshot_ext b b' playerId :
  height b' = height b -> width b' = width b -> board b' = board b ->
  snapshot b' playerId = snapshot b playerId.
Proof. intros H1 H2 H3. unfold snapshot, lookLines. rewrite H1, H2, H3. reflexivity. Qed.

(** ** [checkRepFunctions] decides [boardInv] *)

Lemma isEmpty_true s : isEmpty s = true <-> s = EmptyString.
Proof. destruct s; cbn; split; intros H; try reflexivity; discriminate H. Qed.

Lemma isEmpty_false s : isEmpty s = false <-> s <> EmptyString.
Proof.
  destruct s; cbn; split; intros H; try reflexivity; try discriminate.
  contradiction H; reflexivity.
Qed.

Lemma checkCell_None x : checkCell x = None <-> cellInv x.
Proof.
  unfold checkCell, cellInv.
  destruct x as [cd fu ctl]; simpl.
  destruct (isEmpty cd) eqn:He;
    [apply isEmpty_true in He | apply isEmpty_false in He];
    destruct fu, ctl as [q|]; simpl; (split; [intros H | intros [H1 H2]]);
    try discriminate; try reflexivity;
    try (split; intros; congruence);
    try (destruct (H2 He); congruence);
    try (specialize (H1 ltac:(congruence)); congruence).
  split; [intros H'; contradiction H'; reflexivity | intros _; split; reflexivity].
Qed.

Lemma firstSome_None {A B} (f : A -> option B) l :
  firstSome f l = None <-> Forall (fun x => f x = None) l.
Proof.
  induction l as [|x l IH]; simpl; [split; [constructor|reflexivity]|].
  destruct (f x) eqn:Hx.
  - split; [discriminate|]. intros H. inversion H; subst. congruence.
  - rewrite IH. split; [intros; constructor; assumption | intros H; inversion H; assumption].
Qed.

Lemma cells_Forall_cellAt (P : CardCell -> Prop) (g : list (list CardCell)) :
  Forall (Forall P) g <-> (forall r c x, cellAt g r c = Some x -> P x).
Proof.
  split.
  - intros H r c x Hx. unfold cellAt in Hx.
    destruct ((r <? 0) || (c <? 0)); [discriminate|].
    destruct (g !! Z.to_nat r) as [cells|] eqn:Hc; simpl in Hx; [|discriminate].
    rewrite Forall_lookup in H. specialize (H _ _ Hc).
    rewrite Forall_lookup in H. eapply H; eauto.
  - intros H. apply Forall_lookup. intros i cells Hi. apply Forall_lookup. intros j x Hj.
    apply (H (Z.of_nat i) (Z.of_nat j)). unfold cellAt.
    replace (Z.of_nat i <? 0) with false by (symmetry; apply Z.ltb_ge; lia).
    replace (Z.of_nat j <? 0) with false by (symmetry; apply Z.ltb_ge; lia). simpl.
    rewrite !Nat2Z.id, Hi. simpl. exact Hj.
Qed.

Lemma repFailure_None b : repFailure b = None <-> boardInv b.
Proof.
  unfold repFailure, boardInv.
  destruct (0 <? height b) eqn:H1; simpl; [apply Z.ltb_lt in H1 | apply Z.ltb_ge in H1; split; [discriminate | lia]].
  destruct (0 <? width b) eqn:H2; simpl; [apply Z.ltb_lt in H2 | apply Z.ltb_ge in H2; split; [discriminate | lia]].
  destruct (Z.of_nat (List.length (board b)) =? height b) eqn:H3; simpl;
    [apply Z.eqb_eq in H3 | apply Z.eqb_neq in H3; split; [discriminate | tauto]].
  rewrite firstSome_None. rewrite <- cells_Forall_cellAt.
  split.
  - intros H. repeat split; try assumption.
    + eapply Forall_impl; [exact H|]. intros cells Hc. unfold checkRow in Hc.
      destruct (Z.of_nat (List.length cells) =? width b) eqn:E; simpl in Hc; [|discriminate].
      apply Z.eqb_eq in E. exact E.
    + eapply Forall_impl; [exact H|]. intros cells Hc. unfold checkRow in Hc.
      destruct (Z.of_nat (List.length cells) =? width b) eqn:E; simpl in Hc; [|discriminate].
      apply firstSome_None in Hc. eapply Forall_impl; [exact Hc|]. intros x. apply checkCell_None.
  - intros (_ & _ & _ & Hw & Hc).
    apply Forall_forall. intros cells Hin.
    rewrite Forall_forall in Hw. rewrite Forall_forall in Hc.
    unfold checkRow. rewrite (Hw _ Hin), Z.eqb_refl. simpl.
    apply firstSome_None. eapply Forall_impl; [exact (Hc _ Hin)|]. intros x. apply checkCell_None.
Qed.

(** ** Methods that only touch [listeners] and [jobs] *)


Lemma coreEq_refl b : coreEq b b.
Proof. repeat split. Qed.

Lemma coreEq_trans b1 b2 b3 : coreEq b1 b2 -> coreEq b2 b3 -> coreEq b1 b3.
Proof. unfold coreEq. intuition congruence. Qed.


Ltac keeps_step :=
  match goal with
  | |- keeps _ (bind _ _) => apply keeps_bind; [|intros ?]
  | |- keeps _ (ret _) => apply keeps_ret
  | |- keeps _ (throw _) => apply keeps_throw
  | |- keeps _ get => apply keeps_get
  | |- keeps _ (forEach _ _) => apply keeps_forEach; intros ?
  | |- keeps _ (tryFinally _ _) => apply keeps_tryFinally
  | |- keeps _ (if ?c then _ else _) => destruct c
  | |- keeps _ (match ?x with _ => _ end) => destruct x
  end.

Lemma keeps_checkRepFunctions I : keeps I checkRepFunctions.
Proof. intros b H. unfold checkRepFunctions. destruct (repFailure b); exact H. Qed.

Lemma keeps_look I playerId : keeps I (look playerId).
Proof.
  unfold look. repeat keeps_step. apply keeps_checkRepFunctions.
Qed.

Lemma keeps_notifyAll b0 : keeps (coreEq b0) notifyAll.
Proof.
  unfold notifyAll. repeat keeps_step; try apply keeps_look;
    apply keeps_modify; intros b H; exact H.
Qed.

Lemma keeps_watch b0 playerId k : keeps (coreEq b0) (watch playerId k).
Proof.
  unfold watch. repeat keeps_step; [|apply keeps_checkRepFunctions].
  apply keeps_modify; intros b H; exact H.
Qed.

Lemma keeps_core {A} (m : M A) (I : Board -> Prop) :
  (forall b0, keeps (coreEq b0) m) -> coreProp I -> keeps I m.
Proof.
  intros Hm HI b Hb. specialize (Hm b b (coreEq_refl b)).
  destruct (m b) as [[a|e] b']; eapply HI; eauto.
Qed.

(** What [look] does: it leaves the board alone and fails exactly when the
    representation check fails. *)
Lemma look_eq playerId b :
  look playerId b =
    match repFailure b with
    | None => (Ret (snapshot b playerId), b)
    | Some msg => (Throw (AssertionError msg), b)
    end.
Proof.
  unfold look, bind, get, checkRepFunctions, ret. destruct (repFailure b); reflexivity.
Qed.

Lemma forEach_publish (ls : list Listener) b :
  repFailure b = None ->
  forEach ls (fun l =>
    _ <- look EmptyString ;;
    s <- look (viewer l) ;;
    modify (fun b => set_jobs (jobs b ++ [(l, s)]) b)) b =
  (Ret tt, set_jobs (jobs b ++ List.map (fun l => (l, snapshot b (viewer l))) ls) b).
Proof.
  revert b. induction ls as [|l ls IH]; intros b Hb; simpl.
  - unfold ret. rewrite app_nil_r. destruct b; reflexivity.
  - unfold bind at 1. unfold bind at 1. rewrite look_eq, Hb.
    unfold bind at 1. rewrite look_eq, Hb. unfold modify.
    rewrite IH by (rewrite <- Hb; apply repFailure_ext; reflexivity).
    f_equal. simpl. rewrite <- app_assoc. simpl. reflexivity.
Qed.

(** What [notifyAll] does on a board that passes the representation check. *)
Lemma notifyAll_ok b :
  repFailure b = None -> notifyAll b = (Ret tt, publish b).
Proof.
  intros Hb. unfold notifyAll, bind, get, modify.
  rewrite forEach_publish by (rewrite <- Hb; apply repFailure_ext; reflexivity).
  reflexivity.
Qed.

(** ** Dimensions and grid shape never change *)

Lemma sameShape_refl b : sameShape b b.
Proof. repeat split. Qed.

Ltac shape_prim :=
  idtac;
  match goal with
  | H : sameShape _ _ |- _ =>
      destruct H as (?H & ?H & ?H); repeat split; cbn;
      rewrite ?updCell_shape; assumption
  end.

Ltac keeps_with solver :=
  repeat first
    [ keeps_step
    | apply keeps_look
    | apply keeps_checkRepFunctions
    | (intros ? ?; cbn; solver) ].

Section Shape.
Variable b0 : Board.

Lemma shape_notifyAll : keeps (sameShape b0) notifyAll.
Proof. unfold notifyAll. keeps_with shape_prim. Qed.

Lemma shape_watch playerId k : keeps (sameShape b0) (watch playerId k).
Proof. unfold watch. keeps_with shape_prim. Qed.

Lemma shape_resetState playerId : keeps (sameShape b0) (resetState playerId).
Proof. unfold resetState, installState. keeps_with shape_prim. Qed.

Lemma shape_turnDown playerId p : keeps (sameShape b0) (turnDown playerId p).
Proof. unfold turnDown, whenCell, writeCell. keeps_with shape_prim. Qed.

Lemma shape_cleanupPreviousMove playerId : keeps (sameShape b0) (cleanupPreviousMove playerId).
Proof.
  unfold cleanupPreviousMove, whenCell, writeCell.
  repeat first [ keeps_step | apply shape_turnDown | apply shape_resetState
               | apply shape_notifyAll | (intros ? ?; cbn; shape_prim) ].
Qed.

Lemma shape_suspendAt pt playerId r c st : keeps (sameShape b0) (suspendAt pt playerId r c st).
Proof. unfold suspendAt. repeat first [keeps_step | apply shape_watch]. Qed.

Lemma shape_takeFirst playerId r c st : keeps (sameShape b0) (takeFirst playerId r c st).
Proof.
  unfold takeFirst, writeCell, writeState, installState.
  repeat first [ keeps_step | apply shape_notifyAll | apply keeps_look
               | apply keeps_checkRepFunctions | (intros ? ?; cbn; shape_prim) ].
Qed.

Lemma shape_forBody playerId r c st : keeps (sameShape b0) (forBody playerId r c st).
Proof.
  unfold forBody, claimedSection, tryClaimCell, releaseClaim.
  repeat first [ keeps_step | apply shape_suspendAt | apply shape_takeFirst
               | (intros ? ?; cbn; shape_prim) ].
Qed.

Lemma shape_resumeFlip pt playerId r c st : keeps (sameShape b0) (resumeFlip pt playerId r c st).
Proof.
  unfold resumeFlip, whileLoop, releaseClaim.
  repeat first [ keeps_step | apply shape_suspendAt | apply shape_forBody
               | (intros ? ?; cbn; shape_prim) ].
Qed.

Lemma shape_releaseFirst st : keeps (sameShape b0) (releaseFirst st).
Proof.
  unfold releaseFirst, whenCell, writeCell, writeState.
  repeat first [ keeps_step | apply shape_notifyAll | (intros ? ?; cbn; shape_prim) ].
Qed.

Lemma shape_secondFlip playerId r c st f : keeps (sameShape b0) (secondFlip playerId r c st f).
Proof.
  unfold secondFlip, writeCell, writeState, installState.
  repeat first [ keeps_step | apply shape_notifyAll | apply shape_releaseFirst
               | apply keeps_look | apply keeps_checkRepFunctions
               | (intros ? ?; cbn; shape_prim) ].
Qed.

Lemma shape_flip playerId r c : keeps (sameShape b0) (flip playerId r c).
Proof.
  unfold flip, currentState, whileLoop, installState.
  repeat first [ keeps_step | apply shape_resetState | apply shape_cleanupPreviousMove
               | apply shape_releaseFirst | apply shape_secondFlip
               | apply shape_suspendAt | apply shape_forBody
               | (intros ? ?; cbn; shape_prim) ].
Qed.

Lemma shape_substitute m p : keeps (sameShape b0) (substitute m p).
Proof. unfold substitute, writeCell. keeps_with shape_prim. Qed.

Lemma shape_mapLoop playerId f m ps : keeps (sameShape b0) (mapLoop playerId f m ps).
Proof.
  revert m. induction ps as [|p ps IH]; intros m; simpl.
  - repeat first [ keeps_step | apply shape_notifyAll | apply keeps_look
                 | apply keeps_checkRepFunctions ].
  - repeat first [ keeps_step | apply IH | apply shape_substitute
                 | (intros ? ?; cbn; shape_prim) ].
Qed.

Lemma shape_resumeMap t : keeps (sameShape b0) (resumeMap t).
Proof.
  unfold resumeMap. repeat first [ keeps_step | apply shape_substitute | apply shape_mapLoop ].
Qed.

Lemma shape_map playerId f : keeps (sameShape b0) (map playerId f).
Proof. unfold map. repeat first [ keeps_step | apply shape_mapLoop ]. Qed.
End Shape.

(** ** The claim registry *)

Ltac claims_prim := idtac; cbn; assumption.

Lemma takeFirst_not_suspended playerId r c st b :
  fst (takeFirst playerId r c st b) <> Ret Suspended.
Proof.
  unfold takeFirst, bind, ret.
  repeat match goal with
         | |- context [match ?m ?b with _ => _ end] =>
             destruct (m b) as [[?|?] ?]
         end; cbn; congruence.
Qed.

Section Claims.
Variable m : gmap string string.

Lemma claims_notifyAll : keeps (fun b => claimLocks b = m) notifyAll.
Proof. unfold notifyAll. keeps_with claims_prim. Qed.

Lemma claims_watch playerId k : keeps (fun b => claimLocks b = m) (watch playerId k).
Proof. unfold watch. keeps_with claims_prim. Qed.

Lemma claims_resetState playerId : keeps (fun b => claimLocks b = m) (resetState playerId).
Proof. unfold resetState, installState. keeps_with claims_prim. Qed.

Lemma claims_turnDown playerId p : keeps (fun b => claimLocks b = m) (turnDown playerId p).
Proof. unfold turnDown, whenCell, writeCell. keeps_with claims_prim. Qed.

Lemma claims_cleanupPreviousMove playerId :
  keeps (fun b => claimLocks b = m) (cleanupPreviousMove playerId).
Proof.
  unfold cleanupPreviousMove, whenCell, writeCell.
  repeat first [ keeps_step | apply claims_turnDown | apply claims_resetState
               | apply claims_notifyAll | (intros ? ?; claims_prim) ].
Qed.

Lemma claims_suspendAt pt playerId r c st :
  keeps (fun b => claimLocks b = m) (suspendAt pt playerId r c st).
Proof. unfold suspendAt. repeat first [keeps_step | apply claims_watch]. Qed.

Lemma claims_takeFirst playerId r c st :
  keeps (fun b => claimLocks b = m) (takeFirst playerId r c st).
Proof.
  unfold takeFirst, writeCell, writeState, installState.
  repeat first [ keeps_step | apply claims_notifyAll | apply keeps_look
               | apply keeps_checkRepFunctions | (intros ? ?; claims_prim) ].
Qed.

Lemma claims_releaseFirst st : keeps (fun b => claimLocks b = m) (releaseFirst st).
Proof.
  unfold releaseFirst, whenCell, writeCell, writeState.
  repeat first [ keeps_step | apply claims_notifyAll | (intros ? ?; claims_prim) ].
Qed.

Lemma claims_secondFlip playerId r c st f :
  keeps (fun b => claimLocks b = m) (secondFlip playerId r c st f).
Proof.
  unfold secondFlip, writeCell, writeState, installState.
  repeat first [ keeps_step | apply claims_notifyAll | apply claims_releaseFirst
               | apply keeps_look | apply keeps_checkRepFunctions
               | (intros ? ?; claims_prim) ].
Qed.

Lemma claims_substitute mm p : keeps (fun b => claimLocks b = m) (substitute mm p).
Proof. unfold substitute, writeCell. keeps_with claims_prim. Qed.

Lemma claims_mapLoop playerId f mm ps :
  keeps (fun b => claimLocks b = m) (mapLoop playerId f mm ps).
Proof.
  revert mm. induction ps as [|p ps IH]; intros mm; simpl.
  - repeat first [ keeps_step | apply claims_notifyAll | apply keeps_look
                 | apply keeps_checkRepFunctions ].
  - repeat first [ keeps_step | apply IH | apply claims_substitute
                 | (intros ? ?; claims_prim) ].
Qed.

Lemma claims_resumeMap t : keeps (fun b => claimLocks b = m) (resumeMap t).
Proof.
  unfold resumeMap. repeat first [ keeps_step | apply claims_substitute | apply claims_mapLoop ].
Qed.

Lemma claims_map playerId f : keeps (fun b => claimLocks b = m) (map playerId f).
Proof. unfold map. repeat first [ keeps_step | apply claims_mapLoop ]. Qed.
End Claims.

(** The claim-protected section, entered with the claim just taken, leaves
    through [finally]: the claim is gone whichever way the section ends. *)
Lemma claimedSection_releases playerId r c st b :
  claimLocks b !! cellKey r c = Some playerId ->
  let res := tryFinally (claimedSection playerId r c st) (releaseClaim r c playerId) b in
  fst res <> Ret Suspended ->
  claimLocks (snd res) = delete (cellKey r c) (claimLocks b).
Proof.
  intros Hk res Hres. subst res. unfold tryFinally in *.
  assert (Hkeep : keeps (fun b' => claimLocks b' = claimLocks b) (claimedSection playerId r c st)).
  { unfold claimedSection.
    repeat first [ keeps_step | apply claims_suspendAt | apply claims_takeFirst
                 | (intros ? ?; claims_prim) ]. }
  specialize (Hkeep b eq_refl).
  destruct (claimedSection playerId r c st b) as [[[s|]|e] b1] eqn:Hsec;
    try (exfalso; apply Hres; reflexivity);
    unfold finally; rewrite Hsec;
    unfold releaseClaim, bind, get; rewrite Hkeep, Hk;
    rewrite bool_decide_eq_true_2 by reflexivity; cbn; rewrite Hkeep; reflexivity.
Qed.

(** One round of the [for(;;)] loop leaves the registry as it found it, and
    never suspends with the claim held. *)
Lemma claims_forBody m playerId r c st :
  keeps (fun b => claimLocks b = m) (forBody playerId r c st).
Proof.
  intros b Hb. unfold forBody, bind, readCell.
  set (x := default _ _).
  destruct (isEmpty (card x)) eqn:He; [exact Hb|].
  destruct (controlledByOther x playerId) eqn:Hc; [apply claims_suspendAt, Hb|].
  unfold tryClaimCell, bind, get.
  destruct (claimLocks b !! cellKey r c) as [o|] eqn:Hk; cbn.
  - apply (claims_suspendAt m), Hb.
  - set (b1 := set_claimLocks _ b).
    assert (Hsec : claimedSection playerId r c st b1 = takeFirst playerId r c st b1).
    { unfold claimedSection, bind, readCell. cbn. fold x. rewrite He, Hc. reflexivity. }
    pose proof (takeFirst_not_suspended playerId r c st b1) as Hns.
    assert (Hk1 : claimLocks b1 !! cellKey r c = Some playerId).
    { cbn. apply lookup_insert_eq. }
    pose proof (claimedSection_releases playerId r c st b1 Hk1) as Hrel.
    cbn zeta in Hrel.
    assert (Hne : fst (tryFinally (claimedSection playerId r c st) (releaseClaim r c playerId) b1)
                  <> Ret Suspended).
    { unfold tryFinally, finally. rewrite Hsec.
      destruct (takeFirst playerId r c st b1) as [[[s|]|e] b2] eqn:Htf; cbn in Hns;
        try congruence;
        destruct (releaseClaim r c playerId b2) as [[[]|e'] b3]; cbn; congruence. }
    specialize (Hrel Hne).
    destruct (tryFinally _ _ b1) as [[o|e] b2]; cbn in Hrel |- *;
      rewrite Hrel, <- Hb; apply delete_insert_id; exact Hk.
Qed.

Lemma claims_whileLoop m playerId r c st :
  keeps (fun b => claimLocks b = m) (whileLoop playerId r c st).
Proof.
  unfold whileLoop.
  repeat first [ keeps_step | apply claims_suspendAt | apply claims_forBody
               | (intros ? ?; claims_prim) ].
Qed.

Lemma claims_flip m playerId r c :
  keeps (fun b => claimLocks b = m) (flip playerId r c).
Proof.
  unfold flip, currentState, installState.
  repeat first [ keeps_step | apply claims_resetState | apply claims_cleanupPreviousMove
               | apply claims_releaseFirst | apply claims_secondFlip
               | apply claims_whileLoop
               | (intros ? ?; claims_prim) ].
Qed.


Lemma releaseClaim_eq r c owner b :
  releaseClaim r c owner b =
    (Ret tt, set_claimLocks (releasedAt AtClaimed owner r c (claimLocks b)) b).
Proof.
  unfold releaseClaim, releasedAt, bind, get.
  destruct (bool_decide _); cbn; [reflexivity|]. destruct b; reflexivity.
Qed.

Lemma claims_resumeFlip pt playerId r c st b :
  claimLocks (snd (resumeFlip pt playerId r c st b)) =
    releasedAt pt playerId r c (claimLocks b).
Proof.
  destruct pt; cbn [resumeFlip].
  - pose proof (claims_whileLoop (claimLocks b) playerId r c st b eq_refl) as H.
    unfold bind, readCell. destruct (isEmpty _); [reflexivity|].
    destruct (whileLoop playerId r c st b) as [[o|e] b1]; exact H.
  - pose proof (claims_forBody (claimLocks b) playerId r c st b eq_refl) as H.
    destruct (forBody playerId r c st b) as [[o|e] b1]; exact H.
  - unfold bind at 1. rewrite releaseClaim_eq.
    set (b1 := set_claimLocks _ b).
    pose proof (claims_forBody (claimLocks b1) playerId r c st b1 eq_refl) as H.
    destruct (forBody playerId r c st b1) as [[o|e] b2]; exact H.
Qed.

(** ** The cell invariant and the pending-first-card invariant *)



Lemma cellsInv_core : coreProp cellsInv.
Proof.
  intros b b' (_ & _ & Hg & Hh & Hp & _) [H1 H2]. split.
  - intros r c x. rewrite Hg. apply H1.
  - intros q l p x. unfold objAt. rewrite Hg, Hh, Hp. apply H2.
Qed.


Lemma cellsInv_writeCell_gen b f r c :
  cellsInv b ->
  (forall x, cellAt (board b) r c = Some x ->
     cellInv (f x) /\
     ((faceUp x = true \/ card x = EmptyString ->
       faceUp (f x) = true \/ card (f x) = EmptyString) \/ unheld b r c)) ->
  cellsInv (set_board (updCell f r c (board b)) b).
Proof.
  intros [H1 H2] Hf. split.
  - intros r' c' x. cbn. rewrite cellAt_updCell. case_decide as Hd.
    + destruct (cellAt (board b) r c) as [x0|] eqn:Hx; cbn; [|discriminate].
      intros [= <-]. apply Hf. reflexivity.
    + apply H1.
  - intros q l p x Hq Hfst Hsnd. cbn. rewrite cellAt_updCell. case_decide as Hd.
    + destruct Hd as [Hr Hc].
      destruct (cellAt (board b) r c) as [x0|] eqn:Hx; cbn; [|discriminate].
      intros [= <-]. destruct (Hf x0 eq_refl) as [_ [Hv|Hu]].
      * apply Hv. eapply (H2 q l p); eauto. rewrite <- Hr, <- Hc. exact Hx.
      * exfalso. eapply (Hu q l p); eauto.
    + intros Hx. eapply (H2 q l p); eauto.
Qed.

Lemma cellsInv_writeCell b f r c :
  cellsInv b ->
  (forall x, cellAt (board b) r c = Some x ->
     cellInv (f x) /\
     (faceUp x = true \/ card x = EmptyString ->
      faceUp (f x) = true \/ card (f x) = EmptyString)) ->
  cellsInv (set_board (updCell f r c (board b)) b).
Proof.
  intros H Hf. apply cellsInv_writeCell_gen; [exact H|].
  intros x Hx. destruct (Hf x Hx). split; [assumption | left; assumption].
Qed.

Lemma objAt_alter b f l l' :
  objAt (set_heap (alter f l (heap b)) b) l' =
    if decide (l = l' /\ (l < List.length (heap b))%nat) then f (objAt b l) else objAt b l'.
Proof.
  unfold objAt. cbn. case_decide as Hd.
  - destruct Hd as [<- Hlt]. rewrite list_lookup_alter_eq.
    destruct (lookup_lt_is_Some_2 (heap b) l Hlt) as [s Hs].
    rewrite Hs. reflexivity.
  - destruct (decide (l = l')) as [<-|Hne].
    + rewrite list_lookup_alter_eq.
      rewrite (lookup_ge_None_2 (heap b) l) by lia. reflexivity.
    + rewrite list_lookup_alter_ne by exact Hne. reflexivity.
Qed.

Lemma cellsInv_writeState b f l :
  cellsInv b ->
  (forall q p x, playerStates b !! q = Some l ->
     firstCard (f (objAt b l)) = Some p -> secondCard (f (objAt b l)) = None ->
     cellAt (board b) (row p) (col p) = Some x ->
     faceUp x = true \/ card x = EmptyString) ->
  cellsInv (set_heap (alter f l (heap b)) b).
Proof.
  intros [H1 H2] Hf. split; [exact H1|].
  intros q l' p x Hq. rewrite objAt_alter. case_decide as Hd.
  - destruct Hd as [<- _]. intros Hfst Hsnd Hx. eapply Hf; eauto.
  - intros Hfst Hsnd Hx. eapply (H2 q l' p); eauto.
Qed.

Lemma cellsInv_install b playerId l :
  cellsInv b -> objOK b l ->
  cellsInv (set_playerStates (<[playerId := l]> (playerStates b)) b).
Proof.
  intros [H1 H2] Hl. split; [exact H1|].
  intros q l' p x. cbn. rewrite lookup_insert. case_decide as Hd.
  - intros [= <-]. apply Hl.
  - apply H2.
Qed.

Lemma objAt_alloc b l :
  objAt (set_heap (heap b ++ [freshState]) b) l = objAt b l.
Proof.
  unfold objAt. cbn.
  destruct (decide (l < List.length (heap b))%nat) as [Hlt|Hge].
  - rewrite lookup_app_l by exact Hlt. reflexivity.
  - rewrite (lookup_ge_None_2 (heap b) l) by lia.
    destruct (decide (l = List.length (heap b))) as [->|Hne].
    + rewrite list_lookup_middle by reflexivity. reflexivity.
    + rewrite lookup_ge_None_2; [reflexivity|]. rewrite length_app. cbn. lia.
Qed.

Lemma cellsInv_alloc b :
  cellsInv b -> cellsInv (set_heap (heap b ++ [freshState]) b).
Proof.
  intros [H1 H2]. split; [exact H1|].
  intros q l p x Hq. rewrite objAt_alloc. cbn. exact (H2 q l p x Hq).
Qed.

Lemma objAt_fresh b : objAt b (List.length (heap b)) = freshState.
Proof. unfold objAt. rewrite lookup_ge_None_2 by lia. reflexivity. Qed.

Lemma keeps_cells_notifyAll : keeps cellsInv notifyAll.
Proof. apply keeps_core; [apply keeps_notifyAll | apply cellsInv_core]. Qed.

Lemma keeps_cells_watch playerId k : keeps cellsInv (watch playerId k).
Proof. apply keeps_core; [intros; apply keeps_watch | apply cellsInv_core]. Qed.

Lemma keeps_cells_suspendAt pt playerId r c st :
  keeps cellsInv (suspendAt pt playerId r c st).
Proof. unfold suspendAt. repeat first [keeps_step | apply keeps_cells_watch]. Qed.

Lemma keeps_cells_resetState playerId : keeps cellsInv (resetState playerId).
Proof.
  intros b Hb. cbn.
  apply (cellsInv_install (set_heap (heap b ++ [freshState]) b)).
  - apply cellsInv_alloc, Hb.
  - intros p x. rewrite objAt_alloc, objAt_fresh. discriminate.
Qed.

(** Field updates that are always safe. *)
Lemma keeps_cells_release r c :
  keeps cellsInv (writeCell (setController None) r c).
Proof.
  intros b Hb. cbn. apply cellsInv_writeCell; [exact Hb|].
  intros x Hx. destruct Hb as [H1 _]. specialize (H1 _ _ _ Hx).
  destruct H1 as [Ha Hb]. split; [split; cbn; [congruence | intros He; split; [apply Hb, He | reflexivity]]|].
  cbn. tauto.
Qed.

Lemma keeps_cells_remove r c : keeps cellsInv (writeCell removeCell r c).
Proof.
  intros b Hb. cbn. apply cellsInv_writeCell; [exact Hb|].
  intros x Hx. split; [split; cbn; [congruence | auto]|]. cbn. auto.
Qed.

Lemma keeps_cells_setSecond s l :
  keeps cellsInv (writeState (setSecond (Some s)) l).
Proof. intros b Hb. cbn. apply cellsInv_writeState; [exact Hb|]. cbn. discriminate. Qed.

Lemma keeps_cells_clearFirst l :
  keeps cellsInv (writeState (setFirst None) l).
Proof. intros b Hb. cbn. apply cellsInv_writeState; [exact Hb|]. cbn. discriminate. Qed.

Lemma keeps_cells_releaseFirst st : keeps cellsInv (releaseFirst st).
Proof.
  unfold releaseFirst, whenCell.
  repeat first [ keeps_step | apply keeps_cells_release | apply keeps_cells_setSecond
               | apply keeps_cells_notifyAll | (intros ? ?; cbn; assumption) ].
Qed.

(** ** The scan of the other players' states *)

Lemma refersTo_true st r c :
  refersTo st r c = true <->
  (firstCard st = Some (mkPos r c) \/
   exists s, secondCard st = Some s /\ secondPos s = mkPos r c).
Proof.
  unfold refersTo. rewrite orb_true_iff. split.
  - intros [H|H].
    + left. destruct (firstCard st) as [[pr pc]|]; [|discriminate].
      cbn in H. apply andb_true_iff in H. destruct H as [Hr Hc].
      apply Z.eqb_eq in Hr, Hc. congruence.
    + right. destruct (secondCard st) as [s|]; [|discriminate].
      exists s. split; [reflexivity|]. destruct (secondPos s) as [pr pc].
      cbn in H. apply andb_true_iff in H. destruct H as [Hr Hc].
      apply Z.eqb_eq in Hr, Hc. congruence.
  - intros [H|(s & Hs & Hp)].
    + left. rewrite H. cbn. rewrite !Z.eqb_refl. reflexivity.
    + right. rewrite Hs, Hp. cbn. rewrite !Z.eqb_refl. reflexivity.
Qed.

Lemma isCardInPlayerStates_true b playerId r c :
  isCardInPlayerStates b playerId r c = true <-> heldByOther b playerId r c.
Proof.
  unfold isCardInPlayerStates, heldByOther, stateOf. rewrite existsb_exists. split.
  - intros ([q l] & Hin & H). cbn in H. apply andb_true_iff in H. destruct H as [Hq Hr].
    apply list_elem_of_In, elem_of_map_to_list in Hin.
    exists q, (objAt b l). split; [|split].
    + apply negb_true_iff, String.eqb_neq in Hq. exact Hq.
    + rewrite Hin. cbn. unfold objAt in *.
      destruct (heap b !! l) as [st|]; [reflexivity | discriminate Hr].
    + apply refersTo_true, Hr.
  - intros (q & st & Hq & Hst & Hr).
    destruct (playerStates b !! q) as [l|] eqn:Hl; [|discriminate].
    cbn in Hst.
    exists (q, l). split; [apply list_elem_of_In, elem_of_map_to_list, Hl|].
    cbn. apply andb_true_iff. split.
    + apply negb_true_iff, String.eqb_neq, Hq.
    + unfold objAt. rewrite Hst. apply refersTo_true, Hr.
Qed.

Lemma isCardInPlayerStates_false b playerId r c :
  isCardInPlayerStates b playerId r c = false <-> ~ heldByOther b playerId r c.
Proof.
  rewrite <- isCardInPlayerStates_true. destruct (isCardInPlayerStates b playerId r c); split; congruence.
Qed.

(** ** [cleanupPreviousMove] keeps the invariant *)


Lemma turnDown_keeps playerId p :
  triple (fun b => cellsInv b /\ settled playerId b) (turnDown playerId p)
         (fun _ b => cellsInv b /\ settled playerId b)
         (fun b => cellsInv b).
Proof.
  intros b [Hb Hs]. unfold turnDown, whenCell, bind, get.
  destruct (cellAt (board b) (row p) (col p)) as [x|] eqn:Hx; [|split; assumption].
  destruct (faceUp x && bool_decide (controller x = None)) eqn:Hc; [|split; assumption].
  destruct (isCardInPlayerStates b playerId (row p) (col p)) eqn:Hi; [split; assumption|].
  cbn. split; [|exact Hs].
  apply cellsInv_writeCell_gen; [exact Hb|].
  intros x' Hx'. rewrite Hx in Hx'. injection Hx' as <-.
  apply andb_true_iff in Hc. destruct Hc as [Hf Hc]. apply bool_decide_eq_true in Hc.
  destruct Hb as [H1 H2]. specialize (H1 _ _ _ Hx). destruct H1 as [Ha Hbb].
  split.
  - split; cbn; [congruence | intros He; split; [reflexivity | exact Hc]].
  - right. intros q l p' Hq Hfst Hsnd [Hr Hcc].
    destruct (decide (q = playerId)) as [->|Hne].
    + apply (Hs l Hq Hsnd).
    + apply isCardInPlayerStates_false in Hi. apply Hi.
      unfold objAt in Hfst, Hsnd.
      destruct (heap b !! l) as [st|] eqn:Hst; [|discriminate Hfst].
      exists q, st. split; [exact Hne|]. split; [unfold stateOf; rewrite Hq; exact Hst|].
      left. cbn in Hfst. rewrite Hfst. destruct p'; cbn in *; congruence.
Qed.


Lemma atMostFirst_core playerId : coreProp (atMostFirst playerId).
Proof.
  intros b b' (_ & _ & _ & Hh & Hp & _) H l. unfold objAt. rewrite Hh, Hp. apply H.
Qed.

Lemma resetState_eq playerId b :
  resetState playerId b =
    (Ret tt, set_playerStates (<[playerId := List.length (heap b)]> (playerStates b))
               (set_heap (heap b ++ [freshState]) b)).
Proof. reflexivity. Qed.

Lemma objAt_set_playerStates m b l : objAt (set_playerStates m b) l = objAt b l.
Proof. reflexivity. Qed.

Lemma objAt_set_board g b l : objAt (set_board g b) l = objAt b l.
Proof. reflexivity. Qed.

Lemma resetState_atMostFirst playerId b :
  atMostFirst playerId (snd (resetState playerId b)).
Proof.
  intros l Hl. rewrite resetState_eq in *. cbn [snd] in *.
  cbn in Hl. rewrite lookup_insert_eq in Hl. injection Hl as <-.
  left. rewrite objAt_set_playerStates, objAt_alloc, objAt_fresh. reflexivity.
Qed.

Lemma cleanup_keeps playerId :
  triple cellsInv (cleanupPreviousMove playerId)
         (fun _ b => cellsInv b /\ atMostFirst playerId b) cellsInv.
Proof.
  intros b Hb. unfold cleanupPreviousMove. unfold bind at 1. unfold get.
  destruct (playerStates b !! playerId) as [l|] eqn:Hl;
    [|split; [exact Hb | intros l; rewrite Hl; discriminate]].
  destruct (firstCard (objAt b l)) as [f|] eqn:Hf;
    [|split; [exact Hb | intros l'; rewrite Hl; intros [= <-]; left; exact Hf]].
  destruct (secondCard (objAt b l)) as [s|] eqn:Hs;
    [|split; [exact Hb | intros l'; rewrite Hl; intros [= <-]; right; exact Hs]].
  destruct (hasMatch (objAt b l)).
  - assert (Hk : keeps cellsInv
      (whenCell f (fun _ => writeCell removeCell (row f) (col f)) ;;;
       whenCell (secondPos s) (fun _ =>
         writeCell removeCell (row (secondPos s)) (col (secondPos s))))).
    { unfold whenCell. repeat first [keeps_step | apply keeps_cells_remove | (intros ? ?; cbn; assumption)]. }
    unfold bind at 1.
    match goal with |- match (match ?m b with _ => _ end) with _ => _ end =>
      pose proof (fun H => H b Hb : match m b with (Ret _, b') => cellsInv b' | (Throw _, b') => cellsInv b' end) as Hm;
      destruct (m b) as [[[]|e] b1] eqn:Hm1 end.
    + unfold bind at 1.
      match goal with |- match (match ?m b1 with _ => _ end) with _ => _ end =>
        destruct (m b1) as [[[]|e] b2] eqn:Hm2 end.
      * assert (cellsInv b2).
        { specialize (Hk b Hb). unfold bind in Hk. rewrite Hm1, Hm2 in Hk. exact Hk. }
        split; [apply (keeps_cells_resetState playerId b2 H) | apply resetState_atMostFirst].
      * specialize (Hk b Hb). unfold bind in Hk. rewrite Hm1, Hm2 in Hk. exact Hk.
    + specialize (Hk b Hb). unfold bind in Hk. rewrite Hm1 in Hk. exact Hk.
  - assert (Hset : settled playerId b).
    { intros l'. rewrite Hl. intros [= <-]. rewrite Hs. discriminate. }
    unfold bind at 1.
    pose proof (turnDown_keeps playerId f b (conj Hb Hset)) as H1.
    destruct (turnDown playerId f b) as [[[]|e] b1]; [|exact H1].
    destruct s as [|p].
    + unfold bind at 1.
      pose proof (keeps_cells_resetState playerId b1 (proj1 H1)) as H2.
      pose proof (resetState_atMostFirst playerId b1) as H3.
      destruct (resetState playerId b1) as [[[]|e] b2]; [|exact H2].
      pose proof (keeps_cells_notifyAll b2 H2) as H4.
      pose proof (keeps_core notifyAll _ keeps_notifyAll (atMostFirst_core playerId) b2 H3) as H5.
      destruct (notifyAll b2) as [[[]|e] b3]; [split; assumption | exact H4].
    + unfold bind at 1.
      pose proof (turnDown_keeps playerId p b1 H1) as H2.
      destruct (turnDown playerId p b1) as [[[]|e] b2]; [|exact H2].
      split; [apply (keeps_cells_resetState playerId b2 (proj1 H2)) | apply resetState_atMostFirst].
Qed.

(** ** Straight-line blocks as board transformers *)









Lemma finish_keeps I playerId : coreProp I -> keeps I (finish playerId).
Proof.
  intros HI. unfold finish.
  repeat first [ keeps_step | apply keeps_look | apply keeps_checkRepFunctions
               | apply (keeps_core notifyAll I keeps_notifyAll HI) ].
Qed.

Lemma finish_ok playerId b :
  repFailure b = None ->
  finish playerId b = (Ret (snapshot b playerId), publish b).
Proof.
  intros Hb. unfold finish. unfold bind at 1. rewrite notifyAll_ok by exact Hb.
  assert (Hp : repFailure (publish b) = None) by (rewrite <- Hb; apply repFailure_ext; reflexivity).
  unfold bind at 1. rewrite look_eq, Hp.
  unfold bind, checkRepFunctions. rewrite Hp. reflexivity.
Qed.

Lemma finish_bind {A} playerId (k : string -> A) b :
  (notifyAll ;;; out <- look playerId ;; checkRepFunctions ;;; ret (k out)) b =
  (out <- finish playerId ;; ret (k out)) b.
Proof.
  unfold finish, bind.
  destruct (notifyAll b) as [[[]|e] b1]; [|reflexivity].
  destruct (look playerId b1) as [[s|e] b2]; [|reflexivity].
  destruct (checkRepFunctions b2) as [[[]|e] b3]; reflexivity.
Qed.

Lemma takeFirst_eq playerId r c st b :
  takeFirst playerId r c st b =
    (out <- finish playerId ;; ret (Returned out)) (firstTaken playerId r c st b).
Proof. rewrite <- finish_bind. reflexivity. Qed.

Lemma cellInv_faceUp x : cellInv x -> card x <> EmptyString -> cellInv (setFaceUp true x).
Proof. intros [H1 H2] Hc. split; cbn; [reflexivity | intros; contradiction]. Qed.

Lemma cellInv_control q x : cellInv x -> faceUp x = true -> cellInv (setController (Some q) x).
Proof.
  intros [H1 H2] Hf. split; cbn; [intros _; exact Hf|].
  intros He. destruct (H2 He). congruence.
Qed.

Lemma cellInv_release x : cellInv x -> cellInv (setController None x).
Proof.
  intros [H1 H2]. split; cbn; [congruence|]. intros He. split; [apply H2, He | reflexivity].
Qed.

Lemma cellsInv_wr_faceUp b r c :
  cellsInv b -> nonEmptyAt b r c -> cellsInv (wr (setFaceUp true) r c b).
Proof.
  intros Hb Hn. apply cellsInv_writeCell; [exact Hb|]. intros x Hx. split.
  - apply cellInv_faceUp; [eapply (proj1 Hb); eauto | eapply Hn; eauto].
  - intros _. left. reflexivity.
Qed.

Lemma cellsInv_wr_control b q r c :
  cellsInv b -> faceUpAt b r c -> cellsInv (wr (setController (Some q)) r c b).
Proof.
  intros Hb Hn. apply cellsInv_writeCell; [exact Hb|]. intros x Hx. split.
  - apply cellInv_control; [eapply (proj1 Hb); eauto | eapply Hn; eauto].
  - cbn. tauto.
Qed.

Lemma cellsInv_wr_release b r c :
  cellsInv b -> cellsInv (wr (setController None) r c b).
Proof. intros Hb. exact (keeps_cells_release r c b Hb). Qed.

Lemma faceUpAt_wr_faceUp b r c : faceUpAt (wr (setFaceUp true) r c b) r c.
Proof.
  intros x. cbn. rewrite cellAt_updCell_eq.
  destruct (cellAt (board b) r c); cbn; [|discriminate]. intros [= <-]. reflexivity.
Qed.

(** Writing a controller, or a state, does not turn a card over. *)
Lemma faceUpAt_wr_controller b q r c r' c' :
  faceUpAt b r' c' -> faceUpAt (wr (setController q) r c b) r' c'.
Proof.
  intros H x. cbn. rewrite cellAt_updCell. case_decide as Hd.
  - destruct Hd as [-> ->]. destruct (cellAt (board b) r' c') as [x0|] eqn:Hx; cbn; [|discriminate].
    intros [= <-]. cbn. apply (H x0 Hx).
  - apply H.
Qed.

Lemma cellsInv_ws_setFirst b r c st :
  cellsInv b -> faceUpAt b r c -> cellsInv (ws (setFirst (Some (mkPos r c))) st b).
Proof.
  intros Hb Hf. apply cellsInv_writeState; [exact Hb|].
  cbn. intros q p x _ [= <-] _ Hx. left. apply (Hf x Hx).
Qed.

Lemma cellsInv_ws_setSecond b s st :
  cellsInv b -> cellsInv (ws (setSecond (Some s)) st b).
Proof. intros Hb. exact (keeps_cells_setSecond s st b Hb). Qed.

Lemma cellsInv_ws_setHasMatch b v st :
  cellsInv b -> cellsInv (ws (setHasMatch v) st b).
Proof.
  intros Hb. apply cellsInv_writeState; [exact Hb|]. cbn.
  intros q p x Hq Hf Hs Hx. destruct Hb as [_ H2]. eapply (H2 q st p); eauto.
Qed.

Lemma faceUpAt_ws b f l r c : faceUpAt b r c -> faceUpAt (ws f l b) r c.
Proof. intros H. exact H. Qed.

(** The object a state write went to cannot be a pending first card if the
    write set its second card. *)
Lemma objOK_after_setSecond b s st : objOK (ws (setSecond (Some s)) st b) st.
Proof.
  intros p x. unfold ws. rewrite objAt_alter. case_decide as Hd.
  - cbn. discriminate.
  - assert (Hge : (List.length (heap b) <= st)%nat) by (destruct (decide (st < List.length (heap b))%nat); [exfalso; apply Hd; split; [reflexivity | assumption] | lia]).
    unfold objAt. rewrite lookup_ge_None_2 by exact Hge. discriminate.
Qed.

Lemma objOK_ws_hasMatch b v st : objOK b st -> objOK (ws (setHasMatch v) st b) st.
Proof.
  intros H p x. unfold ws. rewrite objAt_alter. case_decide as Hd; apply H.
Qed.

Lemma objOK_after_setFirst b r c st :
  faceUpAt b r c -> objOK (ws (setFirst (Some (mkPos r c))) st b) st.
Proof.
  intros Hf p x. unfold ws. rewrite objAt_alter. case_decide as Hd.
  - cbn. intros [= <-] _ Hx. left. apply (Hf x Hx).
  - assert (Hge : (List.length (heap b) <= st)%nat) by (destruct (decide (st < List.length (heap b))%nat); [exfalso; apply Hd; split; [reflexivity | assumption] | lia]).
    unfold objAt. rewrite lookup_ge_None_2 by exact Hge. discriminate.
Qed.

Lemma cellsInv_firstTaken playerId r c st b :
  cellsInv b -> nonEmptyAt b r c -> cellsInv (firstTaken playerId r c st b).
Proof.
  intros Hb Hn. unfold firstTaken.
  pose proof (cellsInv_wr_faceUp b r c Hb Hn) as H1.
  pose proof (faceUpAt_wr_faceUp b r c) as F1.
  pose proof (cellsInv_wr_control _ playerId r c H1 F1) as H2.
  pose proof (faceUpAt_wr_controller _ (Some playerId) r c r c F1) as F2.
  pose proof (cellsInv_ws_setFirst _ r c st H2 F2) as H3.
  apply cellsInv_install; [exact H3|].
  apply objOK_after_setFirst, F2.
Qed.

Lemma readCell_nonEmpty b r c :
  isEmpty (card (default (mkCell EmptyString false None) (cellAt (board b) r c))) = false ->
  exists x, cellAt (board b) r c = Some x /\ card x <> EmptyString.
Proof.
  destruct (cellAt (board b) r c) as [x|]; cbn; [|discriminate].
  intros H. exists x. split; [reflexivity | apply isEmpty_false, H].
Qed.

Lemma cellsInv_set_claimLocks m b : cellsInv b -> cellsInv (set_claimLocks m b).
Proof. intros H. exact H. Qed.

Lemma keeps_cells_claimedSection playerId r c st :
  keeps cellsInv (claimedSection playerId r c st).
Proof.
  intros b Hb. unfold claimedSection, bind, readCell.
  destruct (isEmpty _) eqn:He; [exact Hb|].
  destruct (controlledByOther _ _); [apply keeps_cells_suspendAt, Hb|].
  rewrite takeFirst_eq.
  destruct (readCell_nonEmpty b r c He) as (x & Hx & Hc).
  assert (Hn : nonEmptyAt b r c) by (intros x'; rewrite Hx; intros [= <-]; exact Hc).
  pose proof (cellsInv_firstTaken playerId r c st b Hb Hn) as H1.
  pose proof (finish_keeps cellsInv playerId cellsInv_core _ H1) as H2.
  unfold bind. destruct (finish playerId _) as [[s|e] b1]; exact H2.
Qed.

Lemma keeps_cells_forBody playerId r c st : keeps cellsInv (forBody playerId r c st).
Proof.
  unfold forBody, tryClaimCell, releaseClaim.
  repeat first [ keeps_step | apply keeps_cells_suspendAt | apply keeps_cells_claimedSection
               | (intros ? ?; cbn; assumption) ].
Qed.

Lemma keeps_cells_whileLoop playerId r c st : keeps cellsInv (whileLoop playerId r c st).
Proof.
  unfold whileLoop.
  repeat first [ keeps_step | apply keeps_cells_suspendAt | apply keeps_cells_forBody
               | (intros ? ?; cbn; assumption) ].
Qed.

Lemma keeps_cells_resumeFlip pt playerId r c st :
  keeps cellsInv (resumeFlip pt playerId r c st).
Proof.
  unfold resumeFlip, releaseClaim.
  repeat first [ keeps_step | apply keeps_cells_whileLoop | apply keeps_cells_forBody
               | (intros ? ?; cbn; assumption) ].
Qed.

(** *** The second card *)


Lemma secondFlip_eq playerId r c st f b :
  secondFlip playerId r c st f b =
    let x := default (mkCell EmptyString false None) (cellAt (board b) r c) in
    if faceUp x && bool_decide (controller x <> None) then
      (releaseFirst st ;;; throw (Error "card is controlled by another player")) b
    else
      let b1 := wr (setFaceUp true) r c b in
      match cellAt (board b1) (row f) (col f) with
      | None => (Throw (Error "first card no longer exists"), ws (setFirst None) st b1)
      | Some fc =>
          let x1 := default (mkCell EmptyString false None) (cellAt (board b1) r c) in
          if String.eqb (card x1) (card fc)
          then (out <- finish playerId ;; ret (Returned out)) (pairMatched playerId r c st f b)
          else (out <- finish playerId ;; ret (Returned out)) (pairMissed playerId r c st f b)
      end.
Proof.
  unfold secondFlip. unfold bind at 1. unfold readCell at 1. cbn zeta.
  destruct (faceUp _ && bool_decide _); [reflexivity|].
  unfold bind at 1. unfold writeCell at 1, modify at 1.
  unfold bind at 1. unfold get at 1.
  fold (wr (setFaceUp true) r c b).
  destruct (cellAt (board (wr (setFaceUp true) r c b)) (row f) (col f)) as [fc|]; [|reflexivity].
  unfold bind at 1. unfold readCell at 1.
  destruct (String.eqb _ _); rewrite <- finish_bind; reflexivity.
Qed.

Lemma cellsInv_pairMissed playerId r c st f b :
  cellsInv b -> nonEmptyAt b r c -> cellsInv (pairMissed playerId r c st f b).
Proof.
  intros Hb Hn. unfold pairMissed.
  pose proof (cellsInv_wr_faceUp b r c Hb Hn) as H1.
  pose proof (cellsInv_wr_release _ r c H1) as H2.
  pose proof (cellsInv_wr_release _ (row f) (col f) H2) as H3.
  pose proof (cellsInv_ws_setSecond _ (SecondAt (mkPos r c)) st H3) as H4.
  pose proof (cellsInv_ws_setHasMatch _ false st H4) as H5.
  apply cellsInv_install; [exact H5|].
  apply objOK_ws_hasMatch, objOK_after_setSecond.
Qed.

Lemma cellsInv_pairMatched playerId r c st f b :
  cellsInv b -> nonEmptyAt b r c ->
  faceUpAt (wr (setFaceUp true) r c b) (row f) (col f) ->
  cellsInv (pairMatched playerId r c st f b).
Proof.
  intros Hb Hn Hf. unfold pairMatched.
  pose proof (cellsInv_wr_faceUp b r c Hb Hn) as H1.
  pose proof (faceUpAt_wr_faceUp b r c) as F1.
  pose proof (cellsInv_wr_control _ playerId r c H1 F1) as H2.
  pose proof (faceUpAt_wr_controller _ (Some playerId) r c _ _ Hf) as F2.
  pose proof (cellsInv_ws_setHasMatch _ true st H2) as H3.
  pose proof (cellsInv_wr_control _ playerId (row f) (col f) H3 F2) as H4.
  pose proof (cellsInv_ws_setSecond _ (SecondAt (mkPos r c)) st H4) as H5.
  apply cellsInv_install; [exact H5|].
  apply objOK_after_setSecond.
Qed.

Lemma secondFlip_keeps playerId r c st f :
  triple (fun b => cellsInv b /\ (exists x, cellAt (board b) r c = Some x /\ card x <> EmptyString)
                   /\ visibleAt b f)
         (secondFlip playerId r c st f) (fun _ => cellsInv) cellsInv.
Proof.
  intros b (Hb & (x & Hx & Hc) & Hv). rewrite secondFlip_eq. cbn zeta.
  assert (Hn : nonEmptyAt b r c) by (intros x'; rewrite Hx; intros [= <-]; exact Hc).
  destruct (faceUp _ && bool_decide _).
  { pose proof (keeps_cells_releaseFirst st b Hb) as H.
    unfold bind. destruct (releaseFirst st b) as [[[]|e] b1]; exact H. }
  pose proof (cellsInv_wr_faceUp b r c Hb Hn) as H1.
  destruct (cellAt (board (wr (setFaceUp true) r c b)) (row f) (col f)) as [fc|] eqn:Hfc.
  2:{ exact (keeps_cells_clearFirst st _ H1). }
  assert (Hx1 : cellAt (board (wr (setFaceUp true) r c b)) r c = Some (setFaceUp true x)).
  { cbn. rewrite cellAt_updCell_eq, Hx. reflexivity. }
  rewrite Hx1. cbn [default].
  destruct (String.eqb _ _) eqn:He.
  - apply String.eqb_eq in He. cbn in He.
    assert (Hf : faceUpAt (wr (setFaceUp true) r c b) (row f) (col f)).
    { intros fc'. rewrite Hfc. intros [= <-].
      revert Hfc. cbn. rewrite cellAt_updCell. case_decide as Hd.
      - rewrite Hx. cbn. intros [= <-]. reflexivity.
      - intros Hfc. destruct (Hv fc Hfc) as [Hu|Hu]; [exact Hu | congruence]. }
    pose proof (cellsInv_pairMatched playerId r c st f b Hb Hn Hf) as H2.
    pose proof (finish_keeps cellsInv playerId cellsInv_core _ H2) as H3.
    unfold bind. destruct (finish playerId _) as [[s|e] b1]; exact H3.
  - pose proof (cellsInv_pairMissed playerId r c st f b Hb Hn) as H2.
    pose proof (finish_keeps cellsInv playerId cellsInv_core _ H2) as H3.
    unfold bind. destruct (finish playerId _) as [[s|e] b1]; exact H3.
Qed.

(** *** The whole first segment of [flip] *)

Lemma currentState_eq playerId b :
  currentState playerId b =
    match playerStates b !! playerId with
    | Some l => (Ret l, inst playerId l b)
    | None => (Ret (List.length (heap b)),
               inst playerId (List.length (heap b)) (set_heap (heap b ++ [freshState]) b))
    end.
Proof.
  unfold currentState, bind, get. destruct (playerStates b !! playerId); reflexivity.
Qed.

Lemma currentState_keeps playerId :
  triple (fun b => cellsInv b /\ atMostFirst playerId b) (currentState playerId)
         (fun l b => cellsInv b /\ atMostFirst playerId b /\
                     playerStates b !! playerId = Some l)
         cellsInv.
Proof.
  intros b [Hb Ha]. rewrite currentState_eq.
  destruct (playerStates b !! playerId) as [l|] eqn:Hl.
  - split; [|split].
    + apply cellsInv_install; [exact Hb|]. intros p x. apply (proj2 Hb playerId l p x Hl).
    + intros l'. cbn. rewrite lookup_insert_eq. intros [= <-]. apply Ha, Hl.
    + cbn. apply lookup_insert_eq.
  - split; [|split].
    + apply (keeps_cells_resetState playerId b Hb).
    + apply (resetState_atMostFirst playerId b).
    + cbn. apply lookup_insert_eq.
Qed.

Lemma keeps_cells_flip playerId r c : keeps cellsInv (flip playerId r c).
Proof.
  unfold flip.
  eapply triple_bind; [apply keeps_get|]. intros b0.
  eapply triple_bind.
  { instantiate (1 := fun _ => cellsInv).
    destruct (playerStates b0 !! playerId); [apply keeps_ret | apply keeps_cells_resetState]. }
  intros ?. eapply triple_bind; [apply keeps_get|]. intros b1.
  destruct ((r <? 0) || (r >=? height b1) || (c <? 0) || (c >=? width b1));
    [apply keeps_throw|].
  eapply triple_bind; [apply cleanup_keeps|]. intros ?.
  eapply triple_bind; [apply currentState_keeps|]. intros st. cbn beta.
  intros b (Hb & Ha & Hst). unfold bind at 1. unfold get.
  destruct (bool_decide (cellAt (board b) r c = None) || isEmpty _) eqn:Hcell.
  { pose proof (keeps_cells_releaseFirst st b Hb) as H.
    unfold bind. destruct (releaseFirst st b) as [[[]|e] b']; exact H. }
  apply orb_false_iff in Hcell. destruct Hcell as [_ Hne].
  destruct (readCell_nonEmpty b r c Hne) as (x & Hx & Hc).
  unfold bind at 1. unfold deref.
  destruct (firstCard (objAt b st)) as [f|] eqn:Hf.
  - apply secondFlip_keeps. split; [exact Hb|]. split; [exists x; split; assumption|].
    intros fx Hfx. destruct (Ha st Hst) as [Hn|Hn]; [congruence|].
    apply (proj2 Hb playerId st f fx Hst Hf Hn Hfx).
  - apply keeps_cells_whileLoop, Hb.
Qed.

(** *** [map] *)

Lemma substitute_keeps m p :
  memoInv m -> keeps cellsInv (substitute m p).
Proof.
  intros [Hm1 Hm2] b Hb. unfold substitute, bind, readCell. cbn.
  apply cellsInv_writeCell; [exact Hb|].
  intros x Hx. rewrite Hx. cbn [default]. unfold id.
  pose proof (proj1 Hb _ _ _ Hx) as [Hi1 Hi2].
  destruct (decide (card x = EmptyString)) as [He|Hne].
  - rewrite He, Hm1. cbn. split.
    + split; cbn; [exact Hi1 | intros _; apply Hi2, He].
    + intros _. right. reflexivity.
  - assert (Hv : default (card x) (m !! card x) <> EmptyString).
    { destruct (m !! card x) as [v|] eqn:Hv; cbn; [eapply Hm2; eauto | exact Hne]. }
    split.
    + split; cbn; [exact Hi1 | intros; contradiction].
    + cbn. intros [Hu|Hu]; [left; exact Hu | contradiction].
Qed.

Lemma mapLoop_keeps playerId f m ps :
  legalMap f -> memoInv m ->
  triple cellsInv (mapLoop playerId f m ps)
    (fun o b => cellsInv b /\ match o with MapAwait t => taskInv t | MapDone _ => True end)
    cellsInv.
Proof.
  intros Hf Hm. induction ps as [|p ps IH]; cbn [mapLoop].
  - intros b Hb.
    pose proof (finish_bind playerId MapDone b) as He. rewrite He.
    pose proof (finish_keeps cellsInv playerId cellsInv_core b Hb) as H.
    unfold bind. destruct (finish playerId b) as [[s|e] b1]; [split; [exact H | exact Logic.I] | exact H].
  - intros b Hb. unfold bind at 1. unfold readCell.
    destruct (isEmpty _) eqn:He; [apply IH, Hb|].
    destruct (m !! card _) as [v|] eqn:Hv.
    + unfold bind at 1.
      pose proof (substitute_keeps m p Hm b Hb) as H.
      destruct (substitute m p b) as [[[]|e] b1]; [apply IH, H | exact H].
    + split; [exact Hb|]. split; [exact Hf|]. split; [|exact Hm].
      cbn. apply isEmpty_false, He.
Qed.

Lemma memoInv_empty : memoInv ∅.
Proof. split; [apply lookup_empty | intros k v; rewrite lookup_empty; discriminate]. Qed.

Lemma memoInv_insert m k v :
  memoInv m -> k <> EmptyString -> v <> EmptyString -> memoInv (<[k := v]> m).
Proof.
  intros [H1 H2] Hk Hv. split.
  - rewrite lookup_insert_ne by exact Hk. exact H1.
  - intros k' v'. rewrite lookup_insert. case_decide; [intros [= <-]; exact Hv | apply H2].
Qed.

Lemma map_keeps playerId f :
  legalMap f ->
  triple cellsInv (map playerId f)
    (fun o b => cellsInv b /\ match o with MapAwait t => taskInv t | MapDone _ => True end)
    cellsInv.
Proof.
  intros Hf b Hb. unfold map, bind, get. apply mapLoop_keeps; [exact Hf | apply memoInv_empty | exact Hb].
Qed.

Lemma resumeMap_keeps t :
  taskInv t ->
  triple cellsInv (resumeMap t)
    (fun o b => cellsInv b /\ match o with MapAwait t => taskInv t | MapDone _ => True end)
    cellsInv.
Proof.
  intros (Hf & Hk & Hm) b Hb. unfold resumeMap.
  assert (Hm' : memoInv (<[m_key t := m_f t (m_key t)]> (m_replacements t))).
  { apply memoInv_insert; [exact Hm | exact Hk | apply Hf, Hk]. }
  unfold bind at 1.
  pose proof (substitute_keeps _ (m_cell t) Hm' b Hb) as H.
  destruct (substitute _ (m_cell t) b) as [[[]|e] b1]; [|exact H].
  apply mapLoop_keeps; assumption.
Qed.

(** ** The system invariant *)

Lemma boardInv_of_cells b0 b :
  boardInv b0 -> sameShape b0 b -> cellsInv b -> boardInv b.
Proof.
  intros (H1 & H2 & H3 & H4 & _) (S1 & S2 & S3) [C1 _].
  unfold boardInv. rewrite S1, S2.
  split; [exact H1|]. split; [exact H2|]. split; [|split].
  - rewrite (shape_length _ _ S3). exact H3.
  - eapply shape_rows; eauto.
  - exact C1.
Qed.

Lemma cellsInv_of_sysInv w : sysInv w -> cellsInv (brd w).
Proof. intros ((_ & _ & _ & _ & H1) & H2 & _). split; assumption. Qed.

(** How a method acts on the three board-level parts of the invariant. *)
Lemma sysInv_board {A} (m : M A) b :
  boardInv b -> holdInv b -> claimLocks b = ∅ ->
  keeps (sameShape b) m -> keeps cellsInv m ->
  keeps (fun b' => claimLocks b' = ∅) m ->
  let b' := snd (m b) in
  boardInv b' /\ holdInv b' /\ claimLocks b' = ∅.
Proof.
  intros Hb Hh Hc Ks Kc Kl.
  assert (HC : cellsInv b) by (split; [apply Hb | exact Hh]).
  specialize (Ks b (sameShape_refl b)). specialize (Kc b HC). specialize (Kl b Hc).
  cbn zeta. destruct (m b) as [[a|e] b']; cbn;
    (split; [eapply boardInv_of_cells; eauto | split; [apply Kc | exact Kl]]).
Qed.

Lemma keeps_of_triple {A} (I : Board -> Prop) (m : M A) Q :
  triple I m Q I -> (forall a b, Q a b -> I b) -> keeps I m.
Proof. intros H HQ. eapply triple_conseq; [exact H | auto | exact HQ | auto]. Qed.

Lemma sysInv_intro b ms :
  boardInv b /\ holdInv b /\ claimLocks b = ∅ -> Forall taskInv ms ->
  sysInv (mkWorld b ms).
Proof. intros (H1 & H2 & H3) H4. split; [|split; [|split]]; assumption. Qed.

Lemma sysInv_afterMap (r : Res MapOut * Board) ms :
  (let b' := snd r in boardInv b' /\ holdInv b' /\ claimLocks b' = ∅) ->
  match r with
  | (Ret o, b) => cellsInv b /\ match o with MapAwait t => taskInv t | MapDone _ => True end
  | (Throw _, b) => cellsInv b
  end ->
  Forall taskInv ms -> sysInv (afterMap r ms).
Proof.
  intros H1 H2 Ht. unfold afterMap. destruct r as [[[s|t]|e] b']; cbn in H1;
    apply sysInv_intro; try assumption.
  apply Forall_app. split; [exact Ht|]. constructor; [apply H2 | constructor].
Qed.

Lemma sysInv_exec a w : sysInv w -> legalAction a -> sysInv (exec a w).
Proof.
  intros (Hb & Hh & Hc & Ht) Ha. destruct a; cbn [exec legalAction] in *.
  - (* look *)
    apply sysInv_intro; [|exact Ht].
    exact (sysInv_board (look playerId) (brd w) Hb Hh Hc
      (keeps_look _ _) (keeps_look _ _) (keeps_look _ _)).
  - (* flip *)
    apply sysInv_intro; [|exact Ht].
    exact (sysInv_board (flip playerId r c) (brd w) Hb Hh Hc
      (shape_flip _ _ _ _) (keeps_cells_flip _ _ _) (claims_flip _ _ _ _)).
  - (* map *)
    apply sysInv_afterMap; [| |exact Ht].
    + exact (sysInv_board (map playerId f) (brd w) Hb Hh Hc
        (shape_map _ _ _) (keeps_of_triple _ _ _ (map_keeps playerId f Ha) (fun _ _ H => proj1 H))
        (claims_map _ _ _)).
    + exact (map_keeps playerId f Ha (brd w) (conj (proj2 (proj2 (proj2 (proj2 Hb)))) Hh)).
  - (* watch *)
    apply sysInv_intro; [|exact Ht].
    exact (sysInv_board (watch playerId KWatch) (brd w) Hb Hh Hc
      (shape_watch _ _ _) (keeps_cells_watch _ _) (claims_watch _ _ _)).
  - (* a continuation runs *)
    destruct (jobs (brd w) !! i) as [[l s]|] eqn:Hj;
      [|destruct w; apply sysInv_intro; [split; [|split]|]; assumption].
    set (b := set_jobs (delete i (jobs (brd w))) (brd w)).
    assert (Hb' : boardInv b) by exact Hb.
    assert (Hh' : holdInv b) by exact Hh.
    assert (Hc' : claimLocks b = ∅) by exact Hc.
    apply sysInv_intro; [|exact Ht].
    destruct (kont l) as [|pt q r c st]; cbn [runKont].
    + cbn. split; [|split]; assumption.
    + assert (K1 : keeps (sameShape b) (resumeFlip pt q r c st ;;; ret tt)).
      { repeat first [keeps_step | apply shape_resumeFlip]. }
      assert (K2 : keeps cellsInv (resumeFlip pt q r c st ;;; ret tt)).
      { repeat first [keeps_step | apply keeps_cells_resumeFlip]. }
      assert (K3 : keeps (fun b' => claimLocks b' = ∅) (resumeFlip pt q r c st ;;; ret tt)).
      { intros b1 Hb1. unfold bind, ret.
        pose proof (claims_resumeFlip pt q r c st b1) as Hr.
        destruct (resumeFlip pt q r c st b1) as [[o|e] b2]; cbn in Hr |- *;
          rewrite Hr, Hb1; destruct pt; cbn; try reflexivity;
          rewrite lookup_empty; rewrite bool_decide_eq_false_2 by discriminate; reflexivity. }
      exact (sysInv_board _ b Hb' Hh' Hc' K1 K2 K3).
  - (* the promise of [f] is fulfilled *)
    destruct (maps w !! i) as [t|] eqn:Hi;
      [|destruct w; apply sysInv_intro; [split; [|split]|]; assumption].
    assert (Hti : taskInv t).
    { rewrite Forall_lookup in Ht. eapply Ht; eauto. }
    assert (Htd : Forall taskInv (delete i (maps w))).
    { apply Forall_forall. intros t' Hin. rewrite Forall_forall in Ht. apply Ht.
      eapply list_elem_of_delete_inv; exact Hin. }
    apply sysInv_afterMap; [| |exact Htd].
    + exact (sysInv_board (resumeMap t) (brd w) Hb Hh Hc
        (shape_resumeMap _ _) (keeps_of_triple _ _ _ (resumeMap_keeps t Hti) (fun _ _ H => proj1 H))
        (claims_resumeMap _ _)).
    + exact (resumeMap_keeps t Hti (brd w) (conj (proj2 (proj2 (proj2 (proj2 Hb)))) Hh)).
Qed.

(** ** Every reachable world satisfies the invariant *)

Lemma newBoard_inv h w cards b :
  newBoard h w cards = Ret b -> sysInv (mkWorld b []).
Proof.
  unfold newBoard. cbv zeta. set (b0 := mkBoard _ _ _ _ _ _ _ _).
  destruct (rep0Failure b0) as [msg|] eqn:Hrep; [discriminate|].
  intros H. assert (Hbb : b = b0) by congruence. rewrite Hbb. clear H Hbb b.
  unfold rep0Failure in Hrep.
  destruct (0 <? height b0) eqn:H1; [|discriminate Hrep].
  destruct (0 <? width b0) eqn:H2; [|discriminate Hrep].
  destruct (Z.of_nat (List.length (board b0)) =? height b0) eqn:H3; [|discriminate Hrep].
  cbn [negb] in Hrep.
  apply Z.ltb_lt in H1, H2. apply Z.eqb_eq in H3.
  apply firstSome_None in Hrep.
  apply sysInv_intro; [|constructor].
  split; [|split].
  - split; [exact H1|]. split; [exact H2|]. split; [exact H3|]. split.
    + eapply Forall_impl; [exact Hrep|]. intros cells Hc. unfold checkRow0 in Hc.
      destruct (Z.of_nat (List.length cells) =? width b0) eqn:E; cbn in Hc; [|discriminate Hc].
      apply Z.eqb_eq, E.
    + apply cells_Forall_cellAt. subst b0. cbn.
      apply Forall_forall. intros cells Hin. apply list_elem_of_In, in_map_iff in Hin.
      destruct Hin as (row0 & <- & _).
      apply Forall_forall. intros x Hx. apply list_elem_of_In, in_map_iff in Hx.
      destruct Hx as (c0 & <- & _). split; cbn; [congruence | auto].
  - intros q l p x. cbn. rewrite lookup_empty. discriminate.
  - reflexivity.
Qed.

Lemma reachable_inv w : reachable w -> sysInv w.
Proof.
  induction 1 as [h w0 cards b Hb | a w Hw IH Ha].
  - eapply newBoard_inv; eauto.
  - apply sysInv_exec; assumption.
Qed.

Lemma boardInv_rep b : boardInv b -> repFailure b = None.
Proof. apply repFailure_None. Qed.

(** On a board that satisfies [boardInv], a cell exists only inside the
    declared dimensions. *)
Lemma cellAt_bounds b r c x :
  boardInv b -> cellAt (board b) r c = Some x ->
  0 <= r < height b /\ 0 <= c < width b.
Proof.
  intros (_ & _ & Hh & Hw & _) Hx. unfold cellAt in Hx.
  destruct (r <? 0) eqn:Hr; [discriminate|]. destruct (c <? 0) eqn:Hc; [discriminate|].
  cbn in Hx. apply Z.ltb_ge in Hr, Hc.
  destruct (board b !! Z.to_nat r) as [cells|] eqn:Hcells; cbn in Hx; [|discriminate].
  pose proof (lookup_lt_Some _ _ _ Hcells) as L1.
  pose proof (lookup_lt_Some _ _ _ Hx) as L2.
  rewrite Forall_forall in Hw.
  specialize (Hw cells (list_elem_of_lookup_2 _ _ _ Hcells)). lia.
Qed.

Lemma bounds_check_false b r c :
  0 <= r < height b -> 0 <= c < width b ->
  (r <? 0) || (r >=? height b) || (c <? 0) || (c >=? width b) = false.
Proof.
  intros Hr Hc.
  replace (r <? 0) with false by (symmetry; apply Z.ltb_ge; lia).
  replace (c <? 0) with false by (symmetry; apply Z.ltb_ge; lia).
  rewrite !Z.geb_leb.
  replace (height b <=? r) with false by (symmetry; apply Z.leb_gt; lia).
  replace (width b <=? c) with false by (symmetry; apply Z.leb_gt; lia).
  reflexivity.
Qed.

Lemma inst_id playerId l b :
  playerStates b !! playerId = Some l -> inst playerId l b = b.
Proof.
  intros H. unfold inst. rewrite insert_id by exact H. destruct b; reflexivity.
Qed.

(** ** [flip] by a player who holds a first card *)

Lemma cleanup_noop playerId b :
  (forall l, playerStates b !! playerId = Some l ->
     firstCard (objAt b l) = None \/ secondCard (objAt b l) = None) ->
  cleanupPreviousMove playerId b = (Ret tt, b).
Proof.
  intros H. unfold cleanupPreviousMove, bind, get.
  destruct (playerStates b !! playerId) as [l|] eqn:Hl; [|reflexivity].
  destruct (H l eq_refl) as [-> | Hs]; [reflexivity|].
  rewrite Hs. destruct (firstCard (objAt b l)); reflexivity.
Qed.

(** Once the player has a state object, the bounds are fine and there is no
    previous move to clean up, [flip] comes down to its last part. *)
Lemma flip_with_state playerId r c b l :
  playerStates b !! playerId = Some l ->
  (firstCard (objAt b l) = None \/ secondCard (objAt b l) = None) ->
  0 <= r < height b -> 0 <= c < width b ->
  flip playerId r c b =
    let cell := cellAt (board b) r c in
    if bool_decide (cell = None)
       || isEmpty (card (default (mkCell EmptyString false None) cell))
    then (releaseFirst l ;;; throw (Error "invalid card position")) b
    else match firstCard (objAt b l) with
         | None => whileLoop playerId r c l b
         | Some f => secondFlip playerId r c l f b
         end.
Proof.
  intros Hl Hs Hr Hc. unfold flip.
  unfold bind at 1. unfold get at 1. rewrite Hl.
  unfold bind at 1. unfold ret at 1.
  unfold bind at 1. unfold get at 1.
  rewrite bounds_check_false by assumption.
  unfold bind at 1. rewrite cleanup_noop by (intros l'; rewrite Hl; intros [= <-]; exact Hs).
  unfold bind at 1. rewrite currentState_eq, Hl, inst_id by exact Hl.
  unfold bind at 1. unfold get at 1. cbn zeta.
  destruct (bool_decide _ || isEmpty _); [reflexivity|].
  unfold bind at 1. unfold deref. destruct (firstCard (objAt b l)); reflexivity.
Qed.

Lemma stateOf_Some b playerId st :
  stateOf b playerId = Some st ->
  exists l, playerStates b !! playerId = Some l /\ objAt b l = st /\
            heap b !! l = Some st.
Proof.
  unfold stateOf. destruct (playerStates b !! playerId) as [l|]; [|discriminate].
  cbn. intros H. exists l. split; [reflexivity|]. split; [|exact H].
  unfold objAt. rewrite H. reflexivity.
Qed.

Lemma stateOf_ws b playerId l f :
  playerStates b !! playerId = Some l -> (l < List.length (heap b))%nat ->
  stateOf (ws f l b) playerId = Some (f (objAt b l)).
Proof.
  intros Hl Hlt. unfold stateOf. cbn [playerStates ws set_heap]. rewrite Hl. cbn.
  rewrite list_lookup_alter_eq. unfold objAt.
  destruct (lookup_lt_is_Some_2 (heap b) l Hlt) as [s Hs]. rewrite Hs. reflexivity.
Qed.

Lemma stateOf_ext b b' playerId :
  heap b' = heap b -> playerStates b' = playerStates b ->
  stateOf b' playerId = stateOf b playerId.
Proof. intros H1 H2. unfold stateOf. rewrite H1, H2. reflexivity. Qed.

Lemma boardInv_cells b0 b :
  boardInv b0 -> sameShape b0 b ->
  (forall r c x, cellAt (board b) r c = Some x -> cellInv x) -> boardInv b.
Proof.
  intros (H1 & H2 & H3 & H4 & _) (S1 & S2 & S3) C1.
  unfold boardInv. rewrite S1, S2.
  split; [exact H1|]. split; [exact H2|]. split; [|split].
  - rewrite (shape_length _ _ S3). exact H3.
  - eapply shape_rows; eauto.
  - exact C1.
Qed.

Lemma sameShape_wr f r c b : sameShape b (wr f r c b).
Proof. repeat split. cbn. apply updCell_shape. Qed.

Lemma sameShape_trans b1 b2 b3 : sameShape b1 b2 -> sameShape b2 b3 -> sameShape b1 b3.
Proof. unfold sameShape. intuition congruence. Qed.

(** The board after the first card is given up. *)
Lemma releaseFirst_ok b l f fx :
  boardInv b -> firstCard (objAt b l) = Some f ->
  cellAt (board b) (row f) (col f) = Some fx ->
  releaseFirst l b = (Ret tt, publish (firstReleased l f b)).
Proof.
  intros Hb Hf Hfx. unfold releaseFirst. unfold bind at 1. unfold deref. rewrite Hf.
  unfold whenCell. unfold bind at 1. unfold get. rewrite Hfx.
  change ((writeCell (setController None) (row f) (col f) ;;;
           writeState (setSecond (Some NoneCardRef)) l ;;; notifyAll) b)
    with (notifyAll (firstReleased l f b)).
  apply notifyAll_ok. apply boardInv_rep.
  eapply (boardInv_cells b); [exact Hb | apply (sameShape_wr _ _ _ b) |].
  intros r c x. cbn. rewrite cellAt_updCell. case_decide as Hd.
  - rewrite Hfx. cbn. intros [= <-]. apply cellInv_release.
    apply (proj2 (proj2 (proj2 (proj2 Hb))) _ _ _ Hfx).
  - apply Hb.
Qed.

Lemma published_publish b b1 :
  jobs b1 = jobs b -> listeners b1 = listeners b -> published b (publish b1).
Proof.
  intros Hj Hl. split; [reflexivity|]. cbn. rewrite Hj, Hl. reflexivity.
Qed.

Lemma objAt_heap b l st : heap b !! l = Some st -> objAt b l = st.
Proof. intros H. unfold objAt. rewrite H. reflexivity. Qed.

Lemma stateOf_inst b playerId l :
  stateOf (inst playerId l b) playerId = heap b !! l.
Proof. unfold stateOf. cbn. rewrite lookup_insert_eq. reflexivity. Qed.

Lemma stateOf_publish b playerId : stateOf (publish b) playerId = stateOf b playerId.
Proof. reflexivity. Qed.

Lemma cellAt_publish b r c : cellAt (board (publish b)) r c = cellAt (board b) r c.
Proof. reflexivity. Qed.

(** *** The second flip is rejected (rules 2-A and 2-B) *)

Lemma second_flip_rejected w playerId r c p fx x :
  reachable w ->
  stateOf (brd w) playerId = Some (holdingFirst p) ->
  cellAt (board (brd w)) (row p) (col p) = Some fx ->
  cellAt (board (brd w)) r c = Some x ->
  exists b',
    (card x = EmptyString ->
       flip playerId r c (brd w) = (Throw (Error "invalid card position"), b')) /\
    (card x <> EmptyString -> faceUp x = true -> controller x <> None ->
       flip playerId r c (brd w) =
         (Throw (Error "card is controlled by another player"), b')) /\
    cellAt (board b') (row p) (col p) = Some (setController None fx) /\
    sameCellsExcept [p] (brd w) b' /\
    stateOf b' playerId = Some (holdingPair p NoneCardRef false) /\
    published (brd w) b'.
Proof.
  intros Hw Hst Hfx Hx. set (b := brd w) in *.
  pose proof (reachable_inv w Hw) as (Hb & Hh & Hc & _). fold b in Hb, Hh, Hc.
  destruct (stateOf_Some b playerId _ Hst) as (l & Hl & Ho & Hheap).
  destruct (cellAt_bounds b r c x Hb Hx) as [Hr Hcc].
  assert (Hfl := flip_with_state playerId r c b l Hl (or_intror (f_equal secondCard Ho)) Hr Hcc).
  cbn zeta in Hfl. rewrite Hx in Hfl.
  change (default (mkCell EmptyString false None) (Some x)) with x in Hfl.
  rewrite bool_decide_eq_false_2 in Hfl by discriminate. cbn [orb] in Hfl.
  assert (Hfirst : firstCard (objAt b l) = Some p) by (rewrite Ho; reflexivity).
  pose proof (releaseFirst_ok b l p fx Hb Hfirst Hfx) as Hrel.
  exists (publish (firstReleased l p b)).
  split; [|split; [|split; [|split; [|split]]]].
  - intros He. rewrite Hfl. apply isEmpty_true in He. rewrite He.
    unfold bind. rewrite Hrel. reflexivity.
  - intros Hne Hf Hctl. rewrite Hfl. apply isEmpty_false in Hne. rewrite Hne, Hfirst.
    rewrite secondFlip_eq. cbn zeta. rewrite Hx.
    change (default (mkCell EmptyString false None) (Some x)) with x. rewrite Hf.
    rewrite bool_decide_eq_true_2 by exact Hctl. cbn [andb].
    unfold bind. rewrite Hrel. reflexivity.
  - rewrite cellAt_publish. cbn. rewrite cellAt_updCell_eq, Hfx. reflexivity.
  - intros r' c' Hn. rewrite cellAt_publish. cbn. apply cellAt_updCell_ne.
    intros [= E1 E2]. apply Hn. left. destruct p; cbn in *; congruence.
  - rewrite stateOf_publish. unfold firstReleased.
    rewrite stateOf_ws; [unfold wr; rewrite objAt_set_board, Ho; reflexivity | exact Hl |].
    apply lookup_lt_Some in Hheap. exact Hheap.
  - apply published_publish; reflexivity.
Qed.

(** *** The second flip goes through (rules 2-C, 2-D, 2-E) *)

Lemma sameShape_pairMatched playerId r c st f b :
  sameShape b (pairMatched playerId r c st f b).
Proof. repeat split. cbn. rewrite !updCell_shape. reflexivity. Qed.

Lemma sameShape_pairMissed playerId r c st f b :
  sameShape b (pairMissed playerId r c st f b).
Proof. repeat split. cbn. rewrite !updCell_shape. reflexivity. Qed.

Lemma sameShape_firstTaken playerId r c st b :
  sameShape b (firstTaken playerId r c st b).
Proof. repeat split. cbn. rewrite !updCell_shape. reflexivity. Qed.

Lemma finish_on playerId b0 b :
  boardInv b0 -> sameShape b0 b -> cellsInv b ->
  (out <- finish playerId ;; ret (Returned out)) b =
    (Ret (Returned (snapshot (publish b) playerId)), publish b).
Proof.
  intros H0 Hs Hc. unfold bind. rewrite finish_ok; [reflexivity|].
  apply boardInv_rep. eapply boardInv_cells; [exact H0 | exact Hs | apply Hc].
Qed.

Lemma heap_pair_state b l p s m :
  heap b !! l = Some (holdingFirst p) ->
  alter (setHasMatch m) l (alter (setSecond (Some s)) l (heap b)) !! l
    = Some (holdingPair p s m).
Proof. intros H. rewrite !list_lookup_alter_eq, H. reflexivity. Qed.

(** The second flip that goes through.  In a reachable state of the
    system, let the player hold a first card at [p] that is still on the
    board, and let the target of the flip
    hold a card and not be face up and controlled.  Then the call returns
    the player's snapshot of the resulting board without suspending, the
    target is face up, both cells are controlled by the player if the two
    cards are equal and by nobody otherwise, both are face up, no other cell
    has changed, the state is HoldingPair(p, target, matched), and the change
    is published. *)
Lemma second_flip_pair_run (w : World) (playerId : string) (r c : Z)
    (p : Pos) (fx x : CardCell) :
  reachable w ->
  stateOf (brd w) playerId = Some (holdingFirst p) ->
  cellAt (board (brd w)) (row p) (col p) = Some fx ->
  card fx <> EmptyString ->
  cellAt (board (brd w)) r c = Some x ->
  card x <> EmptyString ->
  ~ (faceUp x = true /\ controller x <> None) ->
  let matched := String.eqb (card x) (card fx) in
  let ctl := if matched then Some playerId else None in
  exists b',
    flip playerId r c (brd w) = (Ret (Returned (snapshot b' playerId)), b') /\
    cellAt (board b') r c = Some (mkCell (card x) true ctl) /\
    cellAt (board b') (row p) (col p) = Some (mkCell (card fx) true ctl) /\
    sameCellsExcept [p; mkPos r c] (brd w) b' /\
    stateOf b' playerId = Some (holdingPair p (SecondAt (mkPos r c)) matched) /\
    published (brd w) b'.
Proof.
  intros Hw Hst Hfx Hfc Hx Hxc Hfree matched ctl. set (b := brd w) in *.
  pose proof (reachable_inv w Hw) as Hsys.
  pose proof (cellsInv_of_sysInv w Hsys) as Hcells. fold b in Hcells.
  destruct Hsys as (Hb & Hh & Hc & _). fold b in Hb, Hh, Hc.
  destruct (stateOf_Some b playerId _ Hst) as (l & Hl & Ho & Hheap).
  destruct (cellAt_bounds b r c x Hb Hx) as [Hr Hcc].
  assert (Hfl := flip_with_state playerId r c b l Hl (or_intror (f_equal secondCard Ho)) Hr Hcc).
  cbn zeta in Hfl. rewrite Hx in Hfl.
  change (default (mkCell EmptyString false None) (Some x)) with x in Hfl.
  rewrite bool_decide_eq_false_2 in Hfl by discriminate. cbn [orb] in Hfl.
  assert (Hfirst : firstCard (objAt b l) = Some p) by (rewrite Ho; reflexivity).
  apply isEmpty_false in Hxc. rewrite Hxc, Hfirst in Hfl. apply isEmpty_false in Hxc.
  rewrite secondFlip_eq in Hfl. cbn zeta in Hfl. rewrite Hx in Hfl.
  change (default (mkCell EmptyString false None) (Some x)) with x in Hfl.
  assert (Hcond : faceUp x && bool_decide (controller x <> None) = false).
  { apply andb_false_iff. destruct (faceUp x) eqn:Hf; [right | left; reflexivity].
    apply bool_decide_eq_false_2. intros Hn. apply Hfree. split; [reflexivity | exact Hn]. }
  rewrite Hcond in Hfl.
  assert (Hn : nonEmptyAt b r c) by (intros x'; rewrite Hx; intros [= <-]; exact Hxc).
  (* the first card is face up *)
  assert (Hfu : faceUp fx = true).
  { destruct (Hh playerId l p fx Hl Hfirst (f_equal secondCard Ho) Hfx) as [H|H];
      [exact H | contradiction]. }
  (* what the first card looks like once the target is turned *)
  assert (Hx1 : cellAt (board (wr (setFaceUp true) r c b)) r c = Some (setFaceUp true x)).
  { cbn. rewrite cellAt_updCell_eq, Hx. reflexivity. }
  assert (Hf1 : exists fc, cellAt (board (wr (setFaceUp true) r c b)) (row p) (col p) = Some fc
                           /\ card fc = card fx /\ faceUp fc = true /\ controller fc = controller fx).
  { cbn. rewrite cellAt_updCell. case_decide as Hd.
    - destruct Hd as [-> ->]. rewrite Hx in Hfx. injection Hfx as <-.
      rewrite Hx. cbn. eexists. split; [reflexivity|]. repeat split.
    - exists fx. repeat split; assumption. }
  destruct Hf1 as (fc & Hfc1 & Hcard & Hfcu & Hfctl).
  rewrite Hfc1, Hx1 in Hfl.
  change (default (mkCell EmptyString false None) (Some (setFaceUp true x)))
    with (setFaceUp true x) in Hfl.
  change (card (setFaceUp true x)) with (card x) in Hfl. rewrite Hcard in Hfl.
  fold matched in Hfl.
  assert (Hlt : (l < List.length (heap b))%nat) by (eapply lookup_lt_Some; eauto).
  assert (Hpos : forall r' c', (r = r' /\ c = c') <-> mkPos r c = mkPos r' c')
    by (intros; split; [intros [-> ->]; reflexivity | intros [= -> ->]; split; reflexivity]).
  assert (Hcase : (p = mkPos r c /\ fx = x) \/
                  ((r, c) <> (row p, col p) /\ (row p, col p) <> (r, c))).
  { destruct (decide (row p = r /\ col p = c)) as [[E1 E2]|Hpne].
    - left. destruct p as [pr pc]. cbn in *. subst pr pc.
      split; [reflexivity | congruence].
    - right. split; intros [= E1 E2]; apply Hpne; split; congruence. }
  assert (Hout : forall r' c', ~ In (mkPos r' c') [p; mkPos r c] ->
            (r, c) <> (r', c') /\ (row p, col p) <> (r', c')).
  { intros r' c' Hnin. split; intros [= E1 E2]; apply Hnin; cbn;
      [right; left | left]; destruct p; cbn in *; congruence. }
  destruct matched eqn:Hm; subst ctl.
  - assert (Hf : faceUpAt (wr (setFaceUp true) r c b) (row p) (col p))
      by (intros fc'; rewrite Hfc1; intros [= <-]; exact Hfcu).
    pose proof (cellsInv_pairMatched playerId r c l p b Hcells Hn Hf) as HI.
    rewrite (finish_on playerId b _ Hb (sameShape_pairMatched _ _ _ _ _ _) HI) in Hfl.
    exists (publish (pairMatched playerId r c l p b)).
    split; [exact Hfl|]. split; [|split; [|split; [|split]]].
    + rewrite cellAt_publish. cbn. destruct Hcase as [[-> ->]|[Hne1 Hne2]].
      * cbn [row col]. rewrite !cellAt_updCell_eq, Hx. reflexivity.
      * rewrite (cellAt_updCell_ne _ _ _ _ _ _ Hne2), !cellAt_updCell_eq, Hx. reflexivity.
    + rewrite cellAt_publish. cbn. destruct Hcase as [[-> ->]|[Hne1 Hne2]].
      * cbn [row col]. rewrite !cellAt_updCell_eq, Hx. reflexivity.
      * rewrite cellAt_updCell_eq, !(cellAt_updCell_ne _ _ _ _ _ _ Hne1), Hfx.
        cbn; unfold setController; rewrite Hfu; reflexivity.
    + intros r' c' Hnin. destruct (Hout r' c' Hnin) as [N1 N2].
      rewrite cellAt_publish. cbn.
      rewrite (cellAt_updCell_ne _ _ _ _ _ _ N2), !(cellAt_updCell_ne _ _ _ _ _ _ N1).
      reflexivity.
    + rewrite stateOf_publish. unfold pairMatched. rewrite stateOf_inst. cbn.
      rewrite !list_lookup_alter_eq, Hheap. reflexivity.
    + apply published_publish; reflexivity.
  - pose proof (cellsInv_pairMissed playerId r c l p b Hcells Hn) as HI.
    rewrite (finish_on playerId b _ Hb (sameShape_pairMissed _ _ _ _ _ _) HI) in Hfl.
    exists (publish (pairMissed playerId r c l p b)).
    split; [exact Hfl|]. split; [|split; [|split; [|split]]].
    + rewrite cellAt_publish. cbn. destruct Hcase as [[-> ->]|[Hne1 Hne2]].
      * cbn [row col]. rewrite !cellAt_updCell_eq, Hx. reflexivity.
      * rewrite (cellAt_updCell_ne _ _ _ _ _ _ Hne2), !cellAt_updCell_eq, Hx. reflexivity.
    + rewrite cellAt_publish. cbn. destruct Hcase as [[-> ->]|[Hne1 Hne2]].
      * cbn [row col]. rewrite !cellAt_updCell_eq, Hx. reflexivity.
      * rewrite cellAt_updCell_eq, !(cellAt_updCell_ne _ _ _ _ _ _ Hne1), Hfx.
        cbn; unfold setController; rewrite Hfu; reflexivity.
    + intros r' c' Hnin. destruct (Hout r' c' Hnin) as [N1 N2].
      rewrite cellAt_publish. cbn.
      rewrite (cellAt_updCell_ne _ _ _ _ _ _ N2), !(cellAt_updCell_ne _ _ _ _ _ _ N1).
      reflexivity.
    + rewrite stateOf_publish. unfold pairMissed. rewrite stateOf_inst. cbn.
      rewrite !list_lookup_alter_eq, Hheap. reflexivity.
    + apply published_publish; reflexivity.
Qed.

(** *** The first flip (rules 1-B and 1-C) *)

Lemma flip_new_player playerId r c b :
  playerStates b !! playerId = None ->
  flip playerId r c b = flip playerId r c (snd (resetState playerId b)).
Proof.
  intros Hn. unfold flip.
  unfold bind at 1. unfold get at 1. rewrite Hn.
  unfold bind at 1. rewrite resetState_eq. cbn [snd].
  set (b1 := set_playerStates _ _).
  symmetry. unfold bind at 1. unfold get at 1.
  assert (H1 : playerStates b1 !! playerId = Some (List.length (heap b)))
    by (subst b1; cbn; apply lookup_insert_eq).
  rewrite H1. unfold bind at 1. unfold ret at 1. reflexivity.
Qed.

Lemma first_flip_core b playerId r c x l :
  boardInv b -> cellsInv b ->
  claimLocks b !! cellKey r c = None ->
  playerStates b !! playerId = Some l ->
  heap b !! l = Some freshState ->
  cellAt (board b) r c = Some x ->
  card x <> EmptyString ->
  controlledByOther x playerId = false ->
  flip playerId r c b =
    (Ret (Returned (snapshot (publish (firstTaken playerId r c l b)) playerId)),
     publish (firstTaken playerId r c l b)).
Proof.
  intros Hb Hcells Hk Hl Hheap Hx Hxc Hctl.
  destruct (cellAt_bounds b r c x Hb Hx) as [Hr Hcc].
  pose proof (objAt_heap b l _ Hheap) as Ho.
  rewrite (flip_with_state playerId r c b l Hl (or_introl (f_equal firstCard Ho)) Hr Hcc).
  cbn zeta. rewrite Hx.
  change (default (mkCell EmptyString false None) (Some x)) with x.
  rewrite bool_decide_eq_false_2 by discriminate. cbn [orb].
  apply isEmpty_false in Hxc. rewrite Hxc, Ho. cbn [firstCard freshState].
  unfold whileLoop. unfold bind at 1. unfold readCell at 1. rewrite Hx.
  change (default (mkCell EmptyString false None) (Some x)) with x.
  rewrite Hctl, andb_false_r.
  unfold forBody. unfold bind at 1. unfold readCell at 1. rewrite Hx.
  change (default (mkCell EmptyString false None) (Some x)) with x.
  rewrite Hxc, Hctl.
  unfold bind at 1. unfold tryClaimCell. unfold bind at 1. unfold get at 1. rewrite Hk.
  unfold bind at 1. unfold modify at 1. unfold ret at 1.
  set (b1 := set_claimLocks _ b).
  assert (Hsec : claimedSection playerId r c l b1 = takeFirst playerId r c l b1).
  { unfold claimedSection, bind, readCell. cbn [board b1 set_claimLocks]. rewrite Hx.
    change (default (mkCell EmptyString false None) (Some x)) with x.
    rewrite Hxc, Hctl. reflexivity. }
  assert (Hn : nonEmptyAt b1 r c).
  { intros x'. cbn. rewrite Hx. intros [= <-]. apply isEmpty_false, Hxc. }
  assert (Htf : takeFirst playerId r c l b1 =
            (Ret (Returned (snapshot (publish (firstTaken playerId r c l b1)) playerId)),
             publish (firstTaken playerId r c l b1))).
  { rewrite takeFirst_eq.
    apply (finish_on playerId b1); [exact Hb | apply sameShape_firstTaken |].
    apply cellsInv_firstTaken; [exact Hcells | exact Hn]. }
  unfold tryFinally, finally. rewrite Hsec, Htf.
  rewrite releaseClaim_eq. unfold releasedAt.
  set (b2 := publish (firstTaken playerId r c l b1)).
  assert (Hk2 : claimLocks b2 = <[cellKey r c := playerId]> (claimLocks b)) by reflexivity.
  rewrite Hk2, lookup_insert_eq, bool_decide_eq_true_2 by reflexivity.
  rewrite delete_insert_id by exact Hk.
  assert (Hb3 : set_claimLocks (claimLocks b) b2 = publish (firstTaken playerId r c l b))
    by reflexivity.
  rewrite Hb3. reflexivity.
Qed.

Lemma firstTaken_facts b playerId r c x l :
  heap b !! l = Some freshState ->
  cellAt (board b) r c = Some x ->
  let b' := publish (firstTaken playerId r c l b) in
  cellAt (board b') r c = Some (mkCell (card x) true (Some playerId)) /\
  sameCellsExcept [mkPos r c] b b' /\
  stateOf b' playerId = Some (holdingFirst (mkPos r c)) /\
  published b b' /\
  claimLocks b' = claimLocks b.
Proof.
  intros Hheap Hx b'. subst b'. split; [|split; [|split; [|split]]].
  - rewrite cellAt_publish. cbn. rewrite !cellAt_updCell_eq, Hx. reflexivity.
  - intros r' c' Hnin. rewrite cellAt_publish. cbn.
    assert (N : (r, c) <> (r', c')) by (intros [= -> ->]; apply Hnin; left; reflexivity).
    rewrite !(cellAt_updCell_ne _ _ _ _ _ _ N). reflexivity.
  - rewrite stateOf_publish. unfold firstTaken. rewrite stateOf_inst. cbn.
    rewrite list_lookup_alter_eq, Hheap. reflexivity.
  - apply published_publish; reflexivity.
  - reflexivity.
Qed.

Lemma controlledByOther_false x playerId :
  controlledByOther x playerId = false <->
  (forall q, controller x = Some q -> q = playerId).
Proof.
  unfold controlledByOther. destruct (controller x) as [q|].
  - rewrite negb_false_iff, String.eqb_eq. split; [intros -> q' [= <-]; reflexivity | auto].
  - split; [intros _ q; discriminate | reflexivity].
Qed.

(** The first flip that goes through.  In a reachable state of the
    system, a player with no card in hand
    who flips a cell that holds a card and is not controlled by another
    player gets the snapshot of the resulting board without suspending: the
    cell is face up and controlled by the player, no other cell has changed,
    the state is HoldingFirst(row, column), the change is published and the
    claim registry is empty. *)
Lemma first_flip_card_run (w : World) (playerId : string) (r c : Z)
    (x : CardCell) :
  reachable w ->
  isIdle (brd w) playerId ->
  cellAt (board (brd w)) r c = Some x ->
  card x <> EmptyString ->
  (forall q, controller x = Some q -> q = playerId) ->
  exists b',
    flip playerId r c (brd w) = (Ret (Returned (snapshot b' playerId)), b') /\
    cellAt (board b') r c = Some (mkCell (card x) true (Some playerId)) /\
    sameCellsExcept [mkPos r c] (brd w) b' /\
    stateOf b' playerId = Some (holdingFirst (mkPos r c)) /\
    published (brd w) b' /\
    claimLocks b' = ∅.
Proof.
  intros Hw Hidle Hx Hxc Hctl. set (b := brd w) in *.
  pose proof (reachable_inv w Hw) as Hsys.
  pose proof (cellsInv_of_sysInv w Hsys) as Hcells. fold b in Hcells.
  destruct Hsys as (Hb & Hh & Hc & _). fold b in Hb, Hh, Hc.
  apply controlledByOther_false in Hctl.
  assert (Hk : claimLocks b !! cellKey r c = None) by (rewrite Hc; apply lookup_empty).
  destruct Hidle as [Hnone | Hfresh].
  - rewrite (flip_new_player playerId r c b Hnone). rewrite resetState_eq. cbn [snd].
    set (b1 := set_playerStates _ _).
    assert (Hb1 : boardInv b1) by exact Hb.
    assert (Hc1 : cellsInv b1) by (apply (keeps_cells_resetState playerId b Hcells)).
    assert (Hl1 : playerStates b1 !! playerId = Some (List.length (heap b)))
      by (subst b1; cbn; apply lookup_insert_eq).
    assert (Hh1 : heap b1 !! List.length (heap b) = Some freshState)
      by (subst b1; cbn; apply list_lookup_middle; reflexivity).
    rewrite (first_flip_core b1 playerId r c x _ Hb1 Hc1 Hk Hl1 Hh1 Hx Hxc Hctl).
    eexists. split; [reflexivity|].
    destruct (firstTaken_facts b1 playerId r c x _ Hh1 Hx) as (F1 & F2 & F3 & F4 & F5).
    split; [exact F1|]. split; [exact F2|]. split; [exact F3|]. split; [exact F4|].
    rewrite F5. exact Hc.
  - destruct (stateOf_Some b playerId _ Hfresh) as (l & Hl & Ho & Hheap).
    rewrite (first_flip_core b playerId r c x l Hb Hcells Hk Hl Hheap Hx Hxc Hctl).
    eexists. split; [reflexivity|].
    destruct (firstTaken_facts b playerId r c x l Hheap Hx) as (F1 & F2 & F3 & F4 & F5).
    split; [exact F1|]. split; [exact F2|]. split; [exact F3|]. split; [exact F4|].
    rewrite F5. exact Hc.
Qed.

(** ** What [cleanupPreviousMove] does, state by state *)

Lemma pos_eq r c (p : Pos) : (row p = r /\ col p = c) <-> mkPos r c = p.
Proof. destruct p as [pr pc]; cbn. split; [intros [-> ->]; reflexivity | intros [= -> ->]; split; reflexivity]. Qed.

Lemma cellAt_wr f p b r c :
  cellAt (board (wr f (row p) (col p) b)) r c =
    if bool_decide (mkPos r c = p) then f <$> cellAt (board b) r c
    else cellAt (board b) r c.
Proof.
  cbn. rewrite cellAt_updCell. case_decide as Hd.
  - destruct Hd as [<- <-]. rewrite bool_decide_eq_true_2 by (destruct p; reflexivity). reflexivity.
  - rewrite bool_decide_eq_false_2; [reflexivity|]. intros <-. apply Hd. split; reflexivity.
Qed.

(** [if (x) { x.card = ''; ... }]: the board changes at [p] only, and only
    if there is a cell at [p]. *)
Lemma whenCell_write f p b :
  exists g,
    whenCell p (fun _ => writeCell f (row p) (col p)) b = (Ret tt, set_board g b) /\
    forall r c, cellAt g r c =
      if bool_decide (mkPos r c = p) then f <$> cellAt (board b) r c
      else cellAt (board b) r c.
Proof.
  unfold whenCell, bind, get.
  destruct (cellAt (board b) (row p) (col p)) as [x|] eqn:Hx.
  - exists (updCell f (row p) (col p) (board b)). split; [reflexivity|].
    intros r c. apply (cellAt_wr f p b).
  - exists (board b). split; [destruct b; reflexivity|].
    intros r c. case_bool_decide as Hd; [|reflexivity].
    subst p. cbn in Hx. rewrite Hx. reflexivity.
Qed.

Lemma hidden_true b playerId p :
  hidden b playerId p = true <-> toTurnDown b playerId p.
Proof.
  unfold hidden, toTurnDown. destruct (cellAt (board b) (row p) (col p)) as [x|].
  - rewrite !andb_true_iff, bool_decide_eq_true, negb_true_iff, isCardInPlayerStates_false.
    split.
    + intros [[H1 H2] H3]. exists x. auto.
    + intros (x' & [= <-] & H1 & H2 & H3). auto.
  - split; [discriminate | intros (x & Hx & _); discriminate].
Qed.

Lemma turnDown_eq playerId p b :
  exists g,
    turnDown playerId p b = (Ret tt, set_board g b) /\
    forall r c, cellAt g r c =
      if bool_decide (mkPos r c = p) && hidden b playerId p
      then setFaceUp false <$> cellAt (board b) r c
      else cellAt (board b) r c.
Proof.
  unfold turnDown, whenCell, bind, get, hidden.
  destruct (cellAt (board b) (row p) (col p)) as [x|] eqn:Hx.
  - destruct (faceUp x && bool_decide (controller x = None)) eqn:Hc; cbn [andb].
    + destruct (isCardInPlayerStates b playerId (row p) (col p)) eqn:Hi; cbn [negb].
      * exists (board b). split; [destruct b; reflexivity|].
        intros r c. rewrite andb_false_r. reflexivity.
      * exists (updCell (setFaceUp false) (row p) (col p) (board b)). split; [reflexivity|].
        intros r c. rewrite andb_true_r. apply (cellAt_wr _ p b).
    + exists (board b). split; [destruct b; reflexivity|].
      intros r c. rewrite andb_false_r. reflexivity.
  - exists (board b). split; [destruct b; reflexivity|].
    intros r c. rewrite andb_false_r. reflexivity.
Qed.

Lemma hidden_set_board g b playerId p :
  cellAt g (row p) (col p) = cellAt (board b) (row p) (col p) ->
  hidden (set_board g b) playerId p = hidden b playerId p.
Proof. intros H. unfold hidden. cbn [board set_board]. rewrite H. reflexivity. Qed.

Lemma stateOf_reset b playerId :
  stateOf (snd (resetState playerId b)) playerId = Some freshState.
Proof.
  rewrite resetState_eq. unfold stateOf. cbn. rewrite lookup_insert_eq. cbn.
  apply list_lookup_middle. reflexivity.
Qed.

Lemma renderCell_removed viewer x : renderCell viewer (removeCell x) = "none"%string.
Proof. reflexivity. Qed.

Lemma cleanup_idle b playerId :
  isIdle b playerId -> cleanupPreviousMove playerId b = (Ret tt, b).
Proof.
  intros [Hn|Hf]; apply cleanup_noop; intros l Hl.
  - congruence.
  - destruct (stateOf_Some b playerId _ Hf) as (l' & Hl' & Ho & _).
    rewrite Hl in Hl'. injection Hl' as <-. left. rewrite Ho. reflexivity.
Qed.

Lemma cleanup_matched b playerId p q :
  stateOf b playerId = Some (holdingPair p (SecondAt q) true) ->
  exists b',
    cleanupPreviousMove playerId b = (Ret tt, b') /\
    (forall r c, cellAt (board b') r c =
       if bool_decide (mkPos r c = p \/ mkPos r c = q)
       then removeCell <$> cellAt (board b) r c
       else cellAt (board b) r c) /\
    stateOf b' playerId = Some freshState.
Proof.
  intros Hst. destruct (stateOf_Some b playerId _ Hst) as (l & Hl & Ho & _).
  unfold cleanupPreviousMove. unfold bind at 1. unfold get at 1.
  rewrite Hl, Ho. cbn [firstCard secondCard hasMatch holdingPair secondPos].
  destruct (whenCell_write removeCell p b) as (g1 & E1 & C1).
  unfold bind at 1. rewrite E1.
  destruct (whenCell_write removeCell q (set_board g1 b)) as (g2 & E2 & C2).
  unfold bind at 1. rewrite E2.
  exists (snd (resetState playerId (set_board g2 (set_board g1 b)))).
  split; [reflexivity|]. split.
  - intros r c. cbn. rewrite C2. cbn [board set_board]. rewrite C1.
    destruct (bool_decide (mkPos r c = p)) eqn:D1, (bool_decide (mkPos r c = q)) eqn:D2;
      [apply bool_decide_eq_true in D1 | apply bool_decide_eq_true in D1
      | apply bool_decide_eq_false in D1 | apply bool_decide_eq_false in D1];
      [apply bool_decide_eq_true in D2 | apply bool_decide_eq_false in D2
      | apply bool_decide_eq_true in D2 | apply bool_decide_eq_false in D2].
    + rewrite bool_decide_eq_true_2 by (left; exact D1).
      destruct (cellAt (board b) r c); reflexivity.
    + rewrite bool_decide_eq_true_2 by (left; exact D1). reflexivity.
    + rewrite bool_decide_eq_true_2 by (right; exact D2). reflexivity.
    + rewrite bool_decide_eq_false_2 by tauto. reflexivity.
  - apply stateOf_reset.
Qed.

Lemma hidden_faceUp b playerId p x :
  cellAt (board b) (row p) (col p) = Some x -> hidden b playerId p = true ->
  faceUp x = true /\ controller x = None.
Proof.
  unfold hidden. intros ->. rewrite !andb_true_iff, bool_decide_eq_true. tauto.
Qed.

Lemma hidden_after_turn g b playerId p :
  (forall r c, cellAt g r c =
     if bool_decide (mkPos r c = p) && hidden b playerId p
     then setFaceUp false <$> cellAt (board b) r c
     else cellAt (board b) r c) ->
  hidden (set_board g b) playerId p = false.
Proof.
  intros C. unfold hidden at 1. cbn [board set_board].
  rewrite C. rewrite bool_decide_eq_true_2 by (destruct p; reflexivity). cbn [andb].
  destruct (hidden b playerId p) eqn:Hh.
  - destruct (cellAt (board b) (row p) (col p)); reflexivity.
  - unfold hidden in Hh. destruct (cellAt (board b) (row p) (col p)); [exact Hh | reflexivity].
Qed.

Lemma cleanup_unmatched_eq b playerId l p s :
  playerStates b !! playerId = Some l -> objAt b l = holdingPair p s false ->
  cleanupPreviousMove playerId b =
    (turnDown playerId p ;;;
     match s with
     | NoneCardRef => resetState playerId ;;; notifyAll
     | SecondAt q => turnDown playerId q ;;; resetState playerId
     end) b.
Proof.
  intros Hl Ho. unfold cleanupPreviousMove. unfold bind at 1. unfold get at 1.
  rewrite Hl, Ho. reflexivity.
Qed.

Lemma cleanup_unmatched b playerId p s :
  stateOf b playerId = Some (holdingPair p s false) ->
  let b' := snd (cleanupPreviousMove playerId b) in
  (forall r c x, cellAt (board b) r c = Some x ->
     cellAt (board b') r c =
       Some (if bool_decide (mkPos r c = p \/ SecondAt (mkPos r c) = s)
                && hidden b playerId (mkPos r c)
             then setFaceUp false x else x)) /\
  stateOf b' playerId = Some freshState.
Proof.
  intros Hst. destruct (stateOf_Some b playerId _ Hst) as (l & Hl & Ho & _).
  pose proof (cleanup_unmatched_eq b playerId l p s Hl Ho) as Hcl.
  destruct (turnDown_eq playerId p b) as (g1 & E1 & C1).
  unfold bind at 1 in Hcl. rewrite E1 in Hcl.
  destruct s as [|q].
  - (* the second flip never completed *)
    unfold bind at 1 in Hcl. rewrite resetState_eq in Hcl.
    set (b2 := set_playerStates _ _) in Hcl.
    rewrite Hcl. cbv zeta.
    pose proof (keeps_notifyAll b2 b2 (coreEq_refl b2)) as Hn.
    assert (Hcells : forall r c x, cellAt (board b) r c = Some x ->
              cellAt (board b2) r c =
                Some (if bool_decide (mkPos r c = p \/ SecondAt (mkPos r c) = NoneCardRef)
                         && hidden b playerId (mkPos r c)
                      then setFaceUp false x else x)).
    { intros r c x Hx. subst b2. cbn [board set_playerStates set_heap set_board].
      rewrite C1, Hx.
      destruct (bool_decide (mkPos r c = p)) eqn:D1.
      - apply bool_decide_eq_true in D1. subst p.
        rewrite bool_decide_eq_true_2 by (left; reflexivity).
        cbn [andb]. destruct (hidden b playerId (mkPos r c)); reflexivity.
      - apply bool_decide_eq_false in D1.
        rewrite bool_decide_eq_false_2 by (intros [?|?]; [contradiction | discriminate]).
        reflexivity. }
    assert (Hstate : stateOf b2 playerId = Some freshState).
    { subst b2. unfold stateOf. cbn. rewrite lookup_insert_eq. cbn.
      apply list_lookup_middle. reflexivity. }
    destruct (notifyAll b2) as [[[]|e] b3]; cbn [snd];
      destruct Hn as (_ & _ & Hg & Hh & Hp & _);
      (split; [intros r c x Hx; rewrite Hg; apply Hcells, Hx
              | rewrite <- Hstate; apply stateOf_ext; [exact Hh | exact Hp]]).
  - destruct (turnDown_eq playerId q (set_board g1 b)) as (g2 & E2 & C2).
    unfold bind at 1 in Hcl. rewrite E2 in Hcl. rewrite Hcl. cbv zeta.
    split; [|apply stateOf_reset].
    intros r c x Hx. rewrite resetState_eq.
    cbn [snd board set_playerStates set_heap set_board].
    rewrite C2. cbn [board set_board]. rewrite C1, Hx.
    assert (Hinj : (SecondAt (mkPos r c) = SecondAt q) <-> mkPos r c = q)
      by (split; [intros [= ->]; reflexivity | intros ->; reflexivity]).
    destruct (bool_decide (mkPos r c = p)) eqn:D1;
      [apply bool_decide_eq_true in D1 | apply bool_decide_eq_false in D1];
    (destruct (bool_decide (mkPos r c = q)) eqn:D2;
      [apply bool_decide_eq_true in D2 | apply bool_decide_eq_false in D2]).
    + (* both recorded cards are this cell *)
      rewrite bool_decide_eq_true_2 by (left; exact D1).
      assert (q = p) by congruence. subst q p.
      rewrite (hidden_after_turn g1 b playerId _ C1). cbn [andb].
      destruct (hidden b playerId (mkPos r c)); reflexivity.
    + rewrite bool_decide_eq_true_2 by (left; exact D1). subst p. cbn [andb].
      destruct (hidden b playerId (mkPos r c)); reflexivity.
    + rewrite bool_decide_eq_true_2 by (right; apply Hinj; exact D2). subst q. cbn [andb].
      rewrite hidden_set_board.
      * destruct (hidden b playerId (mkPos r c)); cbn; reflexivity.
      * cbn [row col]. rewrite C1.
        rewrite bool_decide_eq_false_2 by exact D1. reflexivity.
    + rewrite bool_decide_eq_false_2 by (rewrite Hinj; tauto). reflexivity.
Qed.

(** ** [map] run without interruption *)

Lemma cellsOfRow_In i j cells r c :
  In (mkPos r c) (cellsOfRow i j cells) <->
  r = i /\ j <= c < j + Z.of_nat (List.length cells).
Proof.
  revert j. induction cells as [|x cells IH]; intros j; cbn [cellsOfRow List.length In].
  - split; [tauto | lia].
  - rewrite IH. rewrite Nat2Z.inj_succ. split.
    + intros [[= -> ->]|[-> H]]; split; try reflexivity; lia.
    + intros [-> H]. destruct (decide (c = j)) as [->|Hne]; [left; reflexivity | right; split; [reflexivity | lia]].
Qed.

Lemma cellsOfRow_NoDup i j cells : NoDup (cellsOfRow i j cells).
Proof.
  revert j. induction cells as [|x cells IH]; intros j; cbn [cellsOfRow]; constructor.
  - rewrite list_elem_of_In, cellsOfRow_In. lia.
  - apply IH.
Qed.

Lemma positionsFrom_row i g p : In p (positionsFrom i g) -> i <= row p.
Proof.
  revert i. induction g as [|cells g IH]; intros i; cbn [positionsFrom]; [intros []|].
  rewrite in_app_iff. intros [H|H].
  - destruct p as [r c]. apply cellsOfRow_In in H. cbn. lia.
  - apply IH in H. lia.
Qed.

Lemma positionsFrom_NoDup i g : NoDup (positionsFrom i g).
Proof.
  revert i. induction g as [|cells g IH]; intros i; cbn [positionsFrom]; [constructor|].
  apply NoDup_app. split; [apply cellsOfRow_NoDup|]. split; [|apply IH].
  intros [r c] H1 H2. apply list_elem_of_In in H1, H2.
  apply cellsOfRow_In in H1. apply positionsFrom_row in H2. cbn in H2. lia.
Qed.

Lemma positionsFrom_In i g r c x :
  0 <= r - i -> cellAt g (r - i) c = Some x -> In (mkPos r c) (positionsFrom i g).
Proof.
  revert i. induction g as [|cells g IH]; intros i Hr Hx.
  - unfold cellAt in Hx. destruct (_ || _); [discriminate|]. cbn in Hx. discriminate.
  - cbn [positionsFrom]. apply in_app_iff.
    unfold cellAt in Hx. destruct (r - i <? 0) eqn:E1; [discriminate|].
    destruct (c <? 0) eqn:E2; [discriminate|]. cbn [orb] in Hx.
    apply Z.ltb_ge in E2.
    destruct (decide (r = i)) as [->|Hne].
    + left. replace (i - i) with 0 in Hx by lia. cbn in Hx.
      apply cellsOfRow_In. split; [reflexivity|].
      apply lookup_lt_Some in Hx. lia.
    + right. apply IH; [lia|]. unfold cellAt.
      replace (r - (i + 1) <? 0) with false by (symmetry; apply Z.ltb_ge; lia).
      replace (c <? 0) with false by (symmetry; apply Z.ltb_ge; lia). cbn [orb].
      replace (Z.to_nat (r - i)) with (S (Z.to_nat (r - (i + 1)))) in Hx by lia.
      exact Hx.
Qed.

Lemma positions_NoDup g : NoDup (positions g).
Proof. apply positionsFrom_NoDup. Qed.

Lemma positions_In g r c x : cellAt g r c = Some x -> mkPos r c ∈ positions g.
Proof.
  intros Hx. apply list_elem_of_In. apply (positionsFrom_In 0 g r c x).
  - unfold cellAt in Hx. destruct (r <? 0) eqn:E; [discriminate|]. apply Z.ltb_ge in E. lia.
  - replace (r - 0) with r by lia. exact Hx.
Qed.

Lemma runMap_done fuel calls (r : Res MapOut * Board) :
  (forall t b, r <> (Ret (MapAwait t), b)) -> runMap fuel calls r = (r, calls).
Proof.
  intros H. destruct r as [[[s|t]|e] b]; destruct fuel; try reflexivity;
    exfalso; eapply H; reflexivity.
Qed.

Lemma finish_mapDone playerId b :
  boardInv b ->
  (out <- finish playerId ;; ret (MapDone out)) b =
    (Ret (MapDone (snapshot (publish b) playerId)), publish b).
Proof.
  intros Hb. unfold bind. rewrite finish_ok by (apply boardInv_rep, Hb). reflexivity.
Qed.

Lemma cellInv_relabel f x : legalMap f -> cellInv x -> cellInv (relabel f x).
Proof.
  intros Hf [H1 H2]. unfold relabel. destruct (isEmpty (card x)) eqn:He; [split; assumption|].
  apply isEmpty_false in He. split; cbn; [exact H1|]. intros E. apply Hf in E; [contradiction | exact He].
Qed.

Section MapRun.
Variable playerId : string.
Variable f : string -> string.

(** What one uninterrupted sweep over the remaining cells [ps] comes to:
    the final part of [map] applied to a board whose cells at [ps] are
    relabelled, with [f] called exactly on the labels not yet in the memo
    table. *)
Lemma mapLoop_run ps : forall fuel replacements calls b,
  NoDup ps ->
  (List.length ps <= fuel)%nat ->
  (forall k v, replacements !! k = Some v -> v = f k) ->
  NoDup calls ->
  (forall k, k ∈ calls <-> is_Some (replacements !! k)) ->
  exists g calls',
    runMap fuel calls (mapLoop playerId f replacements ps b) =
      ((notifyAll ;;; out <- look playerId ;; checkRepFunctions ;;; ret (MapDone out))
         (set_board g b), calls') /\
    (forall r c, cellAt g r c =
       if bool_decide (mkPos r c ∈ ps) then relabel f <$> cellAt (board b) r c
       else cellAt (board b) r c) /\
    List.map (@List.length CardCell) g = List.map (@List.length CardCell) (board b) /\
    NoDup calls' /\
    (forall k, k ∈ calls' <->
       k ∈ calls \/
       exists p x, p ∈ ps /\ cellAt (board b) (row p) (col p) = Some x /\
                   card x = k /\ k <> EmptyString).
Proof.
  induction ps as [|p ps IH]; intros fuel memo calls b Hnd Hfuel Hmemo Hcalls Hdom.
  - exists (board b), calls. split; [|split; [|split; [|split]]].
    + cbn [mapLoop]. replace (set_board (board b) b) with b by (destruct b; reflexivity).
      apply runMap_done. intros t b'. unfold bind.
      destruct (notifyAll b) as [[[]|e] b1]; [|discriminate].
      destruct (look playerId b1) as [[s|e] b2]; [|discriminate].
      destruct (checkRepFunctions b2) as [[[]|e] b3]; discriminate.
    + intros r c. rewrite bool_decide_eq_false_2 by apply not_elem_of_nil. reflexivity.
    + reflexivity.
    + exact Hcalls.
    + intros k. split; [auto|]. intros [H|(q & x & Hq & _)]; [exact H|].
      apply not_elem_of_nil in Hq. contradiction.
  - apply NoDup_cons in Hnd. destruct Hnd as [Hp Hnd].
    cbn [List.length] in Hfuel.
    (* the three ways the body of the loop can go all lead to a board
       [b2] on which the rest of the sweep runs *)
    assert (Hstep : exists fuel' memo' calls1,
      let b2 := wr (relabel f) (row p) (col p) b in
      runMap fuel calls (mapLoop playerId f memo (p :: ps) b) =
        runMap fuel' calls1 (mapLoop playerId f memo' ps b2) /\
      (List.length ps <= fuel')%nat /\
      (forall k v, memo' !! k = Some v -> v = f k) /\
      NoDup calls1 /\
      (forall k, k ∈ calls1 <-> is_Some (memo' !! k)) /\
      (forall k, k ∈ calls1 <->
         k ∈ calls \/ exists x, cellAt (board b) (row p) (col p) = Some x /\
                                card x = k /\ k <> EmptyString)).
    { cbn [mapLoop]. unfold bind at 1. unfold readCell at 1.
      destruct (cellAt (board b) (row p) (col p)) as [x|] eqn:Hx.
      2:{ (* no cell there *)
        cbn [default card isEmpty String.length Nat.eqb].
        exists fuel, memo, calls.
        assert (Hb2 : wr (relabel f) (row p) (col p) b = b).
        { unfold wr. destruct (whenCell_write (relabel f) p b) as (g & E & _).
          unfold whenCell, bind, get in E. rewrite Hx in E. cbn in E.
          (* updating a cell that does not exist changes nothing *)
          assert (updCell (relabel f) (row p) (col p) (board b) = board b) as ->.
          { unfold updCell, cellAt in *.
            destruct ((row p <? 0) || (col p <? 0)); [reflexivity|].
            destruct (board b !! Z.to_nat (row p)) as [cells|] eqn:Hc; cbn in Hx.
            - apply list_eq. intros i. destruct (decide (i = Z.to_nat (row p))) as [->|Hne].
              + rewrite list_lookup_alter_eq, Hc. cbn. f_equal.
                apply list_eq. intros j. destruct (decide (j = Z.to_nat (col p))) as [->|Hne].
                * rewrite list_lookup_alter_eq, Hx. reflexivity.
                * rewrite list_lookup_alter_ne by congruence. reflexivity.
              + rewrite list_lookup_alter_ne by congruence. reflexivity.
            - apply list_eq. intros i. destruct (decide (i = Z.to_nat (row p))) as [->|Hne].
              + rewrite list_lookup_alter_eq, Hc. reflexivity.
              + rewrite list_lookup_alter_ne by congruence. reflexivity. }
          destruct b; reflexivity. }
        cbv zeta. rewrite Hb2. split; [reflexivity|]. split; [lia|].
        split; [exact Hmemo|]. split; [exact Hcalls|]. split; [exact Hdom|].
        intros k. split; [auto|]. intros [H|(x & Hx' & _)]; [exact H | discriminate]. }
      change (default (mkCell EmptyString false None) (Some x)) with x.
      destruct (isEmpty (card x)) eqn:He.
      - (* a removed card is skipped *)
        exists fuel, memo, calls.
        assert (Hb2 : wr (relabel f) (row p) (col p) b = b).
        { unfold wr.
          assert (updCell (relabel f) (row p) (col p) (board b) = board b) as ->.
          { unfold updCell, cellAt in *.
            destruct ((row p <? 0) || (col p <? 0)); [reflexivity|].
            destruct (board b !! Z.to_nat (row p)) as [cells|] eqn:Hc; cbn in Hx; [|discriminate].
            apply list_eq. intros i. destruct (decide (i = Z.to_nat (row p))) as [->|Hne].
            - rewrite list_lookup_alter_eq, Hc. cbn. f_equal.
              apply list_eq. intros j. destruct (decide (j = Z.to_nat (col p))) as [->|Hne].
              + rewrite list_lookup_alter_eq, Hx. cbn. unfold relabel. rewrite He. reflexivity.
              + rewrite list_lookup_alter_ne by congruence. reflexivity.
            - rewrite list_lookup_alter_ne by congruence. reflexivity. }
          destruct b; reflexivity. }
        cbv zeta. rewrite Hb2. split; [reflexivity|]. split; [lia|].
        split; [exact Hmemo|]. split; [exact Hcalls|]. split; [exact Hdom|].
        intros k. split; [auto|]. intros [H|(x' & [= <-] & Hk & Hne)]; [exact H|].
        apply isEmpty_true in He. congruence.
      - assert (Hrel : relabel f x = setCard (f (card x)) x)
          by (unfold relabel; rewrite He; reflexivity).
        assert (Hwr : forall m, m !! card x = Some (f (card x)) ->
                  substitute m p b = (Ret tt, wr (relabel f) (row p) (col p) b)).
        { intros m Hm. unfold substitute, bind, readCell, writeCell, modify, wr.
          rewrite Hx. change (default (mkCell EmptyString false None) (Some x)) with x.
          rewrite Hm. cbn [default]. f_equal. f_equal.
          unfold updCell. destruct ((row p <? 0) || (col p <? 0)); [reflexivity|].
          apply list_eq. intros i. destruct (decide (i = Z.to_nat (row p))) as [->|Hne].
          + rewrite !list_lookup_alter_eq. destruct (board b !! Z.to_nat (row p)) as [cells|] eqn:Hc; [|reflexivity].
            cbn. f_equal. apply list_eq. intros j.
            destruct (decide (j = Z.to_nat (col p))) as [->|Hne].
            * rewrite !list_lookup_alter_eq.
              unfold cellAt in Hx. destruct ((row p <? 0) || (col p <? 0)); [discriminate|].
              rewrite Hc in Hx. cbn in Hx. rewrite Hx. cbn. rewrite Hrel. reflexivity.
            * rewrite !list_lookup_alter_ne by congruence. reflexivity.
          + rewrite !list_lookup_alter_ne by congruence. reflexivity. }
        destruct (memo !! card x) as [v|] eqn:Hv.
        + (* the label is in the memo table *)
          exists fuel, memo, calls. cbv zeta.
          assert (v = f (card x)) as -> by (eapply Hmemo; eauto).
          unfold bind at 1. rewrite (Hwr memo Hv).
          split; [reflexivity|]. split; [lia|].
          split; [exact Hmemo|]. split; [exact Hcalls|]. split; [exact Hdom|].
          intros k. split; [auto|]. intros [H|(x' & [= <-] & Hk & Hne)]; [exact H|].
          subst k. apply Hdom. eauto.
        + (* [f] is called, and the sweep goes on when its promise resolves *)
          destruct fuel as [|fuel]; [lia|].
          exists fuel, (<[card x := f (card x)]> memo), (calls ++ [card x]). cbv zeta.
          split; [|split; [lia|split; [|split; [|split]]]].
          * unfold ret at 1. cbn [runMap m_key]. unfold resumeMap.
            cbn [m_key m_f m_replacements m_cell m_rest m_playerId].
            unfold bind at 1. rewrite (Hwr _ (lookup_insert_eq _ _ _)). reflexivity.
          * intros k v'. rewrite lookup_insert. case_decide as Hd.
            -- intros [= <-]. subst k. reflexivity.
            -- apply Hmemo.
          * apply NoDup_app. split; [exact Hcalls|]. split; [|apply NoDup_singleton].
            intros k Hk Hk'. apply list_elem_of_singleton in Hk'. subst k.
            apply Hdom in Hk. rewrite Hv in Hk. destruct Hk; discriminate.
          * intros k. rewrite elem_of_app, list_elem_of_singleton, lookup_insert.
            case_decide as Hd.
            -- subst k. split; [eauto | intros _; right; reflexivity].
            -- rewrite Hdom. split; [intros [H|H]; [exact H | congruence] | auto].
          * intros k. rewrite elem_of_app, list_elem_of_singleton. split.
            -- intros [H| ->]; [left; exact H|]. right. exists x.
               split; [reflexivity|]. split; [reflexivity|]. apply isEmpty_false, He.
            -- intros [H|(x' & [= <-] & Hk & _)]; [left; exact H | right; congruence]. }
    destruct Hstep as (fuel' & memo' & calls1 & Hrun & Hfuel' & Hmemo' & Hnd1 & Hdom1 & Hcalls1).
    cbv zeta in Hrun. set (b2 := wr (relabel f) (row p) (col p) b) in *.
    destruct (IH fuel' memo' calls1 b2 Hnd Hfuel' Hmemo' Hnd1 Hdom1)
      as (g & calls' & Erun & Hg & Hshape & Hndc & Hc').
    exists g, calls'. split; [|split; [|split; [|split]]].
    + rewrite Hrun, Erun. reflexivity.
    + intros r c. rewrite Hg. subst b2. rewrite cellAt_wr.
      destruct (bool_decide (mkPos r c = p)) eqn:D; [apply bool_decide_eq_true in D | apply bool_decide_eq_false in D].
      * subst p. rewrite bool_decide_eq_false_2 by exact Hp.
        rewrite bool_decide_eq_true_2 by (left). reflexivity.
      * destruct (bool_decide (mkPos r c ∈ ps)) eqn:D2;
          [apply bool_decide_eq_true in D2 | apply bool_decide_eq_false in D2].
        -- rewrite bool_decide_eq_true_2 by (right; exact D2). reflexivity.
        -- rewrite bool_decide_eq_false_2; [reflexivity|].
           intros H. apply elem_of_cons in H. destruct H; [congruence | contradiction].
    + rewrite Hshape. subst b2. cbn. apply updCell_shape.
    + exact Hndc.
    + intros k. rewrite Hc', Hcalls1. split.
      * intros [[H|(x & Hx & Hk & Hne)]|(q & x & Hq & Hx & Hk & Hne)].
        -- left; exact H.
        -- right. exists p, x. split; [left|]. auto.
        -- right. exists q, x. split; [right; exact Hq|]. split; [|auto].
           subst b2. rewrite cellAt_wr in Hx.
           rewrite bool_decide_eq_false_2 in Hx; [exact Hx|].
           intros E. destruct q; cbn in E. subst p. contradiction.
      * intros [H|(q & x & Hq & Hx & Hk & Hne)]; [left; left; exact H|].
        apply elem_of_cons in Hq. destruct Hq as [->|Hq].
        -- left. right. eauto.
        -- right. exists q, x. split; [exact Hq|]. split; [|auto].
           subst b2. rewrite cellAt_wr.
           rewrite bool_decide_eq_false_2; [exact Hx|].
           intros E. destruct q; cbn in E. subst p. contradiction.
Qed.
End MapRun.

(** The end of [map] either returns the snapshot after a publish, when the
    board passes [checkRepFunctions], or throws; it never touches the core
    fields. *)
Lemma finish_cases playerId b :
  exists res b1,
    finish playerId b = (res, b1) /\ coreEq b b1 /\
    (repFailure b = None -> res = Ret (snapshot b playerId) /\ b1 = publish b) /\
    (forall s, res = Ret s -> repFailure b = None).
Proof.
  destruct (repFailure b) as [msg|] eqn:Hrep.
  - exists (fst (finish playerId b)), (snd (finish playerId b)).
    split; [destruct (finish playerId b); reflexivity|].
    assert (Hcore : coreEq b (snd (finish playerId b)) /\
                    forall s, fst (finish playerId b) <> Ret s).
    { unfold finish, bind.
      pose proof (keeps_notifyAll b b (coreEq_refl b)) as Hn.
      destruct (notifyAll b) as [[[]|e] b1]; cbn in Hn; [|split; [exact Hn | discriminate]].
      assert (Hr1 : repFailure b1 = Some msg).
      { rewrite <- Hrep. destruct Hn as (H1 & H2 & H3 & _).
        apply repFailure_ext; assumption. }
      rewrite look_eq, Hr1. split; [exact Hn | discriminate]. }
    destruct Hcore as [Hcore Hthrow].
    split; [exact Hcore|]. split; [discriminate|].
    intros s Hs. exfalso. exact (Hthrow s Hs).
  - exists (Ret (snapshot b playerId)), (publish b).
    split; [apply finish_ok; exact Hrep|].
    split; [repeat split|]. split; [auto | reflexivity].
Qed.

Lemma map_run b playerId f fuel :
  boardInv b ->
  (List.length (positions (board b)) <= fuel)%nat ->
  exists b' calls res,
    runMap fuel [] (map playerId f b) = (res, b', calls) /\
    (forall r c, cellAt (board b') r c = relabel f <$> cellAt (board b) r c) /\
    sameShape b b' /\
    heap b' = heap b /\ playerStates b' = playerStates b /\
    claimLocks b' = claimLocks b /\
    NoDup calls /\
    (forall k, k ∈ calls <->
       k <> EmptyString /\ exists r c x, cellAt (board b) r c = Some x /\ card x = k) /\
    (forall out, res = Ret out ->
       out = MapDone (snapshot b' playerId) /\ published b b' /\ boardInv b') /\
    (legalMap f -> res = Ret (MapDone (snapshot b' playerId))).
Proof.
  intros Hb Hfuel.
  destruct (mapLoop_run playerId f (positions (board b)) fuel ∅ [] b
              (positions_NoDup _) Hfuel)
    as (g & calls & Erun & Hg & Hshape & Hnd & Hcalls).
  { intros k v. rewrite lookup_empty. discriminate. }
  { constructor. }
  { intros k. rewrite lookup_empty. split; [intros H; apply not_elem_of_nil in H; contradiction|].
    intros [v Hv]. discriminate. }
  assert (Hcells : forall r c, cellAt g r c = relabel f <$> cellAt (board b) r c).
  { intros r c. rewrite Hg. case_bool_decide as Hd; [reflexivity|].
    destruct (cellAt (board b) r c) as [x|] eqn:Hx; [|reflexivity].
    exfalso. apply Hd. eapply positions_In; eauto. }
  assert (Hlegal : legalMap f -> boardInv (set_board g b)).
  { intros Hf. eapply (boardInv_cells b); [exact Hb | repeat split; exact Hshape |].
    intros r c y. cbn. rewrite Hcells.
    destruct (cellAt (board b) r c) as [x|] eqn:Hx; cbn; [|discriminate].
    intros [= <-]. apply cellInv_relabel; [exact Hf|].
    apply (proj2 (proj2 (proj2 (proj2 Hb))) _ _ _ Hx). }
  destruct (finish_cases playerId (set_board g b)) as (res & b1 & Efin & Hcore & Hok & Hret).
  assert (Hmap : runMap fuel [] (map playerId f b) =
                 (match res with Ret s => Ret (MapDone s) | Throw e => Throw e end, b1, calls)).
  { unfold map. unfold bind at 1. unfold get. rewrite Erun.
    rewrite (finish_bind playerId MapDone). unfold bind. rewrite Efin.
    destruct res; reflexivity. }
  destruct Hcore as (Hh & Hw & Hbd & Hheap & Hps & Hcl). cbn in Hh, Hw, Hbd, Hheap, Hps, Hcl.
  exists b1, calls, (match res with Ret s => Ret (MapDone s) | Throw e => Throw e end).
  split; [exact Hmap|].
  split; [intros r c; rewrite Hbd; apply Hcells|].
  split; [unfold sameShape; rewrite Hh, Hw, Hbd; repeat split; exact Hshape|].
  split; [exact Hheap|]. split; [exact Hps|]. split; [exact Hcl|].
  split; [exact Hnd|].
  split.
  { intros k. rewrite Hcalls. split.
    + intros [H|(p & x & Hp & Hx & Hk & Hne)]; [apply not_elem_of_nil in H; contradiction|].
      split; [exact Hne|]. exists (row p), (col p), x. auto.
    + intros (Hne & r & c & x & Hx & Hk). right. exists (mkPos r c), x.
      split; [eapply positions_In; eauto|]. cbn. auto. }
  split.
  - intros out Hout. destruct res as [s|e]; [|discriminate Hout].
    injection Hout as <-.
    pose proof (Hret s eq_refl) as Hrep.
    destruct (Hok Hrep) as [Hs ->]. injection Hs as ->.
    split; [reflexivity|]. split; [apply published_publish; reflexivity|].
    apply repFailure_None. rewrite <- Hrep. apply repFailure_ext; reflexivity.
  - intros Hf. pose proof (Hlegal Hf) as Hb1.
    destruct (Hok (boardInv_rep _ Hb1)) as [-> ->]. reflexivity.
Qed.

(** ** [parseFromFile] *)




Lemma allCards_nonempty ls :
  Forall (fun t => isEmpty t = false) (Parse.allCardsOf ls).
Proof.
  unfold Parse.allCardsOf. apply Forall_forall. intros t Hin.
  apply list_elem_of_In, filter_In in Hin. destruct Hin as [_ H].
  apply negb_true_iff in H. exact H.
Qed.

(** *** The two loops *)

Lemma index_Some {A} (l : list A) (k : nat) x :
  l !! k = Some x -> Parse.index l (Z.of_nat k) = Some x.
Proof.
  intros H. unfold Parse.index.
  replace (Z.of_nat k <? 0) with false by (symmetry; apply Z.ltb_ge; lia).
  rewrite Nat2Z.id. exact H.
Qed.

Lemma innerLoop_ok allCards i w n : forall j0 rowAcc counts base,
  Forall (fun t => isEmpty t = false) allCards ->
  i * w + j0 = Z.of_nat base ->
  (base + n <= List.length allCards)%nat ->
  Parse.innerLoop allCards i w (seqZ j0 (Z.of_nat n)) rowAcc counts =
    Ret (rowAcc ++ take n (drop base allCards),
         foldl bump counts (take n (drop base allCards))).
Proof.
  induction n as [|n IH]; intros j0 rowAcc counts base Hne Hbase Hlen.
  - cbn. rewrite app_nil_r. reflexivity.
  - rewrite seqZ_cons by lia. cbn [Parse.innerLoop].
    destruct (lookup_lt_is_Some_2 allCards base) as [card Hcard]; [lia|].
    rewrite Hbase, (index_Some _ _ _ Hcard).
    assert (He : isEmpty card = false).
    { rewrite Forall_forall in Hne. apply Hne. eapply list_elem_of_lookup_2; eauto. }
    rewrite He.
    replace (Z.pred (Z.of_nat (S n))) with (Z.of_nat n) by lia.
    rewrite (IH (Z.succ j0) _ _ (S base)); [|exact Hne|lia|lia].
    rewrite (drop_S _ _ _ Hcard). cbn [take foldl]. rewrite <- app_assoc. reflexivity.
Qed.

Lemma take_plus {A} (l : list A) n m :
  take (n + m) l = take n l ++ take m (drop n l).
Proof.
  revert l. induction n as [|n IH]; intros l; [reflexivity|].
  destruct l as [|x l]; cbn; [destruct m; reflexivity|]. rewrite IH. reflexivity.
Qed.

Lemma outerLoop_ok allCards w wn k : forall i0 cards counts,
  Forall (fun t => isEmpty t = false) allCards ->
  w = Z.of_nat wn -> 0 <= i0 ->
  (Z.to_nat i0 * wn + k * wn <= List.length allCards)%nat ->
  Parse.outerLoop allCards w (seqZ i0 (Z.of_nat k)) cards counts =
    Ret (cards ++ chunk wn k (drop (Z.to_nat i0 * wn) allCards),
         foldl bump counts (take (k * wn) (drop (Z.to_nat i0 * wn) allCards))).
Proof.
  induction k as [|k IH]; intros i0 cards counts Hne Hw Hi Hlen.
  - cbn. rewrite app_nil_r. reflexivity.
  - rewrite seqZ_cons by lia. cbn [Parse.outerLoop].
    rewrite Hw at 2.
    rewrite (innerLoop_ok allCards i0 w wn 0 [] counts (Z.to_nat i0 * wn));
      [|exact Hne|subst w; nia|lia].
    replace (Z.pred (Z.of_nat (S k))) with (Z.of_nat k) by lia.
    rewrite (IH (Z.succ i0)); [|exact Hne|exact Hw|lia|nia].
    replace (Z.to_nat (Z.succ i0) * wn)%nat with (Z.to_nat i0 * wn + wn)%nat by nia.
    rewrite <- drop_drop.
    set (l := drop (Z.to_nat i0 * wn) allCards).
    replace (S k * wn)%nat with (wn + k * wn)%nat by lia.
    rewrite take_plus, foldl_app. cbn [chunk app]. rewrite <- app_assoc. reflexivity.
Qed.

(** *** The table of counts *)

Lemma mapGet_mapSet k c v m :
  Parse.mapGet k (Parse.mapSet c v m) =
    if String.eqb c k then Some v else Parse.mapGet k m.
Proof.
  induction m as [|[k' v'] m IH]; cbn.
  - reflexivity.
  - destruct (String.eqb k' c) eqn:E1; cbn.
    + apply String.eqb_eq in E1. subst k'. destruct (String.eqb c k); reflexivity.
    + rewrite IH. destruct (String.eqb k' k) eqn:E2; [|reflexivity].
      apply String.eqb_eq in E2. subst k'. rewrite String.eqb_sym, E1. reflexivity.
Qed.

Lemma countOf_nonneg t l : 0 <= countOf t l.
Proof. induction l as [|x l IH]; cbn; [lia|]. destruct (String.eqb x t); lia. Qed.

Lemma countOf_In t l : countOf t l <> 0 -> In t l.
Proof.
  induction l as [|x l IH]; cbn; [lia|].
  destruct (String.eqb x t) eqn:E; [apply String.eqb_eq in E; auto|].
  intros H. right. apply IH. lia.
Qed.

Lemma mapGet_foldl l : forall m k,
  Parse.mapGet k (foldl bump m l) =
    if countOf k l =? 0 then Parse.mapGet k m
    else Some (default 0 (Parse.mapGet k m) + countOf k l).
Proof.
  induction l as [|c l IH]; intros m k; cbn [foldl countOf]; [reflexivity|].
  rewrite IH. change (bump m c) with (Parse.mapSet c (default 0 (Parse.mapGet c m) + 1) m).
  rewrite mapGet_mapSet.
  pose proof (countOf_nonneg k l) as Hn.
  destruct (String.eqb c k) eqn:E.
  - apply String.eqb_eq in E. subst c.
    replace (1 + countOf k l =? 0) with false by (symmetry; apply Z.eqb_neq; lia).
    destruct (countOf k l =? 0) eqn:E0; cbn.
    all: try (apply Z.eqb_eq in E0; rewrite E0); f_equal; lia.
  - rewrite Z.add_0_l. reflexivity.
Qed.

Lemma keys_mapSet c v m k :
  In k (List.map fst (Parse.mapSet c v m)) <-> k = c \/ In k (List.map fst m).
Proof.
  induction m as [|[k' v'] m IH]; cbn.
  - intuition.
  - destruct (String.eqb k' c) eqn:E; cbn.
    + apply String.eqb_eq in E. subst k'. intuition.
    + rewrite IH. intuition.
Qed.

Lemma NoDup_mapSet c v m :
  List.NoDup (List.map fst m) -> List.NoDup (List.map fst (Parse.mapSet c v m)).
Proof.
  induction m as [|[k' v'] m IH]; cbn; intros H.
  - constructor; [intros []|constructor].
  - inversion H as [|? ? Hnin Hnd]; subst.
    destruct (String.eqb k' c) eqn:E; cbn.
    + apply String.eqb_eq in E. subst k'. constructor; assumption.
    + constructor; [|apply IH, Hnd].
      rewrite keys_mapSet. intros [->|Hin]; [|contradiction].
      rewrite String.eqb_refl in E. discriminate.
Qed.

Lemma NoDup_foldl l : forall m,
  List.NoDup (List.map fst m) -> List.NoDup (List.map fst (foldl bump m l)).
Proof.
  induction l as [|c l IH]; intros m H; cbn [foldl]; [exact H|].
  apply IH. unfold bump. apply NoDup_mapSet, H.
Qed.

Lemma In_mapGet k n m :
  List.NoDup (List.map fst m) -> In (k, n) m -> Parse.mapGet k m = Some n.
Proof.
  induction m as [|[k' v'] m IH]; cbn; intros Hnd Hin; [contradiction|].
  inversion Hnd as [|? ? Hnin Hnd']; subst.
  destruct Hin as [[= -> ->]|Hin].
  - rewrite String.eqb_refl. reflexivity.
  - destruct (String.eqb k' k) eqn:E; [|apply IH; assumption].
    apply String.eqb_eq in E. subst k'. exfalso. apply Hnin.
    apply in_map_iff. exists (k, n). split; [reflexivity | exact Hin].
Qed.

Lemma mapGet_In k n m : Parse.mapGet k m = Some n -> In (k, n) m.
Proof.
  induction m as [|[k' v'] m IH]; cbn; [discriminate|].
  destruct (String.eqb k' k) eqn:E.
  - apply String.eqb_eq in E. subst k'. intros [= ->]. left. reflexivity.
  - intros H. right. apply IH, H.
Qed.

Lemma rem2_even n : 0 <= n -> (Z.rem n 2 =? 0) = Z.even n.
Proof.
  intros Hn. rewrite Z.rem_mod_nonneg by lia. rewrite Zmod_even.
  destruct (Z.even n); reflexivity.
Qed.

(** The first entry of the table with an odd count, if there is one, is a
    token of the file with its number of occurrences; if there is none, all
    tokens occur an even number of times. *)
Lemma find_odd_Some l k n :
  List.find (fun e => negb (Z.rem (snd e) 2 =? 0)) (foldl bump [] l) = Some (k, n) ->
  n = countOf k l /\ Z.odd n = true /\ In k l.
Proof.
  intros H. apply find_some in H. destruct H as [Hin Hodd]. cbn [snd] in Hodd.
  apply In_mapGet in Hin; [|apply NoDup_foldl; constructor].
  rewrite mapGet_foldl in Hin. cbn [Parse.mapGet default] in Hin.
  destruct (countOf k l =? 0) eqn:E0; [discriminate|].
  injection Hin as Hn. rewrite Z.add_0_l in Hn. subst n.
  apply Z.eqb_neq in E0.
  split; [reflexivity|]. split; [|apply countOf_In, E0].
  rewrite rem2_even in Hodd by apply countOf_nonneg.
  rewrite <- Z.negb_even. exact Hodd.
Qed.

Lemma find_odd_None l :
  List.find (fun e => negb (Z.rem (snd e) 2 =? 0)) (foldl bump [] l) = None ->
  forall t, Z.even (countOf t l) = true.
Proof.
  intros H t. destruct (countOf t l =? 0) eqn:E0.
  - apply Z.eqb_eq in E0. rewrite E0. reflexivity.
  - pose proof (mapGet_foldl l [] t) as Hg. rewrite E0 in Hg. cbn [Parse.mapGet default] in Hg.
    rewrite Z.add_0_l in Hg. apply mapGet_In in Hg.
    pose proof (find_none _ _ H _ Hg) as Hodd. cbn [snd] in Hodd.
    apply negb_false_iff in Hodd. rewrite rem2_even in Hodd by apply countOf_nonneg.
    exact Hodd.
Qed.

(** *** The constructor accepts what the loops build *)

Lemma chunk_length wn k l : List.length (chunk wn k l) = k.
Proof. revert l. induction k as [|k IH]; intros l; cbn; [reflexivity|]. rewrite IH. reflexivity. Qed.

Lemma chunk_rows wn k l cells :
  (k * wn <= List.length l)%nat -> In cells (chunk wn k l) ->
  List.length cells = wn /\ forall t, In t cells -> In t l.
Proof.
  revert l. induction k as [|k IH]; intros l Hlen; cbn; [intros []|].
  intros [<-|Hin].
  - split; [rewrite length_take; lia|]. intros t Ht.
    rewrite <- (take_drop wn l). apply in_app_iff. left. exact Ht.
  - assert (Hl' : (k * wn <= List.length (drop wn l))%nat) by (rewrite length_drop; lia).
    destruct (IH (drop wn l) Hl' Hin) as [H1 H2].
    split; [exact H1|]. intros t Ht.
    rewrite <- (take_drop wn l). apply in_app_iff. right. apply H2, Ht.
Qed.

Lemma newBoard_chunks h w hn wn l :
  h = Z.of_nat hn -> w = Z.of_nat wn -> 0 < h -> 0 < w ->
  (hn * wn <= List.length l)%nat ->
  Forall (fun t => isEmpty t = false) l ->
  exists b, newBoard h w (chunk wn hn l) = Ret b /\ height b = h /\ width b = w.
Proof.
  intros Hh Hw Hhp Hwp Hlen Hne. unfold newBoard. cbv zeta.
  set (b := mkBoard _ _ _ _ _ _ _ _).
  assert (Hrep : rep0Failure b = None).
  { unfold rep0Failure. cbn [height width board b].
    replace (0 <? h) with true by (symmetry; apply Z.ltb_lt; lia).
    replace (0 <? w) with true by (symmetry; apply Z.ltb_lt; lia).
    rewrite length_map, chunk_length, Hh, Z.eqb_refl. cbn [negb].
    apply firstSome_None. apply Forall_forall. intros cells Hin.
    apply list_elem_of_In, in_map_iff in Hin. destruct Hin as (row0 & <- & Hin).
    destruct (chunk_rows wn hn l row0 Hlen Hin) as [Hl Hsub].
    unfold checkRow0. rewrite length_map, Hl, Hw, Z.eqb_refl. cbn [negb].
    apply firstSome_None. apply Forall_forall. intros x Hx.
    apply list_elem_of_In, in_map_iff in Hx. destruct Hx as (c0 & <- & Hc0).
    unfold checkCell0. cbn [card controller faceUp].
    rewrite Forall_forall in Hne. specialize (Hne c0 (proj2 (list_elem_of_In _ _) (Hsub _ Hc0))).
    destruct c0; [discriminate Hne|]. reflexivity. }
  rewrite Hrep. exists b. auto.
Qed.

(** *** [parseFromFile], case by case *)

Lemma parseCards_loops lines h w :
  0 < h -> 0 < w ->
  Z.of_nat (List.length (Parse.allCardsOf lines)) = h * w ->
  Parse.outerLoop (Parse.allCardsOf lines) w (seqZ 0 h) [] [] =
    Ret (chunk (Z.to_nat w) (Z.to_nat h) (Parse.allCardsOf lines),
         foldl bump [] (Parse.allCardsOf lines)).
Proof.
  intros Hh Hw Hlen. set (l := Parse.allCardsOf lines) in *.
  assert (Hl : List.length l = (Z.to_nat h * Z.to_nat w)%nat).
  { rewrite <- Z2Nat.inj_mul by lia. rewrite <- Hlen, Nat2Z.id. reflexivity. }
  rewrite <- (Z2Nat.id h) at 1 by lia.
  rewrite (outerLoop_ok l w (Z.to_nat w) (Z.to_nat h) 0 [] []);
    [|apply allCards_nonempty|lia|lia|rewrite Hl; cbn; apply Nat.le_refl].
  change (Z.to_nat 0 * Z.to_nat w)%nat with 0%nat. rewrite !drop_0. cbn [app].
  rewrite firstn_all2 by (rewrite Hl; apply Nat.le_refl). reflexivity.
Qed.

Lemma odd_even n : Z.odd n = negb (Z.even n).
Proof. symmetry. apply Z.negb_even. Qed.

Lemma parseDimensions_pos s h w :
  Parse.parseDimensions s = Ret (h, w) -> 0 < h /\ 0 < w.
Proof.
  unfold Parse.parseDimensions.
  destruct (JS.split "x" s) as [|d0 [|d1 [|? ?]]]; try discriminate.
  destruct (isEmpty (JS.trim d0) || isEmpty (JS.trim d1)); [discriminate|].
  destruct (JS.parseInt (JS.trim d0)) as [h'|]; [|discriminate].
  destruct (JS.parseInt (JS.trim d1)) as [w'|]; [|discriminate].
  destruct ((h' <=? 0) || (w' <=? 0)) eqn:E; [discriminate|].
  intros [= <- <-]. apply orb_false_iff in E. destruct E as [E1 E2].
  apply Z.leb_gt in E1, E2. lia.
Qed.

Lemma parseDimensions_nonempty s h w :
  Parse.parseDimensions s = Ret (h, w) -> isEmpty s = false.
Proof. destruct s; [discriminate | reflexivity]. Qed.

Section ParseSpec.
Variable content : string.
Let lines := Parse.linesOf content.
Let firstLine := JS.trim (default EmptyString (head lines)).
Let tokens := Parse.allCardsOf lines.

Lemma parse_empty :
  firstLine = EmptyString ->
  Parse.parseFromFile content = Throw (Error "empty board file").
Proof.
  intros H. unfold Parse.parseFromFile. cbv zeta. fold lines. fold firstLine.
  rewrite H. reflexivity.
Qed.

Lemma parse_with_dimensions h w :
  Parse.parseDimensions firstLine = Ret (h, w) ->
  Parse.parseFromFile content = Parse.parseCards lines h w.
Proof.
  intros H. unfold Parse.parseFromFile. cbv zeta. fold lines. fold firstLine.
  rewrite (parseDimensions_nonempty _ _ _ H), H. reflexivity.
Qed.


Lemma parseCards_cases h w :
  0 < h -> 0 < w ->
  (Z.of_nat (List.length lines) < h + 1 ->
     Parse.parseCards lines h w = Throw (Error "insufficient board rows")) /\
  (h + 1 <= Z.of_nat (List.length lines) ->
     (Z.odd (h * w) = true ->
        Parse.parseCards lines h w = Throw (Error "total number of cards must be even")) /\
     (Z.even (h * w) = true -> Z.of_nat (List.length tokens) <> h * w ->
        Parse.parseCards lines h w =
          Throw (Error (Parse.expectedMsg h w (Z.of_nat (List.length tokens))))) /\
     (Z.even (h * w) = true -> Z.of_nat (List.length tokens) = h * w ->
        (exists t, In t tokens /\ Z.odd (countOf t tokens) = true /\
           Parse.parseCards lines h w =
             Throw (Error (Parse.oddMsg t (countOf t tokens)))) \/
        ((forall t, Z.even (countOf t tokens) = true) /\
         exists b, Parse.parseCards lines h w = Ret b /\ height b = h /\ width b = w))).
Proof.
  intros Hh Hw. unfold Parse.parseCards. cbv zeta. fold tokens. split.
  - intros Hlt. apply Z.ltb_lt in Hlt. rewrite Hlt. reflexivity.
  - intros Hge. replace (Z.of_nat (List.length lines) <? h + 1) with false
      by (symmetry; apply Z.ltb_ge; lia).
    rewrite rem2_even by nia. split; [|split].
    + intros Hodd. rewrite odd_even in Hodd. rewrite Hodd. reflexivity.
    + intros Hev Hne. rewrite Hev. cbn [negb].
      apply Z.eqb_neq in Hne. rewrite Hne. reflexivity.
    + intros Hev Hlen. rewrite Hev. cbn [negb]. rewrite Hlen, Z.eqb_refl. cbn [negb].
      unfold tokens in *. rewrite (parseCards_loops lines h w Hh Hw Hlen). fold tokens.
      destruct (List.find _ (foldl bump [] tokens)) as [[k n]|] eqn:Hfind.
      * left. apply find_odd_Some in Hfind. destruct Hfind as (-> & Hodd & Hin).
        exists k. auto.
      * right. split; [apply find_odd_None, Hfind|].
        apply (newBoard_chunks h w (Z.to_nat h) (Z.to_nat w)); try lia.
        -- rewrite <- Z2Nat.inj_mul by lia. rewrite <- Hlen, Nat2Z.id. reflexivity.
        -- apply allCards_nonempty.
Qed.
End ParseSpec.

(** ** Keys of the claim registry *)

Lemma pretty_N_go_noComma x : forall s, noComma s -> noComma (pretty_N_go x s).
Proof.
  induction (N.lt_wf_0 x) as [x _ IH]; intros s Hs.
  destruct (decide (x = 0)%N) as [->|Hx]; [rewrite pretty_N_go_0; exact Hs|].
  rewrite pretty_N_go_step by lia. apply IH; [apply N.div_lt; lia|].
  split; [|exact Hs]. unfold pretty_N_char. repeat case_match; discriminate.
Qed.

Lemma pretty_N_noComma (x : N) : noComma (pretty x).
Proof.
  unfold pretty, pretty_N. case_decide; [cbn; split; [discriminate | exact I]|].
  apply pretty_N_go_noComma. exact I.
Qed.

Lemma ofNumber_noComma n : noComma (JS.ofNumber n).
Proof.
  unfold JS.ofNumber, pretty, pretty_Z. destruct n as [|p|p].
  - cbn. split; [discriminate | exact I].
  - apply pretty_N_noComma.
  - cbn. split; [discriminate | apply pretty_N_noComma].
Qed.

Lemma comma_split s1 : forall s2 t1 t2,
  noComma s1 -> noComma s2 ->
  s1 +:+ String "," t1 = s2 +:+ String "," t2 -> s1 = s2 /\ t1 = t2.
Proof.
  induction s1 as [|a s1 IH]; intros [|a2 s2] t1 t2 H1 H2; cbn.
  - intros [= ->]. split; reflexivity.
  - intros [= <- _]. destruct H2 as [H2 _]. contradiction.
  - intros [= -> _]. destruct H1 as [H1 _]. contradiction.
  - intros [= -> Hrest]. destruct H1 as [_ H1], H2 as [_ H2].
    destruct (IH s2 t1 t2 H1 H2 Hrest) as [-> ->]. split; reflexivity.
Qed.

(** A key of the registry names one cell. *)
Lemma cellKey_inj r c r' c' : cellKey r c = cellKey r' c' -> r = r' /\ c = c'.
Proof.
  unfold cellKey. intros H.
  apply comma_split in H; [|apply ofNumber_noComma..].
  destruct H as [H1 H2]. split; apply (inj pretty); assumption.
Qed.

Lemma tryClaimCell_free b r c owner :
  claimLocks b !! cellKey r c = None ->
  tryClaimCell r c owner b =
    (Ret true, set_claimLocks (<[cellKey r c := owner]> (claimLocks b)) b).
Proof. intros H. unfold tryClaimCell, bind, get. rewrite H. reflexivity. Qed.

Lemma tryClaimCell_taken b r c owner o :
  claimLocks b !! cellKey r c = Some o ->
  tryClaimCell r c owner b = (Ret false, b).
Proof. intros H. unfold tryClaimCell, bind, get. rewrite H. reflexivity. Qed.

Lemma releaseClaim_held b r c owner :
  claimLocks b !! cellKey r c = Some owner ->
  releaseClaim r c owner b =
    (Ret tt, set_claimLocks (delete (cellKey r c) (claimLocks b)) b).
Proof.
  intros H. unfold releaseClaim, bind, get.
  rewrite bool_decide_eq_true_2 by exact H. reflexivity.
Qed.

Lemma releaseClaim_not_held b r c owner :
  claimLocks b !! cellKey r c <> Some owner ->
  releaseClaim r c owner b = (Ret tt, b).
Proof.
  intros H. unfold releaseClaim, bind, get.
  rewrite bool_decide_eq_false_2 by exact H. reflexivity.
Qed.

(** ** [cleanupPreviousMove] and the cell invariant alone *)

Lemma cellsOK_core : coreProp cellsOK.
Proof. intros b b' (_ & _ & Hg & _) H r c x. rewrite Hg. apply H. Qed.

Lemma cellsOK_wr b f r c :
  cellsOK b ->
  (forall x, cellAt (board b) r c = Some x -> cellInv (f x)) ->
  cellsOK (wr f r c b).
Proof.
  intros H Hf r' c' x. cbn. rewrite cellAt_updCell. case_decide as Hd.
  - destruct (cellAt (board b) r c) as [x0|] eqn:Hx; cbn; [|discriminate].
    intros [= <-]. apply Hf. reflexivity.
  - apply H.
Qed.

Lemma keeps_cellsOK_cleanup playerId : keeps cellsOK (cleanupPreviousMove playerId).
Proof.
  assert (Hrm : forall p, keeps cellsOK (whenCell p (fun _ => writeCell removeCell (row p) (col p)))).
  { intros p b Hb. unfold whenCell, bind, get.
    destruct (cellAt (board b) (row p) (col p)); [|exact Hb].
    apply (cellsOK_wr b); [exact Hb|]. intros x _. split; cbn; [congruence | auto]. }
  assert (Htd : forall p, keeps cellsOK (turnDown playerId p)).
  { intros p b Hb. unfold turnDown, whenCell, bind, get.
    destruct (cellAt (board b) (row p) (col p)) as [x|] eqn:Hx; [|exact Hb].
    destruct (faceUp x && bool_decide (controller x = None)) eqn:Hc; [|exact Hb].
    destruct (negb (isCardInPlayerStates b playerId (row p) (col p))); [|exact Hb].
    apply (cellsOK_wr b); [exact Hb|]. intros x' Hx'. rewrite Hx in Hx'. injection Hx' as <-.
    apply andb_true_iff in Hc. destruct Hc as [_ Hc]. apply bool_decide_eq_true in Hc.
    split; cbn; [congruence | intros _; split; [reflexivity | exact Hc]]. }
  assert (Hrs : keeps cellsOK (resetState playerId)).
  { intros b Hb. exact Hb. }
  unfold cleanupPreviousMove.
  repeat first [ keeps_step | apply Hrm | apply Htd | apply Hrs
               | apply (keeps_core notifyAll cellsOK keeps_notifyAll cellsOK_core) ].
Qed.

Lemma cleanup_boardInv b playerId :
  boardInv b ->
  boardInv (snd (cleanupPreviousMove playerId b)) /\
  sameShape b (snd (cleanupPreviousMove playerId b)).
Proof.
  intros Hb.
  pose proof (shape_cleanupPreviousMove b playerId b (sameShape_refl b)) as Hs.
  pose proof (keeps_cellsOK_cleanup playerId b (proj2 (proj2 (proj2 (proj2 Hb))))) as Hc.
  destruct (cleanupPreviousMove playerId b) as [[[]|e] b']; cbn;
    (split; [eapply boardInv_cells; eauto | exact Hs]).
Qed.

(** ** Every segment keeps the dimensions and the shape of the grid *)

Lemma exec_shape a w : sameShape (brd w) (brd (exec a w)).
Proof.
  destruct a; cbn [exec].
  - pose proof (keeps_look (sameShape (brd w)) playerId (brd w) (sameShape_refl _)) as H.
    destruct (look playerId (brd w)) as [[s|e] b']; exact H.
  - pose proof (shape_flip (brd w) playerId r c (brd w) (sameShape_refl _)) as H.
    destruct (flip playerId r c (brd w)) as [[s|e] b']; exact H.
  - pose proof (shape_map (brd w) playerId f (brd w) (sameShape_refl _)) as H.
    unfold afterMap. destruct (map playerId f (brd w)) as [[[s|t]|e] b']; exact H.
  - pose proof (shape_watch (brd w) playerId KWatch (brd w) (sameShape_refl _)) as H.
    destruct (watch playerId KWatch (brd w)) as [[s|e] b']; exact H.
  - destruct (jobs (brd w) !! i) as [[l s]|]; [|apply sameShape_refl].
    cbn [brd]. destruct (kont l) as [|pt q r c st]; cbn [runKont].
    + repeat split.
    + set (b := set_jobs _ _).
      pose proof (shape_resumeFlip (brd w) pt q r c st b (sameShape_refl _)) as H.
      unfold bind. destruct (resumeFlip pt q r c st b) as [[o|e] b']; exact H.
  - destruct (maps w !! i) as [t|]; [|apply sameShape_refl].
    pose proof (shape_resumeMap (brd w) t (brd w) (sameShape_refl _)) as H.
    unfold afterMap. destruct (resumeMap t (brd w)) as [[[s|t']|e] b']; exact H.
Qed.

Import Example.
Import Races.

(** * The statements about the specification *)

(** ** Facts about the example game *)

Lemma board2x2_new : newBoard 2 2 cards2x2 = Ret board2x2.
Proof. reflexivity. Qed.

Lemma board2x2_inv : boardInv board2x2.
Proof. apply repFailure_None. reflexivity. Qed.

Lemma start_reachable : reachable start.
Proof. exact (reach_new 2 2 cards2x2 board2x2 board2x2_new). Qed.

Lemma afterFirst_reachable : reachable afterFirst.
Proof. exact (reach_exec (CallFlip "p1" 0 0) start start_reachable I). Qed.

Lemma afterMatch_reachable : reachable afterMatch.
Proof. exact (reach_exec (CallFlip "p1" 1 1) afterFirst afterFirst_reachable I). Qed.

Lemma afterMiss_reachable : reachable afterMiss.
Proof. exact (reach_exec (CallFlip "p1" 0 1) afterFirst afterFirst_reachable I). Qed.

Lemma twoPlayers_reachable : reachable twoPlayers.
Proof. exact (reach_exec (CallFlip "p2" 1 0) afterFirst afterFirst_reachable I). Qed.

Lemma afterRemoval_reachable : reachable afterRemoval.
Proof.
  unfold afterRemoval.
  repeat (apply reach_exec; [|exact I]). exact start_reachable.
Qed.

Lemma mark_legal : legalMap mark.
Proof. intros c Hc. destruct c; [contradiction | discriminate]. Qed.

(** A face-down cell that holds a card is rendered like a face-up card
    nobody or somebody else controls. *)
Lemma renderCell_face_down viewer x :
  card x <> EmptyString -> faceUp x = false ->
  renderCell viewer x = JS.trim ("up " +:+ card x).
Proof.
  intros Hc Hf. unfold renderCell.
  rewrite (proj2 (isEmpty_false _) Hc), Hf.
  rewrite andb_false_r. reflexivity.
Qed.

(** ** [look] *)

(** C1 (the code departs from the statement). The board parsed from the
    file "2x2 / A / B / B / A" has all four cards face down and no flip has
    happened, yet [look] answers the header followed by "up A", "up B",
    "up B", "up A": the code renders a face-down card as "up {card}" and
    never as "down". *)
Theorem look_shows_face_down_cards :
  Parse.parseFromFile file2x2 = Ret board2x2 /\
  Forall (Forall (fun x => faceUp x = false /\ card x <> EmptyString))
         (board board2x2) /\
  look "p1" board2x2 =
    (Ret ("2x2" +:+ JS.nl +:+ "up A" +:+ JS.nl +:+ "up B" +:+ JS.nl +:+
          "up B" +:+ JS.nl +:+ "up A"), board2x2).
Proof.
  split; [vm_compute; reflexivity|]. split; [|vm_compute; reflexivity].
  repeat constructor; discriminate.
Qed.

(** ** [parseFromFile] *)




(** ** [cleanupPreviousMove] *)

(** C3. The clean-up at the start of a flip goes by the caller's state.
    Idle: the board is left as it is.  HoldingPair(p, q, matched): the cells
    at p and q become the cell with no card, face down and without
    controller, so that they render "none" to every viewer, all other cells
    are left alone and the state is Idle again.  HoldingPair(p, s, not
    matched), with s a position or absent: a recorded cell keeps its card
    and controller and is face down afterwards exactly when it exists, is
    face up, has no controller and no other player's state refers to it as
    first or second card; every other cell is as before, and the state is
    Idle again. *)
Theorem cleanup_by_state (b : Board) (playerId : string) :
  (isIdle b playerId -> cleanupPreviousMove playerId b = (Ret tt, b)) /\
  (forall p q, stateOf b playerId = Some (holdingPair p (SecondAt q) true) ->
     exists b',
       cleanupPreviousMove playerId b = (Ret tt, b') /\
       (forall r c, cellAt (board b') r c =
          if bool_decide (mkPos r c = p \/ mkPos r c = q)
          then match cellAt (board b) r c with
               | Some _ => Some (mkCell EmptyString false None)
               | None => None
               end
          else cellAt (board b) r c) /\
       (forall viewer r c y, mkPos r c = p \/ mkPos r c = q ->
          cellAt (board b') r c = Some y -> renderCell viewer y = "none"%string) /\
       stateOf b' playerId = Some freshState) /\
  (forall p s, stateOf b playerId = Some (holdingPair p s false) ->
     let b' := snd (cleanupPreviousMove playerId b) in
     (forall r c x, cellAt (board b) r c = Some x ->
        cellAt (board b') r c =
          Some (if bool_decide (mkPos r c = p \/ SecondAt (mkPos r c) = s)
                   && hidden b playerId (mkPos r c)
                then mkCell (card x) false (controller x) else x)) /\
     (forall q, hidden b playerId q = true <-> toTurnDown b playerId q) /\
     stateOf b' playerId = Some freshState).
Proof.
  split; [apply cleanup_idle|]. split.
  - intros p q Hst.
    destruct (cleanup_matched b playerId p q Hst) as (b' & Hrun & Hcells & Hst').
    exists b'. split; [exact Hrun|]. split; [|split; [|exact Hst']].
    + intros r c. rewrite Hcells.
      destruct (bool_decide _); [|reflexivity].
      destruct (cellAt (board b) r c); reflexivity.
    + intros viewer r c y Hpq Hy. rewrite Hcells in Hy.
      rewrite bool_decide_eq_true_2 in Hy by exact Hpq.
      destruct (cellAt (board b) r c) as [x|]; [|discriminate Hy].
      injection Hy as <-. apply renderCell_removed.
  - intros p s Hst. cbv zeta.
    destruct (cleanup_unmatched b playerId p s Hst) as [Hcells Hst'].
    split; [|split; [|exact Hst']].
    + intros r c x Hx. rewrite (Hcells r c x Hx). reflexivity.
    + intros q. apply hidden_true.
Qed.

(** The three cases in the example game: [p1] before any flip, after the
    matching pair (0,0), (1,1), which the clean-up removes, and after the
    pair (0,0), (0,1) that does not match, which it turns face down. *)
Lemma cleanup_by_state_witness :
  cleanupPreviousMove "p1" board2x2 = (Ret tt, board2x2) /\
  (exists b', cleanupPreviousMove "p1" (brd afterMatch) = (Ret tt, b') /\
     cellAt (board (brd afterMatch)) 0 0 = Some (mkCell "A" true (Some "p1")) /\
     cellAt (board b') 0 0 = Some (mkCell "" false None) /\
     cellAt (board b') 1 1 = Some (mkCell "" false None) /\
     cellAt (board b') 0 1 = Some (mkCell "B" false None) /\
     renderCell "p2" (mkCell "" false None) = "none"%string /\
     stateOf b' "p1" = Some freshState) /\
  (let b' := snd (cleanupPreviousMove "p1" (brd afterMiss)) in
   cellAt (board (brd afterMiss)) 0 0 = Some (mkCell "A" true None) /\
   cellAt (board (brd afterMiss)) 0 1 = Some (mkCell "B" true None) /\
   cellAt (board b') 0 0 = Some (mkCell "A" false None) /\
   cellAt (board b') 0 1 = Some (mkCell "B" false None) /\
   cellAt (board b') 1 1 = Some (mkCell "A" false None) /\
   stateOf b' "p1" = Some freshState).
Proof.
  split; [|split].
  - apply (proj1 (cleanup_by_state board2x2 "p1")). left. reflexivity.
  - destruct (proj1 (proj2 (cleanup_by_state (brd afterMatch) "p1"))
                (mkPos 0 0) (mkPos 1 1)) as (b' & Hrun & Hcells & Hnone & Hst).
    { vm_compute. reflexivity. }
    exists b'. split; [exact Hrun|]. split; [vm_compute; reflexivity|].
    pose proof (Hcells 0 0) as H00. pose proof (Hcells 1 1) as H11.
    pose proof (Hcells 0 1) as H01.
    split; [exact H00|]. split; [exact H11|]. split; [exact H01|].
    split; [|exact Hst].
    exact (Hnone "p2"%string 0 0 (mkCell "" false None) (or_introl eq_refl) H00).
  - cbv zeta.
    destruct (proj2 (proj2 (cleanup_by_state (brd afterMiss) "p1"))
                (mkPos 0 0) (SecondAt (mkPos 0 1))) as (Hcells & _ & Hst).
    { vm_compute. reflexivity. }
    split; [vm_compute; reflexivity|]. split; [vm_compute; reflexivity|].
    split; [exact (Hcells 0 0 (mkCell "A" true None) eq_refl)|].
    split; [exact (Hcells 0 1 (mkCell "B" true None) eq_refl)|].
    split; [exact (Hcells 1 1 (mkCell "A" false None) eq_refl)|].
    exact Hst.
Defined.

(** ** [flip] *)

Lemma reachable_execAll acts : forall w,
  reachable w -> Forall legalAction acts -> reachable (execAll acts w).
Proof.
  induction acts as [|a acts IH]; intros w Hw Hl; [exact Hw|].
  apply Forall_cons in Hl. destruct Hl as [Ha Hl].
  apply (IH (exec a w)); [apply reach_exec; assumption | exact Hl].
Qed.

Lemma board2x4_new : newBoard 2 4 cards2x4 = Ret board2x4.
Proof. vm_compute. reflexivity. Qed.

Lemma staleState_reachable : reachable staleState.
Proof.
  apply reachable_execAll; [exact (reach_new _ _ _ _ board2x4_new)|].
  repeat constructor.
Qed.

(** C4 (the code departs from the statement). On the board P P R S over
    M M R S, after the flips of [staleFlips] but the last, W holds the M at
    (1,1) as first card and controls it, while Q's state, an object that a
    waiting flip of Q had kept and has installed again on resuming, records
    (0,1) and (1,1) as a matched pair, though they hold P and M.  Q's next
    flip removes both cards in its clean-up.  W is then still in
    HoldingFirst((1,1)), and W's second flip, of the face-down S at (0,3),
    turns S up and records HoldingPair((1,1), (0,3), not matched) while the
    first cell stays removed: it is not face up, and W's snapshot has "none"
    on its line. *)
Theorem second_flip_with_first_card_removed :
  reachable staleState /\
  stateOf (brd staleState) "W" = Some (holdingFirst (mkPos 1 1)) /\
  cellAt (board (brd staleState)) 1 1 = Some (mkCell "M" true (Some "W")) /\
  cellAt (board (brd staleState)) 0 1 = Some (mkCell "P" true (Some "Q")) /\
  stateOf (brd staleState) "Q" =
    Some (holdingPair (mkPos 0 1) (SecondAt (mkPos 1 1)) true) /\
  staleHand = exec (CallFlip "Q" 0 2) staleState /\
  reachable staleHand /\
  stateOf (brd staleHand) "W" = Some (holdingFirst (mkPos 1 1)) /\
  cellAt (board (brd staleHand)) 1 1 = Some (mkCell "" false None) /\
  cellAt (board (brd staleHand)) 0 3 = Some (mkCell "S" false None) /\
  exists b',
    flip "W" 0 3 (brd staleHand) =
      (Ret (Returned ("2x4" +:+ JS.nl +:+ "up P" +:+ JS.nl +:+ "none" +:+ JS.nl +:+
                      "up R" +:+ JS.nl +:+ "up S" +:+ JS.nl +:+ "up M" +:+ JS.nl +:+
                      "none" +:+ JS.nl +:+ "up R" +:+ JS.nl +:+ "up S")), b') /\
    cellAt (board b') 0 3 = Some (mkCell "S" true None) /\
    cellAt (board b') 1 1 = Some (mkCell "" false None) /\
    stateOf b' "W" = Some (holdingPair (mkPos 1 1) (SecondAt (mkPos 0 3)) false).
Proof.
  split; [exact staleState_reachable|].
  split; [vm_compute; reflexivity|]. split; [vm_compute; reflexivity|].
  split; [vm_compute; reflexivity|]. split; [vm_compute; reflexivity|].
  assert (Hlast : staleHand = exec (CallFlip "Q" 0 2) staleState)
    by (vm_compute; reflexivity).
  split; [exact Hlast|].
  split; [rewrite Hlast; apply reach_exec; [exact staleState_reachable | exact I]|].
  split; [vm_compute; reflexivity|]. split; [vm_compute; reflexivity|].
  split; [vm_compute; reflexivity|].
  exists (snd (flip "W" 0 3 (brd staleHand))).
  split; [vm_compute; reflexivity|]. split; [vm_compute; reflexivity|].
  split; vm_compute; reflexivity.
Qed.

(** C6. In a reachable state of the system, let the player hold a first
    card at [p] and flip a cell that holds no card, or one that is face up
    and controlled.  Then the call throws 'invalid card position' in the
    first case and 'card is controlled by another player' in the second,
    the first card has lost its controller and is otherwise as before, no
    other cell has changed, the state is HoldingPair(p, absent, not
    matched), and the change is published. *)
Theorem second_flip_failure_gives_up_first (w : World) (playerId : string)
    (r c : Z) (p : Pos) (fx x : CardCell) :
  reachable w ->
  stateOf (brd w) playerId = Some (holdingFirst p) ->
  cellAt (board (brd w)) (row p) (col p) = Some fx ->
  cellAt (board (brd w)) r c = Some x ->
  card x = EmptyString \/ (faceUp x = true /\ controller x <> None) ->
  exists b',
    flip playerId r c (brd w) =
      (Throw (Error (if isEmpty (card x) then "invalid card position"
                     else "card is controlled by another player")), b') /\
    cellAt (board b') (row p) (col p) = Some (setController None fx) /\
    sameCellsExcept [p] (brd w) b' /\
    stateOf b' playerId = Some (holdingPair p NoneCardRef false) /\
    published (brd w) b'.
Proof.
  intros Hw Hst Hfx Hx Hcase.
  destruct (second_flip_rejected w playerId r c p fx x Hw Hst Hfx Hx)
    as (b' & Hnone & Hctl & Hrest).
  exists b'. split; [|exact Hrest].
  destruct (decide (card x = EmptyString)) as [He|He].
  - rewrite (proj2 (isEmpty_true _) He). apply Hnone, He.
  - rewrite (proj2 (isEmpty_false _) He).
    destruct Hcase as [E|[Hup Hc]]; [contradiction|]. apply Hctl; assumption.
Qed.

(** Both cases in the example game: [p1] holds (0,0) and flips the card
    [p2] controls; [p1] holds (1,1) and flips a cell whose card has been
    removed. *)
Lemma second_flip_failure_gives_up_first_witness :
  (exists b',
     flip "p1" 1 0 (brd twoPlayers) =
       (Throw (Error "card is controlled by another player"), b') /\
     stateOf b' "p1" = Some (holdingPair (mkPos 0 0) NoneCardRef false)) /\
  (exists b',
     flip "p1" 0 1 (brd afterRemoval) = (Throw (Error "invalid card position"), b') /\
     stateOf b' "p1" = Some (holdingPair (mkPos 1 1) NoneCardRef false)).
Proof.
  split.
  - destruct (second_flip_failure_gives_up_first twoPlayers "p1" 1 0 (mkPos 0 0)
                (mkCell "A" true (Some "p1")) (mkCell "B" true (Some "p2")))
      as (b' & Hrun & _ & _ & Hst & _).
    + exact twoPlayers_reachable.
    + vm_compute. reflexivity.
    + vm_compute. reflexivity.
    + vm_compute. reflexivity.
    + right. split; [reflexivity | discriminate].
    + exists b'. split; [exact Hrun | exact Hst].
  - destruct (second_flip_failure_gives_up_first afterRemoval "p1" 0 1 (mkPos 1 1)
                (mkCell "A" true (Some "p1")) (mkCell "" false None))
      as (b' & Hrun & _ & _ & Hst & _).
    + exact afterRemoval_reachable.
    + vm_compute. reflexivity.
    + vm_compute. reflexivity.
    + vm_compute. reflexivity.
    + left. reflexivity.
    + exists b'. split; [exact Hrun | exact Hst].
Defined.

(** C7 (the code departs from the statement). The first flip of the
    example game: [p1], idle, flips the A at (0,0) of the board parsed from
    "2x2 / A / B / B / A".  The card is face up and controlled by [p1], who
    is in HoldingFirst((0,0)), and no claim is left; the other three cards
    are face down as before.  The string the call returns has "my A" for the
    flipped card and "up B", "up B", "up A" for the three face-down cards,
    where the snapshot has "down": [flip] returns what [look] computes, and
    [look] never renders "down". *)
Theorem first_flip_returns_face_down_cards :
  Parse.parseFromFile file2x2 = Ret board2x2 /\
  isIdle board2x2 "p1" /\
  exists b',
    flip "p1" 0 0 board2x2 =
      (Ret (Returned ("2x2" +:+ JS.nl +:+ "my A" +:+ JS.nl +:+ "up B" +:+ JS.nl +:+
                      "up B" +:+ JS.nl +:+ "up A")), b') /\
    cellAt (board b') 0 0 = Some (mkCell "A" true (Some "p1")) /\
    cellAt (board b') 0 1 = Some (mkCell "B" false None) /\
    cellAt (board b') 1 0 = Some (mkCell "B" false None) /\
    cellAt (board b') 1 1 = Some (mkCell "A" false None) /\
    stateOf b' "p1" = Some (holdingFirst (mkPos 0 0)) /\
    claimLocks b' = ∅.
Proof.
  split; [vm_compute; reflexivity|]. split; [left; reflexivity|].
  exists (snd (flip "p1" 0 0 board2x2)).
  split; [vm_compute; reflexivity|]. split; [vm_compute; reflexivity|].
  split; [vm_compute; reflexivity|]. split; [vm_compute; reflexivity|].
  split; [vm_compute; reflexivity|]. split; vm_compute; reflexivity.
Qed.

(** C10. In a reachable state of the system, a player who holds a first
    card at [p], controlled by that same player, and flips [p] again gets
    the error 'card is controlled by another player'; the card stays face
    up and loses its controller, no other cell changes, the state is
    HoldingPair(p, absent, not matched), and the change is published. *)
Theorem flip_own_first_card_rejected (w : World) (playerId : string)
    (p : Pos) (fx : CardCell) :
  reachable w ->
  stateOf (brd w) playerId = Some (holdingFirst p) ->
  cellAt (board (brd w)) (row p) (col p) = Some fx ->
  controller fx = Some playerId ->
  exists b',
    flip playerId (row p) (col p) (brd w) =
      (Throw (Error "card is controlled by another player"), b') /\
    cellAt (board b') (row p) (col p) = Some (mkCell (card fx) true None) /\
    sameCellsExcept [p] (brd w) b' /\
    stateOf b' playerId = Some (holdingPair p NoneCardRef false) /\
    published (brd w) b'.
Proof.
  intros Hw Hst Hfx Hctl.
  destruct (reachable_inv w Hw) as (Hb & _).
  destruct (proj2 (proj2 (proj2 (proj2 Hb))) _ _ _ Hfx) as [Hup Hcard].
  assert (Hf : faceUp fx = true) by (apply Hup; rewrite Hctl; discriminate).
  assert (Hne : card fx <> EmptyString).
  { intros E. destruct (Hcard E) as [_ Hn]. rewrite Hctl in Hn. discriminate Hn. }
  destruct (second_flip_rejected w playerId (row p) (col p) p fx fx Hw Hst Hfx Hfx)
    as (b' & _ & Hthrow & Hcell & Hrest).
  exists b'. split; [|split; [|exact Hrest]].
  - apply Hthrow; [exact Hne | exact Hf | rewrite Hctl; discriminate].
  - rewrite Hcell. unfold setController. rewrite Hf. reflexivity.
Qed.

(** [p1] holds (0,0) and flips (0,0) again. *)
Lemma flip_own_first_card_rejected_witness :
  exists b',
    flip "p1" 0 0 (brd afterFirst) =
      (Throw (Error "card is controlled by another player"), b') /\
    cellAt (board b') 0 0 = Some (mkCell "A" true None) /\
    stateOf b' "p1" = Some (holdingPair (mkPos 0 0) NoneCardRef false).
Proof.
  destruct (flip_own_first_card_rejected afterFirst "p1" (mkPos 0 0)
              (mkCell "A" true (Some "p1")))
    as (b' & Hrun & Hc & _ & Hst & _).
  - exact afterFirst_reachable.
  - vm_compute. reflexivity.
  - vm_compute. reflexivity.
  - reflexivity.
  - exists b'. split; [exact Hrun|]. split; [exact Hc | exact Hst].
Defined.

(** ** [map] *)

Lemma ask_legal : legalMap ask.
Proof. intros c Hc. destruct c; [contradiction | discriminate]. Qed.

(** C5 (the code departs from the statement). On the example board
    A B / B A, [p1] calls [map] with [mark] and [p2] calls [map] with [ask]
    before the first answer has arrived; the answers then arrive in turn.
    [p2]'s call returns last, and returns normally.  The two cells that held
    A when either call was made end up with "A!" and "A!?", and the two that
    held B with "B!" and "B!?": cells with equal labels before the call have
    different labels after it, and (0,0) does not hold [ask "A"].  Already
    with one [map] alone, a [look] made after the first answer sees "A!" at
    (0,0) and "A" at (1,1).  The sweep reads each cell again after every
    [await], and writes it before the next. *)
Theorem interleaved_maps_break_pairs :
  cellAt (board board2x2) 0 0 = Some (mkCell "A" false None) /\
  cellAt (board board2x2) 1 1 = Some (mkCell "A" false None) /\
  reachable lastAnswer /\
  (exists t,
     maps lastAnswer = [t] /\ m_playerId t = "p2"%string /\
     mixed = exec (ResumeMap 0) lastAnswer /\
     fst (resumeMap t (brd lastAnswer)) =
       Ret (MapDone ("2x2" +:+ JS.nl +:+ "up A!" +:+ JS.nl +:+ "up B!" +:+ JS.nl +:+
                     "up B!?" +:+ JS.nl +:+ "up A!?"))) /\
  reachable mixed /\ maps mixed = [] /\
  cellAt (board (brd mixed)) 0 0 = Some (mkCell "A!" false None) /\
  cellAt (board (brd mixed)) 0 1 = Some (mkCell "B!" false None) /\
  cellAt (board (brd mixed)) 1 0 = Some (mkCell "B!?" false None) /\
  cellAt (board (brd mixed)) 1 1 = Some (mkCell "A!?" false None) /\
  ask "A" = "A?"%string /\
  reachable midMap /\
  look "p2" (brd midMap) =
    (Ret ("2x2" +:+ JS.nl +:+ "up A!" +:+ JS.nl +:+ "up B" +:+ JS.nl +:+
          "up B" +:+ JS.nl +:+ "up A"), brd midMap).
Proof.
  assert (Hlast : reachable lastAnswer).
  { apply reachable_execAll; [exact start_reachable|].
    repeat constructor; first [exact mark_legal | exact ask_legal]. }
  assert (Hstep : mixed = exec (ResumeMap 0) lastAnswer) by (vm_compute; reflexivity).
  split; [reflexivity|]. split; [reflexivity|]. split; [exact Hlast|].
  split.
  { destruct (maps lastAnswer) as [|t [|t' ts]] eqn:Hm;
      [vm_compute in Hm; discriminate Hm | | vm_compute in Hm; discriminate Hm].
    exists t. split; [reflexivity|].
    assert (Ht : Some t = maps lastAnswer !! 0%nat) by (rewrite Hm; reflexivity).
    vm_compute in Ht. injection Ht as ->.
    split; [reflexivity|]. split; [exact Hstep|]. vm_compute. reflexivity. }
  split; [rewrite Hstep; apply reach_exec; [exact Hlast | exact I]|].
  split; [vm_compute; reflexivity|]. split; [vm_compute; reflexivity|].
  split; [vm_compute; reflexivity|]. split; [vm_compute; reflexivity|].
  split; [vm_compute; reflexivity|]. split; [reflexivity|].
  split; [|vm_compute; reflexivity].
  apply reachable_execAll; [exact start_reachable|].
  repeat constructor. exact mark_legal.
Qed.

(** ** The claim registry *)

(** C8. [tryClaimCell] answers true and records the owner when the cell has
    no claim, and answers false and changes nothing when it has one;
    [releaseClaim] deletes the claim when the releasing owner holds it and
    changes nothing otherwise; distinct cells have distinct keys.  The
    claim-protected section of [flip], entered with the claim held, leaves
    the registry without that claim on every exit that is not a suspension;
    a [flip] segment leaves the registry as it found it, a resumed one at
    most drops the claim it held; and in every reachable state of the system
    the registry is empty. *)
Theorem claims_are_scoped :
  (forall b r c owner, claimLocks b !! cellKey r c = None ->
     tryClaimCell r c owner b =
       (Ret true, set_claimLocks (<[cellKey r c := owner]> (claimLocks b)) b)) /\
  (forall b r c owner, claimLocks b !! cellKey r c <> None ->
     tryClaimCell r c owner b = (Ret false, b)) /\
  (forall b r c owner, claimLocks b !! cellKey r c = Some owner ->
     releaseClaim r c owner b =
       (Ret tt, set_claimLocks (delete (cellKey r c) (claimLocks b)) b)) /\
  (forall b r c owner, claimLocks b !! cellKey r c <> Some owner ->
     releaseClaim r c owner b = (Ret tt, b)) /\
  (forall r c r' c', cellKey r c = cellKey r' c' -> r = r' /\ c = c') /\
  (forall b playerId r c st, claimLocks b !! cellKey r c = Some playerId ->
     let res := tryFinally (claimedSection playerId r c st)
                           (releaseClaim r c playerId) b in
     fst res <> Ret Suspended ->
     claimLocks (snd res) = delete (cellKey r c) (claimLocks b)) /\
  (forall b playerId r c,
     claimLocks (snd (flip playerId r c b)) = claimLocks b) /\
  (forall b pt playerId r c st,
     claimLocks (snd (resumeFlip pt playerId r c st b)) =
       releasedAt pt playerId r c (claimLocks b)) /\
  (forall w, reachable w -> claimLocks (brd w) = ∅).
Proof.
  split; [exact tryClaimCell_free|].
  split.
  { intros b r c owner H. destruct (claimLocks b !! cellKey r c) as [o|] eqn:E;
      [|contradiction]. eapply tryClaimCell_taken; exact E. }
  split; [exact releaseClaim_held|].
  split; [exact releaseClaim_not_held|].
  split; [exact cellKey_inj|].
  split; [intros b playerId r c st; apply claimedSection_releases|].
  split.
  { intros b playerId r c.
    pose proof (claims_flip (claimLocks b) playerId r c b eq_refl) as H.
    destruct (flip playerId r c b) as [[o|e] b']; exact H. }
  split; [intros b pt playerId r c st; apply claims_resumeFlip|].
  intros w Hw. exact (proj1 (proj2 (proj2 (reachable_inv w Hw)))).
Qed.

(** On the example board: [p1] claims (0,0); then [p2] cannot; [p2]'s
    release changes nothing and [p1]'s release empties the registry. *)
Lemma claims_are_scoped_witness :
  let b1 := set_claimLocks {[ cellKey 0 0 := "p1"%string ]} board2x2 in
  tryClaimCell 0 0 "p1" board2x2 =
    (Ret true, set_claimLocks (<[cellKey 0 0 := "p1"%string]> ∅) board2x2) /\
  tryClaimCell 0 0 "p2" b1 = (Ret false, b1) /\
  releaseClaim 0 0 "p2" b1 = (Ret tt, b1) /\
  releaseClaim 0 0 "p1" b1 =
    (Ret tt, set_claimLocks (delete (cellKey 0 0) (claimLocks b1)) b1) /\
  claimLocks (brd afterFirst) = ∅.
Proof.
  intros b1.
  destruct claims_are_scoped as (Hfree & Htaken & Hheld & Hnot & _ & _ & _ & _ & Hreach).
  split; [|split; [|split; [|split]]].
  - apply (Hfree board2x2 0 0 "p1"%string). reflexivity.
  - apply (Htaken b1 0 0 "p2"%string). vm_compute. discriminate.
  - apply (Hnot b1 0 0 "p2"%string). vm_compute. discriminate.
  - apply (Hheld b1 0 0 "p1"%string). vm_compute. reflexivity.
  - apply Hreach. exact afterFirst_reachable.
Defined.

(** ** The board invariant *)

(** C9. In every reachable state of the system the board satisfies what
    [checkRepFunctions] asserts: the dimensions are positive, the grid is
    height by width, a controlled cell is face up and a cell without a card
    is face down and uncontrolled.  Every segment the system can run, a call
    of look, flip, map or watch or the continuation of a suspended call,
    keeps this, together with the condition on pending first cards, and
    leaves the board's height, width and grid shape as they are; so does
    [cleanupPreviousMove] on any board that satisfies the invariant. *)
Theorem board_invariant_is_kept :
  (forall w a, reachable w -> legalAction a ->
     boardInv (brd w) /\ boardInv (brd (exec a w)) /\
     sameShape (brd w) (brd (exec a w))) /\
  (forall w a, sysInv w -> legalAction a -> sysInv (exec a w)) /\
  (forall h w cards b, newBoard h w cards = Ret b ->
     boardInv b /\ height b = h /\ width b = w) /\
  (forall b playerId, boardInv b ->
     boardInv (snd (cleanupPreviousMove playerId b)) /\
     sameShape b (snd (cleanupPreviousMove playerId b))).
Proof.
  split; [|split; [|split]].
  - intros w a Hw Ha. pose proof (reachable_inv w Hw) as Hi.
    split; [exact (proj1 Hi)|]. split; [|apply exec_shape].
    exact (proj1 (sysInv_exec a w Hi Ha)).
  - intros w a; apply sysInv_exec.
  - intros h w cards b Hb.
    split; [exact (proj1 (newBoard_inv h w cards b Hb))|].
    unfold newBoard in Hb. cbv zeta in Hb.
    destruct (rep0Failure _); [discriminate Hb|].
    injection Hb as <-. split; reflexivity.
  - exact cleanup_boardInv.
Qed.

(** The first flip of the example game, and the clean-up on the fresh board. *)
Lemma board_invariant_is_kept_witness :
  boardInv (brd afterFirst) /\ sameShape (brd start) (brd afterFirst) /\
  boardInv (snd (cleanupPreviousMove "p1" board2x2)).
Proof.
  destruct board_invariant_is_kept as (Hstep & _ & _ & Hclean).
  destruct (Hstep start (CallFlip "p1" 0 0) start_reachable I) as (_ & Hb & Hs).
  split; [exact Hb|]. split; [exact Hs|].
  exact (proj1 (Hclean board2x2 "p1"%string board2x2_inv)).
Defined.

(** * Further properties of the code *)

Import Scenes.

(** * Further properties of the code *)

(** ** The constructor and [checkRep] *)

Lemma checkCell0_fresh c :
  checkCell0 (mkCell c false None) = None <-> c <> EmptyString.
Proof.
  unfold checkCell0. cbn. destruct c as [|a c]; cbn.
  - split; [discriminate | intros H; contradiction H; reflexivity].
  - split; [discriminate | reflexivity].
Qed.

Lemma checkRow0_fresh w (rowCards : list string) :
  checkRow0 w (List.map (fun c => mkCell c false None) rowCards) = None <->
  Z.of_nat (List.length rowCards) = w /\ Forall (fun c => c <> EmptyString) rowCards.
Proof.
  unfold checkRow0. rewrite length_map.
  destruct (Z.of_nat (List.length rowCards) =? w) eqn:E; cbn.
  - apply Z.eqb_eq in E. rewrite firstSome_None, Forall_map.
    split.
    + intros H. split; [exact E|]. eapply Forall_impl; [exact H|].
      intros c Hc. apply checkCell0_fresh, Hc.
    + intros [_ H]. eapply Forall_impl; [exact H|].
      intros c Hc. apply checkCell0_fresh, Hc.
  - apply Z.eqb_neq in E. split; [discriminate | intros [H _]; contradiction].
Qed.

Lemma lookup_List_map {A B} (f : A -> B) (l : list A) (i : nat) :
  List.map f l !! i = f <$> l !! i.
Proof. exact (list_lookup_fmap f l i). Qed.

Lemma cellAt_map (f : string -> CardCell) (cards : list (list string)) r c :
  cellAt (List.map (List.map f) cards) r c =
    f <$> (Parse.index cards r ≫= fun rowCards => Parse.index rowCards c).
Proof.
  unfold cellAt, Parse.index.
  destruct (r <? 0); [reflexivity|]. cbn.
  rewrite lookup_List_map.
  destruct (cards !! Z.to_nat r) as [rowCards|]; cbn.
  - destruct (c <? 0); [reflexivity|]. apply lookup_List_map.
  - destruct (c <? 0); reflexivity.
Qed.

Lemma newBoard_result h w cards b :
  newBoard h w cards = Ret b ->
  height b = h /\ width b = w /\
  (forall r c, cellAt (board b) r c =
     (fun card => mkCell card false None) <$>
       (Parse.index cards r ≫= fun rowCards => Parse.index rowCards c)) /\
  heap b = [] /\ playerStates b = ∅ /\ listeners b = [] /\
  claimLocks b = ∅ /\ jobs b = [] /\ boardInv b.
Proof.
  intros Hb. pose proof (newBoard_inv h w cards b Hb) as (Hinv & _).
  unfold newBoard in Hb. cbv zeta in Hb.
  destruct (rep0Failure _); [discriminate Hb|]. injection Hb as <-.
  cbn [height width board heap playerStates listeners claimLocks jobs] in *.
  split; [reflexivity|]. split; [reflexivity|].
  split; [intros r c; apply cellAt_map|].
  repeat (split; [reflexivity|]). exact Hinv.
Qed.

(** X1. [new Board(height, width, cards)] passes [checkRep] exactly when
    the dimensions are positive, [cards] has [height] rows of [width] cards
    each and no card is the empty string; it never fails in any other way.
    The board it makes holds the given cards in place, all face down and
    uncontrolled, knows no player, listener or claim, and satisfies what
    [checkRepFunctions] asserts. *)
Theorem newBoard_accepts (h w : Z) (cards : list (list string)) :
  ((exists b, newBoard h w cards = Ret b) <->
   (0 < h /\ 0 < w /\ Z.of_nat (List.length cards) = h /\
    Forall (fun rowCards => Z.of_nat (List.length rowCards) = w /\
                            Forall (fun c => c <> EmptyString) rowCards) cards)) /\
  (forall e, newBoard h w cards = Throw e -> exists msg, e = AssertionError msg) /\
  (forall b, newBoard h w cards = Ret b ->
     height b = h /\ width b = w /\
     (forall r c, cellAt (board b) r c =
        (fun card => mkCell card false None) <$>
          (Parse.index cards r ≫= fun rowCards => Parse.index rowCards c)) /\
     heap b = [] /\ playerStates b = ∅ /\ listeners b = [] /\
     claimLocks b = ∅ /\ jobs b = [] /\ boardInv b).
Proof.
  split; [|split].
  - unfold newBoard. cbv zeta.
    set (b0 := mkBoard h w _ [] ∅ [] ∅ []).
    assert (Hrep : rep0Failure b0 = None <->
              (0 < h /\ 0 < w /\ Z.of_nat (List.length cards) = h /\
               Forall (fun rowCards => Z.of_nat (List.length rowCards) = w /\
                                       Forall (fun c => c <> EmptyString) rowCards) cards)).
    { unfold rep0Failure, b0. cbn [height width board].
      destruct (0 <? h) eqn:H1; cbn;
        [apply Z.ltb_lt in H1 | apply Z.ltb_ge in H1; split; [discriminate | lia]].
      destruct (0 <? w) eqn:H2; cbn;
        [apply Z.ltb_lt in H2 | apply Z.ltb_ge in H2; split; [discriminate | lia]].
      rewrite length_map.
      destruct (Z.of_nat (List.length cards) =? h) eqn:H3; cbn;
        [apply Z.eqb_eq in H3 | apply Z.eqb_neq in H3; split; [discriminate | tauto]].
      rewrite firstSome_None, Forall_map. split.
      - intros H. repeat split; try assumption.
        eapply Forall_impl; [exact H|]. intros rowCards Hr. apply checkRow0_fresh, Hr.
      - intros (_ & _ & _ & H).
        eapply Forall_impl; [exact H|]. intros rowCards Hr. apply checkRow0_fresh, Hr. }
    destruct (rep0Failure b0) as [msg|].
    + split; [intros [b Hb]; discriminate Hb|].
      intros H. apply Hrep in H. discriminate H.
    + split; [intros _; apply Hrep; reflexivity | intros _; eexists; reflexivity].
  - unfold newBoard. cbv zeta. intros e.
    destruct (rep0Failure _) as [msg|]; [|discriminate].
    intros [= <-]. exists msg. reflexivity.
  - apply newBoard_result.
Qed.

(** The constructor on the cards of the example game. *)
Lemma newBoard_accepts_witness :
  (exists b, newBoard 2 2 cards2x2 = Ret b) /\
  boardInv board2x2 /\
  cellAt (board board2x2) 1 0 = Some (mkCell "B" false None).
Proof.
  destruct (newBoard_accepts 2 2 cards2x2) as (Hiff & _ & Hres).
  split.
  - apply Hiff. split; [lia|]. split; [lia|]. split; [reflexivity|].
    repeat constructor; discriminate.
  - destruct (Hres board2x2 eq_refl) as (_ & _ & Hcells & _ & _ & _ & _ & _ & Hinv).
    split; [exact Hinv|]. rewrite Hcells. reflexivity.
Defined.

(** ** [checkRepFunctions] *)

(** X2. [checkRepFunctions] returns normally exactly on the boards with
    positive dimensions whose grid has [height] rows of [width] cells, where
    every controlled cell is face up and every cell without a card is face
    down and uncontrolled; otherwise it throws an assertion error.  It never
    changes the board. *)
Theorem checkRepFunctions_decides (b : Board) :
  (checkRepFunctions b = (Ret tt, b) <-> boardInv b) /\
  (~ boardInv b -> exists msg, checkRepFunctions b = (Throw (AssertionError msg), b)) /\
  snd (checkRepFunctions b) = b.
Proof.
  unfold checkRepFunctions.
  pose proof (repFailure_None b) as Hrep.
  destruct (repFailure b) as [msg|].
  - split; [|split; [|reflexivity]].
    + split; [discriminate|]. intros H. apply Hrep in H. discriminate H.
    + intros _. exists msg. reflexivity.
  - split; [|split; [|reflexivity]].
    + split; [intros _; apply Hrep; reflexivity | reflexivity].
    + intros H. contradiction H. apply Hrep. reflexivity.
Qed.

(** The check passes on the example board and fails on the same board with
    the height field set to 3. *)
Lemma checkRepFunctions_decides_witness :
  checkRepFunctions board2x2 = (Ret tt, board2x2) /\
  exists msg,
    checkRepFunctions (mkBoard 3 2 (board board2x2) [] ∅ [] ∅ []) =
      (Throw (AssertionError msg), mkBoard 3 2 (board board2x2) [] ∅ [] ∅ []).
Proof.
  split.
  - apply (proj1 (checkRepFunctions_decides board2x2)).
    apply repFailure_None. reflexivity.
  - apply (proj1 (proj2 (checkRepFunctions_decides _))).
    intros (_ & _ & H & _). vm_compute in H. discriminate H.
Defined.

(** ** [look] *)

Lemma concat_lookup_uniform {A} (wn : nat) (g : list (list A)) (i j : nat) :
  Forall (fun cells => List.length cells = wn) g ->
  (j < wn)%nat ->
  concat g !! (i * wn + j)%nat = g !! i ≫= fun cells => cells !! j.
Proof.
  intros Hg Hj. revert i. induction Hg as [|cells g Hc Hg IH]; intros i.
  - cbn. rewrite !lookup_nil. reflexivity.
  - cbn [concat]. destruct i as [|i].
    + cbn. rewrite lookup_app_l by lia. reflexivity.
    + rewrite lookup_app_r by (cbn; lia).
      replace (S i * wn + j - List.length cells)%nat with (i * wn + j)%nat
        by (cbn; lia).
      rewrite IH. reflexivity.
Qed.

Lemma concat_length_uniform {A} (wn : nat) (g : list (list A)) :
  Forall (fun cells => List.length cells = wn) g ->
  List.length (concat g) = (List.length g * wn)%nat.
Proof.
  induction 1 as [|cells g Hc Hg IH]; [reflexivity|].
  cbn [concat]. rewrite length_app, IH, Hc. cbn. lia.
Qed.

Lemma look_cell_line b playerId r c :
  boardInv b -> 0 <= r < height b -> 0 <= c < width b ->
  exists x, cellAt (board b) r c = Some x /\
    lookLines b playerId !! S (Z.to_nat (r * width b + c)) =
      Some (renderCell playerId x).
Proof.
  intros Hb Hr Hc. pose proof Hb as (Hh & Hw & Hlen & Hrows & _).
  assert (Hrows' : Forall (fun cells => List.length cells = Z.to_nat (width b))
                     (List.map (List.map (renderCell playerId)) (board b))).
  { rewrite Forall_map. eapply Forall_impl; [exact Hrows|].
    intros cells Hcells. cbn in Hcells |- *.
    rewrite length_map, <- Hcells, Nat2Z.id. reflexivity. }
  destruct (cellAt_is_Some b r c Hlen Hrows Hr Hc) as [x Hx].
  exists x. split; [exact Hx|].
  unfold lookLines. cbn [lookup list_lookup].
  change ((?a :: ?l) !! S ?n) with (l !! n).
  replace (Z.to_nat (r * width b + c))
    with (Z.to_nat r * Z.to_nat (width b) + Z.to_nat c)%nat
    by (rewrite Z2Nat.inj_add, Z2Nat.inj_mul by nia; reflexivity).
  rewrite (concat_lookup_uniform _ _ _ _ Hrows') by lia.
  rewrite lookup_List_map.
  unfold cellAt in Hx.
  replace (r <? 0) with false in Hx by (symmetry; apply Z.ltb_ge; lia).
  replace (c <? 0) with false in Hx by (symmetry; apply Z.ltb_ge; lia).
  cbn in Hx.
  destruct (board b !! Z.to_nat r) as [cells|]; cbn in Hx |- *; [|discriminate Hx].
  rewrite lookup_List_map, Hx. reflexivity.
Qed.

(** X3. On a board that passes the representation check, [look] returns
    the lines it has built joined by newlines and leaves the board as it is:
    the first line is "{height}x{width}", height*width lines follow, and the
    line for the cell at row r, column c is the one after r*width + c
    others.  On any other board it throws an assertion error. *)
Theorem look_lines (b : Board) (playerId : string) :
  (boardInv b ->
     look playerId b = (Ret (JS.join JS.nl (lookLines b playerId)), b) /\
     List.length (lookLines b playerId) = S (Z.to_nat (height b * width b)) /\
     lookLines b playerId !! 0%nat =
       Some (JS.ofNumber (height b) +:+ "x" +:+ JS.ofNumber (width b)) /\
     forall r c, 0 <= r < height b -> 0 <= c < width b ->
       exists x, cellAt (board b) r c = Some x /\
         lookLines b playerId !! S (Z.to_nat (r * width b + c)) =
           Some (renderCell playerId x)) /\
  (~ boardInv b -> exists msg, look playerId b = (Throw (AssertionError msg), b)).
Proof.
  split.
  - intros Hb. pose proof Hb as (Hh & Hw & Hlen & Hrows & _).
    assert (Hrows' : Forall (fun cells => List.length cells = Z.to_nat (width b))
                       (List.map (List.map (renderCell playerId)) (board b))).
    { rewrite Forall_map. eapply Forall_impl; [exact Hrows|].
      intros cells Hc. cbn in Hc |- *. rewrite length_map, <- Hc, Nat2Z.id. reflexivity. }
    split; [|split; [|split]].
    + rewrite look_eq, (boardInv_rep b Hb). reflexivity.
    + unfold lookLines. cbn [List.length]. f_equal.
      rewrite (concat_length_uniform _ _ Hrows'), length_map.
      rewrite Z2Nat.inj_mul by lia. rewrite <- Hlen, Nat2Z.id. reflexivity.
    + reflexivity.
    + intros r c Hr Hc. exact (look_cell_line b playerId r c Hb Hr Hc).
  - intros Hb. rewrite look_eq.
    destruct (repFailure b) as [msg|] eqn:Hrep; [exists msg; reflexivity|].
    contradiction Hb. apply repFailure_None, Hrep.
Qed.

(** [p2]'s view of the example game after [p1]'s first flip. *)
Lemma look_lines_witness :
  lookLines (brd afterFirst) "p2" !! 4%nat = Some "up A"%string /\
  List.length (lookLines (brd afterFirst) "p2") = 5%nat.
Proof.
  assert (Hb : boardInv (brd afterFirst)) by (apply repFailure_None; vm_compute; reflexivity).
  destruct (proj1 (look_lines (brd afterFirst) "p2") Hb) as (_ & Hlen & _ & Hcell).
  split; [|exact Hlen].
  destruct (Hcell 1 1) as (x & Hx & Hline).
  - vm_compute. split; [discriminate | reflexivity].
  - vm_compute. split; [discriminate | reflexivity].
  - vm_compute in Hx. injection Hx as <-. exact Hline.
Defined.

(** ** [flip] outside the grid *)

(** X4. A flip at a position outside the grid throws 'invalid card
    position' before anything else happens: the grid, the listeners, the
    queue of resolved promises and the claim registry are as before, nothing
    is published and no clean-up of the player's previous move takes place.
    A player the board knows keeps the state it had; a new player is entered
    with the idle state. *)
Theorem flip_out_of_bounds (b : Board) (playerId : string) (r c : Z) :
  r < 0 \/ height b <= r \/ c < 0 \/ width b <= c ->
  exists b',
    flip playerId r c b = (Throw (Error "invalid card position"), b') /\
    height b' = height b /\ width b' = width b /\ board b' = board b /\
    listeners b' = listeners b /\ jobs b' = jobs b /\
    claimLocks b' = claimLocks b /\
    match playerStates b !! playerId with
    | Some _ => b' = b
    | None =>
        heap b' = heap b ++ [freshState] /\
        playerStates b' = <[playerId := List.length (heap b)]> (playerStates b)
    end.
Proof.
  intros Hout.
  assert (Hchk : forall b1, height b1 = height b -> width b1 = width b ->
            (r <? 0) || (r >=? height b1) || (c <? 0) || (c >=? width b1) = true).
  { intros b1 -> ->.
    destruct (r <? 0) eqn:E1; [reflexivity|]. apply Z.ltb_ge in E1.
    destruct (r >=? height b) eqn:E2; [reflexivity|]. rewrite Z.geb_leb in E2; apply Z.leb_gt in E2.
    destruct (c <? 0) eqn:E3; [reflexivity|]. apply Z.ltb_ge in E3.
    destruct (c >=? width b) eqn:E4; [reflexivity|]. rewrite Z.geb_leb in E4; apply Z.leb_gt in E4.
    lia. }
  unfold flip. unfold bind at 1. unfold get at 1.
  destruct (playerStates b !! playerId) as [l|] eqn:Hl.
  - exists b. unfold bind, ret, get, throw.
    rewrite (Hchk b eq_refl eq_refl). repeat (split; [reflexivity|]). reflexivity.
  - eexists. unfold bind, ret, get, throw, resetState, alloc, installState, modify, bind.
    cbn. rewrite (Hchk b eq_refl eq_refl).
    split; [reflexivity|]. cbn. repeat (split; [reflexivity|]). split; reflexivity.
Qed.

(** [p1], who holds the card at (0,0), flips at row 2 of the 2x2 board. *)
Lemma flip_out_of_bounds_witness :
  flip "p1" 2 0 (brd afterFirst) =
    (Throw (Error "invalid card position"), brd afterFirst).
Proof.
  destruct (flip_out_of_bounds (brd afterFirst) "p1" 2 0) as (b' & Hrun & _ & _ & _ & _ & _ & _ & Hst).
  - right. left. vm_compute. discriminate.
  - change (playerStates (brd afterFirst) !! "p1"%string) with (Some 0%nat) in Hst.
    rewrite Hrun, Hst. reflexivity.
Defined.

(** ** [notifyAll] and [watch] *)

Lemma repFailure_set_listeners ls b : repFailure (set_listeners ls b) = repFailure b.
Proof. apply repFailure_ext; reflexivity. Qed.

(** X5. On a board that passes the representation check, [notifyAll]
    empties the list of listeners and resolves the promise of each one, in
    the order of registration, with its own viewer's snapshot of the board;
    it touches nothing else, and a second [notifyAll] right after it has no
    effect.  On a board that fails the check with listeners registered, it
    throws an assertion error and the listeners are dropped unresolved. *)
Theorem notifyAll_wakes_each_once (b : Board) :
  (boardInv b ->
     exists b',
       notifyAll b = (Ret tt, b') /\ coreEq b b' /\
       listeners b' = [] /\
       jobs b' = jobs b ++ List.map (fun l => (l, snapshot b (viewer l))) (listeners b) /\
       notifyAll b' = (Ret tt, b')) /\
  (~ boardInv b -> listeners b <> [] ->
     exists msg, notifyAll b = (Throw (AssertionError msg), set_listeners [] b)).
Proof.
  split.
  - intros Hb. exists (publish b).
    split; [apply notifyAll_ok, boardInv_rep, Hb|].
    split; [repeat split|]. split; [reflexivity|]. split; [reflexivity|].
    rewrite notifyAll_ok by (rewrite <- (boardInv_rep b Hb); apply repFailure_ext; reflexivity).
    unfold publish. cbn. rewrite app_nil_r. reflexivity.
  - intros Hb Hls.
    destruct (repFailure b) as [msg|] eqn:Hrep;
      [|contradiction Hb; apply repFailure_None, Hrep].
    exists msg. unfold notifyAll. unfold bind at 1. unfold get.
    unfold bind at 1. unfold modify at 1.
    destruct (listeners b) as [|l ls]; [contradiction Hls; reflexivity|].
    cbn [forEach]. unfold bind at 1. unfold bind at 1.
    rewrite look_eq, repFailure_set_listeners, Hrep. reflexivity.
Qed.

Lemma watch_eq playerId k b :
  watch playerId k b =
    match repFailure b with
    | Some msg => (Throw (AssertionError msg),
                   set_listeners (listeners b ++ [mkListener playerId k]) b)
    | None => (Ret tt, set_listeners (listeners b ++ [mkListener playerId k]) b)
    end.
Proof.
  unfold watch, bind, modify, checkRepFunctions.
  rewrite repFailure_set_listeners. destruct (repFailure b); reflexivity.
Qed.

(** X6. [watch] adds one listener for the caller at the end of the list
    and changes nothing else, whether or not the representation check that
    follows passes; it returns normally exactly when the check passes.  The
    promise it hands back is still pending then; the next [notifyAll]
    resolves it, after those of the earlier listeners, with the caller's
    snapshot of the board. *)
Theorem watch_resolved_by_next_publish (b : Board) (playerId : string) (k : Kont) :
  let b1 := set_listeners (listeners b ++ [mkListener playerId k]) b in
  snd (watch playerId k b) = b1 /\
  (fst (watch playerId k b) = Ret tt <-> boardInv b) /\
  (boardInv b ->
     exists b2,
       notifyAll b1 = (Ret tt, b2) /\ coreEq b b2 /\ listeners b2 = [] /\
       jobs b2 =
         jobs b ++ List.map (fun l => (l, snapshot b (viewer l))) (listeners b)
                ++ [(mkListener playerId k, snapshot b playerId)]).
Proof.
  cbv zeta.
  pose proof (watch_eq playerId k b) as Hrun.
  split; [|split].
  - rewrite Hrun. destruct (repFailure b); reflexivity.
  - rewrite Hrun. pose proof (repFailure_None b) as Hrep.
    destruct (repFailure b) as [msg|]; cbn.
    + split; [discriminate|]. intros H. apply Hrep in H. discriminate H.
    + split; [intros _; apply Hrep; reflexivity | reflexivity].
  - intros Hb. eexists. split.
    + apply notifyAll_ok. rewrite repFailure_set_listeners. apply boardInv_rep, Hb.
    + split; [repeat split|]. split; [reflexivity|].
      unfold publish. cbn. rewrite map_app. reflexivity.
Qed.

(** One watcher on the example board. *)
Lemma notifyAll_wakes_each_once_witness :
  exists b',
    notifyAll (set_listeners [mkListener "p2" KWatch] board2x2) = (Ret tt, b') /\
    listeners b' = [] /\
    jobs b' = [(mkListener "p2" KWatch, snapshot board2x2 "p2")].
Proof.
  destruct (proj1 (notifyAll_wakes_each_once
                     (set_listeners [mkListener "p2" KWatch] board2x2)))
    as (b' & Hrun & _ & Hls & Hjobs & _).
  - apply repFailure_None. reflexivity.
  - exists b'. split; [exact Hrun|]. split; [exact Hls | exact Hjobs].
Defined.

(** [p2] watches the example board. *)
Lemma watch_resolved_by_next_publish_witness :
  fst (watch "p2" KWatch board2x2) = Ret tt /\
  exists b2,
    notifyAll (snd (watch "p2" KWatch board2x2)) = (Ret tt, b2) /\
    jobs b2 = [(mkListener "p2" KWatch, snapshot board2x2 "p2")].
Proof.
  destruct (watch_resolved_by_next_publish board2x2 "p2" KWatch) as (Hsnd & Hfst & Hnext).
  assert (Hb : boardInv board2x2) by (apply repFailure_None; reflexivity).
  split; [apply Hfst, Hb|].
  destruct (Hnext Hb) as (b2 & Hrun & _ & _ & Hjobs).
  exists b2. rewrite Hsnd. split; [exact Hrun | exact Hjobs].
Defined.

(** ** [cleanupPreviousMove] always returns *)

Lemma boardInv_wr b f r c :
  boardInv b ->
  (forall x, cellAt (board b) r c = Some x -> cellInv (f x)) ->
  boardInv (wr f r c b).
Proof.
  intros Hb Hf. apply (boardInv_cells b); [exact Hb | apply sameShape_wr |].
  apply cellsOK_wr; [exact (proj2 (proj2 (proj2 (proj2 Hb)))) | exact Hf].
Qed.

Lemma cleanup_total playerId b :
  boardInv b -> exists b1, cleanupPreviousMove playerId b = (Ret tt, b1).
Proof.
  intros Hb.
  assert (T : triple boardInv (cleanupPreviousMove playerId)
                (fun _ => boardInv) (fun _ => False)).
  { assert (Trm : forall p, triple boardInv
              (whenCell p (fun _ => writeCell removeCell (row p) (col p)))
              (fun _ => boardInv) (fun _ => False)).
    { intros p b0 Hb0. unfold whenCell, bind, get.
      destruct (cellAt (board b0) (row p) (col p)); [|exact Hb0].
      apply (boardInv_wr b0); [exact Hb0|]. intros x _. split; cbn; [congruence | auto]. }
    assert (Ttd : forall p, triple boardInv (turnDown playerId p)
              (fun _ => boardInv) (fun _ => False)).
    { intros p b0 Hb0. unfold turnDown, whenCell, bind, get.
      destruct (cellAt (board b0) (row p) (col p)) as [x|] eqn:Hx; [|exact Hb0].
      destruct (faceUp x && bool_decide (controller x = None)) eqn:Hc; [|exact Hb0].
      destruct (negb (isCardInPlayerStates b0 playerId (row p) (col p))); [|exact Hb0].
      apply (boardInv_wr b0); [exact Hb0|].
      intros x' Hx'. rewrite Hx in Hx'. injection Hx' as <-.
      apply andb_true_iff in Hc. destruct Hc as [_ Hc]. apply bool_decide_eq_true in Hc.
      split; cbn; [congruence | intros _; split; [reflexivity | exact Hc]]. }
    assert (Trs : triple boardInv (resetState playerId) (fun _ => boardInv) (fun _ => False)).
    { intros b0 Hb0. exact Hb0. }
    assert (Tna : triple boardInv notifyAll (fun _ => boardInv) (fun _ => False)).
    { intros b0 Hb0. rewrite notifyAll_ok by (apply boardInv_rep, Hb0). exact Hb0. }
    unfold cleanupPreviousMove. intros b0 Hb0. unfold bind at 1. unfold get at 1.
    destruct (playerStates b0 !! playerId) as [l|]; [|exact Hb0].
    destruct (firstCard (objAt b0 l)) as [f|]; [|exact Hb0].
    destruct (secondCard (objAt b0 l)) as [s|]; [|exact Hb0].
    destruct (hasMatch (objAt b0 l)).
    - revert b0 Hb0.
      change (triple boardInv
        (whenCell f (fun _ => writeCell removeCell (row f) (col f)) ;;;
         whenCell (secondPos s) (fun _ =>
           writeCell removeCell (row (secondPos s)) (col (secondPos s))) ;;;
         resetState playerId) (fun _ => boardInv) (fun _ => False)).
      eapply triple_bind; [apply Trm|]. intros ?.
      eapply triple_bind; [apply Trm|]. intros ?. exact Trs.
    - revert b0 Hb0.
      change (triple boardInv
        (turnDown playerId f ;;;
         match s with
         | NoneCardRef => resetState playerId ;;; notifyAll
         | SecondAt p => turnDown playerId p ;;; resetState playerId
         end) (fun _ => boardInv) (fun _ => False)).
      eapply triple_bind; [apply Ttd|]. intros ?.
      destruct s as [|q].
      + eapply triple_bind; [apply Trs|]. intros ?. exact Tna.
      + eapply triple_bind; [apply Ttd|]. intros ?. exact Trs. }
  specialize (T b Hb).
  destruct (cleanupPreviousMove playerId b) as [[[]|e] b1]; [|contradiction].
  exists b1. reflexivity.
Qed.

(** After the clean-up of a pair the player is idle. *)
Lemma cleanup_pair_state b playerId p s m :
  stateOf b playerId = Some (holdingPair p s m) ->
  stateOf (snd (cleanupPreviousMove playerId b)) playerId = Some freshState.
Proof.
  intros Hst. destruct m.
  - (* the pair is removed *)
    destruct (stateOf_Some b playerId _ Hst) as (l & Hl & Ho & _).
    unfold cleanupPreviousMove. unfold bind at 1. unfold get at 1.
    rewrite Hl, Ho. cbn [firstCard secondCard hasMatch holdingPair].
    destruct (whenCell_write removeCell p b) as (g1 & E1 & _).
    unfold bind at 1. rewrite E1.
    destruct (whenCell_write removeCell (secondPos s) (set_board g1 b)) as (g2 & E2 & _).
    unfold bind at 1. rewrite E2.
    apply stateOf_reset.
  - exact (proj2 (cleanup_unmatched b playerId p s Hst)).
Qed.

Lemma cleanup_pair b playerId p s m :
  boardInv b ->
  stateOf b playerId = Some (holdingPair p s m) ->
  exists b1,
    cleanupPreviousMove playerId b = (Ret tt, b1) /\
    stateOf b1 playerId = Some freshState /\
    boardInv b1 /\ sameShape b b1 /\ claimLocks b1 = claimLocks b.
Proof.
  intros Hb Hst.
  destruct (cleanup_total playerId b Hb) as (b1 & Hcl).
  pose proof (cleanup_boardInv b playerId Hb) as [Hb1 Hs1].
  pose proof (claims_cleanupPreviousMove (claimLocks b) playerId b eq_refl) as Hk.
  pose proof (cleanup_pair_state b playerId p s m Hst) as Hst1.
  rewrite Hcl in Hb1, Hs1, Hk, Hst1. cbn in Hb1, Hs1, Hk, Hst1.
  exists b1. split; [exact Hcl|]. auto.
Qed.

(** ** [flip] after the clean-up *)

(** A known player's flip inside the grid is the flip on the board the
    clean-up leaves, once the clean-up has made the player idle. *)
Lemma flip_after_cleanup playerId r c b b1 l :
  playerStates b !! playerId = Some l ->
  0 <= r < height b -> 0 <= c < width b ->
  cleanupPreviousMove playerId b = (Ret tt, b1) ->
  sameShape b b1 ->
  stateOf b1 playerId = Some freshState ->
  flip playerId r c b = flip playerId r c b1.
Proof.
  intros Hl Hr Hc Hcl (Hh & Hw & _) Hst.
  destruct (stateOf_Some b1 playerId _ Hst) as (l1 & Hl1 & Ho1 & _).
  unfold flip.
  unfold bind at 1. unfold get at 1. rewrite Hl.
  unfold bind at 1. unfold ret at 1.
  unfold bind at 1. unfold get at 1.
  rewrite bounds_check_false by assumption.
  unfold bind at 1. rewrite Hcl.
  symmetry.
  unfold bind at 1. unfold get at 1. rewrite Hl1.
  unfold bind at 1. unfold ret at 1.
  unfold bind at 1. unfold get at 1.
  rewrite bounds_check_false by (rewrite ?Hh, ?Hw; assumption).
  unfold bind at 1.
  rewrite cleanup_noop
    by (intros l'; rewrite Hl1; intros [= <-]; left; rewrite Ho1; reflexivity).
  reflexivity.
Qed.

(** ** The first flip, from the test of the [while] loop on *)

Lemma cellAt_firstTaken playerId r c l b r' c' :
  cellAt (board (firstTaken playerId r c l b)) r' c' =
    if bool_decide (mkPos r' c' = mkPos r c)
    then (fun x => mkCell (card x) true (Some playerId)) <$> cellAt (board b) r' c'
    else cellAt (board b) r' c'.
Proof.
  unfold firstTaken. cbn [board inst ws set_playerStates set_heap].
  rewrite (cellAt_wr (setController (Some playerId)) (mkPos r c)).
  rewrite (cellAt_wr (setFaceUp true) (mkPos r c)).
  case_bool_decide; [|reflexivity].
  destruct (cellAt (board b) r' c'); reflexivity.
Qed.

Lemma takeFirst_run playerId r c l b x :
  boardInv b ->
  cellAt (board b) r c = Some x -> card x <> EmptyString ->
  takeFirst playerId r c l b =
    (Ret (Returned (snapshot (publish (firstTaken playerId r c l b)) playerId)),
     publish (firstTaken playerId r c l b)).
Proof.
  intros Hb Hx Hne.
  assert (HbT : boardInv (firstTaken playerId r c l b)).
  { apply (boardInv_cells b); [exact Hb | apply sameShape_firstTaken |].
    intros r' c' y. rewrite cellAt_firstTaken. case_bool_decide as Hd.
    - destruct (cellAt (board b) r' c') as [x'|] eqn:Hx'; cbn; [|discriminate].
      intros [= <-]. injection Hd as -> ->. rewrite Hx in Hx'. injection Hx' as <-.
      split; cbn; [reflexivity | intros E; contradiction].
    - apply (proj2 (proj2 (proj2 (proj2 Hb)))). }
  rewrite takeFirst_eq. unfold bind.
  rewrite finish_ok by (apply boardInv_rep, HbT). reflexivity.
Qed.

Lemma whileLoop_takes playerId r c l b x :
  boardInv b ->
  claimLocks b !! cellKey r c = None ->
  cellAt (board b) r c = Some x -> card x <> EmptyString ->
  controlledByOther x playerId = false ->
  whileLoop playerId r c l b =
    (Ret (Returned (snapshot (publish (firstTaken playerId r c l b)) playerId)),
     publish (firstTaken playerId r c l b)).
Proof.
  intros Hb Hk Hx Hxc Hctl.
  pose proof (proj2 (isEmpty_false _) Hxc) as He.
  unfold whileLoop. unfold bind at 1. unfold readCell at 1. rewrite Hx.
  change (default (mkCell EmptyString false None) (Some x)) with x.
  rewrite Hctl, andb_false_r.
  unfold forBody. unfold bind at 1. unfold readCell at 1. rewrite Hx.
  change (default (mkCell EmptyString false None) (Some x)) with x.
  rewrite He, Hctl.
  unfold bind at 1. unfold tryClaimCell. unfold bind at 1. unfold get at 1. rewrite Hk.
  unfold bind at 1. unfold modify at 1. unfold ret at 1.
  set (b1 := set_claimLocks _ b).
  assert (Hsec : claimedSection playerId r c l b1 = takeFirst playerId r c l b1).
  { unfold claimedSection, bind, readCell. cbn [board b1 set_claimLocks]. rewrite Hx.
    change (default (mkCell EmptyString false None) (Some x)) with x.
    rewrite He, Hctl. reflexivity. }
  assert (Htf : takeFirst playerId r c l b1 =
            (Ret (Returned (snapshot (publish (firstTaken playerId r c l b1)) playerId)),
             publish (firstTaken playerId r c l b1))).
  { apply (takeFirst_run playerId r c l b1 x); [exact Hb | exact Hx | exact Hxc]. }
  unfold tryFinally, finally. rewrite Hsec, Htf.
  rewrite releaseClaim_eq. unfold releasedAt.
  set (b2 := publish (firstTaken playerId r c l b1)).
  assert (Hk2 : claimLocks b2 = <[cellKey r c := playerId]> (claimLocks b)) by reflexivity.
  rewrite Hk2, lookup_insert_eq, bool_decide_eq_true_2 by reflexivity.
  rewrite delete_insert_id by exact Hk.
  assert (Hb3 : set_claimLocks (claimLocks b) b2 = publish (firstTaken playerId r c l b))
    by reflexivity.
  rewrite Hb3. reflexivity.
Qed.

Lemma whileLoop_waits playerId r c l b x q :
  boardInv b ->
  cellAt (board b) r c = Some x ->
  faceUp x = true -> controller x = Some q -> q <> playerId ->
  whileLoop playerId r c l b =
    (Ret Suspended,
     set_listeners (listeners b ++ [mkListener playerId (KFlip AtWhile playerId r c l)]) b).
Proof.
  intros Hb Hx Hf Hq Hne.
  unfold whileLoop. unfold bind at 1. unfold readCell at 1. rewrite Hx.
  change (default (mkCell EmptyString false None) (Some x)) with x.
  unfold controlledByOther. rewrite Hf, Hq.
  replace (String.eqb q playerId) with false
    by (symmetry; apply String.eqb_neq; exact Hne).
  cbn [andb negb].
  unfold suspendAt, bind.
  rewrite watch_eq, (boardInv_rep b Hb). reflexivity.
Qed.

(** What a flip comes to for a player the board knows as idle. *)
Lemma flip_idle_known playerId r c b l :
  playerStates b !! playerId = Some l -> heap b !! l = Some freshState ->
  0 <= r < height b -> 0 <= c < width b ->
  flip playerId r c b =
    match cellAt (board b) r c with
    | Some x =>
        if isEmpty (card x) then (Throw (Error "invalid card position"), b)
        else whileLoop playerId r c l b
    | None => (Throw (Error "invalid card position"), b)
    end.
Proof.
  intros Hl Hheap Hr Hc.
  pose proof (objAt_heap b l _ Hheap) as Ho.
  rewrite (flip_with_state playerId r c b l Hl (or_introl (f_equal firstCard Ho)) Hr Hc).
  cbv zeta. rewrite Ho. cbn [firstCard freshState].
  assert (Hrel : (releaseFirst l ;;; throw (Error "invalid card position")) b =
                 (@Throw Outcome (Error "invalid card position"), b)).
  { unfold releaseFirst, bind, deref. rewrite Ho. reflexivity. }
  destruct (cellAt (board b) r c) as [x|].
  - rewrite bool_decide_eq_false_2 by discriminate. cbn [orb].
    change (default (mkCell EmptyString false None) (Some x)) with x.
    destruct (isEmpty (card x)); [exact Hrel | reflexivity].
  - rewrite bool_decide_eq_true_2 by reflexivity. cbn [orb]. exact Hrel.
Qed.

(** The board once an unknown player has been entered. *)
Lemma entered_state playerId b :
  let b0 := snd (resetState playerId b) in
  playerStates b0 !! playerId = Some (List.length (heap b)) /\
  heap b0 !! List.length (heap b) = Some freshState /\
  height b0 = height b /\ width b0 = width b /\ board b0 = board b /\
  listeners b0 = listeners b /\ jobs b0 = jobs b /\ claimLocks b0 = claimLocks b.
Proof.
  cbv zeta. rewrite resetState_eq. cbn.
  split; [apply lookup_insert_eq|].
  split; [apply list_lookup_middle; reflexivity|].
  repeat split.
Qed.

(** ** More facts about the example game *)

Lemma waiting_reachable : reachable waiting.
Proof. exact (reach_exec (CallFlip "p2" 0 0) afterFirst afterFirst_reachable I). Qed.

Lemma released_reachable : reachable released.
Proof. exact (reach_exec (CallFlip "p1" 0 1) waiting waiting_reachable I). Qed.

Lemma removed_reachable : reachable removed.
Proof.
  unfold removed. apply reach_exec; [|exact I]. apply reach_exec; [|exact I].
  exact waiting_reachable.
Qed.

Lemma reachable_boardInv w : reachable w -> boardInv (brd w).
Proof. intros Hw. exact (proj1 (reachable_inv w Hw)). Qed.

(** ** [flip] by an idle player *)

Lemma boardInv_entered playerId b :
  boardInv b -> boardInv (snd (resetState playerId b)).
Proof.
  intros Hb. apply repFailure_None. rewrite <- (boardInv_rep b Hb).
  apply repFailure_ext; reflexivity.
Qed.

(** X7. Rule 1-A. An idle player's flip of a cell inside the grid that
    holds no card throws 'invalid card position' and changes nothing on the
    board: no cell, listener, resolved promise or claim is touched and
    nothing is published.  A player the board knows finds the board exactly
    as it was; a new player is entered as idle. *)
Theorem first_flip_on_empty_cell (b : Board) (playerId : string) (r c : Z) :
  0 <= r < height b -> 0 <= c < width b ->
  isIdle b playerId ->
  (forall x, cellAt (board b) r c = Some x -> card x = EmptyString) ->
  exists b',
    flip playerId r c b = (Throw (Error "invalid card position"), b') /\
    height b' = height b /\ width b' = width b /\ board b' = board b /\
    listeners b' = listeners b /\ jobs b' = jobs b /\
    claimLocks b' = claimLocks b /\
    stateOf b' playerId = Some freshState /\
    (playerStates b !! playerId <> None -> b' = b).
Proof.
  intros Hr Hc Hidle Hcell.
  assert (Hrun : forall b0 l,
            playerStates b0 !! playerId = Some l -> heap b0 !! l = Some freshState ->
            height b0 = height b -> width b0 = width b -> board b0 = board b ->
            flip playerId r c b0 = (Throw (Error "invalid card position"), b0)).
  { intros b0 l Hl Hheap Hh Hw Hg.
    rewrite (flip_idle_known playerId r c b0 l Hl Hheap)
      by (rewrite ?Hh, ?Hw; assumption).
    rewrite Hg. destruct (cellAt (board b) r c) as [x|] eqn:Hx; [|reflexivity].
    rewrite (Hcell x eq_refl). reflexivity. }
  destruct Hidle as [Hnone | Hfresh].
  - rewrite (flip_new_player playerId r c b Hnone).
    destruct (entered_state playerId b) as (Hl & Hheap & Hh & Hw & Hg & Hls & Hj & Hk).
    exists (snd (resetState playerId b)).
    split; [exact (Hrun _ _ Hl Hheap Hh Hw Hg)|].
    repeat (split; [assumption|]).
    split; [apply stateOf_reset|]. intros H. contradiction.
  - destruct (stateOf_Some b playerId _ Hfresh) as (l & Hl & _ & Hheap).
    exists b. split; [exact (Hrun b l Hl Hheap eq_refl eq_refl eq_refl)|].
    repeat (split; [reflexivity|]). split; [exact Hfresh | reflexivity].
Qed.

(** [p2], whose flip has been waiting, turns to the removed cell (1,1). *)
Lemma first_flip_on_empty_cell_witness :
  flip "p2" 1 1 (brd removed) = (Throw (Error "invalid card position"), brd removed).
Proof.
  destruct (first_flip_on_empty_cell (brd removed) "p2" 1 1)
    as (b' & Hrun & _ & _ & _ & _ & _ & _ & _ & Hsame).
  - vm_compute. split; [discriminate | reflexivity].
  - vm_compute. split; [discriminate | reflexivity].
  - right. vm_compute. reflexivity.
  - intros x Hx. vm_compute in Hx. injection Hx as <-. reflexivity.
  - rewrite Hrun, Hsame; [reflexivity|]. vm_compute. discriminate.
Defined.

(** X8. Rule 1-D. On a board that passes the representation check, an
    idle player's flip of a card that is face up and controlled by another
    player does not complete: it registers one listener for the player, to
    resume the flip at the test of the [while] loop, and suspends.  No cell
    changes, nothing is published, no claim is taken, and the player stays
    idle. *)
Theorem first_flip_waits (b : Board) (playerId : string) (r c : Z)
    (x : CardCell) (q : string) :
  boardInv b ->
  isIdle b playerId ->
  cellAt (board b) r c = Some x ->
  faceUp x = true -> controller x = Some q -> q <> playerId ->
  exists l b',
    flip playerId r c b = (Ret Suspended, b') /\
    listeners b' =
      listeners b ++ [mkListener playerId (KFlip AtWhile playerId r c l)] /\
    playerStates b' !! playerId = Some l /\ heap b' !! l = Some freshState /\
    height b' = height b /\ width b' = width b /\ board b' = board b /\
    jobs b' = jobs b /\ claimLocks b' = claimLocks b.
Proof.
  intros Hb Hidle Hx Hf Hq Hne.
  destruct (cellAt_bounds b r c x Hb Hx) as [Hr Hc].
  assert (Hcard : isEmpty (card x) = false).
  { apply isEmpty_false. intros E.
    destruct (proj2 (proj2 (proj2 (proj2 Hb))) _ _ _ Hx) as [_ H].
    destruct (H E) as [_ Hn]. rewrite Hq in Hn. discriminate Hn. }
  assert (Hrun : forall b0 l,
            boardInv b0 ->
            playerStates b0 !! playerId = Some l -> heap b0 !! l = Some freshState ->
            height b0 = height b -> width b0 = width b -> board b0 = board b ->
            flip playerId r c b0 =
              (Ret Suspended,
               set_listeners
                 (listeners b0 ++ [mkListener playerId (KFlip AtWhile playerId r c l)]) b0)).
  { intros b0 l Hb0 Hl Hheap Hh Hw Hg.
    rewrite (flip_idle_known playerId r c b0 l Hl Hheap)
      by (rewrite ?Hh, ?Hw; assumption).
    rewrite Hg, Hx, Hcard.
    apply (whileLoop_waits playerId r c l b0 x q); try assumption.
    rewrite Hg. exact Hx. }
  destruct Hidle as [Hnone | Hfresh].
  - rewrite (flip_new_player playerId r c b Hnone).
    destruct (entered_state playerId b) as (Hl & Hheap & Hh & Hw & Hg & Hls & Hj & Hk).
    eexists. eexists.
    split; [exact (Hrun _ _ (boardInv_entered playerId b Hb) Hl Hheap Hh Hw Hg)|].
    cbn [listeners set_listeners playerStates heap height width board jobs claimLocks].
    rewrite Hls. split; [reflexivity|]. repeat (split; [assumption|]). assumption.
  - destruct (stateOf_Some b playerId _ Hfresh) as (l & Hl & _ & Hheap).
    exists l. eexists.
    split; [exact (Hrun b l Hb Hl Hheap eq_refl eq_refl eq_refl)|].
    cbn [listeners set_listeners playerStates heap height width board jobs claimLocks].
    split; [reflexivity|]. repeat (split; [assumption || reflexivity|]). reflexivity.
Qed.

(** [p2] flips the card [p1] holds. *)
Lemma first_flip_waits_witness :
  exists l b',
    flip "p2" 0 0 (brd afterFirst) = (Ret Suspended, b') /\
    listeners b' = [mkListener "p2" (KFlip AtWhile "p2" 0 0 l)] /\
    board b' = board (brd afterFirst).
Proof.
  destruct (first_flip_waits (brd afterFirst) "p2" 0 0
              (mkCell "A" true (Some "p1")) "p1")
    as (l & b' & Hrun & Hls & _ & _ & _ & _ & Hg & _).
  - exact (reachable_boardInv _ afterFirst_reachable).
  - left. vm_compute. reflexivity.
  - vm_compute. reflexivity.
  - reflexivity.
  - reflexivity.
  - discriminate.
  - exists l, b'. split; [exact Hrun|]. split; [exact Hls | exact Hg].
Defined.

(** ** A waiting [flip] resumed *)

(** X9. What happens when a flip that waited in the [while] loop of rule
    1-D resumes.  If the card has been removed, it throws 'card was removed
    while waiting' and changes nothing.  If the card is still face up and
    controlled by another player, it registers a listener and waits again.
    If the card is there and no other player controls it, the cell is not
    claimed and the state object the call holds is still the idle one, the
    flip goes through as a first flip: the card is face up and controlled by
    the player, no other cell changes, the player holds it as first card,
    the change is published and the claim registry is as before. *)
Theorem resumed_flip (b : Board) (playerId : string) (r c : Z) (l : nat)
    (x : CardCell) :
  cellAt (board b) r c = Some x ->
  (card x = EmptyString ->
     resumeFlip AtWhile playerId r c l b =
       (Throw (Error "card was removed while waiting"), b)) /\
  (boardInv b -> faceUp x = true ->
   (exists q, controller x = Some q /\ q <> playerId) ->
     resumeFlip AtWhile playerId r c l b =
       (Ret Suspended,
        set_listeners
          (listeners b ++ [mkListener playerId (KFlip AtWhile playerId r c l)]) b)) /\
  (boardInv b -> card x <> EmptyString ->
   (forall q, controller x = Some q -> q = playerId) ->
   claimLocks b !! cellKey r c = None ->
   heap b !! l = Some freshState ->
     exists b',
       resumeFlip AtWhile playerId r c l b =
         (Ret (Returned (snapshot b' playerId)), b') /\
       cellAt (board b') r c = Some (mkCell (card x) true (Some playerId)) /\
       sameCellsExcept [mkPos r c] b b' /\
       stateOf b' playerId = Some (holdingFirst (mkPos r c)) /\
       published b b' /\
       claimLocks b' = claimLocks b).
Proof.
  intros Hx.
  assert (Hread : forall k : CardCell -> M Outcome,
            (y <- readCell r c ;; k y) b = k x b).
  { intros k. unfold bind, readCell. rewrite Hx. reflexivity. }
  split; [|split].
  - intros He. cbn [resumeFlip]. rewrite Hread.
    rewrite (proj2 (isEmpty_true _) He). reflexivity.
  - intros Hb Hf (q & Hq & Hne).
    assert (Hcard : isEmpty (card x) = false).
    { apply isEmpty_false. intros E.
      destruct (proj2 (proj2 (proj2 (proj2 Hb))) _ _ _ Hx) as [_ H].
      destruct (H E) as [_ Hn]. rewrite Hq in Hn. discriminate Hn. }
    cbn [resumeFlip]. rewrite Hread, Hcard.
    apply (whileLoop_waits playerId r c l b x q); assumption.
  - intros Hb Hne Hctl Hk Hheap.
    cbn [resumeFlip]. rewrite Hread, (proj2 (isEmpty_false _) Hne).
    rewrite (whileLoop_takes playerId r c l b x Hb Hk Hx Hne)
      by (apply controlledByOther_false; exact Hctl).
    eexists. split; [reflexivity|].
    exact (firstTaken_facts b playerId r c x l Hheap Hx).
Qed.

(** The three ways [p2]'s waiting flip of (0,0) can resume: the pair was
    matched and removed; [p1] still holds the card; [p1] has given it up. *)
Lemma resumed_flip_witness :
  resumeFlip AtWhile "p2" 0 0 1 (brd removed) =
    (Throw (Error "card was removed while waiting"), brd removed) /\
  fst (resumeFlip AtWhile "p2" 0 0 1 (brd waiting)) = Ret Suspended /\
  exists b',
    resumeFlip AtWhile "p2" 0 0 1 (brd released) =
      (Ret (Returned (snapshot b' "p2")), b') /\
    cellAt (board b') 0 0 = Some (mkCell "A" true (Some "p2")).
Proof.
  split; [|split].
  - apply (proj1 (resumed_flip (brd removed) "p2" 0 0 1 (mkCell "" false None)
                    ltac:(vm_compute; reflexivity))).
    reflexivity.
  - rewrite (proj1 (proj2 (resumed_flip (brd waiting) "p2" 0 0 1
                             (mkCell "A" true (Some "p1"))
                             ltac:(vm_compute; reflexivity)))).
    + reflexivity.
    + exact (reachable_boardInv _ waiting_reachable).
    + reflexivity.
    + exists "p1"%string. split; [reflexivity | discriminate].
  - destruct (proj2 (proj2 (resumed_flip (brd released) "p2" 0 0 1
                              (mkCell "A" true None)
                              ltac:(vm_compute; reflexivity))))
      as (b' & Hrun & Hc & _).
    + exact (reachable_boardInv _ released_reachable).
    + discriminate.
    + intros q Hq. discriminate Hq.
    + vm_compute. reflexivity.
    + vm_compute. reflexivity.
    + exists b'. split; [exact Hrun | exact Hc].
Defined.

(** ** [flip] by a player who holds a pair *)

Lemma flip_after_pair_core b playerId r c p s m :
  boardInv b ->
  stateOf b playerId = Some (holdingPair p s m) ->
  0 <= r < height b -> 0 <= c < width b ->
  exists b1 l1,
    cleanupPreviousMove playerId b = (Ret tt, b1) /\
    stateOf b1 playerId = Some freshState /\
    boardInv b1 /\ sameShape b b1 /\ claimLocks b1 = claimLocks b /\
    playerStates b1 !! playerId = Some l1 /\ heap b1 !! l1 = Some freshState /\
    flip playerId r c b = flip playerId r c b1 /\
    flip playerId r c b1 =
      match cellAt (board b1) r c with
      | Some x =>
          if isEmpty (card x) then (Throw (Error "invalid card position"), b1)
          else whileLoop playerId r c l1 b1
      | None => (Throw (Error "invalid card position"), b1)
      end.
Proof.
  intros Hb Hst Hr Hc.
  destruct (cleanup_pair b playerId p s m Hb Hst) as (b1 & Hcl & Hst1 & Hb1 & Hs1 & Hk1).
  destruct (stateOf_Some b playerId _ Hst) as (l & Hl & _ & _).
  destruct (stateOf_Some b1 playerId _ Hst1) as (l1 & Hl1 & _ & Hheap1).
  exists b1, l1. repeat (split; [assumption|]).
  split; [exact (flip_after_cleanup playerId r c b b1 l Hl Hr Hc Hcl Hs1 Hst1)|].
  destruct Hs1 as (Hh & Hw & _).
  apply flip_idle_known; rewrite ?Hh, ?Hw; assumption.
Qed.

(** X10. A flip inside the grid by a player who holds a pair, matched or
    not, is the clean-up of that pair followed by a first flip on the board
    the clean-up leaves, where the player is idle.  If the target holds no
    card on that board, the flip throws 'invalid card position' and the
    board stays as the clean-up left it.  If it holds a card that no other
    player controls and the cell is not claimed, the flip returns the
    player's snapshot: the card is face up and controlled by the player, no
    other cell differs from the cleaned board, the player holds it as first
    card, and the change is published. *)
Theorem flip_after_pair (b : Board) (playerId : string) (r c : Z)
    (p : Pos) (s : SecondRef) (m : bool) :
  boardInv b ->
  stateOf b playerId = Some (holdingPair p s m) ->
  0 <= r < height b -> 0 <= c < width b ->
  exists b1,
    cleanupPreviousMove playerId b = (Ret tt, b1) /\
    stateOf b1 playerId = Some freshState /\
    boardInv b1 /\
    flip playerId r c b = flip playerId r c b1 /\
    (forall x1, cellAt (board b1) r c = Some x1 -> card x1 = EmptyString ->
       flip playerId r c b = (Throw (Error "invalid card position"), b1)) /\
    (forall x1, cellAt (board b1) r c = Some x1 -> card x1 <> EmptyString ->
       (forall q, controller x1 = Some q -> q = playerId) ->
       claimLocks b !! cellKey r c = None ->
       exists b',
         flip playerId r c b = (Ret (Returned (snapshot b' playerId)), b') /\
         cellAt (board b') r c = Some (mkCell (card x1) true (Some playerId)) /\
         sameCellsExcept [mkPos r c] b1 b' /\
         stateOf b' playerId = Some (holdingFirst (mkPos r c)) /\
         published b1 b').
Proof.
  intros Hb Hst Hr Hc.
  destruct (flip_after_pair_core b playerId r c p s m Hb Hst Hr Hc)
    as (b1 & l1 & Hcl & Hst1 & Hb1 & Hs1 & Hk1 & Hl1 & Hheap1 & Hflip & Hflip1).
  exists b1. repeat (split; [assumption|]). split.
  - intros x1 Hx1 He. rewrite Hflip, Hflip1, Hx1, (proj2 (isEmpty_true _) He).
    reflexivity.
  - intros x1 Hx1 Hne Hctl Hk.
    rewrite Hflip, Hflip1, Hx1, (proj2 (isEmpty_false _) Hne).
    assert (Hk' : claimLocks b1 !! cellKey r c = None) by (rewrite Hk1; exact Hk).
    rewrite (whileLoop_takes playerId r c l1 b1 x1 Hb1 Hk' Hx1 Hne
               (proj2 (controlledByOther_false _ _) Hctl)).
    eexists. split; [reflexivity|].
    destruct (firstTaken_facts b1 playerId r c x1 l1 Hheap1 Hx1) as (F1 & F2 & F3 & F4 & _).
    auto.
Qed.

(** After the pair (0,0), (0,1) that did not match, [p1] turns (1,0). *)
Lemma flip_after_pair_witness :
  exists b',
    flip "p1" 1 0 (brd afterMiss) = (Ret (Returned (snapshot b' "p1")), b') /\
    cellAt (board b') 1 0 = Some (mkCell "B" true (Some "p1")) /\
    stateOf b' "p1" = Some (holdingFirst (mkPos 1 0)).
Proof.
  destruct (flip_after_pair (brd afterMiss) "p1" 1 0 (mkPos 0 0)
              (SecondAt (mkPos 0 1)) false)
    as (b1 & Hcl & _ & _ & _ & _ & Htake).
  - exact (reachable_boardInv _ afterMiss_reachable).
  - vm_compute. reflexivity.
  - vm_compute. split; [discriminate | reflexivity].
  - vm_compute. split; [discriminate | reflexivity].
  - destruct (Htake (mkCell "B" false None)) as (b' & Hrun & Hcell & _ & Hst & _).
    + assert (E : b1 = snd (cleanupPreviousMove "p1" (brd afterMiss)))
        by (rewrite Hcl; reflexivity).
      rewrite E. vm_compute. reflexivity.
    + discriminate.
    + intros q Hq. discriminate Hq.
    + vm_compute. reflexivity.
    + exists b'. split; [exact Hrun|]. split; [exact Hcell | exact Hst].
Defined.

(** X11. A player who holds a matched pair and flips one of its two cards
    gets 'invalid card position': the clean-up at the start of the flip has
    removed both cards, every other cell is as before, and the player is
    idle. *)
Theorem flip_own_matched_card (b : Board) (playerId : string) (r c : Z)
    (p q : Pos) (x : CardCell) :
  boardInv b ->
  stateOf b playerId = Some (holdingPair p (SecondAt q) true) ->
  mkPos r c = p \/ mkPos r c = q ->
  cellAt (board b) r c = Some x ->
  exists b1,
    flip playerId r c b = (Throw (Error "invalid card position"), b1) /\
    (forall r' c', cellAt (board b1) r' c' =
       if bool_decide (mkPos r' c' = p \/ mkPos r' c' = q)
       then removeCell <$> cellAt (board b) r' c'
       else cellAt (board b) r' c') /\
    stateOf b1 playerId = Some freshState.
Proof.
  intros Hb Hst Hpq Hx.
  destruct (cellAt_bounds b r c x Hb Hx) as [Hr Hc].
  destruct (flip_after_pair_core b playerId r c p (SecondAt q) true Hb Hst Hr Hc)
    as (b1 & l1 & Hcl & Hst1 & _ & _ & _ & _ & _ & Hflip & Hflip1).
  destruct (cleanup_matched b playerId p q Hst) as (b1' & Hcl' & Hcells & _).
  rewrite Hcl in Hcl'. injection Hcl' as <-.
  exists b1. split; [|split; [exact Hcells | exact Hst1]].
  rewrite Hflip, Hflip1, Hcells.
  rewrite bool_decide_eq_true_2 by exact Hpq. rewrite Hx. reflexivity.
Qed.

(** [p1] has matched (0,0) with (1,1) and flips (0,0) again. *)
Lemma flip_own_matched_card_witness :
  exists b1,
    flip "p1" 0 0 (brd afterMatch) = (Throw (Error "invalid card position"), b1) /\
    cellAt (board b1) 1 1 = Some (mkCell "" false None).
Proof.
  destruct (flip_own_matched_card (brd afterMatch) "p1" 0 0 (mkPos 0 0) (mkPos 1 1)
              (mkCell "A" true (Some "p1")))
    as (b1 & Hrun & Hcells & _).
  - exact (reachable_boardInv _ afterMatch_reachable).
  - vm_compute. reflexivity.
  - left. reflexivity.
  - vm_compute. reflexivity.
  - exists b1. split; [exact Hrun|]. rewrite Hcells. vm_compute. reflexivity.
Defined.

(** ** The board [parseFromFile] builds *)

Lemma chunk_lookup wn k (l : list string) i :
  (i < k)%nat -> chunk wn k l !! i = Some (take wn (drop (i * wn) l)).
Proof.
  revert l i. induction k as [|k IH]; intros l i Hi; [lia|].
  cbn [chunk]. destruct i as [|i].
  - cbn. rewrite drop_0. reflexivity.
  - cbn [lookup list_lookup]. change ((?a :: ?t) !! S ?n) with (t !! n).
    rewrite IH by lia. rewrite drop_drop.
    replace (wn + i * wn)%nat with (S i * wn)%nat by (cbn; lia). reflexivity.
Qed.

Lemma chunk_cell wn k (l : list string) i j :
  (i < k)%nat -> (j < wn)%nat ->
  (chunk wn k l !! i ≫= fun rowCards => rowCards !! j) = l !! (i * wn + j)%nat.
Proof.
  intros Hi Hj. rewrite chunk_lookup by exact Hi. cbn.
  rewrite lookup_take_lt by exact Hj. rewrite lookup_drop. reflexivity.
Qed.

(** What a successful parse went through. *)
Lemma parse_success content b :
  Parse.parseFromFile content = Ret b ->
  let lines := Parse.linesOf content in
  let tokens := Parse.allCardsOf lines in
  exists h w,
    Parse.parseDimensions (JS.trim (default EmptyString (head lines))) = Ret (h, w) /\
    0 < h /\ 0 < w /\ Z.of_nat (List.length tokens) = h * w /\
    newBoard h w (chunk (Z.to_nat w) (Z.to_nat h) tokens) = Ret b.
Proof.
  intros Hp lines tokens.
  destruct (decide (JS.trim (default EmptyString (head lines)) = EmptyString)) as [He|He].
  { rewrite (parse_empty content He) in Hp. discriminate Hp. }
  destruct (Parse.parseDimensions (JS.trim (default EmptyString (head lines))))
    as [[h w]|e] eqn:Hd.
  2:{ exfalso. revert Hp. unfold Parse.parseFromFile. fold lines.
      rewrite (proj2 (isEmpty_false _) He), Hd. discriminate. }
  destruct (parseDimensions_pos _ _ _ Hd) as [Hh Hw].
  rewrite (parse_with_dimensions content h w Hd) in Hp. fold lines in Hp.
  exists h, w. split; [reflexivity|]. split; [exact Hh|]. split; [exact Hw|].
  revert Hp. unfold Parse.parseCards. fold tokens. cbv zeta.
  destruct (Z.of_nat (List.length lines) <? h + 1); [discriminate|].
  destruct (negb (Z.rem (h * w) 2 =? 0)); [discriminate|].
  destruct (Z.of_nat (List.length tokens) =? h * w) eqn:Hn; cbn [negb]; [|discriminate].
  apply Z.eqb_eq in Hn.
  pose proof (parseCards_loops lines h w Hh Hw Hn) as Hloop. fold tokens in Hloop.
  rewrite Hloop.
  destruct (List.find _ _) as [[t n]|]; [discriminate|].
  intros Hb. split; [exact Hn | exact Hb].
Qed.

(** X12. The board that [parseFromFile] returns has the dimensions read
    from the first line and holds the card tokens in row-major order: the
    cell at row i, column j holds token number i*width + j, face down and
    uncontrolled.  It knows no player, listener or claim and passes the
    representation check. *)
Theorem parse_layout (content : string) (b : Board) :
  Parse.parseFromFile content = Ret b ->
  let lines := Parse.linesOf content in
  let tokens := Parse.allCardsOf lines in
  Parse.parseDimensions (JS.trim (default EmptyString (head lines)))
    = Ret (height b, width b) /\
  Z.of_nat (List.length tokens) = height b * width b /\
  (forall i j, 0 <= i < height b -> 0 <= j < width b ->
     exists t, tokens !! Z.to_nat (i * width b + j) = Some t /\
               t <> EmptyString /\
               cellAt (board b) i j = Some (mkCell t false None)) /\
  heap b = [] /\ playerStates b = ∅ /\ listeners b = [] /\
  claimLocks b = ∅ /\ jobs b = [] /\ boardInv b.
Proof.
  intros Hp lines tokens.
  destruct (parse_success content b Hp) as (h & w & Hd & Hh & Hw & Hn & Hb).
  fold lines in Hd. fold lines tokens in Hn, Hb.
  destruct (newBoard_result h w _ b Hb)
    as (Eh & Ew & Hcells & Hheap & Hps & Hls & Hk & Hjobs & Hinv).
  rewrite Eh, Ew. split; [exact Hd|]. split; [exact Hn|].
  split; [|auto 10].
  intros i j Hi Hj. rewrite Hcells. unfold Parse.index.
  replace (i <? 0) with false by (symmetry; apply Z.ltb_ge; lia).
  replace (j <? 0) with false by (symmetry; apply Z.ltb_ge; lia).
  assert (Hlook : (chunk (Z.to_nat w) (Z.to_nat h) tokens !! Z.to_nat i
                     ≫= fun rowCards => rowCards !! Z.to_nat j)
                  = tokens !! Z.to_nat (i * w + j)).
  { rewrite chunk_cell by lia. f_equal.
    rewrite Z2Nat.inj_add, Z2Nat.inj_mul by nia. reflexivity. }
  assert (Hlt : (Z.to_nat (i * w + j) < List.length tokens)%nat) by nia.
  destruct (lookup_lt_is_Some_2 tokens _ Hlt) as [t Ht].
  exists t. split; [exact Ht|]. split.
  - pose proof (allCards_nonempty lines) as Hne. fold tokens in Hne.
    rewrite Forall_forall in Hne. apply isEmpty_false, Hne.
    eapply list_elem_of_lookup_2. exact Ht.
  - cbn in Hlook |- *. rewrite Hlook, Ht. reflexivity.
Qed.

(** The example file. *)
Lemma parse_layout_witness :
  cellAt (board board2x2) 1 0 = Some (mkCell "B" false None) /\
  boardInv board2x2.
Proof.
  destruct (parse_layout file2x2 board2x2) as (_ & _ & Hcells & _ & _ & _ & _ & _ & Hinv).
  - vm_compute. reflexivity.
  - split; [|exact Hinv].
    destruct (Hcells 1 0) as (t & Ht & _ & Hc).
    + vm_compute. split; [discriminate | reflexivity].
    + vm_compute. split; [discriminate | reflexivity].
    + vm_compute in Ht. injection Ht as <-. exact Hc.
Defined.

(** ** The errors of [parseFromFile] *)

Lemma parseDimensions_errors s e :
  Parse.parseDimensions s = Throw e ->
  e = Error "invalid board dimensions format" \/ e = Error "invalid board dimensions".
Proof.
  unfold Parse.parseDimensions.
  destruct (JS.split "x" s) as [|d0 [|d1 [|d2 ds]]]; try (intros [= <-]; left; reflexivity).
  destruct (isEmpty (JS.trim d0) || isEmpty (JS.trim d1));
    [intros [= <-]; left; reflexivity|].
  destruct (JS.parseInt (JS.trim d0)) as [h|]; [|intros [= <-]; right; reflexivity].
  destruct (JS.parseInt (JS.trim d1)) as [w|]; [|intros [= <-]; right; reflexivity].
  destruct ((h <=? 0) || (w <=? 0)); [intros [= <-]; right; reflexivity | discriminate].
Qed.

(** X13. On a file whose dimensions stay within the safe integers (H*W at
    most 2^53 - 1), [parseFromFile] either returns a board or
    throws one of seven errors: 'empty board file', 'invalid board
    dimensions format', 'invalid board dimensions', 'insufficient board
    rows', 'total number of cards must be even', 'expected H*W cards (HxW),
    but got n cards' with H and W the numbers of the first line and n the
    number of card tokens, or 'card ... appears ... times, which is not a
    multiple of 2'.  The error 'missing card at position ...' of the
    conversion loop and the assertions of the constructor are never
    raised. *)
Theorem parse_errors (content : string) (e : Exn) :
  safeDimensions content ->
  Parse.parseFromFile content = Throw e ->
  (e = Error "empty board file" \/
   e = Error "invalid board dimensions format" \/
   e = Error "invalid board dimensions" \/
   e = Error "insufficient board rows" \/
   e = Error "total number of cards must be even" \/
   (exists h w,
      Parse.parseDimensions
        (JS.trim (default EmptyString (head (Parse.linesOf content)))) = Ret (h, w) /\
      e = Error (Parse.expectedMsg h w
                   (Z.of_nat (List.length (Parse.allCardsOf (Parse.linesOf content)))))) \/
   (exists t n, e = Error (Parse.oddMsg t n))) /\
  (forall k, e <> Error ("missing card at position " +:+ JS.ofNumber k)) /\
  (forall msg, e <> AssertionError msg).
Proof.
  intros _ Hp.
  assert (Hcases :
    e = Error "empty board file" \/
    e = Error "invalid board dimensions format" \/
    e = Error "invalid board dimensions" \/
    e = Error "insufficient board rows" \/
    e = Error "total number of cards must be even" \/
    (exists h w,
       Parse.parseDimensions
         (JS.trim (default EmptyString (head (Parse.linesOf content)))) = Ret (h, w) /\
       e = Error (Parse.expectedMsg h w
                    (Z.of_nat (List.length (Parse.allCardsOf (Parse.linesOf content)))))) \/
    (exists t n, e = Error (Parse.oddMsg t n))).
  { set (lines := Parse.linesOf content).
    destruct (decide (JS.trim (default EmptyString (head lines)) = EmptyString)) as [He|He].
    { rewrite (parse_empty content He) in Hp. injection Hp as <-. auto 10. }
    destruct (Parse.parseDimensions (JS.trim (default EmptyString (head lines))))
      as [[h w]|e'] eqn:Hd.
    2:{ assert (e' = e).
        { revert Hp. unfold Parse.parseFromFile. fold lines.
          rewrite (proj2 (isEmpty_false _) He), Hd. congruence. }
        subst e'. destruct (parseDimensions_errors _ _ Hd) as [-> | ->]; auto 10. }
    destruct (parseDimensions_pos _ _ _ Hd) as [Hh Hw].
    rewrite (parse_with_dimensions content h w Hd) in Hp.
    destruct (parseCards_cases content h w Hh Hw) as [Hshort Hlong].
    destruct (Z_lt_dec (Z.of_nat (List.length (Parse.linesOf content))) (h + 1)) as [Hl|Hl].
    { rewrite (Hshort Hl) in Hp. injection Hp as <-. auto 10. }
    destruct (Hlong ltac:(lia)) as (Hodd & Hcount & Hmult).
    destruct (Z.even (h * w)) eqn:Hev.
    2:{ rewrite Hodd in Hp by (rewrite <- Z.negb_even, Hev; reflexivity).
        injection Hp as <-. auto 10. }
    destruct (decide (Z.of_nat (List.length (Parse.allCardsOf (Parse.linesOf content)))
                      = h * w)) as [Hn|Hn].
    2:{ rewrite (Hcount eq_refl Hn) in Hp. injection Hp as <-.
        do 5 right. left. exists h, w. split; reflexivity. }
    destruct (Hmult eq_refl Hn) as [(t & _ & _ & Ht)|[_ (b & Hb & _)]].
    - rewrite Ht in Hp. injection Hp as <-. do 6 right. eauto.
    - rewrite Hb in Hp. discriminate Hp. }
  split; [exact Hcases|]. split.
  - intros k.
    destruct Hcases as [->|[->|[->|[->|[->|[(h & w & _ & ->)|(t & n & ->)]]]]]];
      discriminate.
  - intros msg.
    destruct Hcases as [->|[->|[->|[->|[->|[(h & w & _ & ->)|(t & n & ->)]]]]]];
      discriminate.
Qed.

(** The file "3x1 / A". *)
Lemma parse_errors_witness :
  safeDimensions fileShort /\
  Parse.parseFromFile fileShort = Throw (Error "insufficient board rows") /\
  forall msg, Error "insufficient board rows" <> AssertionError msg.
Proof.
  assert (Hs : safeDimensions fileShort)
    by (intros h w Hd; vm_compute in Hd; injection Hd as <- <-; vm_compute; discriminate).
  assert (H : Parse.parseFromFile fileShort = Throw (Error "insufficient board rows"))
    by (vm_compute; reflexivity).
  split; [exact Hs|]. split; [exact H|].
  exact (proj2 (proj2 (parse_errors fileShort _ Hs H))).
Defined.

(** ** The first line of [look], read back by [simulationMain] *)

Lemma digitVal_pretty_char (d : N) :
  (d < 10)%N -> JS.digitVal (pretty_N_char d) = Some (Z.of_N d).
Proof.
  intros Hd.
  assert (d = 0 \/ d = 1 \/ d = 2 \/ d = 3 \/ d = 4 \/ d = 5 \/ d = 6 \/ d = 7
          \/ d = 8 \/ d = 9)%N as H by lia.
  destruct H as [->|[->|[->|[->|[->|[->|[->|[->|[->| ->]]]]]]]]]; reflexivity.
Qed.

Lemma isDigit_pretty_char (d : N) :
  (d < 10)%N -> Simulation.isDigit (pretty_N_char d) = true.
Proof.
  intros Hd. unfold Simulation.isDigit. rewrite digitVal_pretty_char by exact Hd.
  reflexivity.
Qed.

Lemma allDigits_pretty_go x : forall s, allDigits s -> allDigits (pretty_N_go x s).
Proof.
  induction (N.lt_wf_0 x) as [x _ IH]; intros s Hs.
  destruct (decide (x = 0)%N) as [->|Hx]; [rewrite pretty_N_go_0; exact Hs|].
  rewrite pretty_N_go_step by lia. apply IH; [apply N.div_lt; lia|].
  split; [|exact Hs]. apply isDigit_pretty_char. apply N.mod_lt. discriminate.
Qed.

Lemma pretty_go_nonempty x : forall s, s <> EmptyString -> pretty_N_go x s <> EmptyString.
Proof.
  induction (N.lt_wf_0 x) as [x _ IH]; intros s Hs.
  destruct (decide (x = 0)%N) as [->|Hx]; [rewrite pretty_N_go_0; exact Hs|].
  rewrite pretty_N_go_step by lia. apply IH; [apply N.div_lt; lia | discriminate].
Qed.

Lemma digitsValue_pretty_go x :
  exists k : Z, 0 <= k /\ forall s a,
    digitsValue (pretty_N_go x s) a = digitsValue s (a * 10 ^ k + Z.of_N x).
Proof.
  induction (N.lt_wf_0 x) as [x _ IH].
  destruct (decide (x = 0)%N) as [->|Hx].
  - exists 0. split; [lia|]. intros s a. rewrite pretty_N_go_0. f_equal. cbn. lia.
  - destruct (IH (x `div` 10)%N) as (k & Hk & Hval); [apply N.div_lt; lia|].
    exists (Z.succ k). split; [lia|]. intros s a.
    rewrite pretty_N_go_step by lia. rewrite Hval. cbn [digitsValue].
    rewrite digitVal_pretty_char by (apply N.mod_lt; discriminate).
    cbn [default]. f_equal. rewrite Z.pow_succ_r by exact Hk.
    pose proof (N.div_mod x 10 ltac:(discriminate)) as Hdm.
    apply (f_equal Z.of_N) in Hdm. rewrite N2Z.inj_add, N2Z.inj_mul in Hdm.
    change (Z.of_N 10) with 10 in Hdm. rewrite Hdm. unfold id. ring.
Qed.

(** The decimal rendering of a positive integer: digits only, at least
    one, and worth the integer. *)
Lemma ofNumber_digits (n : Z) :
  0 < n ->
  allDigits (JS.ofNumber n) /\ JS.ofNumber n <> EmptyString /\
  digitsValue (JS.ofNumber n) 0 = n.
Proof.
  intros Hn. destruct n as [|p|p]; try lia.
  unfold JS.ofNumber, pretty, pretty_Z, pretty, pretty_positive, pretty, pretty_N.
  rewrite decide_False by discriminate.
  split; [apply allDigits_pretty_go; exact I|]. split.
  - rewrite pretty_N_go_step by lia. apply pretty_go_nonempty. discriminate.
  - destruct (digitsValue_pretty_go (N.pos p)) as (k & _ & Hval).
    rewrite Hval. cbn. reflexivity.
Qed.

Lemma digits_all s : forall a,
  allDigits s -> JS.digits s (Some a) = Some (digitsValue s a).
Proof.
  induction s as [|c s IH]; intros a Hs; [reflexivity|].
  destruct Hs as [Hc Hs]. cbn [JS.digits digitsValue].
  unfold Simulation.isDigit in Hc.
  destruct (JS.digitVal c) as [d|]; [|discriminate Hc].
  cbn [default]. apply IH, Hs.
Qed.

Lemma digit_not_space_or_sign c :
  Simulation.isDigit c = true ->
  JS.isWhiteSpace c = false /\ c <> "-"%char /\ c <> "+"%char.
Proof.
  destruct c as [[] [] [] [] [] [] [] []]; cbn; intros H;
    try discriminate H; repeat split; discriminate.
Qed.

Lemma parseInt_digits s :
  allDigits s -> s <> EmptyString -> JS.parseInt s = Some (digitsValue s 0).
Proof.
  intros Hs Hne. destruct s as [|c s]; [contradiction Hne; reflexivity|].
  destruct Hs as [Hc Hs].
  destruct (digit_not_space_or_sign c Hc) as (Hws & Hm & Hp).
  unfold JS.parseInt. cbn [JS.trimStart]. rewrite Hws.
  assert (Hsign : (match String c s with
                   | String "-" r => (true, r)
                   | String "+" r => (false, r)
                   | _ => (false, String c s)
                   end) = (false, String c s)).
  { destruct c as [[] [] [] [] [] [] [] []]; try reflexivity;
      [contradiction Hp | contradiction Hm]; reflexivity. }
  rewrite Hsign. cbn [JS.digits].
  unfold Simulation.isDigit in Hc.
  destruct (JS.digitVal c) as [d|] eqn:Hd; [|discriminate Hc].
  cbn [default digitsValue]. rewrite Hd. cbn [default].
  rewrite digits_all by exact Hs. reflexivity.
Qed.

Lemma append_nil_l (r : string) : EmptyString +:+ r = r.
Proof. reflexivity. Qed.

Lemma append_cons c (s r : string) : String c s +:+ r = String c (s +:+ r).
Proof. reflexivity. Qed.

Lemma spanDigits_app d : forall r,
  allDigits d ->
  (r = EmptyString \/ exists c r', r = String c r' /\ Simulation.isDigit c = false) ->
  Simulation.spanDigits (d +:+ r) = (d, r).
Proof.
  induction d as [|c d IH]; intros r Hd Hr.
  - rewrite append_nil_l. destruct Hr as [->|(c & r' & -> & Hc)]; [reflexivity|].
    cbn [Simulation.spanDigits]. rewrite Hc. reflexivity.
  - destruct Hd as [Hc Hd]. rewrite append_cons. cbn [Simulation.spanDigits].
    rewrite Hc. rewrite (IH r Hd Hr). reflexivity.
Qed.

Lemma append_empty_r (s : string) : s +:+ EmptyString = s.
Proof.
  induction s as [|c s IH]; [reflexivity|]. rewrite append_cons, IH. reflexivity.
Qed.

Lemma split_head sep s : forall r,
  lacks sep s ->
  (r = EmptyString \/ exists r', r = String sep r') ->
  head (JS.split sep (s +:+ r)) = Some s.
Proof.
  induction s as [|c s IH]; intros r Hs Hr.
  - rewrite append_nil_l. destruct Hr as [->|(r' & ->)]; [reflexivity|].
    cbn [JS.split]. rewrite Ascii.eqb_refl. reflexivity.
  - destruct Hs as [Hc Hs]. rewrite append_cons. cbn [JS.split].
    replace (Ascii.eqb c sep) with false by (symmetry; apply Ascii.eqb_neq; exact Hc).
    specialize (IH r Hs Hr).
    destruct (JS.split sep (s +:+ r)) as [|h t]; [discriminate IH|].
    cbn in IH |- *. injection IH as ->. reflexivity.
Qed.

Lemma allDigits_lacks a s :
  Simulation.isDigit a = false -> allDigits s -> lacks a s.
Proof.
  intros Ha. induction s as [|c s IH]; intros Hs; [exact I|].
  destruct Hs as [Hc Hs]. split; [|apply IH, Hs]. intros ->. congruence.
Qed.

Lemma lacks_app a s t : lacks a s -> lacks a t -> lacks a (s +:+ t).
Proof.
  induction s as [|c s IH]; [intros _ Ht; exact Ht|].
  intros [Hc Hs] Ht. rewrite append_cons. split; [exact Hc | auto].
Qed.

(** X14. [simulationMain] reads the size of the board off the first line
    of [look]: on a board that passes the representation check the two
    numbers it ends up with are the board's height and width, whoever looks
    and whatever the cards are; when [look] fails it keeps the fallback of
    4 by 4. *)
Theorem simulation_reads_dimensions (b : Board) (playerId : string) :
  (boardInv b ->
     Simulation.boardDimensions (fst (look playerId b)) = (height b, width b)) /\
  (~ boardInv b ->
     Simulation.boardDimensions (fst (look playerId b)) = (4, 4)).
Proof.
  split.
  - intros Hb. pose proof Hb as (Hh & Hw & _).
    rewrite look_eq, (boardInv_rep b Hb). cbn [fst].
    destruct (ofNumber_digits (height b) Hh) as (Dh & Nh & Vh).
    destruct (ofNumber_digits (width b) Hw) as (Dw & Nw & Vw).
    set (hs := JS.ofNumber (height b)) in *. set (ws := JS.ofNumber (width b)) in *.
    assert (Hhead : head (JS.split JS.LF (snapshot b playerId)) = Some (hs +:+ "x" +:+ ws)).
    { unfold snapshot, lookLines, JS.join. fold hs ws.
      assert (Hl : lacks JS.LF (hs +:+ "x" +:+ ws)).
      { apply lacks_app; [apply allDigits_lacks; [reflexivity | exact Dh]|].
        cbn. split; [discriminate|]. apply allDigits_lacks; [reflexivity | exact Dw]. }
      destruct (concat _) as [|y ys].
      - cbn [String.concat].
        rewrite <- (append_empty_r (hs +:+ "x" +:+ ws)) at 1.
        apply split_head; [exact Hl | left; reflexivity].
      - cbn [String.concat].
        apply split_head; [exact Hl | right; eexists; reflexivity]. }
    unfold Simulation.boardDimensions. cbv zeta. rewrite Hhead. cbn [default]. unfold id.
    unfold Simulation.matchDims.
    rewrite (spanDigits_app hs ("x" +:+ ws) Dh)
      by (right; eexists; eexists; split; reflexivity).
    rewrite (proj2 (isEmpty_false _) Nh).
    rewrite append_cons, append_nil_l.
    rewrite <- (append_empty_r ws) at 1.
    rewrite (spanDigits_app ws EmptyString Dw) by (left; reflexivity).
    rewrite (proj2 (isEmpty_false _) Nw).
    change (isEmpty EmptyString) with true. cbv iota.
    rewrite (parseInt_digits hs Dh Nh), (parseInt_digits ws Dw Nw), Vh, Vw.
    replace (0 <? height b) with true by (symmetry; apply Z.ltb_lt; exact Hh).
    replace (0 <? width b) with true by (symmetry; apply Z.ltb_lt; exact Hw).
    reflexivity.
  - intros Hb. rewrite look_eq.
    destruct (repFailure b) eqn:Hrep; [reflexivity|].
    contradiction Hb. apply repFailure_None, Hrep.
Qed.

(** The example game after [p1]'s first flip. *)
Lemma simulation_reads_dimensions_witness :
  Simulation.boardDimensions (fst (look "init" (brd afterFirst))) = (2, 2).
Proof.
  exact (proj1 (simulation_reads_dimensions (brd afterFirst) "init")
           (reachable_boardInv _ afterFirst_reachable)).
Defined.

(** ** More about [map] *)

Lemma cellsOfRow_length i j (cells : list CardCell) :
  List.length (cellsOfRow i j cells) = List.length cells.
Proof.
  revert j. induction cells as [|x cells IH]; intros j; [reflexivity|].
  cbn. rewrite IH. reflexivity.
Qed.

Lemma positionsFrom_length i (g : list (list CardCell)) :
  List.length (positionsFrom i g) = list_sum (List.map (@List.length CardCell) g).
Proof.
  revert i. induction g as [|cells g IH]; intros i; [reflexivity|].
  cbn. rewrite length_app, cellsOfRow_length, IH. reflexivity.
Qed.

Lemma positions_length_shape b b' :
  sameShape b b' ->
  List.length (positions (board b')) = List.length (positions (board b)).
Proof.
  intros (_ & _ & H). unfold positions. rewrite !positionsFrom_length, H. reflexivity.
Qed.

Lemma relabel_relabel f g x :
  legalMap f -> relabel g (relabel f x) = relabel (fun k => g (f k)) x.
Proof.
  intros Hf. unfold relabel at 2 3.
  destruct (isEmpty (card x)) eqn:He.
  - unfold relabel. rewrite He. reflexivity.
  - unfold relabel. cbn [card setCard].
    rewrite (proj2 (isEmpty_false _) (Hf _ (proj1 (isEmpty_false _) He))).
    reflexivity.
Qed.

Lemma relabel_fixed f x :
  (forall k, k <> EmptyString -> f k = k) -> relabel f x = x.
Proof.
  intros Hf. unfold relabel. destruct (isEmpty (card x)) eqn:He; [reflexivity|].
  rewrite (Hf _ (proj1 (isEmpty_false _) He)). destruct x; reflexivity.
Qed.

(** X15. Two maps run to their end one after the other, the first with a
    function f that maps cards to cards, act on the cells like one map with
    the composed function: every card c ends up as g(f(c)).  A map with a
    function that sends every card to itself changes no cell. *)
Theorem map_composes (b : Board) (playerId : string) (f g : string -> string)
    (fuel : nat) :
  boardInv b -> legalMap f ->
  (List.length (positions (board b)) <= fuel)%nat ->
  exists b1 calls1 b2 calls2 res2,
    runMap fuel [] (map playerId f b) =
      (Ret (MapDone (snapshot b1 playerId)), b1, calls1) /\
    runMap fuel [] (map playerId g b1) = (res2, b2, calls2) /\
    (forall r c, cellAt (board b2) r c =
       relabel (fun k => g (f k)) <$> cellAt (board b) r c) /\
    ((forall k, k <> EmptyString -> f k = k) ->
       forall r c, cellAt (board b1) r c = cellAt (board b) r c).
Proof.
  intros Hb Hf Hfuel.
  destruct (map_run b playerId f fuel Hb Hfuel)
    as (b1 & calls1 & res1 & Hrun1 & Hcells1 & Hshape1 & _ & _ & _ & _ & _ & Hret1 & Hlegal1).
  specialize (Hlegal1 Hf). subst res1.
  destruct (Hret1 _ eq_refl) as (_ & _ & Hb1).
  assert (Hfuel1 : (List.length (positions (board b1)) <= fuel)%nat)
    by (rewrite (positions_length_shape b b1 Hshape1); exact Hfuel).
  destruct (map_run b1 playerId g fuel Hb1 Hfuel1)
    as (b2 & calls2 & res2 & Hrun2 & Hcells2 & _).
  exists b1, calls1, b2, calls2, res2.
  split; [exact Hrun1|]. split; [exact Hrun2|]. split.
  - intros r c. rewrite Hcells2, Hcells1.
    destruct (cellAt (board b) r c) as [x|]; [|reflexivity].
    cbn. rewrite relabel_relabel by exact Hf. reflexivity.
  - intros Hfix r c. rewrite Hcells1.
    destruct (cellAt (board b) r c) as [x|]; [|reflexivity].
    cbn. rewrite relabel_fixed by exact Hfix. reflexivity.
Qed.

(** The example board marked twice. *)
Lemma map_composes_witness :
  exists b1 calls1 b2 calls2 res2,
    runMap 4 [] (map "p1" mark board2x2) =
      (Ret (MapDone (snapshot b1 "p1")), b1, calls1) /\
    runMap 4 [] (map "p1" mark b1) = (res2, b2, calls2) /\
    cellAt (board b2) 0 1 = Some (mkCell "B!!" false None).
Proof.
  destruct (map_composes board2x2 "p1" mark mark 4)
    as (b1 & calls1 & b2 & calls2 & res2 & Hrun1 & Hrun2 & Hcells & _).
  - exact board2x2_inv.
  - exact mark_legal.
  - vm_compute. lia.
  - exists b1, calls1, b2, calls2, res2.
    split; [exact Hrun1|]. split; [exact Hrun2|]. rewrite Hcells. reflexivity.
Defined.

(** ** The first segment of [map] *)

Lemma mapLoop_skip playerId f memo ps1 ps2 b :
  (forall q x, q ∈ ps1 -> cellAt (board b) (row q) (col q) = Some x ->
     card x = EmptyString) ->
  mapLoop playerId f memo (ps1 ++ ps2) b = mapLoop playerId f memo ps2 b.
Proof.
  induction ps1 as [|q ps1 IH]; intros Hempty; [reflexivity|].
  cbn [app mapLoop]. unfold bind at 1. unfold readCell at 1.
  assert (He : isEmpty (card (default (mkCell EmptyString false None)
                                (cellAt (board b) (row q) (col q)))) = true).
  { destruct (cellAt (board b) (row q) (col q)) as [x|] eqn:Hx; [|reflexivity].
    cbn. apply isEmpty_true. apply (Hempty q x); [left | exact Hx]. }
  rewrite He. apply IH. intros q' x' Hq'. apply Hempty. right. exact Hq'.
Qed.

(** X16. The first segment of [map] changes nothing before f has
    answered.  On a board that passes the representation check and has no
    card left, it never calls f: it publishes and returns the caller's
    snapshot.  Otherwise it suspends on the call of f for the first card in
    row-major order, with an empty table of replacements and the board
    exactly as it was. *)
Theorem map_first_segment (b : Board) (playerId : string) (f : string -> string) :
  (boardInv b ->
   (forall r c x, cellAt (board b) r c = Some x -> card x = EmptyString) ->
     map playerId f b = (Ret (MapDone (snapshot b playerId)), publish b)) /\
  (forall ps1 p ps2 x,
     positions (board b) = ps1 ++ p :: ps2 ->
     (forall q x', q ∈ ps1 -> cellAt (board b) (row q) (col q) = Some x' ->
        card x' = EmptyString) ->
     cellAt (board b) (row p) (col p) = Some x -> card x <> EmptyString ->
     map playerId f b =
       (Ret (MapAwait (mkMapTask playerId f ∅ (card x) p ps2)), b)).
Proof.
  split.
  - intros Hb Hempty. unfold map. unfold bind at 1. unfold get.
    rewrite <- (app_nil_r (positions (board b))).
    rewrite mapLoop_skip by (intros q x _ Hx; exact (Hempty _ _ _ Hx)).
    cbn [mapLoop]. rewrite (finish_bind playerId MapDone).
    apply finish_mapDone. exact Hb.
  - intros ps1 p ps2 x Hps Hempty Hx Hne.
    unfold map. unfold bind at 1. unfold get. rewrite Hps.
    rewrite mapLoop_skip by exact Hempty.
    cbn [mapLoop]. unfold bind, readCell. rewrite Hx.
    change (default (mkCell EmptyString false None) (Some x)) with x.
    rewrite (proj2 (isEmpty_false _) Hne), lookup_empty. reflexivity.
Qed.

(** On the example board [map] first asks for "A", the card at (0,0). *)
Lemma map_first_segment_witness :
  map "p1" mark board2x2 =
    (Ret (MapAwait (mkMapTask "p1" mark ∅ "A" (mkPos 0 0)
                      [mkPos 0 1; mkPos 1 0; mkPos 1 1])), board2x2).
Proof.
  apply (proj2 (map_first_segment board2x2 "p1" mark) [] (mkPos 0 0)
           [mkPos 0 1; mkPos 1 0; mkPos 1 1] (mkCell "A" false None)).
  - reflexivity.
  - intros q x' Hq. apply not_elem_of_nil in Hq. contradiction.
  - reflexivity.
  - discriminate.
Defined.

(** ** A resumed [map] *)

Lemma mapLoop_await playerId f ps : forall memo b t' b',
  mapLoop playerId f memo ps b = (Ret (MapAwait t'), b') ->
  exists ps1,
    ps = ps1 ++ m_cell t' :: m_rest t' /\
    (forall q, q ∉ ps1 ->
       cellAt (board b') (row q) (col q) = cellAt (board b) (row q) (col q)) /\
    m_f t' = f /\ m_replacements t' = memo /\
    listeners b' = listeners b /\ jobs b' = jobs b.
Proof.
  induction ps as [|p ps IH]; intros memo b t' b' Hrun.
  - exfalso. revert Hrun. cbn [mapLoop]. unfold bind.
    destruct (notifyAll b) as [[[]|e] b1]; [|discriminate].
    destruct (look playerId b1) as [[s|e] b2]; [|discriminate].
    destruct (checkRepFunctions b2) as [[[]|e] b3]; discriminate.
  - revert Hrun. cbn [mapLoop]. unfold bind at 1. unfold readCell at 1.
    set (x := default (mkCell EmptyString false None) (cellAt (board b) (row p) (col p))).
    destruct (isEmpty (card x)).
    + intros Hrun. destruct (IH memo b t' b' Hrun) as (ps1 & -> & Hcells & Hrest).
      exists (p :: ps1). split; [reflexivity|]. split; [|exact Hrest].
      intros q Hq. apply Hcells. intros H. apply Hq. right. exact H.
    + destruct (memo !! card x) as [v|] eqn:Hv.
      * unfold bind at 1.
        assert (Hsub : substitute memo p b =
                  (Ret tt, wr (setCard (default (card x) (memo !! card x))) (row p) (col p) b))
          by reflexivity.
        rewrite Hsub. intros Hrun.
        destruct (IH memo _ t' b' Hrun) as (ps1 & -> & Hcells & Hf & Hm & Hls & Hj).
        exists (p :: ps1). split; [reflexivity|].
        split; [|repeat split; assumption].
        intros q Hq. rewrite Hcells by (intros H; apply Hq; right; exact H).
        rewrite cellAt_wr. rewrite bool_decide_eq_false_2; [reflexivity|].
        intros E. apply Hq. apply elem_of_cons. left. destruct q; cbn in E. exact E.
      * intros [= <- <-]. exists []. repeat split.
Qed.

(** X17. [map] is not atomic.  When f's answer for a label arrives, the
    waiting cell gets the new label, and the sweep goes on through the cells
    whose labels f has answered for; if it then suspends again, for a label
    not seen before, every cell from that one on is exactly as it was before
    the answer arrived, including cells with the label just answered for,
    and nothing has been published. *)
Theorem resumed_map_leaves_rest (t : MapTask) (b : Board) (t' : MapTask) (b' : Board) :
  NoDup (m_cell t :: m_rest t) ->
  resumeMap t b = (Ret (MapAwait t'), b') ->
  (exists ps1, m_rest t = ps1 ++ m_cell t' :: m_rest t') /\
  (forall q, q ∈ m_cell t' :: m_rest t' ->
     cellAt (board b') (row q) (col q) = cellAt (board b) (row q) (col q)) /\
  (forall x, cellAt (board b) (row (m_cell t)) (col (m_cell t)) = Some x ->
     card x = m_key t ->
     cellAt (board b') (row (m_cell t)) (col (m_cell t)) =
       Some (setCard (m_f t (m_key t)) x)) /\
  m_f t' = m_f t /\
  m_replacements t' = <[m_key t := m_f t (m_key t)]> (m_replacements t) /\
  listeners b' = listeners b /\ jobs b' = jobs b.
Proof.
  intros Hnd Hrun. apply NoDup_cons in Hnd. destruct Hnd as [Hp Hnd].
  revert Hrun. unfold resumeMap. cbv zeta. unfold bind at 1.
  set (memo := <[m_key t := m_f t (m_key t)]> (m_replacements t)).
  set (x0 := default (mkCell EmptyString false None)
               (cellAt (board b) (row (m_cell t)) (col (m_cell t)))).
  assert (Hsub : substitute memo (m_cell t) b =
            (Ret tt, wr (setCard (default (card x0) (memo !! card x0)))
                        (row (m_cell t)) (col (m_cell t)) b))
    by reflexivity.
  rewrite Hsub. intros Hrun.
  destruct (mapLoop_await _ _ _ _ _ _ _ Hrun) as (ps1 & Hps & Hcells & Hf & Hm & Hls & Hj).
  assert (Hcell0 : m_cell t ∉ ps1).
  { intros H. apply Hp. rewrite Hps. apply elem_of_app. left. exact H. }
  split; [exists ps1; exact Hps|].
  split; [|split; [|repeat split; assumption]].
  - intros q Hq.
    assert (Hq1 : q ∉ ps1).
    { rewrite Hps in Hnd. apply NoDup_app in Hnd. destruct Hnd as (_ & Hdis & _).
      intros H. exact (Hdis q H Hq). }
    assert (Hq2 : q <> m_cell t).
    { intros ->. apply Hp. rewrite Hps. apply elem_of_app. right. exact Hq. }
    rewrite (Hcells q Hq1), cellAt_wr.
    rewrite bool_decide_eq_false_2; [reflexivity|].
    intros E. apply Hq2. destruct q; cbn in E. exact E.
  - intros x Hx Hkey. rewrite (Hcells _ Hcell0), cellAt_wr.
    rewrite bool_decide_eq_true_2 by (destruct (m_cell t); reflexivity).
    rewrite Hx. cbn. f_equal. f_equal.
    subst x0. rewrite Hx. cbn. rewrite Hkey. subst memo. rewrite lookup_insert_eq.
    reflexivity.
Qed.

(** The example board with [mark]: when the answer for "A" arrives, the
    card at (0,0) becomes "A!" and the map waits for "B"; the other "A",
    at (1,1), is still "A". *)
Lemma resumed_map_leaves_rest_witness :
  exists b',
    resumeMap firstTask board2x2 = (Ret (MapAwait secondTask), b') /\
    cellAt (board b') 0 0 = Some (mkCell "A!" false None) /\
    cellAt (board b') 1 1 = Some (mkCell "A" false None).
Proof.
  assert (Hrun : resumeMap firstTask board2x2 =
            (Ret (MapAwait secondTask), wr (setCard "A!") 0 0 board2x2))
    by (vm_compute; reflexivity).
  assert (Hnd : NoDup (m_cell firstTask :: m_rest firstTask))
    by (change (NoDup (positions (board board2x2))); apply positions_NoDup).
  destruct (resumed_map_leaves_rest firstTask board2x2 secondTask _ Hnd Hrun)
    as (_ & Hrest & Hcell & _).
  eexists. split; [exact Hrun|]. split.
  - exact (Hcell (mkCell "A" false None) eq_refl eq_refl).
  - refine (eq_trans (Hrest (mkPos 1 1) _) eq_refl).
    apply elem_of_cons. right. apply elem_of_cons. right. apply elem_of_cons. left.
    reflexivity.
Defined.

(** ** What the segments do to the labels *)

Lemma labelsRel_upd (R : string -> string -> Prop) b0 b b' f r c :
  (forall k1 k2 k3, R k1 k2 -> R k2 k3 -> R k1 k3) ->
  board b' = updCell f r c (board b) ->
  labelsRel R b0 b ->
  (forall y, cellAt (board b) r c = Some y -> R (card y) (card (f y))) ->
  labelsRel R b0 b'.
Proof.
  intros Htrans Hg H Hf r' c' x Hx. rewrite Hg, cellAt_updCell.
  destruct (H r' c' x Hx) as (y & Hy & Hxy).
  case_decide as Hd.
  - destruct Hd as [-> ->]. rewrite Hy. cbn. exists (f y). split; [reflexivity|].
    eapply Htrans; [exact Hxy | apply Hf; exact Hy].
  - exists y. split; assumption.
Qed.

Section Labels.
Variable R : string -> string -> Prop.
Hypothesis R_refl : forall k, R k k.
Hypothesis R_trans : forall k1 k2 k3, R k1 k2 -> R k2 k3 -> R k1 k3.
Hypothesis R_clear : forall k, R k EmptyString.
Variable b0 : Board.

Ltac labels_prim :=
  idtac;
  match goal with
  | H : labelsRel R b0 _ |- _ =>
      first
        [ exact H
        | eapply (labelsRel_upd R); [exact R_trans | cbn; reflexivity | exact H |];
          intros ? ?; cbn; first [apply R_refl | apply R_clear] ]
  end.

Lemma labels_notifyAll : keeps (labelsRel R b0) notifyAll.
Proof. unfold notifyAll. keeps_with labels_prim. Qed.

Lemma labels_watch playerId k : keeps (labelsRel R b0) (watch playerId k).
Proof. unfold watch. keeps_with labels_prim. Qed.

Lemma labels_resetState playerId : keeps (labelsRel R b0) (resetState playerId).
Proof. unfold resetState, installState. keeps_with labels_prim. Qed.

Lemma labels_turnDown playerId p : keeps (labelsRel R b0) (turnDown playerId p).
Proof. unfold turnDown, whenCell, writeCell. keeps_with labels_prim. Qed.

Lemma labels_cleanupPreviousMove playerId :
  keeps (labelsRel R b0) (cleanupPreviousMove playerId).
Proof.
  unfold cleanupPreviousMove, whenCell, writeCell.
  repeat first [ keeps_step | apply labels_turnDown | apply labels_resetState
               | apply labels_notifyAll | (intros ? ?; cbn; labels_prim) ].
Qed.

Lemma labels_suspendAt pt playerId r c st :
  keeps (labelsRel R b0) (suspendAt pt playerId r c st).
Proof. unfold suspendAt. repeat first [keeps_step | apply labels_watch]. Qed.

Lemma labels_takeFirst playerId r c st :
  keeps (labelsRel R b0) (takeFirst playerId r c st).
Proof.
  unfold takeFirst, writeCell, writeState, installState.
  repeat first [ keeps_step | apply labels_notifyAll | apply keeps_look
               | apply keeps_checkRepFunctions | (intros ? ?; cbn; labels_prim) ].
Qed.

Lemma labels_forBody playerId r c st :
  keeps (labelsRel R b0) (forBody playerId r c st).
Proof.
  unfold forBody, claimedSection, tryClaimCell, releaseClaim.
  repeat first [ keeps_step | apply labels_suspendAt | apply labels_takeFirst
               | (intros ? ?; cbn; labels_prim) ].
Qed.

Lemma labels_resumeFlip pt playerId r c st :
  keeps (labelsRel R b0) (resumeFlip pt playerId r c st).
Proof.
  unfold resumeFlip, whileLoop, releaseClaim.
  repeat first [ keeps_step | apply labels_suspendAt | apply labels_forBody
               | (intros ? ?; cbn; labels_prim) ].
Qed.

Lemma labels_releaseFirst st : keeps (labelsRel R b0) (releaseFirst st).
Proof.
  unfold releaseFirst, whenCell, writeCell, writeState.
  repeat first [ keeps_step | apply labels_notifyAll | (intros ? ?; cbn; labels_prim) ].
Qed.

Lemma labels_secondFlip playerId r c st f :
  keeps (labelsRel R b0) (secondFlip playerId r c st f).
Proof.
  unfold secondFlip, writeCell, writeState, installState.
  repeat first [ keeps_step | apply labels_notifyAll | apply labels_releaseFirst
               | apply keeps_look | apply keeps_checkRepFunctions
               | (intros ? ?; cbn; labels_prim) ].
Qed.

Lemma labels_flip playerId r c : keeps (labelsRel R b0) (flip playerId r c).
Proof.
  unfold flip, currentState, whileLoop, installState.
  repeat first [ keeps_step | apply labels_resetState | apply labels_cleanupPreviousMove
               | apply labels_releaseFirst | apply labels_secondFlip
               | apply labels_suspendAt | apply labels_forBody
               | (intros ? ?; cbn; labels_prim) ].
Qed.
End Labels.

Lemma keptOrCleared_refl k : keptOrCleared k k.
Proof. left. reflexivity. Qed.

Lemma keptOrCleared_trans k1 k2 k3 :
  keptOrCleared k1 k2 -> keptOrCleared k2 k3 -> keptOrCleared k1 k3.
Proof. unfold keptOrCleared. intros [->| ->] [->| ->]; auto. Qed.

Lemma keptOrCleared_clear k : keptOrCleared k EmptyString.
Proof. right. reflexivity. Qed.

Lemma staysEmpty_refl k : staysEmpty k k.
Proof. intros H. exact H. Qed.

Lemma staysEmpty_trans k1 k2 k3 :
  staysEmpty k1 k2 -> staysEmpty k2 k3 -> staysEmpty k1 k3.
Proof. unfold staysEmpty. auto. Qed.

Lemma staysEmpty_clear k : staysEmpty k EmptyString.
Proof. intros _. reflexivity. Qed.

Lemma labelsRel_refl R b : (forall k, R k k) -> labelsRel R b b.
Proof. intros HR r c x Hx. exists x. split; [exact Hx | apply HR]. Qed.

(** X18. No segment of [look], [watch] or [flip], first or resumed, ever
    changes the label of a card, except by removing the card: after the
    segment every cell is still there and holds the label it held or none. *)
Theorem flips_keep_labels (w : World) (a : Action) (r c : Z) (x : CardCell) :
  isMapStep a = false ->
  cellAt (board (brd w)) r c = Some x ->
  exists y,
    cellAt (board (brd (exec a w))) r c = Some y /\
    (card y = card x \/ card y = EmptyString).
Proof.
  intros Ha Hx.
  enough (H : labelsRel keptOrCleared (brd w) (brd (exec a w)))
    by exact (H r c x Hx).
  pose proof (labelsRel_refl keptOrCleared (brd w) keptOrCleared_refl) as H0.
  destruct a as [playerId|playerId r' c'|playerId f|playerId|i|i];
    try discriminate Ha; cbn [exec brd].
  - pose proof (keeps_look (labelsRel keptOrCleared (brd w)) playerId (brd w) H0) as H.
    destruct (look playerId (brd w)) as [[s|e] b']; exact H.
  - assert (H : keeps (labelsRel keptOrCleared (brd w)) (flip playerId r' c'))
      by (apply labels_flip;
          first [exact keptOrCleared_refl | exact keptOrCleared_trans | exact keptOrCleared_clear]).
    specialize (H (brd w) H0).
    destruct (flip playerId r' c' (brd w)) as [[s|e] b']; exact H.
  - assert (H : keeps (labelsRel keptOrCleared (brd w)) (watch playerId KWatch))
      by (apply labels_watch;
          first [exact keptOrCleared_refl | exact keptOrCleared_trans | exact keptOrCleared_clear]).
    specialize (H (brd w) H0).
    destruct (watch playerId KWatch (brd w)) as [[s|e] b']; exact H.
  - destruct (jobs (brd w) !! i) as [[l s]|]; [|exact H0]. cbn [brd].
    destruct (kont l) as [|pt playerId r' c' st]; cbn [runKont]; [exact H0|].
    assert (H : keeps (labelsRel keptOrCleared (brd w)) (resumeFlip pt playerId r' c' st))
      by (apply labels_resumeFlip;
          first [exact keptOrCleared_refl | exact keptOrCleared_trans | exact keptOrCleared_clear]).
    specialize (H (set_jobs (delete i (jobs (brd w))) (brd w)) H0).
    unfold bind.
    destruct (resumeFlip pt playerId r' c' st _) as [[s'|e] b']; exact H.
Qed.

(** [p1]'s third flip removes the matched pair and keeps the two "B". *)
Lemma flips_keep_labels_witness :
  exists y,
    cellAt (board (brd (exec (CallFlip "p1" 1 0) afterMatch))) 0 1 = Some y /\
    (card y = "B"%string \/ card y = EmptyString).
Proof.
  apply (flips_keep_labels afterMatch (CallFlip "p1" 1 0) 0 1 (mkCell "B" false None)).
  - reflexivity.
  - vm_compute. reflexivity.
Defined.

(** ** Removed cards stay removed *)

Lemma labels_substitute b0 memo p :
  memo !! EmptyString = None ->
  keeps (labelsRel staysEmpty b0) (substitute memo p).
Proof.
  intros Hm b H. unfold substitute, bind, readCell, writeCell, modify.
  eapply (labelsRel_upd staysEmpty); [exact staysEmpty_trans | reflexivity | exact H |].
  intros y Hy. rewrite Hy. cbn. intros E. rewrite E, Hm. reflexivity.
Qed.

Lemma labels_mapLoop b0 playerId f ps : forall memo,
  memo !! EmptyString = None ->
  keeps (labelsRel staysEmpty b0) (mapLoop playerId f memo ps).
Proof.
  induction ps as [|p ps IH]; intros memo Hm; cbn [mapLoop].
  - repeat first [ keeps_step
                 | apply labels_notifyAll; exact staysEmpty_trans
                 | apply keeps_look | apply keeps_checkRepFunctions ].
  - repeat first [ keeps_step | apply IH; exact Hm | apply labels_substitute; exact Hm ].
    intros b H. exact H.
Qed.

(** X19. In every reachable state of the system, a cell whose card has
    been removed stays without a card through every segment that can run
    next: no [look], [watch], [flip] or [map], first or resumed, brings a
    removed card back. *)
Theorem removed_stays_removed (w : World) (a : Action) (r c : Z) (x : CardCell) :
  reachable w ->
  cellAt (board (brd w)) r c = Some x -> card x = EmptyString ->
  exists y,
    cellAt (board (brd (exec a w))) r c = Some y /\ card y = EmptyString.
Proof.
  intros Hw Hx He.
  enough (H : labelsRel staysEmpty (brd w) (brd (exec a w))).
  { destruct (H r c x Hx) as (y & Hy & Hxy). exists y. split; [exact Hy | exact (Hxy He)]. }
  pose proof (labelsRel_refl staysEmpty (brd w) staysEmpty_refl) as H0.
  pose proof (reachable_inv w Hw) as (_ & _ & _ & Htasks).
  destruct a as [playerId|playerId r' c'|playerId f|playerId|i|i]; cbn [exec].
  - pose proof (keeps_look (labelsRel staysEmpty (brd w)) playerId (brd w) H0) as H.
    cbn [brd]. destruct (look playerId (brd w)) as [[s|e] b']; exact H.
  - assert (H : keeps (labelsRel staysEmpty (brd w)) (flip playerId r' c'))
      by (apply labels_flip;
          first [exact staysEmpty_refl | exact staysEmpty_trans | exact staysEmpty_clear]).
    specialize (H (brd w) H0).
    cbn [brd]. destruct (flip playerId r' c' (brd w)) as [[s|e] b']; exact H.
  - pose proof (labels_mapLoop (brd w) playerId f (positions (board (brd w))) ∅
                  (lookup_empty _) (brd w) H0) as H.
    unfold map, bind, get, afterMap.
    destruct (mapLoop playerId f ∅ _ (brd w)) as [[[s|t]|e] b']; exact H.
  - assert (H : keeps (labelsRel staysEmpty (brd w)) (watch playerId KWatch))
      by (apply labels_watch;
          first [exact staysEmpty_refl | exact staysEmpty_trans | exact staysEmpty_clear]).
    specialize (H (brd w) H0).
    cbn [brd]. destruct (watch playerId KWatch (brd w)) as [[s|e] b']; exact H.
  - destruct (jobs (brd w) !! i) as [[l s]|]; [|exact H0]. cbn [brd].
    destruct (kont l) as [|pt playerId r' c' st]; cbn [runKont]; [exact H0|].
    assert (H : keeps (labelsRel staysEmpty (brd w)) (resumeFlip pt playerId r' c' st))
      by (apply labels_resumeFlip;
          first [exact staysEmpty_refl | exact staysEmpty_trans | exact staysEmpty_clear]).
    specialize (H (set_jobs (delete i (jobs (brd w))) (brd w)) H0).
    unfold bind.
    destruct (resumeFlip pt playerId r' c' st _) as [[s'|e] b']; exact H.
  - destruct (maps w !! i) as [t|] eqn:Ht; [|exact H0].
    rewrite Forall_forall in Htasks.
    destruct (Htasks t (list_elem_of_lookup_2 _ _ _ Ht)) as (_ & Hkey & Hmemo & _).
    assert (Hm : <[m_key t := m_f t (m_key t)]> (m_replacements t) !! EmptyString = None).
    { rewrite lookup_insert_ne by exact Hkey. exact Hmemo. }
    assert (H : keeps (labelsRel staysEmpty (brd w)) (resumeMap t)).
    { unfold resumeMap. cbv zeta. apply keeps_bind; [apply labels_substitute; exact Hm|].
      intros ?. apply labels_mapLoop. exact Hm. }
    specialize (H (brd w) H0). unfold afterMap.
    destruct (resumeMap t (brd w)) as [[[s|t']|e] b']; exact H.
Qed.

(** After the pair has been removed, a [map] starts: (0,0) stays empty. *)
Lemma removed_stays_removed_witness :
  exists y,
    cellAt (board (brd (exec (CallMap "p2" mark) removed))) 0 0 = Some y /\
    card y = EmptyString.
Proof.
  apply (removed_stays_removed removed (CallMap "p2" mark) 0 0 (mkCell "" false None)).
  - exact removed_reachable.
  - vm_compute. reflexivity.
  - reflexivity.
Defined.

(** ** [cleanupPreviousMove] run twice *)

(** X20. [cleanupPreviousMove] is idempotent: whatever the board and the
    player, a second clean-up right after the first returns normally and
    changes nothing.  Either there was no pair to clean up, or the first
    clean-up has made the player idle. *)
Theorem cleanup_idempotent (b : Board) (playerId : string) :
  let b1 := snd (cleanupPreviousMove playerId b) in
  cleanupPreviousMove playerId b1 = (Ret tt, b1).
Proof.
  cbv zeta.
  destruct (playerStates b !! playerId) as [l|] eqn:Hl.
  2:{ rewrite (cleanup_noop playerId b) by (intros l; rewrite Hl; discriminate).
      apply cleanup_noop. intros l. cbn. rewrite Hl. discriminate. }
  destruct (heap b !! l) as [st|] eqn:Hheap.
  2:{ assert (Ho : objAt b l = freshState) by (unfold objAt; rewrite Hheap; reflexivity).
      assert (Hno : forall l', playerStates b !! playerId = Some l' ->
                firstCard (objAt b l') = None \/ secondCard (objAt b l') = None).
      { intros l'. rewrite Hl. intros [= <-]. left. rewrite Ho. reflexivity. }
      rewrite (cleanup_noop playerId b Hno). apply cleanup_noop. exact Hno. }
  destruct st as [[p|] [s|] m].
  - (* a pair: the first clean-up leaves the player idle *)
    assert (Hst : stateOf b playerId = Some (holdingPair p s m)).
    { unfold stateOf. rewrite Hl. cbn. exact Hheap. }
    apply cleanup_idle. right. exact (cleanup_pair_state b playerId p s m Hst).
  - assert (Hno : forall l', playerStates b !! playerId = Some l' ->
              firstCard (objAt b l') = None \/ secondCard (objAt b l') = None).
    { intros l'. rewrite Hl. intros [= <-]. right.
      rewrite (objAt_heap b l _ Hheap). reflexivity. }
    rewrite (cleanup_noop playerId b Hno). apply cleanup_noop. exact Hno.
  - assert (Hno : forall l', playerStates b !! playerId = Some l' ->
              firstCard (objAt b l') = None \/ secondCard (objAt b l') = None).
    { intros l'. rewrite Hl. intros [= <-]. left.
      rewrite (objAt_heap b l _ Hheap). reflexivity. }
    rewrite (cleanup_noop playerId b Hno). apply cleanup_noop. exact Hno.
  - assert (Hno : forall l', playerStates b !! playerId = Some l' ->
              firstCard (objAt b l') = None \/ secondCard (objAt b l') = None).
    { intros l'. rewrite Hl. intros [= <-]. left.
      rewrite (objAt_heap b l _ Hheap). reflexivity. }
    rewrite (cleanup_noop playerId b Hno). apply cleanup_noop. exact Hno.
Qed.

(** ** What [look] shows to whom *)

Lemma renderCell_other v1 v2 x :
  controller x <> Some v1 -> controller x <> Some v2 ->
  renderCell v1 x = renderCell v2 x.
Proof.
  intros H1 H2. unfold renderCell.
  rewrite (bool_decide_eq_false_2 _ H1), (bool_decide_eq_false_2 _ H2). reflexivity.
Qed.

(** X21. [look] depends on the viewer only through the cards the viewer
    controls: two players who control no card get the same answer from
    [look], character for character. *)
Theorem look_viewer_independent (b : Board) (v1 v2 : string) :
  (forall r c x, cellAt (board b) r c = Some x ->
     controller x <> Some v1 /\ controller x <> Some v2) ->
  look v1 b = look v2 b.
Proof.
  intros H. rewrite !look_eq.
  assert (Hs : snapshot b v1 = snapshot b v2).
  { unfold snapshot, lookLines. do 3 f_equal.
    apply cells_Forall_cellAt in H.
    induction H as [|cells g Hc Hg IH]; [reflexivity|].
    cbn [List.map]. rewrite IH. f_equal.
    induction Hc as [|x cells Hx Hcells IHc]; [reflexivity|].
    cbn [List.map]. rewrite IHc. f_equal.
    apply renderCell_other; tauto. }
  rewrite Hs. reflexivity.
Qed.

(** [p2] and [p3] look at the example game after [p1]'s first flip. *)
Lemma look_viewer_independent_witness :
  look "p2" (brd afterFirst) = look "p3" (brd afterFirst).
Proof.
  apply look_viewer_independent.
  intros r c x Hx.
  assert (Hall : Forall (Forall (fun y => controller y <> Some "p2"%string /\
                                          controller y <> Some "p3"%string))
                   (board (brd afterFirst))).
  { vm_compute. repeat constructor; discriminate. }
  exact (proj1 (cells_Forall_cellAt _ _) Hall r c x Hx).
Defined.

(** ** What the players see after a first flip *)

Lemma renderCell_controlled viewer playerId k :
  k <> EmptyString ->
  renderCell viewer (mkCell k true (Some playerId)) =
    JS.trim ((if String.eqb viewer playerId then "my" else "up") +:+ " " +:+ k).
Proof.
  intros Hk. unfold renderCell. cbn [card faceUp controller].
  rewrite (proj2 (isEmpty_false _) Hk), andb_true_r.
  destruct (String.eqb viewer playerId) eqn:E.
  - apply String.eqb_eq in E. subst. rewrite bool_decide_eq_true_2 by reflexivity.
    reflexivity.
  - apply String.eqb_neq in E. rewrite bool_decide_eq_false_2 by congruence.
    reflexivity.
Qed.

(** X22. After a first flip that goes through, the line of the flipped
    card in the snapshot of the resulting board reads "my {card}" for the
    player who flipped and "up {card}" for every other viewer; it is the
    line after the header and row*width + column others.  The flip is that
    of a player the board knows as idle, on a board that passes the
    representation check, of a card that no other player controls and
    nobody has claimed. *)
Theorem first_flip_view (b : Board) (playerId : string) (r c : Z) (x : CardCell) :
  boardInv b ->
  stateOf b playerId = Some freshState ->
  cellAt (board b) r c = Some x ->
  card x <> EmptyString ->
  (forall q, controller x = Some q -> q = playerId) ->
  claimLocks b !! cellKey r c = None ->
  exists b',
    flip playerId r c b = (Ret (Returned (snapshot b' playerId)), b') /\
    forall viewer,
      lookLines b' viewer !! S (Z.to_nat (r * width b + c)) =
        Some (JS.trim ((if String.eqb viewer playerId then "my" else "up")
                       +:+ " " +:+ card x)).
Proof.
  intros Hb Hst Hx Hne Hctl Hk.
  destruct (cellAt_bounds b r c x Hb Hx) as [Hr Hc].
  destruct (stateOf_Some b playerId _ Hst) as (l & Hl & _ & Hheap).
  rewrite (flip_idle_known playerId r c b l Hl Hheap Hr Hc), Hx.
  rewrite (proj2 (isEmpty_false _) Hne).
  rewrite (whileLoop_takes playerId r c l b x Hb Hk Hx Hne
             (proj2 (controlledByOther_false _ _) Hctl)).
  set (b' := publish (firstTaken playerId r c l b)).
  exists b'. split; [reflexivity|].
  intros viewer.
  assert (Hb' : boardInv b').
  { apply (boardInv_cells b); [exact Hb | apply sameShape_firstTaken |].
    intros r' c' y. subst b'. rewrite cellAt_publish, cellAt_firstTaken.
    case_bool_decide as Hd.
    - destruct (cellAt (board b) r' c') as [x'|] eqn:Hx'; cbn; [|discriminate].
      intros [= <-]. injection Hd as -> ->. rewrite Hx in Hx'. injection Hx' as <-.
      split; cbn; [reflexivity | intros E; contradiction].
    - apply (proj2 (proj2 (proj2 (proj2 Hb)))). }
  assert (Hw : width b' = width b) by reflexivity.
  assert (Hh : height b' = height b) by reflexivity.
  destruct (look_cell_line b' viewer r c Hb') as (y & Hy & Hline);
    [rewrite Hh; exact Hr | rewrite Hw; exact Hc |].
  rewrite Hw in Hline. rewrite Hline. f_equal.
  assert (Hcell : cellAt (board b') r c = Some (mkCell (card x) true (Some playerId))).
  { subst b'. rewrite cellAt_publish, cellAt_firstTaken.
    rewrite bool_decide_eq_true_2 by reflexivity. rewrite Hx. reflexivity. }
  rewrite Hcell in Hy. injection Hy as <-.
  apply renderCell_controlled. exact Hne.
Qed.

(** [p2], idle after a flip that failed, turns the "B" at (1,0) of the
    board where the pair of "A" is gone. *)
Lemma first_flip_view_witness :
  exists b',
    flip "p2" 1 0 (brd removed) = (Ret (Returned (snapshot b' "p2")), b') /\
    lookLines b' "p2" !! 3%nat = Some "my B"%string /\
    lookLines b' "p1" !! 3%nat = Some "up B"%string.
Proof.
  destruct (first_flip_view (brd removed) "p2" 1 0 (mkCell "B" false None))
    as (b' & Hrun & Hview).
  - exact (reachable_boardInv _ removed_reachable).
  - vm_compute. reflexivity.
  - vm_compute. reflexivity.
  - discriminate.
  - intros q Hq. discriminate Hq.
  - vm_compute. reflexivity.
  - exists b'. split; [exact Hrun|].
    split; [exact (Hview "p2"%string) | exact (Hview "p1"%string)].
Defined.

(** ** The tests repeated inside [try] never fire *)

Lemma bind_Ret {A B} (m : M A) (k : A -> M B) b y b' :
  bind m k b = (Ret y, b') ->
  exists a b1, m b = (Ret a, b1) /\ k a b1 = (Ret y, b').
Proof.
  unfold bind. destruct (m b) as [[a|e] b1]; [|discriminate].
  intros H. exists a, b1. split; [reflexivity | exact H].
Qed.

Lemma takeFirst_completes playerId r c st b b' :
  takeFirst playerId r c st b <> (Ret Suspended, b').
Proof.
  unfold takeFirst. intros H.
  repeat (apply bind_Ret in H; destruct H as (? & ? & _ & H)).
  discriminate H.
Qed.

Lemma forBody_direct playerId r c st b :
  forBody playerId r c st b = forBodyDirect playerId r c st b.
Proof.
  unfold forBody, forBodyDirect, bind, readCell. cbv beta iota.
  set (x := default (mkCell EmptyString false None) (cellAt (board b) r c)).
  destruct (isEmpty (card x)) eqn:He; [reflexivity|].
  destruct (controlledByOther x playerId) eqn:Hctl; [reflexivity|].
  unfold tryClaimCell, bind, get. cbv beta iota.
  destruct (claimLocks b !! cellKey r c) as [o|]; [reflexivity|].
  unfold modify, ret. cbv beta iota.
  set (b1 := set_claimLocks _ b).
  assert (Hsec : claimedSection playerId r c st b1 = takeFirst playerId r c st b1).
  { unfold claimedSection. unfold bind at 1. unfold readCell at 1.
    change (board b1) with (board b). fold x. rewrite He, Hctl. reflexivity. }
  unfold tryFinally, finally. rewrite Hsec.
  destruct (takeFirst playerId r c st b1) as [[[s|]|e] b2] eqn:E; try reflexivity.
  contradiction (takeFirst_completes _ _ _ _ _ _ E).
Qed.

Lemma ncw_prim (b : Board) f :
  listeners (f b) = listeners b -> jobs (f b) = jobs b ->
  noClaimedWait b -> noClaimedWait (f b).
Proof. unfold noClaimedWait. intros -> ->. exact id. Qed.

Ltac ncw_solve :=
  idtac;
  match goal with
  | H : noClaimedWait _ |- _ =>
      first [ exact H | exact (ncw_prim _ _ eq_refl eq_refl H) ]
  end.

Lemma ncw_notifyAll : keeps noClaimedWait notifyAll.
Proof.
  intros b [Hl Hj].
  set (J := fun b : Board =>
              listeners b = [] /\
              Forall (fun j => waitsClaiming (kont (fst j)) = false) (jobs b)).
  assert (Hloop : forall ls,
            Forall (fun l => waitsClaiming (kont l) = false) ls ->
            keeps J (forEach ls (fun l =>
              _ <- look EmptyString ;;
              s <- look (viewer l) ;;
              modify (fun b => set_jobs (jobs b ++ [(l, s)]) b)))).
  { intros ls Hls. induction Hls as [|l ls Hok _ IH]; cbn [forEach]; [apply keeps_ret|].
    apply keeps_bind; [|intros _; exact IH].
    apply keeps_bind; [apply keeps_look | intros ?].
    apply keeps_bind; [apply keeps_look | intros ?].
    apply keeps_modify. intros b1 [H1 H2]. split; [exact H1|].
    cbn. apply Forall_app. split; [exact H2|]. constructor; [exact Hok | constructor]. }
  specialize (Hloop (listeners b) Hl (set_listeners [] b)
                (conj eq_refl Hj)).
  unfold notifyAll, bind at 1, get at 1, bind at 1, modify at 1.
  destruct (forEach _ _ _) as [[u|e] b'];
    (destruct Hloop as [H1 H2]; split; [rewrite H1; constructor | exact H2]).
Qed.

Lemma ncw_watch playerId k :
  waitsClaiming k = false -> keeps noClaimedWait (watch playerId k).
Proof.
  intros Hk. unfold watch. apply keeps_bind; [|intros ?; apply keeps_checkRepFunctions].
  apply keeps_modify. intros b [Hl Hj]. split; [|exact Hj].
  cbn. apply Forall_app. split; [exact Hl|]. constructor; [exact Hk | constructor].
Qed.

Lemma ncw_suspendAt pt playerId r c st :
  pt <> AtClaimed -> keeps noClaimedWait (suspendAt pt playerId r c st).
Proof.
  intros Hpt. unfold suspendAt. apply keeps_bind; [|intros ?; apply keeps_ret].
  apply ncw_watch. destruct pt; try reflexivity. contradiction Hpt; reflexivity.
Qed.

Lemma ncw_resetState playerId : keeps noClaimedWait (resetState playerId).
Proof. unfold resetState, installState. keeps_with ncw_solve. Qed.

Lemma ncw_turnDown playerId p : keeps noClaimedWait (turnDown playerId p).
Proof. unfold turnDown, whenCell, writeCell. keeps_with ncw_solve. Qed.

Lemma ncw_cleanupPreviousMove playerId :
  keeps noClaimedWait (cleanupPreviousMove playerId).
Proof.
  unfold cleanupPreviousMove, whenCell, writeCell.
  repeat first [ keeps_step | apply ncw_turnDown | apply ncw_resetState
               | apply ncw_notifyAll | (intros ? ?; cbn; ncw_solve) ].
Qed.

Lemma ncw_takeFirst playerId r c st : keeps noClaimedWait (takeFirst playerId r c st).
Proof.
  unfold takeFirst, writeCell, writeState, installState.
  repeat first [ keeps_step | apply ncw_notifyAll | apply keeps_look
               | apply keeps_checkRepFunctions | (intros ? ?; cbn; ncw_solve) ].
Qed.

Lemma ncw_forBody playerId r c st : keeps noClaimedWait (forBody playerId r c st).
Proof.
  assert (H : keeps noClaimedWait (forBodyDirect playerId r c st)).
  { unfold forBodyDirect, tryClaimCell, releaseClaim.
    repeat first [ keeps_step | (apply ncw_suspendAt; discriminate)
                 | (apply keeps_finally; [apply ncw_takeFirst|])
                 | (intros ? ?; cbn; ncw_solve) ]. }
  intros b Hb. rewrite forBody_direct. exact (H b Hb).
Qed.

Lemma ncw_resumeFlip pt playerId r c st :
  keeps noClaimedWait (resumeFlip pt playerId r c st).
Proof.
  unfold resumeFlip, whileLoop, releaseClaim.
  repeat first [ keeps_step | (apply ncw_suspendAt; discriminate) | apply ncw_forBody
               | (intros ? ?; cbn; ncw_solve) ].
Qed.

Lemma ncw_releaseFirst st : keeps noClaimedWait (releaseFirst st).
Proof.
  unfold releaseFirst, whenCell, writeCell, writeState.
  repeat first [ keeps_step | apply ncw_notifyAll | (intros ? ?; cbn; ncw_solve) ].
Qed.

Lemma ncw_secondFlip playerId r c st f :
  keeps noClaimedWait (secondFlip playerId r c st f).
Proof.
  unfold secondFlip, writeCell, writeState, installState.
  repeat first [ keeps_step | apply ncw_notifyAll | apply ncw_releaseFirst
               | apply keeps_look | apply keeps_checkRepFunctions
               | (intros ? ?; cbn; ncw_solve) ].
Qed.

Lemma ncw_flip playerId r c : keeps noClaimedWait (flip playerId r c).
Proof.
  unfold flip, currentState, whileLoop, installState.
  repeat first [ keeps_step | apply ncw_resetState | apply ncw_cleanupPreviousMove
               | apply ncw_releaseFirst | apply ncw_secondFlip
               | (apply ncw_suspendAt; discriminate) | apply ncw_forBody
               | (intros ? ?; cbn; ncw_solve) ].
Qed.

Lemma ncw_mapLoop playerId f ps : forall memo,
  keeps noClaimedWait (mapLoop playerId f memo ps).
Proof.
  induction ps as [|p ps IH]; intros memo; cbn [mapLoop].
  - repeat first [ keeps_step | apply ncw_notifyAll
                 | apply keeps_look | apply keeps_checkRepFunctions ].
  - unfold substitute, writeCell.
    repeat first [ keeps_step | apply IH | (intros ? ?; cbn; ncw_solve) ].
Qed.

Lemma ncw_exec a w : noClaimedWait (brd w) -> noClaimedWait (brd (exec a w)).
Proof.
  intros H0.
  destruct a as [playerId|playerId r c|playerId f|playerId|i|i]; cbn [exec].
  - pose proof (keeps_look noClaimedWait playerId (brd w) H0) as H.
    cbn [brd]. destruct (look playerId (brd w)) as [[s|e] b']; exact H.
  - pose proof (ncw_flip playerId r c (brd w) H0) as H.
    cbn [brd]. destruct (flip playerId r c (brd w)) as [[s|e] b']; exact H.
  - pose proof (ncw_mapLoop playerId f (positions (board (brd w))) ∅ (brd w) H0) as H.
    unfold map, bind, get, afterMap.
    destruct (mapLoop playerId f ∅ _ (brd w)) as [[[s|t]|e] b']; exact H.
  - pose proof (ncw_watch playerId KWatch eq_refl (brd w) H0) as H.
    cbn [brd]. destruct (watch playerId KWatch (brd w)) as [[s|e] b']; exact H.
  - destruct (jobs (brd w) !! i) as [[l s]|] eqn:Hi; [|exact H0]. cbn [brd].
    assert (H1 : noClaimedWait (set_jobs (delete i (jobs (brd w))) (brd w))).
    { destruct H0 as [Hl Hj]. split; [exact Hl|]. cbn.
      apply (Forall_delete _ _ _ Hj). }
    destruct (kont l) as [|pt playerId r c st]; cbn [runKont]; [exact H1|].
    pose proof (ncw_resumeFlip pt playerId r c st _ H1) as H.
    unfold bind.
    destruct (resumeFlip pt playerId r c st _) as [[s'|e] b']; exact H.
  - destruct (maps w !! i) as [t|]; [|exact H0].
    assert (H : keeps noClaimedWait (resumeMap t)).
    { unfold resumeMap, substitute, writeCell. cbv zeta.
      repeat first [ keeps_step | apply ncw_mapLoop | (intros ? ?; cbn; ncw_solve) ]. }
    specialize (H (brd w) H0). unfold afterMap.
    destruct (resumeMap t (brd w)) as [[[s|t']|e] b']; exact H.
Qed.

(** X23. The tests that [flip] repeats inside [try], after it has
    acquired the claim, never fire: on every board one round of the
    [for (;;)] loop does exactly what it would do with the rule 1-B/1-C code
    alone inside [try].  So no [flip] ever waits while it holds a claim: in
    every reachable state of the system, no promise, pending or resolved,
    belongs to a [flip] suspended inside the [try] block. *)
Theorem claimed_wait_is_dead :
  (forall playerId r c state b,
     forBody playerId r c state b = forBodyDirect playerId r c state b) /\
  (forall w, reachable w -> noClaimedWait (brd w)).
Proof.
  split; [exact forBody_direct|].
  intros w Hw. induction Hw as [h wd cards b Hnew|a w Hw IH Ha].
  - cbn [brd].
    destruct (newBoard_result h wd cards b Hnew) as (_ & _ & _ & _ & _ & Hl & _ & Hj & _).
    unfold noClaimedWait. rewrite Hl, Hj. split; constructor.
  - apply ncw_exec, IH.
Qed.

(** [p2]'s flip waits for [p1]'s card: it waits at the [while] loop. *)
Lemma claimed_wait_is_dead_witness : noClaimedWait (brd waiting).
Proof.
  exact (proj2 claimed_wait_is_dead waiting waiting_reachable).
Defined.

(** ** What the calls that go through return *)

Lemma lookLines_shape b viewer :
  boardInv b ->
  lookLines b viewer !! 0%nat =
    Some (JS.ofNumber (height b) +:+ "x" +:+ JS.ofNumber (width b)) /\
  List.length (lookLines b viewer) = S (Z.to_nat (height b * width b)).
Proof.
  intros (Hh & Hw & Hlen & Hrows & _). split; [reflexivity|].
  assert (Hrows' : Forall (fun cells => List.length cells = Z.to_nat (width b))
                     (List.map (List.map (renderCell viewer)) (board b))).
  { rewrite Forall_map. eapply Forall_impl; [exact Hrows|].
    intros cells Hc. cbn in Hc |- *. rewrite length_map, <- Hc, Nat2Z.id. reflexivity. }
  unfold lookLines. cbn [List.length]. f_equal.
  rewrite (concat_length_uniform _ _ Hrows'), length_map.
  rewrite Z2Nat.inj_mul by lia. rewrite <- Hlen, Nat2Z.id. reflexivity.
Qed.

Lemma flip_result_shape w playerId r c o b' :
  reachable w -> flip playerId r c (brd w) = (o, b') ->
  boardInv b' /\ height b' = height (brd w) /\ width b' = width (brd w).
Proof.
  intros Hw Hrun. split.
  - pose proof (reachable_boardInv _ (reach_exec (CallFlip playerId r c) w Hw I)) as H.
    cbn [exec brd] in H. rewrite Hrun in H. exact H.
  - pose proof (shape_flip (brd w) playerId r c (brd w) (sameShape_refl _)) as H.
    rewrite Hrun in H. destruct o as [o|e]; destruct H as (H1 & H2 & _); auto.
Qed.

Lemma renderCell_uncontrolled viewer k :
  k <> EmptyString ->
  renderCell viewer (mkCell k true None) = JS.trim ("up" +:+ " " +:+ k).
Proof.
  intros Hk. unfold renderCell. cbn [card faceUp controller].
  rewrite (proj2 (isEmpty_false _) Hk). reflexivity.
Qed.

Lemma line_of_cell b viewer r c y :
  boardInv b -> cellAt (board b) r c = Some y ->
  lookLines b viewer !! S (Z.to_nat (r * width b + c)) = Some (renderCell viewer y).
Proof.
  intros Hb Hy. destruct (cellAt_bounds b r c y Hb Hy) as [Hr Hc].
  destruct (look_cell_line b viewer r c Hb Hr Hc) as (y' & Hy' & Hline).
  rewrite Hy in Hy'. injection Hy' as <-. exact Hline.
Qed.

(** X24. In a reachable state of the system, let the player hold a first
    card at [p] that is still on the board (its cell holds a card), and let
    the target of the flip hold a card and not be face up and controlled.
    Then the call returns without suspending.  The target is face up; both
    cells are controlled by the player if the two cards are equal and by
    nobody otherwise; both are face up; no other cell has changed; the state
    is HoldingPair(p, target, matched); the change is published.  The string
    returned is the lines of [look] for the player joined by newlines: the
    header "{height}x{width}", height*width lines, and on the lines of the
    two cards "my {card}" for the player when they match, "up {card}"
    otherwise and for every other viewer. *)
Theorem second_flip_resolves_pair (w : World) (playerId : string) (r c : Z)
    (p : Pos) (fx x : CardCell) :
  reachable w ->
  stateOf (brd w) playerId = Some (holdingFirst p) ->
  cellAt (board (brd w)) (row p) (col p) = Some fx ->
  card fx <> EmptyString ->
  cellAt (board (brd w)) r c = Some x ->
  card x <> EmptyString ->
  ~ (faceUp x = true /\ controller x <> None) ->
  let matched := String.eqb (card x) (card fx) in
  let ctl := if matched then Some playerId else None in
  let status := fun viewer : string =>
    if matched && String.eqb viewer playerId then "my"%string else "up"%string in
  let W := width (brd w) in
  exists b',
    flip playerId r c (brd w) =
      (Ret (Returned (JS.join JS.nl (lookLines b' playerId))), b') /\
    cellAt (board b') r c = Some (mkCell (card x) true ctl) /\
    cellAt (board b') (row p) (col p) = Some (mkCell (card fx) true ctl) /\
    sameCellsExcept [p; mkPos r c] (brd w) b' /\
    stateOf b' playerId = Some (holdingPair p (SecondAt (mkPos r c)) matched) /\
    published (brd w) b' /\
    lookLines b' playerId !! 0%nat =
      Some (JS.ofNumber (height (brd w)) +:+ "x" +:+ JS.ofNumber W) /\
    List.length (lookLines b' playerId) = S (Z.to_nat (height (brd w) * W)) /\
    forall viewer,
      lookLines b' viewer !! S (Z.to_nat (r * W + c)) =
        Some (JS.trim (status viewer +:+ " " +:+ card x)) /\
      lookLines b' viewer !! S (Z.to_nat (row p * W + col p)) =
        Some (JS.trim (status viewer +:+ " " +:+ card fx)).
Proof.
  intros Hw Hst Hfx Hfne Hx Hne Hfree matched ctl status W.
  destruct (second_flip_pair_run w playerId r c p fx x Hw Hst Hfx Hfne Hx Hne Hfree)
    as (b' & Hrun & Hc & Hp & Hsame & Hst' & Hpub).
  fold matched in Hc, Hp, Hst'. fold ctl in Hc, Hp.
  destruct (flip_result_shape w playerId r c _ b' Hw Hrun) as (Hb' & Hh & Hwd).
  exists b'. split; [exact Hrun|]. split; [exact Hc|]. split; [exact Hp|].
  split; [exact Hsame|]. split; [exact Hst'|]. split; [exact Hpub|].
  destruct (lookLines_shape b' playerId Hb') as [H0 Hlen].
  rewrite Hh, Hwd in H0, Hlen.
  split; [exact H0|]. split; [exact Hlen|].
  assert (Hrender : forall viewer k, k <> EmptyString ->
            renderCell viewer (mkCell k true ctl) = JS.trim (status viewer +:+ " " +:+ k)).
  { intros viewer k Hk. subst ctl status. cbv beta. destruct matched; cbn [andb].
    - apply renderCell_controlled, Hk.
    - apply renderCell_uncontrolled, Hk. }
  intros viewer. unfold W. rewrite <- Hwd. split.
  - rewrite (line_of_cell b' viewer r c _ Hb' Hc). f_equal. apply Hrender, Hne.
  - rewrite (line_of_cell b' viewer (row p) (col p) _ Hb' Hp). f_equal.
    apply Hrender, Hfne.
Qed.

(** [p1] holds the A at (0,0) and turns the A at (1,1): a match. *)
Lemma second_flip_resolves_pair_witness :
  exists b',
    flip "p1" 1 1 (brd afterFirst) =
      (Ret (Returned (JS.join JS.nl (lookLines b' "p1"))), b') /\
    cellAt (board b') 1 1 = Some (mkCell "A" true (Some "p1")) /\
    cellAt (board b') 0 0 = Some (mkCell "A" true (Some "p1")) /\
    stateOf b' "p1" = Some (holdingPair (mkPos 0 0) (SecondAt (mkPos 1 1)) true) /\
    lookLines b' "p1" !! 0%nat = Some "2x2"%string /\
    List.length (lookLines b' "p1") = 5%nat /\
    lookLines b' "p1" !! 4%nat = Some "my A"%string /\
    lookLines b' "p1" !! 1%nat = Some "my A"%string /\
    lookLines b' "p2" !! 4%nat = Some "up A"%string.
Proof.
  destruct (second_flip_resolves_pair afterFirst "p1" 1 1 (mkPos 0 0)
              (mkCell "A" true (Some "p1")) (mkCell "A" false None))
    as (b' & Hrun & Hc & Hp & _ & Hst & _ & H0 & Hlen & Hlines).
  - exact afterFirst_reachable.
  - vm_compute. reflexivity.
  - vm_compute. reflexivity.
  - discriminate.
  - vm_compute. reflexivity.
  - discriminate.
  - intros [H _]. discriminate H.
  - exists b'. split; [exact Hrun|]. split; [exact Hc|]. split; [exact Hp|].
    split; [exact Hst|]. split; [exact H0|]. split; [exact Hlen|].
    split; [exact (proj1 (Hlines "p1"%string))|].
    split; [exact (proj2 (Hlines "p1"%string))|].
    exact (proj1 (Hlines "p2"%string)).
Defined.

(** X25. In a reachable state of the system, a player with no card in hand
    who flips a cell that holds a card and is not controlled by another
    player gets an answer without suspending: the cell is face up and
    controlled by the player, no other cell has changed, the state is
    HoldingFirst(row, column), the change is published and the claim
    registry is empty.  The string returned is the lines of [look] for the
    player joined by newlines: the header "{height}x{width}", height*width
    lines, and on the line of the card "my {card}" for the player and
    "up {card}" for every other viewer. *)
Theorem first_flip_takes_card (w : World) (playerId : string) (r c : Z)
    (x : CardCell) :
  reachable w ->
  isIdle (brd w) playerId ->
  cellAt (board (brd w)) r c = Some x ->
  card x <> EmptyString ->
  (forall q, controller x = Some q -> q = playerId) ->
  let W := width (brd w) in
  exists b',
    flip playerId r c (brd w) =
      (Ret (Returned (JS.join JS.nl (lookLines b' playerId))), b') /\
    cellAt (board b') r c = Some (mkCell (card x) true (Some playerId)) /\
    sameCellsExcept [mkPos r c] (brd w) b' /\
    stateOf b' playerId = Some (holdingFirst (mkPos r c)) /\
    published (brd w) b' /\
    claimLocks b' = ∅ /\
    lookLines b' playerId !! 0%nat =
      Some (JS.ofNumber (height (brd w)) +:+ "x" +:+ JS.ofNumber W) /\
    List.length (lookLines b' playerId) = S (Z.to_nat (height (brd w) * W)) /\
    forall viewer,
      lookLines b' viewer !! S (Z.to_nat (r * W + c)) =
        Some (JS.trim ((if String.eqb viewer playerId then "my" else "up")
                       +:+ " " +:+ card x)).
Proof.
  intros Hw Hidle Hx Hne Hctl W.
  destruct (first_flip_card_run w playerId r c x Hw Hidle Hx Hne Hctl)
    as (b' & Hrun & Hc & Hsame & Hst & Hpub & Hcl).
  destruct (flip_result_shape w playerId r c _ b' Hw Hrun) as (Hb' & Hh & Hwd).
  exists b'. split; [exact Hrun|]. split; [exact Hc|]. split; [exact Hsame|].
  split; [exact Hst|]. split; [exact Hpub|]. split; [exact Hcl|].
  destruct (lookLines_shape b' playerId Hb') as [H0 Hlen].
  rewrite Hh, Hwd in H0, Hlen.
  split; [exact H0|]. split; [exact Hlen|].
  intros viewer. unfold W. rewrite <- Hwd.
  rewrite (line_of_cell b' viewer r c _ Hb' Hc). f_equal.
  apply renderCell_controlled, Hne.
Qed.

(** The first flip of the example game. *)
Lemma first_flip_takes_card_witness :
  exists b',
    flip "p1" 0 0 (brd start) =
      (Ret (Returned (JS.join JS.nl (lookLines b' "p1"))), b') /\
    cellAt (board b') 0 0 = Some (mkCell "A" true (Some "p1")) /\
    stateOf b' "p1" = Some (holdingFirst (mkPos 0 0)) /\
    lookLines b' "p1" !! 0%nat = Some "2x2"%string /\
    List.length (lookLines b' "p1") = 5%nat /\
    lookLines b' "p1" !! 1%nat = Some "my A"%string /\
    lookLines b' "p2" !! 1%nat = Some "up A"%string.
Proof.
  destruct (first_flip_takes_card start "p1" 0 0 (mkCell "A" false None))
    as (b' & Hrun & Hc & _ & Hst & _ & _ & H0 & Hlen & Hlines).
  - exact start_reachable.
  - left. reflexivity.
  - vm_compute. reflexivity.
  - discriminate.
  - intros q Hq. discriminate Hq.
  - exists b'. split; [exact Hrun|]. split; [exact Hc|]. split; [exact Hst|].
    split; [exact H0|]. split; [exact Hlen|].
    split; [exact (Hlines "p1"%string) | exact (Hlines "p2"%string)].
Defined.

(** X26. Run [map(playerId, f)] to its end with no other segment between
    its awaits, on a board that satisfies the invariant.  Every cell that
    held a card c holds f(c) and keeps its face-up flag and controller,
    cells without a card are untouched, so two cells with equal labels
    before have equal labels after; the dimensions, the player states and
    the claim registry are unchanged; f is called once on each label present
    and on nothing else.  If the call returns, it does so after a publish,
    and the string returned is the lines of [look] for the caller joined by
    newlines: the header, height*width lines, and on the line of each cell
    the rendering of the relabelled cell.  It does return when f never
    yields the empty label. *)
Theorem map_applies_f_per_label (b : Board) (playerId : string)
    (f : string -> string) (fuel : nat) :
  boardInv b ->
  (List.length (positions (board b)) <= fuel)%nat ->
  exists b' calls res,
    runMap fuel [] (map playerId f b) = (res, b', calls) /\
    (forall r c x, cellAt (board b) r c = Some x ->
       cellAt (board b') r c =
         Some (mkCell (if isEmpty (card x) then EmptyString else f (card x))
                      (faceUp x) (controller x))) /\
    (forall r c, cellAt (board b) r c = None -> cellAt (board b') r c = None) /\
    (forall r1 c1 r2 c2 x1 x2 y1 y2,
       cellAt (board b) r1 c1 = Some x1 -> cellAt (board b) r2 c2 = Some x2 ->
       cellAt (board b') r1 c1 = Some y1 -> cellAt (board b') r2 c2 = Some y2 ->
       card x1 = card x2 -> card y1 = card y2) /\
    sameShape b b' /\
    heap b' = heap b /\ playerStates b' = playerStates b /\
    claimLocks b' = claimLocks b /\
    NoDup calls /\
    (forall k, k ∈ calls <->
       k <> EmptyString /\ exists r c x, cellAt (board b) r c = Some x /\ card x = k) /\
    (forall out, res = Ret out ->
       out = MapDone (JS.join JS.nl (lookLines b' playerId)) /\
       published b b' /\ boardInv b' /\
       lookLines b' playerId !! 0%nat =
         Some (JS.ofNumber (height b) +:+ "x" +:+ JS.ofNumber (width b)) /\
       List.length (lookLines b' playerId) = S (Z.to_nat (height b * width b)) /\
       forall r c x, cellAt (board b) r c = Some x ->
         lookLines b' playerId !! S (Z.to_nat (r * width b + c)) =
           Some (renderCell playerId
                   (mkCell (if isEmpty (card x) then EmptyString else f (card x))
                           (faceUp x) (controller x)))) /\
    (legalMap f -> res = Ret (MapDone (JS.join JS.nl (lookLines b' playerId)))).
Proof.
  intros Hb Hfuel.
  destruct (map_run b playerId f fuel Hb Hfuel)
    as (b' & calls & res & Hrun & Hcells & Hshape & Hheap & Hps & Hcl & Hnd & Hcalls
        & Hret & Hlegal).
  assert (Hcell : forall r c x, cellAt (board b) r c = Some x ->
            cellAt (board b') r c =
              Some (mkCell (if isEmpty (card x) then EmptyString else f (card x))
                           (faceUp x) (controller x))).
  { intros r c x Hx. rewrite Hcells, Hx. cbn. f_equal.
    unfold relabel. destruct (isEmpty (card x)) eqn:He; [|reflexivity].
    apply isEmpty_true in He. destruct x as [k fu ctl]. cbn in He |- *.
    rewrite He. reflexivity. }
  exists b', calls, res.
  split; [exact Hrun|]. split; [exact Hcell|].
  split; [intros r c Hn; rewrite Hcells, Hn; reflexivity|].
  split.
  { intros r1 c1 r2 c2 x1 x2 y1 y2 Hx1 Hx2 Hy1 Hy2 E.
    rewrite (Hcell _ _ _ Hx1) in Hy1. rewrite (Hcell _ _ _ Hx2) in Hy2.
    injection Hy1 as <-. injection Hy2 as <-. cbn [card]. rewrite E. reflexivity. }
  split; [exact Hshape|]. split; [exact Hheap|]. split; [exact Hps|].
  split; [exact Hcl|]. split; [exact Hnd|]. split; [exact Hcalls|].
  split; [|exact Hlegal].
  intros out Hout. destruct (Hret out Hout) as (Ho & Hpub & Hb').
  destruct Hshape as (Hh & Hwd & _).
  destruct (lookLines_shape b' playerId Hb') as [H0 Hlen].
  rewrite Hh, Hwd in H0, Hlen.
  split; [exact Ho|]. split; [exact Hpub|]. split; [exact Hb'|].
  split; [exact H0|]. split; [exact Hlen|].
  intros r c x Hx. rewrite <- Hwd.
  exact (line_of_cell b' playerId r c _ Hb' (Hcell r c x Hx)).
Qed.

(** The example board relabelled by [mark]: four suspensions are enough. *)
Lemma map_applies_f_per_label_witness :
  exists b' calls,
    runMap 4 [] (map "p1" mark board2x2) =
      (Ret (MapDone (JS.join JS.nl (lookLines b' "p1"))), b', calls) /\
    cellAt (board b') 0 0 = Some (mkCell "A!" false None) /\
    cellAt (board b') 1 1 = Some (mkCell "A!" false None) /\
    NoDup calls /\
    lookLines b' "p1" !! 0%nat = Some "2x2"%string /\
    List.length (lookLines b' "p1") = 5%nat /\
    lookLines b' "p1" !! 2%nat = Some "up B!"%string.
Proof.
  destruct (map_applies_f_per_label board2x2 "p1" mark 4)
    as (b' & calls & res & Hrun & Hcells & _ & _ & _ & _ & _ & _ & Hnd & _ & Hret & Hlegal).
  - exact board2x2_inv.
  - vm_compute. lia.
  - exists b', calls. rewrite Hrun, (Hlegal mark_legal).
    destruct (Hret _ (Hlegal mark_legal)) as (_ & _ & _ & H0 & Hlen & Hlines).
    split; [reflexivity|].
    split; [exact (Hcells 0 0 (mkCell "A" false None) eq_refl)|].
    split; [exact (Hcells 1 1 (mkCell "A" false None) eq_refl)|].
    split; [exact Hnd|]. split; [exact H0|]. split; [exact Hlen|].
    exact (Hlines 0 1 (mkCell "B" false None) eq_refl).
Defined.
